(* ===== verification/_CoqProject ===== *)
-Q . S2P
Prelude.v
CStrings.v
Serialization.v
Utils.v
Commons.v
Protocol.v
PackageTypes.v
Sockets.v
Config.v
MasterState.v
Scheduler.v
Cleanup.v
Aging.v
Disconnection.v
WorkerManager.v
MasterInvariant.v
SchedulerSpec.v
CleanupSpec.v
AgingSpec.v
HandlersSpec.v
MasterMain.v
MasterStart.v
PriorityOrder.v
MasterProps.v
MasterServer.v
MasterFrames.v
MasterPrograms.v
FifoOrder.v
MasterServerSpec.v
MasterServerRuns.v
PageTable.v
MemoryManager.v
MemoryInvariant.v
MemorySpec.v
ClockSpec.v
PagingSpec.v
FlushSpec.v
AccessSpec.v
FilesSpec.v
Interpreter.v
WorkerConnections.v
InterpreterSpec.v
ConnectionsSpec.v
BlockDisk.v
ParseSpec.v
InstructionMemory.v
WorkerProps.v
WorkerThreads.v
ThreadsSpec.v
ThreadsMemory.v
ThreadsProps.v
StorageFs.v
StorageUtils.v
StorageOps.v
StorageServer.v
StorageFsSpec.v
StorageInvariant.v
StorageBlocks.v
StorageSteps.v
StorageSpec.v
StorageRefine.v
StorageFork.v
StorageCommit.v
StorageInit.v
StorageDisk.v
StorageProps.v
StorageWire.v
StorageMain.v
StorageClients.v
StorageLocks.v
StorageLocksSpec.v
QueryControl.v
QueryControlSpec.v
WorkerMain.v
WorkerMainSpec.v
StorageLookup.v
SystemSpec.v
Delivery.v
Resume.v
Failure.v
