(* ===== verification/Prelude.v ===== *)
(** * A verification library for the distributed query system

    The repository is a system of four kinds of processes that talk over TCP:

    - a _Query Control_ (src/query_control) submits a query, the path of a script
      and a priority, and prints what the query reads until it ends;
    - the _Master_ (src/master) queues the queries, hands each to an idle worker
      in FIFO or priority order, ages and preempts them, and forwards what the
      workers read;
    - the _workers_ (src/worker) interpret the instructions of a query over a
      demand-paged memory whose pages are blocks of the Storage;
    - the _Storage_ (src/storage) keeps the files, each under several tags, as
      blocks shared by hard links, with copy on write and deduplication.

    All of them use the packages of src/utils.  The library models these parts as
    executable definitions that follow the C functions one by one, and proves
    theorems about them.  Definitions keep the names of the C functions.

    ** The files

    _Shared_
    - Prelude.v: integers of 8, 16, 32 and 64 bits, bytes and their order in
      memory and on the wire, lemmas on lists, options and strings, tactics;
    - CStrings.v: [PATH_MAX], [atoi] and the decimal conversions of [snprintf];
    - Serialization.v, Protocol.v (utils/src/connection): buffers, packages, the
      image of a package on the wire, partial [recv]s, the operation codes;
    - Utils.v (utils/src/utils: utils.c, logger.c, hello.c): bounded string
      copies, the path of a log, the logger of a process, a greeting;
    - PackageTypes.v: the fields of a package by type, and reads by that type;
    - Sockets.v (server.c, client_socket.c): how a socket is opened, with the
      descriptors and the address lists of the process counted;
    - Config.v: the configuration files of so-commons as a class, and what the
      Master, the worker and the Query Control read from theirs;
    - Commons.v: the lists of the so-commons library, as a class of operations, a
      class of laws and a reference instance.

    _Master_ (master/src)
    - MasterState.v (init_master.h, the headers of the managers): the tables, the
      control blocks in a heap that the lists point into, the two mutexes, the
      messages sent, and the monad the handlers run in;
    - Scheduler.v (query_control_manager.c, scheduler.c), Aging.v (aging.c),
      Disconnection.v and Cleanup.v (disconnection_handler.c), WorkerManager.v
      (worker_manager.c), MasterMain.v (main.c, init_master.c): the handlers, from
      the lock to the unlock, and the runs of the process: sequences of packages,
      disconnections and aging rounds;
    - MasterStart.v (main.c, init_master.c): the start of the process, with its
      exits, and [destroy_master], which frees what the tables own;
    - MasterInvariant.v, SchedulerSpec.v, CleanupSpec.v, AgingSpec.v,
      HandlersSpec.v, PriorityOrder.v: the invariant of the tables, the effect of
      each handler on every branch, the order of the READY queue;
    - MasterProps.v: the theorems about the Master;
    - MasterServer.v (main.c): the loop over [accept] and the thread of each client,
      with the descriptors of the process; MasterFrames.v: what each handler leaves
      as it was; MasterServerSpec.v, MasterServerRuns.v: the server as a refinement of
      the runs of MasterMain.v, its descriptors, and runs of it;
    - MasterPrograms.v: what the Master knows of the script of a query, and the
      messages that start it;
    - FifoOrder.v: the order in which queries start without priorities.

    _Worker_ (worker/src)
    - PageTable.v (memory/page_table.c), MemoryManager.v
      (memory/memory_manager.c): page tables shared by pointer, frames, physical
      memory byte for byte, LRU and the modified clock, faults, write-back, flush;
    - MemoryInvariant.v, MemorySpec.v, ClockSpec.v, PagingSpec.v, AccessSpec.v,
      FilesSpec.v, FlushSpec.v: the invariant, and each operation as what it does
      to the contents of the files the memory stands for;
    - Interpreter.v (query_interpreter/), InterpreterSpec.v, ParseSpec.v: fetch,
      decode and execute, the effect of each instruction, parsing undoes printing;
    - InstructionMemory.v: the blocks that decoding allocates and
      [free_instruction] releases, by ownership;
    - WorkerConnections.v (connections/), ConnectionsSpec.v: handshakes and calls
      over a history of network events;
    - BlockDisk.v: a reference Storage that meets the contract the worker asks for;
    - WorkerProps.v: the theorems about the memory and the interpreter;
    - WorkerThreads.v (worker.c): the query executor and the listener of the
      Master as threads that share the state of the worker, one step for each
      stretch between two synchronisations;
    - ThreadsSpec.v, ThreadsMemory.v, ThreadsProps.v: the invariant of the two
      threads, their memory through a run, and the theorems about them;
    - WorkerMain.v, WorkerMainSpec.v (main.c, config/): the arguments, the
      handshakes, the memory, and the labels through which every failure leaves.

    _Storage_ (storage/src)
    - StorageFs.v: the tree of directories with hard links that the kernel keeps,
      the mutexes and the monad of the Storage; the configuration files, the bit
      arrays and the digests of so-commons are classes;
    - StorageUtils.v (utils/filesystem_utils.c, errors.h, globals/), StorageOps.v
      (operations/), StorageServer.v (server/, fresh_start/ and the handlers of
      operations/): every operation of the Storage and the loop that serves it;
    - StorageFsSpec.v, StorageInvariant.v, StorageBlocks.v, StorageSteps.v: the
      tree seen as contents of paths, the invariant, the steps on one block;
    - StorageSpec.v, StorageRefine.v, StorageFork.v, StorageCommit.v,
      StorageInit.v: what the Storage promises, a map from file:tag to blocks, and
      that each operation and the fresh start keep the promise;
    - StorageDisk.v: reference instances of the libraries on a small disk;
    - StorageProps.v, StorageWire.v: the theorems about the Storage, and a call of
      the worker through both processes;
    - StorageMain.v (main.c, config/): the start of the process, up to the socket
      it listens on, over a fresh or a surviving disk;
    - StorageClients.v (main.c, server/): the loop over [accept], the threads of the
      clients, their counter and their descriptors;
    - StorageLocks.v, StorageLocksSpec.v (globals/file_locks.c): the table of
      readers-writer locks of the files, under any number of threads;
    - StorageLookup.v: the physical block behind a logical one, by its inode.

    _Query Control_ (query_control/src)
    - QueryControl.v, QueryControlSpec.v (main.c): the arguments, the handshake,
      the submission and the loop over the packages of the Master.

    _Processes together_
    - SystemSpec.v: a network with the Storage at the other end of a
      socket, whose state is what the messages of the history have made of it; the
      calls of the worker over it meet the classes that the memory and the
      interpreter ask for;
    - Delivery.v: a reading from the worker, through the Master, to the Query Control;
    - Resume.v: a preempted query, from the worker that gives it back, through the
      Master, to the worker that goes on with it;
    - Failure.v: an error of the Storage, through the worker and the Master, to the
      Query Control.

    ** How the parts interact

    A component knows the next one through a class: the memory manager its Storage
    by [BlockStorage] and [BlockStorageSpec], the interpreter the Storage and the
    Master by [WorkerCalls], the connections what is beyond the sockets by
    [Network], the Master its sockets by [Kernel], and everything the so-commons
    library by [CommonsList], [CommonsString], [CommonsConfig], [CommonsBitarray]
    and [CommonsCrypto]; the threads of the worker know the socket of the Master by
    [MasterLink].  Each class of operations that has laws has a second class
    for them ([...Spec]) and an instance that meets them, with which the
    witnesses run.  [StorageWire.remote_call] closes the circle on the wire: the
    bytes that the worker's call sends are read by the handler of the Storage,
    which does what its specification says, and the bytes of its answer give the
    caller the right code.  [SystemSpec.system_storage] and
    [SystemSpec.system_calls] are the instances of the worker's classes over that
    Storage, so every theorem about the memory and the interpreter holds there.

    ** How the code is read

    A handler of the Master is a program from its first lock to its last unlock;
    since all the state is behind the two mutexes, a run of the process is a
    sequence of whole handlers.  The threads of its server, which are one for each
    connection, interleave by whole rounds: a package received and handled.  The worker's two threads and the file locks do
    interleave: they are step relations, and their invariants hold between any
    two steps.  The use of a freed block, a second lock by the
    owner and the unlock of a free mutex are undefined ([UB]), and the invariants
    say they do not happen.  The Storage is read the same way; there too the
    operations of a run follow each other.  A function with an out-parameter
    returns it; NULL is [None]; integers wrap at their width where the code can
    reach it.

    ** Fuel and bounds

    Loops that are not structural take fuel, and lemmas prove that the fuel given
    is enough: the doubling of a buffer ([expand_size], 64 steps), the loop over
    the pages of an access ([access_loop], one step a byte), the lines of a script
    ([fetch_loop], one step a byte), the digits of a number ([decimal]).
    The loop of the Query Control ([receive_loop]) takes one step for each package
    that is still to come, the loops of [destroy_master] one for each element.
    The [while (1)] of the modified clock can run for ever; [clock_search] gives the
    condition under which it ends within two rounds, [delete_starves_clock] a run
    in which it does not.

    ** What is proved

    - _Packages_: fields come back as they were written, through partial [recv]s;
      a failed operation leaves the buffer usable; capacities and overflow; what is
      read has the type it is read at, whoever sent it ([package_read_typed]); opening a
      socket leaks neither a descriptor nor an address list
      ([sockets_accounted]); a bounded copy stays in its block ([strlcpy_bounded]).
    - _Master_: [reachable_sound], every run keeps the tables consistent and frees
      every mutex; [ready_queue_sorted], every run keeps the queue in order;
      [first_come_first_started], and without priorities the queries start as they
      came ([refused_goes_last]: but for those whose message was not taken); each
      handler's effect on every branch; aging loses no interval; the server serves
      whatever comes, closes what it opened and forgets no peer that leaves
      ([server_serves], [descriptors_accounted], [nobody_forgotten], and where it does
      not, [unanswered_worker_stays]); a start that
      is given its file and a socket serves from the initial state, and what the
      others do ([master_starts]); and where the code falls short: [worker_lost],
      [lock_orders_cross].
    - _Worker_: [read_your_writes] through paging and eviction; the effect of
      every instruction; a flush reaches the Storage; the victims of both
      replacement policies; the parser and the script reader; an instruction
      gives back what decoding it allocated ([instruction_memory]); with both
      threads, the memory is used by one at a time, the queries are run as the
      Master may expect ([worker_keeps_promise], [threads_sound]), and where an
      ejection is lost ([ejection_lost]); a start that fails releases what it
      had acquired ([worker_starts_or_cleans], [worker_starts]).
    - _Storage_: [storage_refines], [reached_sound], [bitmap_exact],
      [write_isolated], [commit_invisible], from the fresh start on; and
      [full_disk_loses_block], [stale_index_corrupts], [truncated_base_aliases];
      the start ([storage_starts]); its clients ([clients_accounted]); the file locks exclude, have no undefined step
      and free what nobody uses ([writer_alone], [file_locks_defined],
      [file_locks_drain]).
    - _Processes together_: what one worker writes and flushes is in the file system
      of the Storage, and any other worker reads it ([handed_over]); what a READ reads
      is what the Query Control shows ([reading_shown]); a preempted query goes on
      at the line it was left at, on any worker ([resumed_where_left]); the reason of a
      failure reaches the Query Control ([failure_told]).
    - _Query Control_: a session prints what the Master sends, in order, and ends
      with the query ([query_control_session]).

    ** What is not modelled

    What is only logged, and the delays ([usleep]).  [malloc] and the creation of
    threads and mutexes are taken to succeed, except in the loops over [accept], in
    the logger, before an instruction is decoded and where the size of an allocation
    overflows, and the disk of the Storage not to fail.  Which blocks are freed is
    followed for the tables of the Master, the logger and the instructions, and
    descriptors for both servers; not for packages, buffers and the strings of the
    other functions.  The operations
    of the Storage follow each other in a run: the calls to the file locks, which
    would let them interleave, are commented out in the handlers, so the locks are
    verified on their own.  The tests and the unit-test framework are not part of
    the program. *)

From Stdlib Require Export ZArith Lia Strings.Byte.
From stdpp Require Export base tactics list gmap strings.

#[global] Open Scope Z_scope.
#[export] Set Warnings "-clear-no-such-hyp".

(** ** Machine-width integers *)

Definition u8 (z : Z) : Z := z mod 2 ^ 8.
Definition u16 (z : Z) : Z := z mod 2 ^ 16.
Definition u32 (z : Z) : Z := z mod 2 ^ 32.
Definition u64 (z : Z) : Z := z mod 2 ^ 64.

(** Conversion of an unsigned value to a signed type of [w] bits. *)
Definition to_signed (w z : Z) : Z :=
  let m := z mod 2 ^ w in if m <? 2 ^ (w - 1) then m else m - 2 ^ w.

Definition i8 (z : Z) : Z := to_signed 8 z.
Definition i32 (z : Z) : Z := to_signed 32 z.

Lemma to_signed_id w z :
  0 < w -> - 2 ^ (w - 1) <= z < 2 ^ (w - 1) -> to_signed w z = z.
Proof.
  intros Hw Hz. unfold to_signed.
  assert (E : 2 ^ w = 2 * 2 ^ (w - 1))
    by (rewrite <- Z.pow_succ_r by lia; f_equal; lia).
  destruct (decide (0 <= z)).
  - rewrite Z.mod_small by lia. destruct (Z.ltb_spec z (2 ^ (w - 1))); lia.
  - assert (Em : z mod 2 ^ w = z + 2 ^ w).
    { symmetry. apply Z.mod_unique with (-1); lia. }
    rewrite Em. destruct (Z.ltb_spec (z + 2 ^ w) (2 ^ (w - 1))); lia.
Qed.

Lemma to_signed_mod w z : 0 < w -> to_signed w (z mod 2 ^ w) = to_signed w z.
Proof. intros. unfold to_signed. rewrite Z.mod_mod by lia. done. Qed.

Lemma i32_range z : - 2 ^ 31 <= i32 z < 2 ^ 31.
Proof.
  unfold i32, to_signed. pose proof (Z.mod_pos_bound z (2 ^ 32) ltac:(lia)).
  change (2 ^ (32 - 1)) with (2 ^ 31). destruct (Z.ltb_spec (z mod 2 ^ 32) (2 ^ 31)); lia.
Qed.

Lemma u8_small z : 0 <= z < 2 ^ 8 -> u8 z = z.
Proof. apply Z.mod_small. Qed.
Lemma u16_small z : 0 <= z < 2 ^ 16 -> u16 z = z.
Proof. apply Z.mod_small. Qed.
Lemma u32_small z : 0 <= z < 2 ^ 32 -> u32 z = z.
Proof. apply Z.mod_small. Qed.
Lemma u64_small z : 0 <= z < 2 ^ 64 -> u64 z = z.
Proof. apply Z.mod_small. Qed.

Lemma u32_bound z : 0 <= u32 z < 2 ^ 32.
Proof. apply Z.mod_pos_bound. lia. Qed.
Lemma u64_bound z : 0 <= u64 z < 2 ^ 64.
Proof. apply Z.mod_pos_bound. lia. Qed.

(** ** Bytes and the memory image of integers *)

Definition Z_of_byte (b : byte) : Z := Z.of_N (Byte.to_N b).
Definition byte_of_Z (z : Z) : byte :=
  match Byte.of_N (Z.to_N (z mod 256)) with Some b => b | None => x00 end.

Lemma Z_of_byte_bound b : 0 <= Z_of_byte b < 256.
Proof. unfold Z_of_byte. pose proof (Byte.to_N_bounded b). lia. Qed.

Lemma byte_of_Z_of_byte b : byte_of_Z (Z_of_byte b) = b.
Proof.
  unfold byte_of_Z. rewrite Z.mod_small by apply Z_of_byte_bound.
  unfold Z_of_byte. by rewrite N2Z.id, Byte.of_to_N.
Qed.

Lemma Z_of_byte_of_Z z : Z_of_byte (byte_of_Z z) = z mod 256.
Proof.
  unfold byte_of_Z. pose proof (Z.mod_pos_bound z 256 ltac:(lia)) as Hz.
  destruct (Byte.of_N _) as [b|] eqn:Eb.
  - apply Byte.to_of_N in Eb. unfold Z_of_byte. rewrite Eb. lia.
  - apply Byte.of_N_None_iff in Eb. lia.
Qed.

(** The [n] bytes at which a little-endian host stores [z]. *)
Fixpoint le_bytes (n : nat) (z : Z) : list byte :=
  match n with
  | O => []
  | S n => byte_of_Z z :: le_bytes n (z / 256)
  end.

Fixpoint le_val (bs : list byte) : Z :=
  match bs with
  | [] => 0
  | b :: bs => Z_of_byte b + 256 * le_val bs
  end.

Lemma length_le_bytes n z : length (le_bytes n z) = n.
Proof. revert z. induction n; intros; simpl; auto. Qed.

Lemma le_val_le_bytes n z : le_val (le_bytes n z) = z mod 256 ^ Z.of_nat n.
Proof.
  revert z. induction n as [|n IH]; intros z.
  - by rewrite Z.mod_1_r.
  - cbn [le_bytes le_val]. rewrite Z_of_byte_of_Z, IH.
    rewrite Nat2Z.inj_succ, Z.pow_succ_r by lia.
    rewrite Z.rem_mul_r by lia. lia.
Qed.

Lemma le_bytes_le_val bs : le_bytes (length bs) (le_val bs) = bs.
Proof.
  induction bs as [|b bs IH]; [done|]. cbn [length le_val le_bytes].
  pose proof (Z_of_byte_bound b) as Hb. f_equal.
  - rewrite <- (byte_of_Z_of_byte b) at 2. unfold byte_of_Z. do 3 f_equal.
    rewrite (Z.mul_comm 256), Z.mod_add by lia. done.
  - rewrite (Z.mul_comm 256), Z.div_add by lia.
    rewrite (Z.div_small (Z_of_byte b)) by lia. done.
Qed.

Lemma le_val_bound bs : 0 <= le_val bs < 256 ^ Z.of_nat (length bs).
Proof.
  rewrite <- (le_bytes_le_val bs) at 1 2. rewrite le_val_le_bytes.
  apply Z.mod_pos_bound. apply Z.pow_pos_nonneg; lia.
Qed.

(** ** Byte arrays: [memcpy] at an offset *)

Definition mem_write (m : list byte) (off : nat) (bs : list byte) : list byte :=
  take off m ++ bs ++ drop (off + length bs) m.
Definition mem_read (m : list byte) (off len : nat) : list byte :=
  take len (drop off m).

Lemma length_mem_write m off bs :
  (off + length bs <= length m)%nat -> length (mem_write m off bs) = length m.
Proof.
  intros. unfold mem_write. rewrite !length_app, length_take, length_drop. lia.
Qed.

Lemma mem_read_write_eq m off bs :
  (off + length bs <= length m)%nat ->
  mem_read (mem_write m off bs) off (length bs) = bs.
Proof.
  intros. unfold mem_read, mem_write.
  rewrite drop_app_length' by (rewrite length_take; lia).
  by rewrite take_app_length.
Qed.

Lemma mem_read_write_before m off bs off' len :
  (off' + len <= off)%nat -> (off <= length m)%nat ->
  mem_read (mem_write m off bs) off' len = mem_read m off' len.
Proof.
  intros. unfold mem_read, mem_write.
  rewrite drop_app_le by (rewrite length_take; lia).
  rewrite take_app_le by (rewrite length_drop, length_take; lia).
  rewrite skipn_firstn_comm, take_take. f_equal. lia.
Qed.

Lemma mem_read_write_after m off bs off' len :
  (off + length bs <= off')%nat -> (off + length bs <= length m)%nat ->
  mem_read (mem_write m off bs) off' len = mem_read m off' len.
Proof.
  intros. unfold mem_read, mem_write.
  rewrite drop_app_ge by (rewrite length_take; lia).
  rewrite length_take, Nat.min_l by lia.
  rewrite drop_app_ge by lia. rewrite drop_drop. do 2 f_equal. lia.
Qed.

Lemma length_mem_read m off len :
  (off + len <= length m)%nat -> length (mem_read m off len) = len.
Proof. intros. unfold mem_read. rewrite length_take, length_drop. lia. Qed.

(** ** C code as a state monad with undefined behaviour

    [None] is undefined behaviour: a dereference of memory that is not
    allocated.  A defined run gives a result and the state it leaves. *)

Definition ST (S A : Type) : Type := S -> option (A * S).

#[global] Instance st_ret {S} : MRet (ST S) := fun A a s => Some (a, s).
#[global] Instance st_bind {S} : MBind (ST S) := fun A B k m s =>
  match m s with Some (a, s') => k a s' | None => None end.

Definition st_get {S} : ST S S := fun s => Some (s, s).
Definition st_gets {S A} (f : S -> A) : ST S A := fun s => Some (f s, s).
Definition st_put {S} (s : S) : ST S unit := fun _ => Some (tt, s).
Definition st_modify {S} (f : S -> S) : ST S unit := fun s => Some (tt, f s).
Definition st_ub {S A} : ST S A := fun _ => None.
Definition st_when {S} (b : bool) (m : ST S unit) : ST S unit :=
  if b then m else mret tt.

(** [wp m Q s]: started in [s], [m] is defined and ends in [Q]. *)
Definition wp {S A} (m : ST S A) (Q : A -> S -> Prop) (s : S) : Prop :=
  match m s with Some (a, s') => Q a s' | None => False end.

Section Wp.
Context {S A B : Type}.
Implicit Types (m : ST S A) (Q : A -> S -> Prop).

Lemma wp_ret (a : A) Q s : Q a s -> wp (mret a) Q s.
Proof. done. Qed.

Lemma wp_bind (k : A -> ST S B) m (R : B -> S -> Prop) s :
  wp m (fun a s' => wp (k a) R s') s -> wp (m ≫= k) R s.
Proof. unfold wp, mbind, st_bind. by destruct (m s) as [[]|]. Qed.

Lemma wp_mono m Q Q' s :
  wp m Q s -> (forall a s', Q a s' -> Q' a s') -> wp m Q' s.
Proof. unfold wp. destruct (m s) as [[]|]; naive_solver. Qed.

Lemma wp_run m Q s : wp m Q s -> exists a s', m s = Some (a, s') /\ Q a s'.
Proof. unfold wp. destruct (m s) as [[a s']|]; naive_solver. Qed.

Lemma run_bind (k : A -> ST S B) m s r :
  (m ≫= k) s = Some r -> exists a s1, m s = Some (a, s1) /\ k a s1 = Some r.
Proof. unfold mbind, st_bind. destruct (m s) as [[a s1]|]; [eauto|done]. Qed.

Lemma wp_intro m Q s a s' : m s = Some (a, s') -> Q a s' -> wp m Q s.
Proof. unfold wp. by intros ->. Qed.
End Wp.

Lemma wp_get {S} (Q : S -> S -> Prop) s : Q s s -> wp st_get Q s.
Proof. done. Qed.
Lemma wp_gets {S A} (f : S -> A) (Q : A -> S -> Prop) s : Q (f s) s -> wp (st_gets f) Q s.
Proof. done. Qed.
Lemma wp_modify {S} (f : S -> S) (Q : unit -> S -> Prop) s :
  Q tt (f s) -> wp (st_modify f) Q s.
Proof. done. Qed.

Create Rewrite HintDb c_ints.
#[export] Hint Rewrite u8_small u16_small u32_small u64_small using lia : c_ints.
#[export] Hint Rewrite length_le_bytes : c_ints.

(** Case analysis on the boolean comparisons of the code. *)
Ltac case_bools :=
  repeat match goal with
  | |- context [Z.ltb ?a ?b] => destruct (Z.ltb_spec a b)
  | |- context [Z.leb ?a ?b] => destruct (Z.leb_spec a b)
  | |- context [Z.eqb ?a ?b] => destruct (Z.eqb_spec a b)
  end.
