(* ===== verification/CStrings.v ===== *)
(** * Strings

    The length of a path, [atoi], and the decimal digits that [snprintf] prints, with and without the
    zeros of ["%04d"]. *)

From Stdlib Require Import Ascii.
From S2P Require Import Prelude.

(** The size of the arrays of characters that hold a path. *)
Definition PATH_MAX : Z := 4096.

(** ** Numbers: [atoi] *)

Definition is_space (c : Ascii.ascii) : bool :=
  let n := Z.of_nat (Ascii.nat_of_ascii c) in (n =? 32) || ((9 <=? n) && (n <=? 13)).

Definition digit (c : Ascii.ascii) : option Z :=
  let n := Z.of_nat (Ascii.nat_of_ascii c) in
  if (48 <=? n) && (n <=? 57) then Some (n - 48) else None.

(** The value of the digits that come first. *)
Fixpoint digits (s : string) (acc : Z) : Z :=
  match s with
  | String c s => match digit c with Some d => digits s (10 * acc + d) | None => acc end
  | EmptyString => acc
  end.

Fixpoint skip_spaces (s : string) : string :=
  match s with
  | String c s' => if is_space c then skip_spaces s' else s
  | EmptyString => s
  end.

(** [strtol] stops at the bounds of a [long]; [atoi] keeps its low 32 bits. *)
Definition atoi (s : string) : Z :=
  let value :=
    match skip_spaces s with
    | String "-"%char s => - digits s 0
    | String "+"%char s => digits s 0
    | s => digits s 0
    end in
  i32 (Z.max (- 2 ^ 63) (Z.min value (2 ^ 63 - 1))).

(** ** Printing *)

Definition digit_char (d : Z) : ascii := ascii_of_nat (48 + Z.to_nat d).

(** The digits of [n], most significant first. *)
Fixpoint decimal (fuel : nat) (n : Z) (acc : string) : string :=
  match fuel with
  | O => acc
  | S fuel =>
      let acc := String (digit_char (n mod 10)) acc in
      if n / 10 =? 0 then acc else decimal fuel (n / 10) acc
  end.

Definition print_number (n : Z) : string := decimal 10 n EmptyString.

Lemma digit_ind (P : Z -> Prop) : Forall P [0; 1; 2; 3; 4; 5; 6; 7; 8; 9] -> forall d, 0 <= d < 10 -> P d.
Proof.
  rewrite Forall_forall. intros H d Hd. apply H.
  assert (E : d = 0 \/ d = 1 \/ d = 2 \/ d = 3 \/ d = 4 \/ d = 5 \/ d = 6 \/ d = 7 \/ d = 8 \/ d = 9) by lia.
  rewrite !elem_of_cons. tauto.
Qed.

Lemma digit_digit_char d : 0 <= d < 10 -> digit (digit_char d) = Some d.
Proof.
  revert d. apply digit_ind. by repeat constructor.
Qed.

Lemma digits_decimal fuel n acc k :
  0 <= n < 10 ^ Z.of_nat fuel -> (0 < fuel)%nat ->
  exists m, digits (decimal fuel n acc) k = digits acc (k * 10 ^ m + n) /\ 0 < m.
Proof.
  revert n acc k. induction fuel as [|fuel IH]; intros n acc k Hn Hf; [lia|]. cbn [decimal].
  pose proof (Z.mod_pos_bound n 10). pose proof (Z.div_mod n 10). pose proof (Z.div_pos n 10).
  destruct (Z.eqb_spec (n / 10) 0) as [E|E].
  - exists 1. cbn [digits]. rewrite digit_digit_char by lia. split; [f_equal; lia|lia].
  - rewrite Nat2Z.inj_succ, Z.pow_succ_r in Hn by lia.
    destruct fuel as [|fuel]; [cbn in Hn; lia|].
    destruct (IH (n / 10) (String (digit_char (n mod 10)) acc) k) as (m & -> & Hm); [|lia|].
    { split; [lia|]. apply Z.div_lt_upper_bound; lia. }
    exists (m + 1). cbn [digits]. rewrite digit_digit_char, Z.pow_add_r by lia. split; [f_equal; lia|lia].
Qed.

Lemma decimal_head fuel n acc :
  (0 < fuel)%nat -> 0 <= n -> exists d s, 0 <= d < 10 /\ decimal fuel n acc = String (digit_char d) s.
Proof.
  revert n acc. induction fuel as [|fuel IH]; intros n acc Hf Hn; [lia|]. cbn [decimal].
  pose proof (Z.mod_pos_bound n 10 eq_refl). destruct (n / 10 =? 0); [eauto|].
  destruct fuel as [|fuel]; [cbn; eauto|]. apply IH; [lia|]. apply Z.div_pos; lia.
Qed.

Lemma atoi_digit d s : 0 <= d < 10 -> atoi (String (digit_char d) s) =
  i32 (Z.max (- 2 ^ 63) (Z.min (digits (String (digit_char d) s) 0) (2 ^ 63 - 1))).
Proof.
  revert d. apply digit_ind. by repeat constructor.
Qed.

Lemma atoi_print_number n : 0 <= n < 2 ^ 31 -> atoi (print_number n) = n.
Proof.
  intros Hn. unfold print_number. destruct (decimal_head 10 n EmptyString) as (d & s & Hd & E); [lia|lia|].
  rewrite E, atoi_digit, <- E by done. destruct (digits_decimal 10 n EmptyString 0) as (m & -> & _); [lia|lia|].
  cbn [digits]. rewrite Z.mul_0_l, Z.add_0_l, Z.min_l, Z.max_r by lia. apply to_signed_id; lia.
Qed.

(** ["%d"] of an int. *)
Definition print_int (n : Z) : string :=
  if n <? 0 then String "-" (print_number (- n)) else print_number n.

Lemma atoi_minus d s : 0 <= d < 10 -> atoi (String "-" (String (digit_char d) s)) =
  i32 (Z.max (- 2 ^ 63) (Z.min (- digits (String (digit_char d) s) 0) (2 ^ 63 - 1))).
Proof. revert d. apply digit_ind. by repeat constructor. Qed.

Lemma digits_print_number n : 0 <= n < 2 ^ 33 -> digits (print_number n) 0 = n.
Proof.
  intros Hn. unfold print_number. destruct (digits_decimal 10 n EmptyString 0) as (m & -> & _); [lia|lia|].
  cbn [digits]. lia.
Qed.

Lemma atoi_print_int n : - 2 ^ 31 <= n < 2 ^ 31 -> atoi (print_int n) = n.
Proof.
  intros Hn. unfold print_int. destruct (Z.ltb_spec n 0); [|apply atoi_print_number; lia].
  destruct (decimal_head 10 (- n) EmptyString) as (d & s & Hd & E); [lia|lia|].
  unfold print_number. rewrite E, atoi_minus, <- E by done. fold (print_number (- n)).
  rewrite digits_print_number, Z.min_l, Z.max_r by lia. rewrite Z.opp_involutive. apply to_signed_id; lia.
Qed.

(** Zeros in front of [s], up to [width] characters. *)
Fixpoint zero_pad (missing : nat) (s : string) : string :=
  match missing with O => s | S k => String "0" (zero_pad k s) end.

(** ["%04d"] *)
Definition print_04 (n : Z) : string :=
  if n <? 0 then String "-" (zero_pad (3 - String.length (print_number (- n))) (print_number (- n)))
  else zero_pad (4 - String.length (print_number n)) (print_number n).

Lemma digits_zero_pad k s : digits (zero_pad k s) 0 = digits s 0.
Proof. induction k as [|k IH]; [done|]. exact IH. Qed.

Lemma print_04_head n : 0 <= n -> exists d s, 0 <= d < 10 /\ print_04 n = String (digit_char d) s.
Proof.
  intros Hn. unfold print_04. destruct (Z.ltb_spec n 0); [lia|].
  destruct (4 - _)%nat as [|k]; cbn [zero_pad]; [apply decimal_head; lia|].
  exists 0, (zero_pad k (print_number n)). by split; [lia|].
Qed.

Lemma digits_print_04 n : 0 <= n < 2 ^ 33 -> digits (print_04 n) 0 = n.
Proof.
  intros Hn. unfold print_04. destruct (Z.ltb_spec n 0); [lia|].
  rewrite digits_zero_pad. by apply digits_print_number.
Qed.

Lemma atoi_print_04 n : 0 <= n < 2 ^ 31 -> atoi (print_04 n) = n.
Proof.
  intros Hn. destruct (print_04_head n) as (d & s & Hd & E); [lia|].
  rewrite E, atoi_digit, <- E, digits_print_04, Z.min_l, Z.max_r by lia. apply to_signed_id; lia.
Qed.

(** ["%d"] of [sscanf]: spaces, a sign, at least one digit. *)
Definition scan_int (s : string) : option Z :=
  let ok :=
    match skip_spaces s with
    | String c s' =>
        match digit c with
        | Some _ => true
        | None =>
            (Ascii.eqb c "-" || Ascii.eqb c "+") &&
            (match s' with String d _ => match digit d with Some _ => true | None => false end | EmptyString => false end)
        end
    | EmptyString => false
    end in
  if ok then Some (atoi s) else None.

Lemma skip_digit d s : 0 <= d < 10 -> skip_spaces (String (digit_char d) s) = String (digit_char d) s.
Proof. revert d. apply digit_ind. by repeat constructor. Qed.

Lemma scan_print_04 n : 0 <= n < 2 ^ 31 -> scan_int (print_04 n) = Some n.
Proof.
  intros Hn. unfold scan_int. destruct (print_04_head n) as (d & s & Hd & E); [lia|].
  rewrite E, skip_digit, digit_digit_char, <- E by done. f_equal. by apply atoi_print_04.
Qed.

(** ** [strcasecmp] *)

Definition lower (c : ascii) : ascii :=
  let n := nat_of_ascii c in if ((65 <=? n) && (n <=? 90))%nat then ascii_of_nat (n + 32) else c.

Fixpoint lower_string (s : string) : string :=
  match s with String c s => String (lower c) (lower_string s) | EmptyString => EmptyString end.

Definition strcasecmp_equal (a b : string) : bool := String.eqb (lower_string a) (lower_string b).
