(* ===== verification/Serialization.v ===== *)
(** * Buffers and packages (utils/src/connection/serialization.c)

    The buffer that fields are written to and read from, the package around it,
    and its image on the wire.  A function that returns [bool] and fills an
    out-parameter is a function that returns [option]; every function returns
    the buffer as it leaves it, in the failing branches too. *)

From S2P Require Import Prelude.

(** ** Limits *)

Definition MAX_STRING_LENGTH : Z := 1024 * 1024.
Definition MAX_DATA_SIZE : Z := 10 * 1024 * 1024.
Definition MAX_BUFFER_SIZE : Z := 100 * 1024 * 1024.

(** ** Data *)

Record t_buffer := MkBuffer {
  size : Z;
  stream : list byte;
  offset : Z;
  is_dynamic : bool
}.

Record t_package := MkPackage {
  operation_code : Z;
  buffer : t_buffer
}.

Definition set_offset (b : t_buffer) (o : Z) : t_buffer :=
  MkBuffer (size b) (stream b) o (is_dynamic b).
Definition set_buffer (p : t_package) (b : t_buffer) : t_package :=
  MkPackage (operation_code p) b.

(** ** Byte order: the host is little-endian *)

Definition htons (v : Z) : Z := le_val (rev (le_bytes 2 v)).
Definition ntohs (v : Z) : Z := le_val (rev (le_bytes 2 v)).
Definition htonl (v : Z) : Z := le_val (rev (le_bytes 4 v)).
Definition ntohl (v : Z) : Z := le_val (rev (le_bytes 4 v)).

(** ** Buffer life cycle *)

Definition zeros (n : Z) : list byte := replicate (Z.to_nat n) x00.

Definition buffer_create (sz : Z) : option t_buffer :=
  if sz =? 0 then None else Some (MkBuffer sz (zeros sz) 0 false).

Definition buffer_create_dynamic : t_buffer := MkBuffer 256 (zeros 256) 0 true.

(** The loop [while (new_size < need) new_size *= 2] on 64-bit [size_t]. *)
Fixpoint expand_size (fuel : nat) (new_size need : Z) : option Z :=
  if new_size <? need then
    match fuel with
    | O => None
    | S fuel => expand_size fuel (u64 (new_size * 2)) need
    end
  else Some new_size.

Definition buffer_expand (b : t_buffer) (required_size : Z) : bool * t_buffer :=
  if negb (is_dynamic b) then (false, b) else
  match expand_size 64 (size b) (u64 (offset b + required_size)) with
  | None => (false, b)
  | Some new_size =>
      if MAX_BUFFER_SIZE <? new_size then (false, b) else
      (true, MkBuffer new_size
               (stream b ++ zeros (u64 (new_size - size b)))
               (offset b) (is_dynamic b))
  end.

Definition buffer_reset_offset (b : t_buffer) : t_buffer := set_offset b 0.

Definition buffer_has_capacity (b : t_buffer) (required_size : Z) : bool * t_buffer :=
  if is_dynamic b && (u64 (size b - offset b) <? required_size)
  then buffer_expand b required_size
  else (required_size <=? u64 (size b - offset b), b).

Definition buffer_check_capacity (b : t_buffer) (required_size : Z) : bool :=
  required_size <=? u64 (size b - offset b).

(** [memcpy] of [bs] at the offset, which moves past it. *)
Definition put_bytes (b : t_buffer) (bs : list byte) : t_buffer :=
  MkBuffer (size b) (mem_write (stream b) (Z.to_nat (offset b)) bs)
           (u64 (offset b + Z.of_nat (length bs))) (is_dynamic b).

(** ** Writing *)

Definition buffer_write_uint8 (b : t_buffer) (value : Z) : bool * t_buffer :=
  let '(ok, b) := buffer_has_capacity b 1 in
  if negb ok then (false, b) else (true, put_bytes b (le_bytes 1 value)).

Definition buffer_write_int8 (b : t_buffer) (value : Z) : bool * t_buffer :=
  let '(ok, b) := buffer_has_capacity b 1 in
  if negb ok then (false, b) else (true, put_bytes b (le_bytes 1 value)).

Definition buffer_write_uint16 (b : t_buffer) (value : Z) : bool * t_buffer :=
  let '(ok, b) := buffer_has_capacity b 2 in
  if negb ok then (false, b) else
  let net_value := htons value in
  (true, put_bytes b (le_bytes 2 net_value)).

Definition buffer_write_uint32 (b : t_buffer) (value : Z) : bool * t_buffer :=
  let '(ok, b) := buffer_has_capacity b 4 in
  if negb ok then (false, b) else
  let net_value := htonl value in
  (true, put_bytes b (le_bytes 4 net_value)).

(** A C string is a [string] without the NUL character. *)
Definition string_bytes (s : string) : list byte := String.list_byte_of_string s.
Definition strlen (s : string) : Z := Z.of_nat (String.length s).

Definition buffer_write_string (b : t_buffer) (value : string) : bool * t_buffer :=
  let str_length := u32 (strlen value) in
  let total_size := 4 + str_length in
  let '(ok, b) := buffer_has_capacity b total_size in
  if negb ok then (false, b) else
  let '(ok, b) := buffer_write_uint32 b str_length in
  if negb ok then (false, b) else
  (true, put_bytes b (take (Z.to_nat str_length) (string_bytes value))).

Definition buffer_write_data (b : t_buffer) (data : list byte) : bool * t_buffer :=
  let data_size := Z.of_nat (length data) in
  if data_size =? 0 then (false, b) else
  let total_size := 4 + data_size in
  let '(ok, b) := buffer_has_capacity b total_size in
  if negb ok then (false, b) else
  let '(ok, b) := buffer_write_uint32 b (u32 data_size) in
  if negb ok then (false, b) else
  (true, put_bytes b data).

(** ** Reading *)

(** The bytes at the offset, which moves past them. *)
Definition get_bytes (b : t_buffer) (n : Z) : list byte * t_buffer :=
  (mem_read (stream b) (Z.to_nat (offset b)) (Z.to_nat n),
   set_offset b (u64 (offset b + n))).

Definition buffer_read_uint8 (b : t_buffer) : option Z * t_buffer :=
  if negb (buffer_check_capacity b 1) then (None, b) else
  let '(bs, b) := get_bytes b 1 in (Some (le_val bs), b).

Definition buffer_read_int8 (b : t_buffer) : option Z * t_buffer :=
  if negb (buffer_check_capacity b 1) then (None, b) else
  let '(bs, b) := get_bytes b 1 in (Some (i8 (le_val bs)), b).

Definition buffer_read_uint16 (b : t_buffer) : option Z * t_buffer :=
  if negb (buffer_check_capacity b 2) then (None, b) else
  let '(bs, b) := get_bytes b 2 in (Some (ntohs (le_val bs)), b).

Definition buffer_read_uint32 (b : t_buffer) : option Z * t_buffer :=
  if negb (buffer_check_capacity b 4) then (None, b) else
  let '(bs, b) := get_bytes b 4 in (Some (ntohl (le_val bs)), b).

(** The C string a caller sees in a NUL-terminated block of bytes. *)
Fixpoint c_string (bs : list byte) : string :=
  match bs with
  | [] => EmptyString
  | x00 :: _ => EmptyString
  | b :: bs => String (Ascii.ascii_of_byte b) (c_string bs)
  end.

Definition buffer_read_string (b : t_buffer) : option string * t_buffer :=
  match buffer_read_uint32 b with
  | (None, b) => (None, b)
  | (Some len, b) =>
      if (MAX_STRING_LENGTH <? len) || negb (buffer_check_capacity b len)
      then (None, set_offset b (u64 (offset b - 4)))
      else let '(bs, b) := get_bytes b len in (Some (c_string bs), b)
  end.

Definition buffer_read_data (b : t_buffer) : option (list byte) * t_buffer :=
  match buffer_read_uint32 b with
  | (None, b) => (None, b)
  | (Some sz, b) =>
      if MAX_DATA_SIZE <? sz then (None, set_offset b (u64 (offset b - 4))) else
      let '(ok, b) := buffer_has_capacity b sz in
      if negb ok then (None, set_offset b (u64 (offset b - 4)))
      else let '(bs, b) := get_bytes b sz in (Some bs, b)
  end.

Definition buffer_remaining_capacity (b : t_buffer) : Z := u64 (size b - offset b).
Definition buffer_used_size (b : t_buffer) : Z := offset b.

(** ** Packages *)

Definition package_create (op : Z) (b : option t_buffer) : option t_package :=
  match b with None => None | Some b => Some (MkPackage (u8 op) b) end.

Definition package_create_empty (op : Z) : t_package :=
  MkPackage (u8 op) buffer_create_dynamic.

(** A wrapper of the package API around a buffer operation. *)
Definition on_buffer {A} (f : t_buffer -> A * t_buffer) (p : t_package) : A * t_package :=
  let '(r, b) := f (buffer p) in (r, set_buffer p b).

Definition package_add_uint8 (p : t_package) (v : Z) :=
  on_buffer (fun b => buffer_write_uint8 b v) p.
Definition package_add_int8 (p : t_package) (v : Z) :=
  on_buffer (fun b => buffer_write_int8 b v) p.
Definition package_add_uint16 (p : t_package) (v : Z) :=
  on_buffer (fun b => buffer_write_uint16 b v) p.
Definition package_add_uint32 (p : t_package) (v : Z) :=
  on_buffer (fun b => buffer_write_uint32 b v) p.
Definition package_add_string (p : t_package) (v : string) :=
  on_buffer (fun b => buffer_write_string b v) p.
Definition package_add_data (p : t_package) (data : list byte) :=
  if Z.of_nat (length data) =? 0 then (false, p)
  else on_buffer (fun b => buffer_write_data b data) p.

Definition package_read_uint8 (p : t_package) := on_buffer buffer_read_uint8 p.
Definition package_read_int8 (p : t_package) := on_buffer buffer_read_int8 p.
Definition package_read_uint16 (p : t_package) := on_buffer buffer_read_uint16 p.
Definition package_read_uint32 (p : t_package) := on_buffer buffer_read_uint32 p.
Definition package_read_string (p : t_package) := on_buffer buffer_read_string p.
Definition package_read_data (p : t_package) := on_buffer buffer_read_data p.

Definition package_reset_read_offset (p : t_package) : t_package :=
  set_buffer p (buffer_reset_offset (buffer p)).
Definition package_get_data_size (p : t_package) : Z := buffer_used_size (buffer p).

Definition calculate_string_size (s : option string) : Z :=
  u64 (4 + match s with Some s => strlen s | None => 0 end).
Definition calculate_data_size (data_length : Z) : Z := u64 (4 + data_length).
Definition calculate_total_size (sizes : list Z) : Z :=
  fold_left (fun total sz => u64 (total + sz)) sizes 0.

(** ** The wire *)

(** The block handed to [send]. *)
Definition serialized_package (p : t_package) : list byte :=
  let buffer_size := u32 (size (buffer p)) in
  let net_buffer_size := htonl buffer_size in
  le_bytes 1 (operation_code p) ++ le_bytes 4 net_buffer_size ++
  take (Z.to_nat buffer_size) (stream (buffer p)).

(** [bytes_sent] is what [send] returns; the peer gets that many bytes. *)
Definition package_send (p : t_package) (socket bytes_sent : Z) : Z * list byte :=
  if socket <? 0 then (-1, []) else
  let block := serialized_package p in
  let total_size := u32 (1 + 4 + u32 (size (buffer p))) in
  (if bytes_sent =? total_size then 0 else -1, take (Z.to_nat bytes_sent) block).

(** The receiving side of a socket: the bytes in flight and what the following
    calls of [recv] return when they are asked for more than that. *)
Record t_socket := MkSocket { inflight : list byte; grants : list Z }.

Inductive recv_res :=
| Received (bs : list byte) (s : t_socket)
| RecvFailed (s : t_socket)
| RecvBlocked.

(** The loop of [recv_all]: one grant per call of [recv], capped by the
    request and by what is in flight. *)
Fixpoint recv_loop (gs : list Z) (bytes acc : list byte) (missing : nat) : recv_res :=
  match missing with
  | O => Received acc (MkSocket bytes gs)
  | _ =>
      match gs with
      | [] => RecvBlocked
      | g :: gs =>
          let n := Nat.min (Z.to_nat g) (Nat.min missing (length bytes)) in
          if (g <=? 0) || (Z.of_nat n <=? 0) then RecvFailed (MkSocket bytes gs)
          else recv_loop gs (drop n bytes) (acc ++ take n bytes) (missing - n)
      end
  end.

Definition recv_all (s : t_socket) (len : Z) : recv_res :=
  recv_loop (grants s) (inflight s) [] (Z.to_nat len).

Inductive receive_res :=
| Package (p : t_package) (s : t_socket)
| NoPackage (s : t_socket)
| Blocked.

Definition package_receive (socket : Z) (s : t_socket) : receive_res :=
  if socket <? 0 then NoPackage s else
  match recv_all s 1 with
  | RecvBlocked => Blocked
  | RecvFailed s => NoPackage s
  | Received op s =>
      match recv_all s 4 with
      | RecvBlocked => Blocked
      | RecvFailed s => NoPackage s
      | Received net s =>
          let buffer_size := ntohl (le_val net) in
          if MAX_BUFFER_SIZE <? buffer_size then NoPackage s else
          match buffer_create buffer_size with
          | None => NoPackage s
          | Some b =>
              match recv_all s buffer_size with
              | RecvBlocked => Blocked
              | RecvFailed s => NoPackage s
              | Received data s =>
                  Package (MkPackage (le_val op)
                             (MkBuffer (size b) (mem_write (stream b) 0 data)
                                       (offset b) (is_dynamic b))) s
              end
          end
      end
  end.

(** ** Byte order *)

Lemma be_image n v : le_bytes n (le_val (rev (le_bytes n v))) = rev (le_bytes n v).
Proof.
  rewrite <- (le_bytes_le_val (rev (le_bytes n v))) at 2.
  by rewrite length_rev, length_le_bytes.
Qed.

Lemma be_value n v :
  le_val (rev (le_bytes n (le_val (rev (le_bytes n v))))) = v mod 256 ^ Z.of_nat n.
Proof. by rewrite be_image, rev_involutive, le_val_le_bytes. Qed.

Lemma ntohl_htonl v : ntohl (htonl v) = u32 v.
Proof. unfold ntohl, htonl. by rewrite be_value. Qed.
Lemma ntohs_htons v : ntohs (htons v) = u16 v.
Proof. unfold ntohs, htons. by rewrite be_value. Qed.

Lemma le_bytes_htonl v : le_bytes 4 (htonl v) = rev (le_bytes 4 v).
Proof. apply be_image. Qed.
Lemma le_bytes_htons v : le_bytes 2 (htons v) = rev (le_bytes 2 v).
Proof. apply be_image. Qed.

Lemma ntohl_bound v : 0 <= ntohl v < 2 ^ 32.
Proof.
  unfold ntohl. pose proof (le_val_bound (rev (le_bytes 4 v))) as H.
  rewrite length_rev, length_le_bytes in H. done.
Qed.

Lemma ntohl_be v : 0 <= v < 2 ^ 32 -> ntohl (le_val (rev (le_bytes 4 v))) = v.
Proof. intros. fold (htonl v). rewrite ntohl_htonl. by apply u32_small. Qed.

(** ** Well-formed buffers *)

(** The allocated block has [size] bytes and the cursor is inside it. *)
Record buffer_wf (b : t_buffer) : Prop := {
  wf_len : Z.of_nat (length (stream b)) = size b;
  wf_off : 0 <= offset b <= size b;
  wf_size : 0 < size b <= MAX_BUFFER_SIZE
}.

(** A dynamic buffer holds 256 bytes doubled some number of times. *)
Definition dynamic_wf (b : t_buffer) : Prop :=
  is_dynamic b = true /\ exists k, 0 <= k /\ size b = 256 * 2 ^ k.

Lemma length_zeros n : 0 <= n -> Z.of_nat (length (zeros n)) = n.
Proof. intros. unfold zeros. rewrite length_replicate. lia. Qed.

Lemma buffer_create_dynamic_wf :
  buffer_wf buffer_create_dynamic /\ dynamic_wf buffer_create_dynamic.
Proof.
  split; [|by (split; [|exists 0])].
  split; cbn [size offset stream buffer_create_dynamic]; unfold MAX_BUFFER_SIZE; try lia.
  by rewrite length_zeros by lia.
Qed.

Lemma expand_size_spec fuel s need :
  0 < s -> need <= 2 ^ 63 -> need <= s * 2 ^ Z.of_nat fuel ->
  exists j, 0 <= j /\ expand_size fuel s need = Some (s * 2 ^ j) /\ need <= s * 2 ^ j /\
            (j = 0 \/ s * 2 ^ j < 2 * need).
Proof.
  revert s. induction fuel as [|fuel IH]; intros s Hs Hn Hf; simpl;
    destruct (Z.ltb_spec s need).
  - exfalso. change (Z.of_nat 0) with 0 in Hf. lia.
  - exists 0. rewrite Z.mul_1_r. eauto with lia.
  - rewrite u64_small by lia.
    destruct (IH (s * 2)) as (j & Hj & -> & Hge & Hlt).
    + lia.
    + lia.
    + rewrite Nat2Z.inj_succ, Z.pow_succ_r in Hf by lia. lia.
    + exists (j + 1). rewrite Z.pow_add_r by lia. split; [lia|]. split; [f_equal; lia|].
      split; [lia|]. right. destruct Hlt as [->|]; lia.
  - exists 0. rewrite Z.mul_1_r. eauto with lia.
Qed.

(** A power of two below [2 ^ 27] is at most [2 ^ 26]. *)
Lemma pow2_gap a k : 0 <= k -> 0 <= a -> 2 ^ k < 2 ^ (a + 1) -> 2 ^ k <= 2 ^ a.
Proof.
  intros Hk Ha H. apply Z.pow_lt_mono_r_iff in H; [|lia|lia].
  apply Z.pow_le_mono_r; lia.
Qed.

Lemma has_capacity_dynamic b n :
  buffer_wf b -> dynamic_wf b -> 0 <= n -> offset b + n <= 2 ^ 26 ->
  exists b', buffer_has_capacity b n = (true, b') /\ buffer_wf b' /\ dynamic_wf b' /\
             offset b' = offset b /\ offset b + n <= size b' /\
             take (Z.to_nat (offset b)) (stream b') = take (Z.to_nat (offset b)) (stream b).
Proof.
  intros [Hlen Hoff Hsz] [Hdyn (k & Hk & Hpow)] Hn Hcap. unfold MAX_BUFFER_SIZE in Hsz.
  unfold buffer_has_capacity. rewrite Hdyn, u64_small by lia. simpl.
  destruct (Z.ltb_spec (size b - offset b) n) as [Hlt|Hge].
  2:{ exists b. destruct (Z.leb_spec n (size b - offset b)); [|lia].
      repeat split; eauto; unfold MAX_BUFFER_SIZE; lia. }
  unfold buffer_expand. rewrite Hdyn. simpl negb. cbv iota.
  rewrite (u64_small (offset b + n)) by lia.
  destruct (expand_size_spec 64 (size b) (offset b + n)) as (j & Hj & -> & Hge & Hub).
  { lia. } { lia. } { change (Z.of_nat 64) with 64. lia. }
  assert (Hj0 : 0 < j). { destruct (decide (j = 0)) as [->|]; lia. }
  destruct Hub as [->|Hub]; [lia|].
  assert (Hmax : size b * 2 ^ j <= 2 ^ 26).
  { rewrite Hpow. change 256 with (2 ^ 8). rewrite <- !Z.pow_add_r by lia.
    apply pow2_gap; [lia..|]. rewrite !Z.pow_add_r by lia. rewrite Hpow in Hub. lia. }
  destruct (Z.ltb_spec MAX_BUFFER_SIZE (size b * 2 ^ j)); [unfold MAX_BUFFER_SIZE in *; lia|].
  assert (Hgrow : size b <= size b * 2 ^ j).
  { pose proof (Z.pow_pos_nonneg 2 j). nia. }
  eexists. split; [reflexivity|]. cbn [size offset stream is_dynamic].
  rewrite (u64_small (size b * 2 ^ j - size b)) by lia.
  split; [split; cbn [size offset stream is_dynamic]|split; [split|]].
  - rewrite length_app, Nat2Z.inj_add, length_zeros by lia. lia.
  - lia.
  - unfold MAX_BUFFER_SIZE. lia.
  - done.
  - exists (k + j). rewrite Z.pow_add_r by lia. cbn [size]. nia.
  - repeat split; [lia|]. rewrite take_app_le by lia. done.
Qed.

(** ** Fields: the format the writers produce and the readers accept *)

Inductive field :=
| F_uint8 (v : Z) | F_int8 (v : Z) | F_uint16 (v : Z) | F_uint32 (v : Z)
| F_string (s : string) | F_data (bs : list byte).

Definition package_add (p : t_package) (f : field) : bool * t_package :=
  match f with
  | F_uint8 v => package_add_uint8 p v
  | F_int8 v => package_add_int8 p v
  | F_uint16 v => package_add_uint16 p v
  | F_uint32 v => package_add_uint32 p v
  | F_string s => package_add_string p s
  | F_data bs => package_add_data p bs
  end.

(** The read call that matches a field; the argument only gives its kind. *)
Definition package_read (p : t_package) (kind : field) : option field * t_package :=
  match kind with
  | F_uint8 _ => let '(r, p) := package_read_uint8 p in (F_uint8 <$> r, p)
  | F_int8 _ => let '(r, p) := package_read_int8 p in (F_int8 <$> r, p)
  | F_uint16 _ => let '(r, p) := package_read_uint16 p in (F_uint16 <$> r, p)
  | F_uint32 _ => let '(r, p) := package_read_uint32 p in (F_uint32 <$> r, p)
  | F_string _ => let '(r, p) := package_read_string p in (F_string <$> r, p)
  | F_data _ => let '(r, p) := package_read_data p in (F_data <$> r, p)
  end.

Fixpoint package_add_all (p : t_package) (fs : list field) : bool * t_package :=
  match fs with
  | [] => (true, p)
  | f :: fs =>
      let '(ok, p) := package_add p f in
      if ok then package_add_all p fs else (false, p)
  end.

Fixpoint package_read_all (p : t_package) (kinds : list field) : option (list field) :=
  match kinds with
  | [] => Some []
  | f :: kinds =>
      match package_read p f with
      | (Some v, p) => (cons v) <$> package_read_all p kinds
      | (None, _) => None
      end
  end.

Definition be32 (v : Z) : list byte := rev (le_bytes 4 v).

Definition encode (f : field) : list byte :=
  match f with
  | F_uint8 v | F_int8 v => le_bytes 1 v
  | F_uint16 v => rev (le_bytes 2 v)
  | F_uint32 v => be32 v
  | F_string s => be32 (strlen s) ++ string_bytes s
  | F_data bs => be32 (Z.of_nat (length bs)) ++ bs
  end.

Definition encode_all (fs : list field) : list byte := flat_map encode fs.

(** The values of the C types the calls take, within the limits of the readers. *)
Definition valid_field (f : field) : Prop :=
  match f with
  | F_uint8 v => 0 <= v < 2 ^ 8
  | F_int8 v => - 2 ^ 7 <= v < 2 ^ 7
  | F_uint16 v => 0 <= v < 2 ^ 16
  | F_uint32 v => 0 <= v < 2 ^ 32
  | F_string s => strlen s <= MAX_STRING_LENGTH /\ ~ x00 ∈ string_bytes s
  | F_data bs => 0 < Z.of_nat (length bs) <= MAX_DATA_SIZE
  end.

Definition wire_size (fs : list field) : Z := Z.of_nat (length (encode_all fs)).

Lemma length_be32 v : length (be32 v) = 4%nat.
Proof. unfold be32. by rewrite length_rev, length_le_bytes. Qed.

Lemma length_string_bytes s : length (string_bytes s) = String.length s.
Proof. unfold string_bytes. induction s; simpl; auto. Qed.

Lemma take_string_bytes s :
  0 <= strlen s < 2 ^ 32 -> take (Z.to_nat (u32 (strlen s))) (string_bytes s) = string_bytes s.
Proof.
  intros. rewrite u32_small by done. unfold strlen.
  rewrite Nat2Z.id, <- length_string_bytes. by rewrite take_ge.
Qed.

(** The bytes written so far. *)
Definition written (b : t_buffer) : list byte := take (Z.to_nat (offset b)) (stream b).

(** [b'] is [b] with the bytes [bs] appended; both are good buffers. *)
Definition appended (b : t_buffer) (bs : list byte) (b' : t_buffer) : Prop :=
  buffer_wf b' /\ dynamic_wf b' /\ written b' = written b ++ bs /\
  offset b' = offset b + Z.of_nat (length bs).

Lemma put_bytes_appended b bs :
  buffer_wf b -> dynamic_wf b -> offset b + Z.of_nat (length bs) <= size b ->
  appended b bs (put_bytes b bs).
Proof.
  intros [Hlen Hoff Hsz] [Hd Hk] Hfit. unfold MAX_BUFFER_SIZE in Hsz.
  unfold appended, put_bytes, written. cbn [size stream offset is_dynamic].
  rewrite u64_small by lia. split; [|split; [|split]].
  - split; cbn [size stream offset is_dynamic]; [|lia|done].
    rewrite length_mem_write by lia. done.
  - by split.
  - unfold mem_write. rewrite take_app_ge by (rewrite length_take; lia).
    rewrite length_take, Nat.min_l by lia. f_equal.
    rewrite take_app_le by lia. rewrite take_ge by lia. done.
  - done.
Qed.

(** Two appends in a row. *)
Lemma appended_app b bs1 b1 bs2 b2 :
  appended b bs1 b1 -> appended b1 bs2 b2 -> appended b (bs1 ++ bs2) b2.
Proof.
  intros (_ & _ & Hw1 & Ho1) (Hwf & Hd & Hw2 & Ho2). split; [done|]. split; [done|].
  rewrite Hw2, Hw1, Ho2, Ho1, length_app. split; [by rewrite app_assoc|]. lia.
Qed.

(** A writer that finds its capacity and appends [bs]. *)
Lemma write_appends b n bs :
  buffer_wf b -> dynamic_wf b -> Z.of_nat (length bs) = n -> offset b + n <= 2 ^ 26 ->
  exists b1, buffer_has_capacity b n = (true, b1) /\ appended b bs (put_bytes b1 bs).
Proof.
  intros Hwf Hd Hn Hcap.
  destruct (has_capacity_dynamic b n) as (b1 & E & Hwf1 & Hd1 & Ho & Hfit & Ht); [done..|lia|lia|].
  exists b1. split; [done|].
  destruct (put_bytes_appended b1 bs) as (Hwf2 & Hd2 & Hw & Hoff); [done..|lia|].
  split; [done|]. split; [done|]. rewrite Hw, Hoff. unfold written. by rewrite Ho, Ht.
Qed.

Lemma buffer_write_uint32_appends b v :
  buffer_wf b -> dynamic_wf b -> offset b + 4 <= 2 ^ 26 ->
  exists b', buffer_write_uint32 b v = (true, b') /\ appended b (be32 v) b'.
Proof.
  intros Hwf Hd Hcap.
  destruct (write_appends b 4 (be32 v)) as (b1 & E & Happ); [done..|by rewrite length_be32|done|].
  unfold buffer_write_uint32. rewrite E. simpl negb. cbv iota.
  rewrite le_bytes_htonl. eauto.
Qed.

(** With the room already there, the length prefix is written in place. *)
Lemma buffer_write_uint32_fits b v :
  buffer_wf b -> offset b + 4 <= size b ->
  buffer_write_uint32 b v = (true, put_bytes b (be32 v)).
Proof.
  intros [_ Hoff Hsz] Hfit. unfold MAX_BUFFER_SIZE in Hsz.
  unfold buffer_write_uint32, buffer_has_capacity.
  rewrite u64_small by lia. destruct (Z.ltb_spec (size b - offset b) 4); [lia|].
  destruct (Z.leb_spec 4 (size b - offset b)); [|lia].
  rewrite andb_false_r. simpl negb. cbv iota. by rewrite le_bytes_htonl.
Qed.

(** A length prefix and the bytes it announces, as strings and data are written. *)
Lemma write_prefixed b n bs :
  buffer_wf b -> dynamic_wf b -> n = Z.of_nat (length bs) -> offset b + (4 + n) <= 2 ^ 26 ->
  exists b1 b2, buffer_has_capacity b (4 + n) = (true, b1) /\
    buffer_write_uint32 b1 n = (true, b2) /\ appended b (be32 n ++ bs) (put_bytes b2 bs).
Proof.
  intros Hwf Hd Hn Hcap.
  destruct (has_capacity_dynamic b (4 + n)) as (b1 & E & Hwf1 & Hd1 & Ho & Hfit & Ht);
    [done..|lia|lia|].
  exists b1, (put_bytes b1 (be32 n)). split; [done|].
  split; [apply buffer_write_uint32_fits; [done|lia]|].
  destruct (put_bytes_appended b1 (be32 n)) as (Hwf2 & Hd2 & Hw2 & Ho2);
    [done..|rewrite length_be32; lia|].
  rewrite length_be32 in Ho2.
  destruct (put_bytes_appended (put_bytes b1 (be32 n)) bs) as (Hwf3 & Hd3 & Hw3 & Ho3);
    [done..|rewrite Ho2; unfold put_bytes; cbn [size]; lia|].
  split; [done|]. split; [done|]. rewrite Hw3, Hw2, Ho3, Ho2, Ho.
  rewrite length_app, length_be32. split; [|lia].
  unfold written. by rewrite Ho, Ht, app_assoc.
Qed.

(** Adding a valid field appends its encoding, as long as it ends within 64 MiB. *)
Lemma package_add_appends p f :
  buffer_wf (buffer p) -> dynamic_wf (buffer p) -> valid_field f ->
  offset (buffer p) + Z.of_nat (length (encode f)) <= 2 ^ 26 ->
  exists b', package_add p f = (true, MkPackage (operation_code p) b') /\
             appended (buffer p) (encode f) b'.
Proof.
  intros Hwf Hd Hv Hcap.
  destruct f as [v|v|v|v|s|bs]; cbn [package_add encode valid_field] in *.
  1-3: rewrite ?length_rev, length_le_bytes in Hcap.
  - destruct (write_appends (buffer p) 1 (le_bytes 1 v)) as (b1 & E & Happ); [done..|].
    exists (put_bytes b1 (le_bytes 1 v)). split; [|done].
    unfold package_add_uint8, on_buffer, buffer_write_uint8. by rewrite E.
  - destruct (write_appends (buffer p) 1 (le_bytes 1 v)) as (b1 & E & Happ); [done..|].
    exists (put_bytes b1 (le_bytes 1 v)). split; [|done].
    unfold package_add_int8, on_buffer, buffer_write_int8. by rewrite E.
  - destruct (write_appends (buffer p) 2 (rev (le_bytes 2 v))) as (b1 & E & Happ);
      [done..|by rewrite length_rev, length_le_bytes|done|].
    exists (put_bytes b1 (rev (le_bytes 2 v))). split; [|done].
    unfold package_add_uint16, on_buffer, buffer_write_uint16. by rewrite E, le_bytes_htons.
  - rewrite length_be32 in Hcap.
    destruct (buffer_write_uint32_appends (buffer p) v) as (b' & E & Happ); [done..|].
    exists b'. split; [|done]. unfold package_add_uint32, on_buffer. by rewrite E.
  - rewrite length_app, length_be32, length_string_bytes in Hcap.
    assert (Hs : 0 <= strlen s < 2 ^ 32) by (unfold strlen, MAX_STRING_LENGTH in *; lia).
    destruct (write_prefixed (buffer p) (strlen s) (string_bytes s))
      as (b1 & b2 & E1 & E2 & Happ);
      [done..|by rewrite length_string_bytes|unfold strlen in *; lia|].
    exists (put_bytes b2 (string_bytes s)). split; [|done].
    unfold package_add_string, on_buffer, buffer_write_string.
    rewrite take_string_bytes, u32_small, E1 by done. simpl negb. cbv iota.
    by rewrite E2.
  - rewrite length_app, length_be32 in Hcap. unfold MAX_DATA_SIZE in Hv.
    destruct (write_prefixed (buffer p) (Z.of_nat (length bs)) bs)
      as (b1 & b2 & E1 & E2 & Happ); [done..|lia|].
    exists (put_bytes b2 bs). split; [|done].
    unfold package_add_data, on_buffer, buffer_write_data.
    destruct (Z.eqb_spec (Z.of_nat (length bs)) 0); [lia|].
    rewrite u32_small, E1 by lia. simpl negb. cbv iota. by rewrite E2.
Qed.

Lemma package_add_all_appends p fs :
  buffer_wf (buffer p) -> dynamic_wf (buffer p) -> Forall valid_field fs ->
  offset (buffer p) + wire_size fs <= 2 ^ 26 ->
  exists b', package_add_all p fs = (true, MkPackage (operation_code p) b') /\
             appended (buffer p) (encode_all fs) b'.
Proof.
  unfold wire_size. intros Hwf Hd Hv. revert p Hwf Hd.
  induction Hv as [|f fs Hf _ IH]; intros p Hwf Hd Hcap.
  - exists (buffer p). destruct p. split; [done|]. split; [done|]. split; [done|].
    rewrite app_nil_r. cbn. split; [done|lia].
  - cbn [encode_all flat_map] in *. rewrite length_app in Hcap.
    destruct (package_add_appends p f) as (b1 & E1 & Happ1); [done..|lia|].
    pose proof Happ1 as (Hwf1 & Hd1 & _ & Ho1).
    destruct (IH (MkPackage (operation_code p) b1)) as (b2 & E2 & Happ2);
      [done..|cbn [buffer]; unfold encode_all; lia|].
    exists b2. cbn [package_add_all]. rewrite E1. split; [done|].
    eapply appended_app; done.
Qed.

(** ** Reading back *)

Lemma c_string_bytes s : ~ x00 ∈ string_bytes s -> c_string (string_bytes s) = s.
Proof.
  unfold string_bytes. induction s as [|c s IH]; [done|].
  change (String.list_byte_of_string (String c s))
    with (Ascii.byte_of_ascii c :: String.list_byte_of_string s).
  intros Hn. apply not_elem_of_cons in Hn as [Hc Hs].
  cbn [c_string]. rewrite IH by done. rewrite Ascii.ascii_of_byte_of_ascii.
  destruct (Ascii.byte_of_ascii c); done.
Qed.

(** What is left to read. *)
Definition upcoming (b : t_buffer) : list byte := drop (Z.to_nat (offset b)) (stream b).

Lemma get_bytes_upcoming b n bs rest :
  buffer_wf b -> upcoming b = bs ++ rest -> n = Z.of_nat (length bs) ->
  (n <=? u64 (size b - offset b)) = true /\
  exists b', get_bytes b n = (bs, b') /\ buffer_wf b' /\ upcoming b' = rest.
Proof.
  intros [Hlen Hoff Hsz] Hup ->. unfold MAX_BUFFER_SIZE in Hsz.
  pose proof (f_equal length Hup) as Hl. unfold upcoming in *.
  rewrite length_drop, length_app in Hl.
  split. { apply Z.leb_le. rewrite u64_small by lia. lia. }
  unfold get_bytes, mem_read, set_offset. rewrite Hup, Nat2Z.id, take_app_length.
  rewrite u64_small by lia. eexists. split; [reflexivity|].
  split; [split; cbn [size offset stream]; unfold MAX_BUFFER_SIZE; lia|].
  cbn [offset stream].
  replace (Z.to_nat (offset b + Z.of_nat (length bs)))
    with (Z.to_nat (offset b) + length bs)%nat by lia.
  by rewrite <- drop_drop, Hup, drop_app_length.
Qed.

Lemma buffer_read_uint32_upcoming b v rest :
  buffer_wf b -> 0 <= v < 2 ^ 32 -> upcoming b = be32 v ++ rest ->
  exists b', buffer_read_uint32 b = (Some v, b') /\ buffer_wf b' /\ upcoming b' = rest.
Proof.
  intros Hwf Hv Hup.
  destruct (get_bytes_upcoming b 4 (be32 v) rest) as (Hc & b' & E & ?); [done..|].
  exists b'. unfold buffer_read_uint32, buffer_check_capacity. rewrite Hc, E.
  simpl negb. cbv iota. unfold be32. by rewrite ntohl_be.
Qed.

(** The capacity test of [buffer_read_data] does not touch a buffer that has the bytes. *)
Lemma has_capacity_upcoming b n :
  (n <=? u64 (size b - offset b)) = true -> buffer_has_capacity b n = (true, b).
Proof.
  intros Hc. unfold buffer_has_capacity.
  destruct (Z.ltb_spec (u64 (size b - offset b)) n); [apply Z.leb_le in Hc; lia|].
  by rewrite andb_false_r, Hc.
Qed.

Lemma to_signed_byte v : - 2 ^ 7 <= v < 2 ^ 7 -> i8 (v mod 256 + 256 * 0) = v.
Proof.
  intros. rewrite Z.mul_0_r, Z.add_0_r. unfold i8.
  change 256 with (2 ^ 8). rewrite to_signed_mod by lia. apply to_signed_id; lia.
Qed.

(** Reading the kind of field that was written there gives its value. *)
Lemma package_read_upcoming p f rest :
  buffer_wf (buffer p) -> valid_field f -> upcoming (buffer p) = encode f ++ rest ->
  exists b', package_read p f = (Some f, MkPackage (operation_code p) b') /\
             buffer_wf b' /\ upcoming b' = rest.
Proof.
  intros Hwf Hv Hup.
  destruct f as [v|v|v|v|s|bs]; cbn [package_read encode valid_field] in *;
    unfold package_read_uint8, package_read_int8, package_read_uint16, package_read_uint32,
      package_read_string, package_read_data, on_buffer, set_buffer.
  - destruct (get_bytes_upcoming (buffer p) 1 (le_bytes 1 v) rest) as (Hc & b' & E & ?); [done..|].
    exists b'. unfold buffer_read_uint8, buffer_check_capacity. rewrite Hc, E.
    simpl negb. cbv iota. rewrite le_val_le_bytes, Z.mod_small by lia. done.
  - destruct (get_bytes_upcoming (buffer p) 1 (le_bytes 1 v) rest) as (Hc & b' & E & ?); [done..|].
    exists b'. unfold buffer_read_int8, buffer_check_capacity. rewrite Hc, E.
    simpl negb. cbv iota. cbn [le_bytes le_val].
    rewrite Z_of_byte_of_Z, to_signed_byte by lia. done.
  - destruct (get_bytes_upcoming (buffer p) 2 (rev (le_bytes 2 v)) rest)
      as (Hc & b' & E & ?); [done..|by rewrite length_rev, length_le_bytes|].
    exists b'. unfold buffer_read_uint16, buffer_check_capacity. rewrite Hc, E.
    simpl negb. cbv iota. fold (htons v). rewrite ntohs_htons, u16_small by lia. done.
  - destruct (buffer_read_uint32_upcoming (buffer p) v rest) as (b' & E & ?); [done..|].
    exists b'. by rewrite E.
  - destruct Hv as [Hlen Hnul]. rewrite <- app_assoc in Hup.
    assert (Hs : 0 <= strlen s < 2 ^ 32) by (unfold strlen, MAX_STRING_LENGTH in *; lia).
    destruct (buffer_read_uint32_upcoming (buffer p) (strlen s) (string_bytes s ++ rest))
      as (b1 & E1 & Hwf1 & Hup1); [done..|].
    destruct (get_bytes_upcoming b1 (strlen s) (string_bytes s) rest)
      as (Hc & b2 & E2 & ?); [done..|by rewrite length_string_bytes|].
    exists b2. unfold buffer_read_string, buffer_check_capacity. rewrite E1, Hc, E2.
    destruct (Z.ltb_spec MAX_STRING_LENGTH (strlen s)); [lia|]. simpl.
    by rewrite c_string_bytes.
  - rewrite <- app_assoc in Hup. unfold MAX_DATA_SIZE in Hv.
    destruct (buffer_read_uint32_upcoming (buffer p) (Z.of_nat (length bs)) (bs ++ rest))
      as (b1 & E1 & Hwf1 & Hup1); [done|lia|done|].
    destruct (get_bytes_upcoming b1 (Z.of_nat (length bs)) bs rest) as (Hc & b2 & E2 & ?); [done..|].
    exists b2. unfold buffer_read_data. rewrite E1.
    rewrite (has_capacity_upcoming b1 (Z.of_nat (length bs)) Hc), E2.
    unfold MAX_DATA_SIZE.
    destruct (Z.ltb_spec (10 * 1024 * 1024) (Z.of_nat (length bs))); [lia|]. done.
Qed.

Lemma package_read_all_upcoming p fs rest :
  buffer_wf (buffer p) -> Forall valid_field fs ->
  upcoming (buffer p) = encode_all fs ++ rest -> package_read_all p fs = Some fs.
Proof.
  intros Hwf Hv. revert p Hwf. induction Hv as [|f fs Hf _ IH]; intros p Hwf Hup; [done|].
  cbn [encode_all flat_map] in Hup. rewrite <- app_assoc in Hup.
  destruct (package_read_upcoming p f (encode_all fs ++ rest)) as (b' & E & Hwf' & Hup'); [done..|].
  cbn [package_read_all]. rewrite E.
  rewrite (IH (MkPackage (operation_code p) b')); done.
Qed.

(** ** Across the socket *)

(** Every call of [recv] returns something, and there are enough calls for what
    is in flight: the fragmentation of the stream is otherwise arbitrary. *)
Definition socket_live (s : t_socket) : Prop :=
  Forall (fun g => 0 < g) (grants s) /\ (length (inflight s) <= length (grants s))%nat.

Lemma recv_loop_live missing gs bytes acc :
  Forall (fun g => 0 < g) gs -> (length bytes <= length gs)%nat -> (missing <= length bytes)%nat ->
  exists gs', recv_loop gs bytes acc missing =
                Received (acc ++ take missing bytes) (MkSocket (drop missing bytes) gs') /\
              socket_live (MkSocket (drop missing bytes) gs').
Proof.
  intros Hgs. revert missing bytes acc.
  induction Hgs as [|g gs Hg Hgs IH]; intros missing bytes acc Hl Hm.
  - destruct bytes; [|simpl in *; lia]. destruct missing; [|simpl in *; lia].
    exists []. by rewrite app_nil_r.
  - destruct missing as [|missing].
    + exists (g :: gs). rewrite app_nil_r, drop_0. split; [done|].
      split; [by constructor|done].
    + cbn [recv_loop]. set (n := Nat.min (Z.to_nat g) (Nat.min (S missing) (length bytes))).
      assert (Hn : (1 <= n <= S missing)%nat /\ (n <= length bytes)%nat) by lia.
      destruct (Z.leb_spec g 0); [lia|]. destruct (Z.leb_spec (Z.of_nat n) 0); [lia|].
      simpl orb. cbv iota.
      destruct (IH (S missing - n)%nat (drop n bytes) (acc ++ take n bytes)) as (gs' & E & Hlive).
      { rewrite length_drop. simpl in Hl. lia. } { rewrite length_drop. lia. }
      exists gs'. rewrite drop_drop in Hlive, E.
      replace (n + (S missing - n))%nat with (S missing) in Hlive, E by lia.
      split; [|done]. rewrite E. f_equal. rewrite <- app_assoc. f_equal.
        rewrite take_take_drop. f_equal. lia.
Qed.

Lemma recv_all_live bs rest gs n :
  socket_live (MkSocket (bs ++ rest) gs) -> n = Z.of_nat (length bs) ->
  exists gs', recv_all (MkSocket (bs ++ rest) gs) n = Received bs (MkSocket rest gs') /\
              socket_live (MkSocket rest gs').
Proof.
  intros [Hgs Hl] ->. unfold recv_all. cbn [grants inflight] in *.
  destruct (recv_loop_live (length bs) gs (bs ++ rest) []) as (gs' & E & Hlive);
    [done..|rewrite length_app; lia|].
  rewrite take_app_length, drop_app_length in *. rewrite Nat2Z.id. eauto.
Qed.

(** A package of a good buffer, sent whole, is received as it was sent. *)
Lemma package_receive_sent p rest gs sock :
  buffer_wf (buffer p) -> 0 <= operation_code p < 256 -> 0 <= sock ->
  socket_live (MkSocket (serialized_package p ++ rest) gs) ->
  exists gs', package_receive sock (MkSocket (serialized_package p ++ rest) gs) =
    Package (MkPackage (operation_code p) (MkBuffer (size (buffer p)) (stream (buffer p)) 0 false))
            (MkSocket rest gs').
Proof.
  intros [Hlen Hoff Hsz] Hop Hsock Hlive. unfold MAX_BUFFER_SIZE in Hsz.
  unfold serialized_package in *. rewrite le_bytes_htonl, u32_small in * by lia.
  rewrite (take_ge (stream (buffer p))) in * by lia.
  rewrite <- !app_assoc in *. unfold package_receive.
  destruct (Z.ltb_spec sock 0); [lia|].
  destruct (recv_all_live _ _ _ 1 Hlive) as (gs1 & -> & Hl1); [done|].
  destruct (recv_all_live _ _ _ 4 Hl1) as (gs2 & -> & Hl2);
    [by rewrite length_rev, length_le_bytes|].
  rewrite ntohl_be by lia. unfold MAX_BUFFER_SIZE, buffer_create.
  destruct (Z.ltb_spec (100 * 1024 * 1024) (size (buffer p))); [lia|].
  destruct (Z.eqb_spec (size (buffer p)) 0); [lia|].
  destruct (recv_all_live _ _ _ (size (buffer p)) Hl2) as (gs3 & -> & Hl3); [done|].
  exists gs3. cbn [size stream offset is_dynamic].
  rewrite le_val_le_bytes, Z.mod_small by lia. do 3 f_equal.
  unfold mem_write. rewrite take_0, drop_ge, app_nil_r; [done|].
  unfold zeros. rewrite length_replicate. lia.
Qed.

(** [block] is a message: whoever receives it, in whatever fragments, reads the
    fields back and leaves the rest of the socket for the next package. *)
Definition carries (block : list byte) (op : Z) (fs : list field) : Prop :=
  forall rest gs sock, 0 <= sock -> socket_live (MkSocket (block ++ rest) gs) ->
  exists q s', package_receive sock (MkSocket (block ++ rest) gs) = Package q s' /\
    operation_code q = op /\ inflight s' = rest /\ package_read_all q fs = Some fs.

(** What adding fields to an empty package makes. *)
Lemma package_built op fs :
  0 <= op < 256 -> Forall valid_field fs -> wire_size fs <= 2 ^ 26 ->
  exists p, package_add_all (package_create_empty op) fs = (true, p) /\
    buffer_wf (buffer p) /\ carries (serialized_package p) op fs.
Proof.
  intros Hop Hv Hsz. destruct buffer_create_dynamic_wf as [Hwf0 Hd0].
  destruct (package_add_all_appends (package_create_empty op) fs)
    as (b & E & Hwf & _ & Hw & Ho); [done..|].
  exists (MkPackage (u8 op) b). split; [done|]. split; [done|].
  intros rest gs sock Hsock Hlive. pose proof Hwf as [Hlen Hoff Hszb].
  destruct (package_receive_sent (MkPackage (u8 op) b) rest gs sock) as (gs' & ->);
    [done|rewrite u8_small; done|done|done|].
  eexists _, _. split; [reflexivity|]. cbn [operation_code buffer].
  rewrite u8_small by done. split; [done|]. split; [done|].
  apply package_read_all_upcoming with (rest := drop (Z.to_nat (offset b)) (stream b)); [|done|].
  - cbn [buffer] in *. unfold MAX_BUFFER_SIZE in Hszb.
    split; cbn [buffer stream offset size]; unfold MAX_BUFFER_SIZE; lia.
  - unfold upcoming. cbn [buffer offset stream]. rewrite drop_0.
    unfold written in Hw. cbn [buffer offset stream buffer_create_dynamic package_create_empty] in Hw.
    rewrite <- (take_drop (Z.to_nat (offset b)) (stream b)) at 1.
    f_equal. rewrite Hw. done.
Qed.

(** A block the kernel takes whole is reported as sent, and is the image of the
    package; any other answer is reported as a failure. *)
Lemma package_send_whole p sock answer :
  buffer_wf (buffer p) -> 0 <= sock ->
  package_send p sock answer =
    (if answer =? Z.of_nat (length (serialized_package p)) then 0 else -1,
     take (Z.to_nat answer) (serialized_package p)).
Proof.
  intros [Hlen Hoff Hsz] Hsock. unfold MAX_BUFFER_SIZE in Hsz. unfold package_send.
  destruct (Z.ltb_spec sock 0); [lia|]. do 3 f_equal.
  rewrite (u32_small (size (buffer p))), u32_small by lia. unfold serialized_package.
  rewrite !length_app, !length_le_bytes, length_take, u32_small by lia.
  replace (Z.of_nat _) with (1 + 4 + size (buffer p)) by lia. done.
Qed.

(** ** Failing reads and writes *)

Lemma get_bytes_wf b n :
  buffer_wf b -> 0 <= n -> (n <=? u64 (size b - offset b)) = true ->
  buffer_wf (snd (get_bytes b n)) /\ offset (snd (get_bytes b n)) = offset b + n.
Proof.
  intros [Hlen Hoff Hsz] Hn Hc. apply Z.leb_le in Hc. unfold MAX_BUFFER_SIZE in Hsz.
  rewrite u64_small in Hc by lia. cbn [get_bytes snd set_offset offset size stream].
  rewrite u64_small by lia. repeat split; cbn [set_offset offset size stream];
    unfold MAX_BUFFER_SIZE; lia.
Qed.

Lemma has_capacity_wf b n :
  buffer_wf b -> 0 <= n < 2 ^ 62 ->
  buffer_wf (snd (buffer_has_capacity b n)) /\
  offset (snd (buffer_has_capacity b n)) = offset b /\
  (fst (buffer_has_capacity b n) = true ->
     offset b + n <= size (snd (buffer_has_capacity b n))).
Proof.
  intros Hwf Hn. pose proof Hwf as [Hlen Hoff Hsz]. unfold MAX_BUFFER_SIZE in Hsz.
  unfold buffer_has_capacity. rewrite u64_small by lia.
  destruct (is_dynamic b && (size b - offset b <? n)) eqn:Eb; cbn [fst snd].
  2:{ split; [done|]. split; [done|]. intros Hc%Z.leb_le. lia. }
  apply andb_true_iff in Eb as [Hd Hlt%Z.ltb_lt]. unfold buffer_expand. rewrite Hd.
  simpl negb. cbv iota. rewrite (u64_small (offset b + n)) by lia.
  destruct (expand_size_spec 64 (size b) (offset b + n)) as (j & Hj & -> & Hge & Hub).
  { lia. } { lia. } { change (Z.of_nat 64) with 64. lia. }
  destruct (Z.ltb_spec MAX_BUFFER_SIZE (size b * 2 ^ j)) as [?|Hmax]; cbn [fst snd].
  { split; [done|]. by split. }
  unfold MAX_BUFFER_SIZE in Hmax.
  rewrite (u64_small (size b * 2 ^ j - size b)) by lia.
  split; [|by split]. split; cbn [size offset stream]; [|lia|unfold MAX_BUFFER_SIZE; lia].
  rewrite length_app, Nat2Z.inj_add, length_zeros by lia. lia.
Qed.

Lemma put_bytes_wf b bs :
  buffer_wf b -> offset b + Z.of_nat (length bs) <= size b ->
  buffer_wf (put_bytes b bs) /\ offset (put_bytes b bs) = offset b + Z.of_nat (length bs) /\
  size (put_bytes b bs) = size b.
Proof.
  intros [Hlen Hoff Hsz] Hfit. unfold MAX_BUFFER_SIZE in Hsz. unfold put_bytes.
  cbn [size offset stream]. rewrite u64_small by lia. split; [|done].
  split; cbn [size offset stream]; [rewrite length_mem_write by lia|..]; unfold MAX_BUFFER_SIZE; lia.
Qed.

(** Reserve, then copy: the shape of the fixed-width writers. *)
Lemma reserve_put_wf b n bs ok b1 :
  buffer_wf b -> buffer_has_capacity b n = (ok, b1) -> n = Z.of_nat (length bs) -> n < 2 ^ 62 ->
  buffer_wf b1 /\ (ok = true -> buffer_wf (put_bytes b1 bs)).
Proof.
  intros Hwf E -> Hn.
  destruct (has_capacity_wf b (Z.of_nat (length bs))) as (Hwf1 & Ho & Hfit); [done|lia|].
  rewrite E in *. cbn [fst snd] in *. split; [done|].
  intros Hok. apply put_bytes_wf; [done|]. rewrite Ho. auto.
Qed.

(** Reserve room for a prefix and its payload, then copy both. *)
Lemma reserve_prefixed_wf b n bs ok b1 ok2 b2 :
  buffer_wf b -> n = Z.of_nat (length bs) -> n < 2 ^ 32 ->
  buffer_has_capacity b (4 + n) = (ok, b1) -> ok = true ->
  buffer_write_uint32 b1 n = (ok2, b2) -> buffer_wf b2 /\ buffer_wf (put_bytes b2 bs).
Proof.
  intros Hwf Hn Hlt E -> E2.
  destruct (has_capacity_wf b (4 + n)) as (Hwf1 & Ho & Hfit); [done|lia|].
  rewrite E in *. cbn [fst snd] in *. specialize (Hfit eq_refl).
  rewrite buffer_write_uint32_fits in E2 by (done || lia). simplify_eq.
  destruct (put_bytes_wf b1 (be32 (Z.of_nat (length bs)))) as (Hwf2 & Ho2 & Hs2);
    [done|rewrite length_be32; lia|].
  rewrite length_be32 in Ho2. split; [done|].
  apply put_bytes_wf; [done|]. rewrite Ho2, Hs2. lia.
Qed.

Lemma package_add_fixed_wf (w : t_buffer -> bool * t_buffer) n bs b :
  buffer_wf b -> n = Z.of_nat (length bs) -> n < 2 ^ 62 ->
  w b = (let '(ok, b) := buffer_has_capacity b n in
         if negb ok then (false, b) else (true, put_bytes b bs)) ->
  buffer_wf (snd (w b)).
Proof.
  intros Hwf Hn Hlt ->. destruct (buffer_has_capacity b n) as [ok b1] eqn:E.
  destruct (reserve_put_wf b n bs ok b1) as [H1 H2]; [done..|].
  destruct ok; simpl; auto.
Qed.

Lemma package_add_wf p f :
  buffer_wf (buffer p) -> (forall bs, f = F_data bs -> Z.of_nat (length bs) < 2 ^ 32) ->
  buffer_wf (buffer (snd (package_add p f))).
Proof.
  intros Hwf Hb.
  assert (Hsnd : forall w, buffer_wf (snd (w (buffer p))) ->
            buffer_wf (buffer (snd (@on_buffer bool w p)))).
  { intros w. unfold on_buffer. by destruct (w (buffer p)). }
  destruct f as [v|v|v|v|s|bs]; cbn [package_add].
  - apply Hsnd. by eapply (package_add_fixed_wf (fun b => buffer_write_uint8 b v) 1 (le_bytes 1 v)).
  - apply Hsnd. by eapply (package_add_fixed_wf (fun b => buffer_write_int8 b v) 1 (le_bytes 1 v)).
  - apply Hsnd. by eapply (package_add_fixed_wf (fun b => buffer_write_uint16 b v) 2
                             (le_bytes 2 (htons v))).
  - apply Hsnd. by eapply (package_add_fixed_wf (fun b => buffer_write_uint32 b v) 4
                             (le_bytes 4 (htonl v))).
  - apply Hsnd. unfold buffer_write_string. pose proof (u32_bound (strlen s)) as Hl.
    destruct (buffer_has_capacity (buffer p) (4 + u32 (strlen s))) as [ok b1] eqn:E.
    destruct (has_capacity_wf (buffer p) (4 + u32 (strlen s))) as (Hwf1 & _); [done|lia|].
    rewrite E in Hwf1. destruct ok; [|done]. simpl negb. cbv iota.
    destruct (buffer_write_uint32 b1 (u32 (strlen s))) as [ok2 b2] eqn:E2.
    destruct (reserve_prefixed_wf (buffer p) (u32 (strlen s)) (take (Z.to_nat (u32 (strlen s))) (string_bytes s))
      true b1 ok2 b2); [done| |lia|done..|by destruct ok2].
    rewrite length_take, length_string_bytes. pose proof (Z.mod_le (strlen s) (2 ^ 32)).
    unfold strlen, u32 in *. lia.
  - unfold package_add_data. specialize (Hb bs eq_refl).
    destruct (Z.eqb_spec (Z.of_nat (length bs)) 0) as [|Hne]; [done|]. apply Hsnd.
    unfold buffer_write_data. destruct (Z.eqb_spec (Z.of_nat (length bs)) 0); [done|].
    destruct (buffer_has_capacity (buffer p) (4 + Z.of_nat (length bs))) as [ok b1] eqn:E.
    destruct (has_capacity_wf (buffer p) (4 + Z.of_nat (length bs))) as (Hwf1 & _); [done|lia|].
    rewrite E in Hwf1. destruct ok; [|done]. simpl negb. cbv iota. rewrite u32_small by lia.
    destruct (buffer_write_uint32 b1 (Z.of_nat (length bs))) as [ok2 b2] eqn:E2.
    destruct (reserve_prefixed_wf (buffer p) (Z.of_nat (length bs)) bs true b1 ok2 b2);
      [done..|]. by destruct ok2.
Qed.

(** The lengths the writers can be given: those of a [uint32_t]. *)
Definition small_field (f : field) : Prop := match f with F_data bs => Z.of_nat (length bs) < 2 ^ 32 | _ => True end.

Lemma package_add_all_wf fs p :
  buffer_wf (buffer p) -> Forall small_field fs -> buffer_wf (buffer (snd (package_add_all p fs))).
Proof.
  intros Hwf Hfs. revert p Hwf. induction Hfs as [|f fs Hf Hfs IH]; intros p Hwf; [done|]. cbn [package_add_all].
  pose proof (package_add_wf p f Hwf) as H. destruct (package_add p f) as [[] p1]; cbn [snd] in *.
  - apply IH, H. by intros bs ->.
  - apply H. by intros bs ->.
Qed.

(** ** Properties *)

(** C12: A message survives the network.  The fields that one process adds to an
    empty package, sent in one block and received by another process in whatever
    fragments the socket delivers, are read back with their values and in their
    order; the bytes that follow on the socket are left for the next package. *)
Theorem fields_roundtrip op fs rest gs sock sock' :
  0 <= op < 256 -> Forall valid_field fs -> wire_size fs <= 2 ^ 26 ->
  0 <= sock -> 0 <= sock' ->
  exists p block,
    package_add_all (package_create_empty op) fs = (true, p) /\
    package_send p sock (u32 (5 + size (buffer p))) = (0, block) /\
    (Forall (fun g => 0 < g) gs -> (length (block ++ rest) <= length gs)%nat ->
     exists q s', package_receive sock' (MkSocket (block ++ rest) gs) = Package q s' /\
       operation_code q = op /\ inflight s' = rest /\ package_read_all q fs = Some fs).
Proof.
  intros Hop Hv Hsz Hsock Hsock'.
  destruct (package_built op fs) as (p & E & Hwf & Hcarry); [done..|].
  exists p, (serialized_package p). split; [done|]. split.
  - rewrite package_send_whole by done. destruct Hwf as [Hlen Hoff Hszb].
    unfold MAX_BUFFER_SIZE in Hszb.
    assert (El : Z.of_nat (length (serialized_package p)) = u32 (5 + size (buffer p))).
    { unfold serialized_package. rewrite !length_app, !length_le_bytes, length_take, !u32_small by lia.
      lia. }
    rewrite <- El, Z.eqb_refl, Nat2Z.id. f_equal. by apply take_ge.
  - intros Hgs Hlive. by apply Hcarry.
Qed.

Example fields_roundtrip_witness :
  exists p block q s',
    package_add_all (package_create_empty 9) [F_uint32 7; F_string "A"] = (true, p) /\
    package_send p 4 (u32 (5 + size (buffer p))) = (0, block) /\
    package_receive 5 (MkSocket (block ++ [x01]) (replicate 262 3)) = Package q s' /\
    package_read_all q [F_uint32 7; F_string "A"] = Some [F_uint32 7; F_string "A"].
Proof.
  destruct (fields_roundtrip 9 [F_uint32 7; F_string "A"] [x01] (replicate 262 3) 4 5)
    as (p & block & Ep & Eb & H); [lia| | |lia|lia|].
  - constructor; [cbn; lia|]. constructor; [|constructor].
    split; [vm_compute; discriminate|]. vm_compute. intros H. inversion H as [|? ? ? H']; inversion H'.
  - vm_compute. discriminate.
  - pose proof Ep as Ep'. vm_compute in Ep'. injection Ep' as <-.
    pose proof Eb as Eb'. vm_compute in Eb'. injection Eb' as <-.
    destruct H as (q & s' & E & _ & _ & R).
    + apply Forall_replicate. lia.
    + vm_compute. lia.
    + eexists _, _, q, s'. split; [exact Ep|]. split; [exact Eb|]. split; [exact E|exact R].
Defined.

(** The doubling loop of [buffer_expand] terminates.  For every request up to
    half the address space, 64 rounds find a size that holds it, and unless the
    buffer already had the room that size is less than twice the request. *)
Theorem expand_terminates b required_size :
  buffer_wf b -> 0 <= required_size <= 2 ^ 62 ->
  exists new_size, expand_size 64 (size b) (u64 (offset b + required_size)) = Some new_size /\
    offset b + required_size <= new_size /\
    (new_size = size b \/ new_size < 2 * (offset b + required_size)).
Proof.
  intros [Hlen Hoff Hsz] Hn. unfold MAX_BUFFER_SIZE in Hsz. rewrite u64_small by lia.
  destruct (expand_size_spec 64 (size b) (offset b + required_size)) as (j & Hj & E & Hge & Hub).
  { lia. } { lia. } { change (Z.of_nat 64) with 64. lia. }
  exists (size b * 2 ^ j). split; [done|]. split; [done|].
  destruct Hub as [->|]; [left; lia|by right].
Qed.

Example expand_terminates_witness :
  exists new_size, expand_size 64 256 (u64 (0 + 1000)) = Some new_size /\
    0 + 1000 <= new_size /\ (new_size = 256 \/ new_size < 2 * (0 + 1000)).
Proof.
  apply (expand_terminates buffer_create_dynamic 1000); [apply buffer_create_dynamic_wf|lia].
Defined.

(** C38: The capacity of a dynamic buffer.  A request is granted exactly when it
    ends within 64 MiB: doubling from 256 never reaches the 100 MiB that
    [MAX_BUFFER_SIZE] allows. *)
Theorem dynamic_capacity b n :
  buffer_wf b -> dynamic_wf b -> 0 <= n < 2 ^ 62 ->
  fst (buffer_has_capacity b n) = true <-> offset b + n <= 2 ^ 26.
Proof.
  intros Hwf Hd Hn. split; [|by intros H; destruct (has_capacity_dynamic b n) as (? & -> & _);
                             [done..|lia|done|]].
  pose proof Hwf as [Hlen Hoff Hsz]. unfold MAX_BUFFER_SIZE in Hsz.
  pose proof Hd as [Hdyn (k & Hk & Hpow)].
  assert (Hcap : forall j, 0 <= j -> size b * 2 ^ j <= 100 * 1024 * 1024 ->
                           size b * 2 ^ j <= 2 ^ 26).
  { intros j Hj Hle. rewrite Hpow in *. change 256 with (2 ^ 8) in *.
    rewrite <- !Z.pow_add_r in * by lia. apply pow2_gap; [lia..|].
    change (2 ^ (26 + 1)) with 134217728. lia. }
  unfold buffer_has_capacity. rewrite Hdyn, u64_small by lia. simpl andb.
  destruct (Z.ltb_spec (size b - offset b) n); cbn [fst].
  2:{ intros _. specialize (Hcap 0). lia. }
  unfold buffer_expand. rewrite Hdyn. simpl negb. cbv iota. rewrite u64_small by lia.
  destruct (expand_size_spec 64 (size b) (offset b + n)) as (j & Hj & -> & Hge & Hub).
  { lia. } { lia. } { change (Z.of_nat 64) with 64. lia. }
  unfold MAX_BUFFER_SIZE.
  destruct (Z.ltb_spec (100 * 1024 * 1024) (size b * 2 ^ j)); cbn [fst]; [done|].
  intros _. specialize (Hcap j Hj). lia.
Qed.

Example dynamic_capacity_witness :
  fst (buffer_has_capacity buffer_create_dynamic 67108864) = true <-> 0 + 67108864 <= 2 ^ 26.
Proof. apply (dynamic_capacity buffer_create_dynamic); [apply buffer_create_dynamic_wf..|lia]. Defined.

(** Memory safety of the writers.  Adding any fields, one after the other, to
    a package with a good buffer leaves a good buffer, whether it is dynamic or not
    and whether the fields were accepted or not: no copy ends past the allocated
    block, whatever the length of the strings. *)
Theorem package_add_safe p fs f :
  buffer_wf (buffer p) -> Forall small_field fs -> small_field f ->
  let p1 := snd (package_add_all p fs) in
  buffer_wf (buffer p1) /\ buffer_wf (buffer (snd (package_add p1 f))).
Proof.
  intros Hwf Hfs Hf. assert (H1 : buffer_wf (buffer (snd (package_add_all p fs)))) by (by apply package_add_all_wf).
  split; [exact H1|]. apply package_add_wf; [exact H1|]. by intros bs ->.
Qed.

Example package_add_safe_witness :
  let p1 := snd (package_add_all (package_create_empty 3) [F_uint32 5; F_string "A"]) in
  buffer_wf (buffer p1) /\ buffer_wf (buffer (snd (package_add p1 (F_data [x00])))).
Proof. apply package_add_safe; [apply buffer_create_dynamic_wf|by repeat constructor|reflexivity]. Defined.

(** A failing read on a received package changes nothing.  Whatever kind of
    field is asked for, when the read reports failure the buffer and its cursor
    are what they were, so the caller may try another kind. *)
Theorem failed_read_restores p kind p' :
  buffer_wf (buffer p) -> is_dynamic (buffer p) = false ->
  package_read p kind = (None, p') -> p' = p.
Proof.
  intros [Hlen Hoff Hsz] Hd. unfold MAX_BUFFER_SIZE in Hsz.
  assert (Hid : forall p : t_package, set_buffer p (buffer p) = p) by (by intros []).
  assert (H32 : forall b' len, buffer_read_uint32 (buffer p) = (Some len, b') ->
            set_buffer p (set_offset b' (u64 (offset b' - 4))) = p /\ is_dynamic b' = false).
  { intros b' len. unfold buffer_read_uint32, buffer_check_capacity.
    destruct (Z.leb_spec 4 (u64 (size (buffer p) - offset (buffer p)))) as [Hc|]; [|done].
    rewrite u64_small in Hc by lia. simpl. unfold get_bytes. intros [= _ <-].
    unfold set_offset. cbn [offset size stream is_dynamic].
    rewrite (u64_small (offset (buffer p) + 4)) by lia. rewrite u64_small by lia.
    split; [|done]. clear. destruct p as [op []]. unfold set_buffer. cbn. do 2 f_equal. lia. }
  assert (Hnone : forall b', buffer_read_uint32 (buffer p) = (None, b') -> set_buffer p b' = p).
  { intros b'. unfold buffer_read_uint32. case_match; simpl; [|done].
    intros [= <-]. apply Hid. }
  destruct kind; cbn [package_read]; unfold package_read_uint8, package_read_int8,
    package_read_uint16, package_read_uint32, package_read_string, package_read_data, on_buffer.
  1-3: unfold buffer_read_uint8, buffer_read_int8, buffer_read_uint16;
    destruct (negb _); simpl; intros [=]; subst; apply Hid.
  - destruct (buffer_read_uint32 (buffer p)) as [[len|] b'] eqn:E; simpl; [done|].
    intros [= <-]. by apply Hnone.
  - unfold buffer_read_string.
    destruct (buffer_read_uint32 (buffer p)) as [[len|] b'] eqn:E.
    + destruct (H32 b' len eq_refl) as [Hr _].
      destruct (_ || _); simpl; intros [=]; subst; apply Hr.
    + intros [= <-]. by apply Hnone.
  - unfold buffer_read_data.
    destruct (buffer_read_uint32 (buffer p)) as [[len|] b'] eqn:E.
    + destruct (H32 b' len eq_refl) as [Hr Hd'].
      destruct (MAX_DATA_SIZE <? len); simpl; [intros [=]; subst; apply Hr|].
      unfold buffer_has_capacity. rewrite Hd'. simpl andb. cbv iota.
      destruct (negb _); simpl; intros [=]; subst; apply Hr.
    + intros [= <-]. by apply Hnone.
Qed.

Example failed_read_restores_witness :
  set_buffer (MkPackage 1 (MkBuffer 4 (be32 9) 0 false)) (MkBuffer 4 (be32 9) 0 false)
  = MkPackage 1 (MkBuffer 4 (be32 9) 0 false).
Proof.
  apply (failed_read_restores (MkPackage 1 (MkBuffer 4 (be32 9) 0 false)) (F_string "")).
  - split; vm_compute; split; discriminate || reflexivity.
  - reflexivity.
  - vm_compute. reflexivity.
Defined.
