(* ===== verification/Utils.v ===== *)
(** * Small utilities (utils/src/utils/utils.c, logger.c, hello.c)

    Copies into buffers of a given size, the path of a log, the logger that a
    process keeps in a static variable.  The commons logger, the current directory
    and [asprintf] are parameters, the memory that logger.c takes is counted. *)

From S2P Require Import Prelude CStrings Serialization.

(** ** Buffers of characters *)

(** [strncpy]: [n] bytes are written, the string and then zeros; undefined past the
    end of the buffer. *)
Definition strncpy (dest : list byte) (source : string) (n : nat) : option (list byte) :=
  if (length dest <? n)%nat then None
  else Some (take n (string_bytes source ++ replicate n x00) ++ drop n dest).

(** [dest[i] = b] *)
Definition put_byte (dest : list byte) (i : nat) (b : byte) : option (list byte) :=
  if (i <? length dest)%nat then Some (<[i := b]> dest) else None.

(** The length of the source, and the buffer. *)
Definition strlcpy (dest : list byte) (source : string) (size : nat) : option (Z * list byte) :=
  if (size =? 0)%nat then Some (strlen source, dest)
  else match strncpy dest source (size - 1) with
       | None => None
       | Some dest =>
           match put_byte dest (size - 1) x00 with
           | None => None
           | Some dest => Some (strlen source, dest)
           end
       end.

(** ** Files and the screen *)

(** What [stat] says of a path: none when it fails, or whether it is a regular file. *)
Definition regular_file_exists (stat : string -> option bool) (file_path : string) : bool :=
  match stat file_path with Some regular => regular | None => false end.

(** [snprintf] to a buffer of [PATH_MAX] bytes keeps what fits before the zero. *)
Definition printed (s : string) : string := String.substring 0 (Z.to_nat (PATH_MAX - 1)) s.

(** The path that [create_logger] gives to [log_create]. *)
Definition create_logger_path (directory process_name : string) : string :=
  printed (directory +:+ "/" +:+ process_name +:+ ".log").

Definition saludar (quien : string) : string := ("Hola desde " +:+ quien +:+ "!!")%string.

(** ** The logger of a process (logger.c) *)

Section Logger.
Context {t_log : Type}.

(** What the calls of [logger_init] give: [getcwd], [asprintf], [log_create] (with
    the level and the console fixed). *)
Record environment := MkEnvironment {
  getcwd : option string;
  asprintf_fails : bool;
  log_create : string -> string -> option t_log
}.

(** The static variable, the strings not yet freed, the loggers not yet destroyed. *)
Record logger_state := MkLogger { global_logger : option t_log; strings : nat; loggers : nat }.

Abbreviation LM := (ST logger_state).

Definition on_strings f s := MkLogger (global_logger s) (f (strings s)) (loggers s).

Definition allocate_string : LM unit := st_modify (on_strings S).
Definition free_string : LM unit := fun s =>
  match strings s with O => None | S n => Some (tt, MkLogger (global_logger s) n (loggers s)) end.

Definition log_create_step (env : environment) (path process_name : string) : LM unit :=
  match log_create env path process_name with
  | Some l => st_modify (fun s => MkLogger (Some l) (strings s) (S (loggers s)))
  | None => st_modify (fun s => MkLogger None (strings s) (loggers s))
  end.

Definition logger_init (env : environment) (process_name : string) : LM Z :=
  l ← st_gets global_logger;
  match l with
  | Some _ => mret 0
  | None =>
      match getcwd env with
      | None => mret (-1)
      | Some cwd =>
          allocate_string;;
          if asprintf_fails env then free_string;; mret (-1) else
          allocate_string;;
          log_create_step env (cwd +:+ "/" +:+ process_name +:+ ".log") process_name;;
          free_string;;
          free_string;;
          l ← st_gets global_logger;
          mret (match l with None => -1 | Some _ => 0 end)
      end
  end.

Definition logger_get : LM (option t_log) := st_gets global_logger.

(** [log_destroy] on the logger, which must not have been destroyed before. *)
Definition logger_destroy : LM unit := fun s =>
  match global_logger s, loggers s with
  | None, _ => Some (tt, s)
  | Some _, S n => Some (tt, MkLogger None (strings s) n)
  | Some _, O => None
  end.

(** One logger for the variable, and no string left. *)
Definition logger_wf (s : logger_state) : Prop :=
  strings s = 0%nat /\ loggers s = match global_logger s with Some _ => 1%nat | None => 0%nat end.

(** A process has at most one logger: the first that is made stays until it is
    destroyed, whatever names come later, a failure leaves none, and no string is
    left behind either way. *)
Theorem logger_init_once env process_name s :
  logger_wf s -> exists r s', logger_init env process_name s = Some (r, s') /\ logger_wf s' /\
    (r = 0 \/ r = -1) /\ (r = 0 <-> is_Some (global_logger s')) /\
    (forall l, global_logger s = Some l -> s' = s).
Proof.
  intros [Hs Hl]. destruct s as [g n k]. cbn in Hs, Hl. subst n k. unfold logger_init, mbind, st_bind, st_gets. cbn [global_logger].
  destruct g as [l|].
  { exists 0, (MkLogger (Some l) 0 1). split; [done|]. split; [done|]. split; [by left|]. split; [|done]. split; [by eexists|done]. }
  assert (Hfail : (-1 = 0 <-> is_Some (None (A := t_log)))) by (split; [done|by intros []]).
  destruct (getcwd env) as [cwd|].
  2:{ exists (-1), (MkLogger None 0 0). split; [done|]. split; [done|]. split; [by right|]. by split. }
  destruct (asprintf_fails env).
  { exists (-1), (MkLogger None 0 0). split; [done|]. split; [done|]. split; [by right|]. by split. }
  unfold log_create_step. destruct (log_create env _ _) as [l|].
  - exists 0, (MkLogger (Some l) 0 1). split; [done|]. split; [done|]. split; [by left|]. split; [|done]. split; [by eexists|done].
  - exists (-1), (MkLogger None 0 0). split; [done|]. split; [done|]. split; [by right|]. by split.
Qed.

Theorem logger_destroy_frees s :
  logger_wf s -> exists s', logger_destroy s = Some (tt, s') /\ logger_wf s' /\ global_logger s' = None /\ loggers s' = 0%nat.
Proof.
  intros [Hs Hl]. destruct s as [g n k]. cbn in Hs, Hl. subst n k. exists (MkLogger None 0 0). by destruct g.
Qed.

End Logger.

(** ** The bounded copy *)

Lemma take_text n s : take n (string_bytes s) = string_bytes (String.substring 0 n s).
Proof.
  revert s. induction n as [|n IH]; intros s; [by destruct s|]. destruct s as [|c s]; [done|].
  unfold string_bytes in *. cbn. f_equal. apply IH.
Qed.

Lemma substring_whole n s : (String.length s <= n)%nat -> String.substring 0 n s = s.
Proof.
  revert n. induction s as [|c s IH]; intros n Hn; [by destruct n|]. destruct n as [|n]; [cbn in Hn; lia|]. cbn in *. by rewrite IH by lia.
Qed.

Lemma c_string_app s rest : ~ x00 ∈ string_bytes s -> c_string (string_bytes s ++ x00 :: rest) = s.
Proof.
  unfold string_bytes. induction s as [|c s IH]; [done|].
  change (String.list_byte_of_string (String c s)) with (Ascii.byte_of_ascii c :: String.list_byte_of_string s).
  rewrite <- app_comm_cons. intros [Hc Hs]%not_elem_of_cons. cbn [c_string]. rewrite IH by done. rewrite Ascii.ascii_of_byte_of_ascii. destruct (Ascii.byte_of_ascii c); done.
Qed.

Lemma take_no_zero n s : ~ x00 ∈ string_bytes s -> ~ x00 ∈ string_bytes (String.substring 0 n s).
Proof. rewrite <- take_text. intros Hn Hin. apply Hn. rewrite <- (take_drop n). apply elem_of_app. by left. Qed.

(** The copy keeps within its size.  On a buffer of at least [size] bytes the copy is
    defined, touches no byte from [size] on, and leaves the first [size - 1]
    characters of the source, ended; what it returns, the length of the source, is
    less than [size] exactly when the copy is whole. *)
Theorem strlcpy_bounded dest source size :
  (size <= length dest)%nat -> ~ x00 ∈ string_bytes source ->
  exists dest', strlcpy dest source size = Some (strlen source, dest') /\
    length dest' = length dest /\ drop size dest' = drop size dest /\
    ((0 < size)%nat -> c_string dest' = String.substring 0 (size - 1) source) /\
    (strlen source < Z.of_nat size -> c_string dest' = source).
Proof.
  intros Hsize Hz. unfold strlcpy. destruct (Nat.eqb_spec size 0) as [->|Hne].
  { exists dest. split; [done|]. split; [done|]. split; [done|]. split; [lia|]. unfold strlen. lia. }
  unfold strncpy, put_byte. rewrite (proj2 (Nat.ltb_ge _ _)) by lia.
  set (copied := take (size - 1) (string_bytes source ++ replicate (size - 1) x00)).
  assert (Hc : length copied = (size - 1)%nat) by (unfold copied; rewrite length_take, length_app, length_replicate; lia).
  destruct (lookup_lt_is_Some_2 dest (size - 1)) as [b Hb]; [lia|].
  rewrite (drop_S dest b (size - 1) Hb). replace (S (size - 1)) with size by lia.
  rewrite length_app, Hc. cbn [length]. rewrite length_drop. rewrite (proj2 (Nat.ltb_lt _ _)) by lia.
  assert (Ei : <[(size - 1)%nat := x00]> (copied ++ b :: drop size dest) = copied ++ x00 :: drop size dest).
  { rewrite insert_app_r_alt by lia. by rewrite Hc, Nat.sub_diag. }
  rewrite Ei. eexists. split; [reflexivity|].
  assert (Htext : c_string (copied ++ x00 :: drop size dest) = String.substring 0 (size - 1) source).
  { unfold copied. rewrite take_app, take_text, length_string_bytes. set (k := (size - 1 - String.length source)%nat).
    rewrite take_replicate. destruct (Nat.min k (size - 1)) as [|j]; [cbn; rewrite app_nil_r; by apply c_string_app, take_no_zero|].
    cbn [replicate]. rewrite <- app_assoc. cbn [app]. by apply c_string_app, take_no_zero. }
  split; [|split; [|split]].
  - rewrite length_app, Hc. cbn [length]. rewrite length_drop. lia.
  - rewrite drop_app, Hc. replace (drop size copied) with (@nil byte) by (symmetry; apply drop_ge; lia).
    replace (size - (size - 1))%nat with 1%nat by lia. done.
  - done.
  - intros Hlen. rewrite Htext. apply substring_whole. unfold strlen in Hlen. lia.
Qed.

Example strlcpy_of : strlcpy (replicate 8 x21) "tp-so.log" 6 = Some (9, string_bytes "tp-so" ++ [x00; x21; x21]).
Proof. reflexivity. Qed.

Lemma strlcpy_bounded_witness : exists dest', strlcpy (replicate 8 x21) "tp-so.log" 6 = Some (9, dest') /\ c_string dest' = "tp-so".
Proof.
  destruct (strlcpy_bounded (replicate 8 x21) "tp-so.log" 6) as (dest' & E & _ & _ & Hc & _).
  - vm_compute. lia.
  - vm_compute. set_solver.
  - exists dest'. split; [exact E|]. apply Hc. lia.
Defined.
