(* ===== verification/Commons.v ===== *)
(** * The lists of the commons library

    The code keeps its queues in [t_list], a list of pointers of the so-commons
    library, which is not part of the repository.  Its operations are a class of
    functions, its documented behaviour a class of laws; every component that
    keeps lists is written against the first and proved against the second.
    A reference implementation shows that the laws can hold and lets the models
    run. *)

From Stdlib Require Import Sorting.Sorted Sorting.Permutation.
From S2P Require Import Prelude.

(** A pointer to a heap block. *)
Abbreviation ptr := positive.

(** What [list_remove_element] leaves: the first occurrence is gone. *)
Fixpoint remove_first (x : ptr) (l : list ptr) : list ptr :=
  match l with
  | [] => []
  | y :: l => if decide (y = x) then l else y :: remove_first x l
  end.

Class CommonsList : Type := {
  list_add : list ptr -> ptr -> list ptr;
  list_add_in_index : list ptr -> nat -> ptr -> list ptr;
  list_get : list ptr -> nat -> option ptr;
  list_remove : list ptr -> nat -> option ptr * list ptr;
  list_remove_element : list ptr -> ptr -> bool * list ptr;
  list_find : list ptr -> (ptr -> bool) -> option ptr;
  list_size : list ptr -> nat;
  list_is_empty : list ptr -> bool;
  list_sort : list ptr -> (ptr -> ptr -> bool) -> list ptr
}.

(** A comparator that [list_sort] may be given on [l]: [f a b] says that [a] goes
    first. *)
Definition strict_weak (l : list ptr) (f : ptr -> ptr -> bool) : Prop :=
  (forall a, a ∈ l -> f a a = false) /\
  (forall a b c, a ∈ l -> b ∈ l -> c ∈ l -> f a b = true -> f b c = true -> f a c = true) /\
  (forall a b c, a ∈ l -> b ∈ l -> c ∈ l -> f a b = false -> f b c = false -> f a c = false).

Class CommonsListSpec `(CL : CommonsList) : Prop := {
  list_add_spec l x : list_add l x = l ++ [x];
  list_add_in_index_spec l i x :
    (i <= length l)%nat -> list_add_in_index l i x = take i l ++ x :: drop i l;
  list_get_spec l i : list_get l i = l !! i;
  list_remove_spec l i : list_remove l i = (l !! i, delete i l);
  list_remove_element_spec l x :
    list_remove_element l x = (bool_decide (x ∈ l), remove_first x l);
  list_find_spec l p : list_find l p = List.find p l;
  list_size_spec l : list_size l = length l;
  list_is_empty_spec l : list_is_empty l = bool_decide (l = []);
  list_sort_perm l f : list_sort l f ≡ₚ l;
  list_sort_sorted l f :
    strict_weak l f -> StronglySorted (fun a b => f b a = false) (list_sort l f)
}.

#[global] Arguments list_add : simpl never.
#[global] Arguments list_add_in_index : simpl never.
#[global] Arguments list_get : simpl never.
#[global] Arguments list_remove : simpl never.
#[global] Arguments list_remove_element : simpl never.
#[global] Arguments list_find : simpl never.
#[global] Arguments list_size : simpl never.
#[global] Arguments list_is_empty : simpl never.
#[global] Arguments list_sort : simpl never.

(** ** Reference implementation *)

Fixpoint insert_sorted (f : ptr -> ptr -> bool) (x : ptr) (l : list ptr) : list ptr :=
  match l with
  | [] => [x]
  | y :: l => if f x y then x :: y :: l else y :: insert_sorted f x l
  end.

#[export] Instance commons_list_ref : CommonsList := {|
  list_add l x := l ++ [x];
  list_add_in_index l i x := take i l ++ x :: drop i l;
  list_get l i := l !! i;
  list_remove l i := (l !! i, delete i l);
  list_remove_element l x := (bool_decide (x ∈ l), remove_first x l);
  list_find l p := List.find p l;
  list_size l := length l;
  list_is_empty l := bool_decide (l = []);
  list_sort l f := fold_left (fun acc x => insert_sorted f x acc) l []
|}.

Lemma insert_sorted_perm f x l : insert_sorted f x l ≡ₚ x :: l.
Proof.
  induction l as [|y l IH]; simpl; [done|]. case_match; [done|].
  rewrite IH. apply Permutation_swap.
Qed.

Lemma insert_sorted_sorted L f x l :
  strict_weak L f -> x ∈ L -> (forall y, y ∈ l -> y ∈ L) ->
  StronglySorted (fun a b => f b a = false) l ->
  StronglySorted (fun a b => f b a = false) (insert_sorted f x l).
Proof.
  intros (Hirr & Htr & Hneg) Hx HL Hl. induction Hl as [|y l Hl IH Hy]; simpl.
  - by repeat constructor.
  - assert (HyL : y ∈ L) by (apply HL; constructor).
    assert (HlL : forall z, z ∈ l -> z ∈ L) by (intros; apply HL; by constructor).
    assert (Hflip : f x y = true -> f y x = false).
    { intros E. destruct (f y x) eqn:E'; [|done].
      rewrite <- (Hirr x Hx). symmetry. by apply (Htr x y x). }
    destruct (f x y) eqn:E.
    + constructor; [by constructor|]. constructor; [auto|].
      apply Forall_forall. intros z Hz. eapply Forall_forall in Hy; [|done].
      apply (Hneg z y x); auto.
    + constructor; [auto|]. rewrite insert_sorted_perm. by constructor.
Qed.

#[export] Instance commons_list_ref_spec : CommonsListSpec commons_list_ref.
Proof.
  split; try done; intros l f.
  - unfold list_sort, commons_list_ref.
    enough (H : forall acc, fold_left (fun acc x => insert_sorted f x acc) l acc ≡ₚ acc ++ l)
      by apply (H []).
    induction l as [|x l IH]; intros acc; simpl; [by rewrite app_nil_r|].
    rewrite IH, insert_sorted_perm. apply Permutation_middle.
  - intros Hf. unfold list_sort, commons_list_ref.
    enough (H : forall k acc, (forall y, y ∈ k -> y ∈ l) -> (forall y, y ∈ acc -> y ∈ l) ->
              StronglySorted (fun a b => f b a = false) acc ->
              StronglySorted (fun a b => f b a = false)
                (fold_left (fun acc x => insert_sorted f x acc) k acc)).
    { apply H; [done|by intros y ?%not_elem_of_nil|constructor]. }
    induction k as [|x k IH]; intros acc Hk Hacc Hs; simpl; [done|].
    assert (Hx : x ∈ l) by (apply Hk; constructor).
    apply IH; [by intros; apply Hk; constructor| |by eapply insert_sorted_sorted].
    intros y. rewrite (insert_sorted_perm f x acc). intros [->|?]%elem_of_cons; auto.
Qed.

(** ** Facts about what the operations leave *)

Lemma elem_of_perm (l k : list ptr) x : l ≡ₚ k -> (x ∈ l <-> x ∈ k).
Proof. by intros ->. Qed.

Lemma remove_first_not_in x l : x ∉ l -> remove_first x l = l.
Proof.
  induction l as [|y l IH]; [done|]. intros [Hne Hl]%not_elem_of_cons. simpl.
  rewrite decide_False by congruence. by rewrite IH.
Qed.

Lemma remove_first_perm x l : x ∈ l -> l ≡ₚ x :: remove_first x l.
Proof.
  induction l as [|y l IH]; [by intros ?%not_elem_of_nil|].
  intros Hx. simpl. destruct (decide (y = x)) as [->|Hne]; [done|].
  apply elem_of_cons in Hx as [->|Hx]; [done|].
  rewrite (IH Hx) at 1. apply Permutation_swap.
Qed.

Lemma remove_first_subset x y l : y ∈ remove_first x l -> y ∈ l.
Proof.
  induction l as [|z l IH]; simpl; [done|].
  destruct (decide (z = x)); rewrite ?elem_of_cons; naive_solver.
Qed.

Lemma remove_first_elem x y l : NoDup l -> y ∈ remove_first x l <-> y ∈ l /\ y <> x.
Proof.
  intros Hnd. destruct (decide (x ∈ l)) as [Hx|Hx].
  - pose proof (remove_first_perm x l Hx) as Hp. rewrite Hp in Hnd.
    apply NoDup_cons in Hnd as [Hn _].
    rewrite (elem_of_perm _ _ y Hp), elem_of_cons. naive_solver.
  - rewrite remove_first_not_in by done. naive_solver.
Qed.

Lemma remove_first_nodup x l : NoDup l -> NoDup (remove_first x l).
Proof.
  intros Hnd. destruct (decide (x ∈ l)) as [Hx|Hx].
  - rewrite (remove_first_perm x l Hx) in Hnd. by apply NoDup_cons in Hnd as [_ ?].
  - by rewrite remove_first_not_in.
Qed.

(** Taking an element out of one half of a split list. *)
Lemma remove_first_split x l a b :
  l ≡ₚ a ++ b -> NoDup l -> remove_first x l ≡ₚ remove_first x a ++ remove_first x b.
Proof.
  intros Hp Hnd. apply NoDup_Permutation.
  - by apply remove_first_nodup.
  - rewrite Hp in Hnd. apply NoDup_app in Hnd as (Ha & Hd & Hb).
    apply NoDup_app. split; [by apply remove_first_nodup|].
    split; [|by apply remove_first_nodup].
    intros y Hy%remove_first_subset Hy'%remove_first_subset. by eapply Hd.
  - intros y. rewrite elem_of_app, remove_first_elem by done.
    rewrite Hp in Hnd. apply NoDup_app in Hnd as (Ha & Hd & Hb).
    rewrite !remove_first_elem by done.
    rewrite (elem_of_perm _ _ y Hp), elem_of_app. naive_solver.
Qed.

Lemma find_some_in (p : ptr -> bool) l x : List.find p l = Some x -> x ∈ l /\ p x = true.
Proof. intros H%List.find_some. by rewrite list_elem_of_In. Qed.

Lemma find_none_all (p : ptr -> bool) l x : List.find p l = None -> x ∈ l -> p x = false.
Proof. intros H Hx. eapply List.find_none; [done|]. by rewrite <- list_elem_of_In. Qed.
