(* ===== verification/Protocol.v ===== *)
(** * Operation codes (utils/src/connection/protocol.h)

    The two enumerations and the values the compiler gives their constants.
    The codes of both share one byte of the package, and both start at 0. *)

From S2P Require Import Prelude.

Inductive t_master_op_code :=
| OP_WORKER_HANDSHAKE_REQ
| OP_WORKER_HANDSHAKE_RES
| OP_QUERY_HANDSHAKE
| OP_QUERY_FILE_PATH
| QC_OP_READ_DATA
| QC_OP_MASTER_FIN_DESCONEXION
| QC_OP_MASTER_FIN_PRIORIDAD
| QC_OP_MASTER_CONNECTION_OK
| OP_WORKER_ACK
| OP_WORKER_START_QUERY
| OP_WORKER_READ_MESSAGE_REQ
| OP_WORKER_END_QUERY
| OP_WORKER_PREEMPT_REQ
| OP_WORKER_EVICT_REQ
| OP_WORKER_EVICT_RES
| QC_OP_DISCONNECTION
| WORKER_OP_DISCONNECTION
| OP_ASSIGN_QUERY
| OP_EJECT_QUERY
| OP_END_QUERY
| OP_MASTER_QUERY_ERROR.

Inductive t_storage_op_code :=
| STORAGE_OP_BLOCK_READ_REQ
| STORAGE_OP_BLOCK_READ_RES
| STORAGE_OP_BLOCK_WRITE_REQ
| STORAGE_OP_BLOCK_WRITE_RES
| STORAGE_OP_FILE_CREATE_REQ
| STORAGE_OP_FILE_CREATE_RES
| STORAGE_OP_FILE_TRUNCATE_REQ
| STORAGE_OP_FILE_TRUNCATE_RES
| STORAGE_OP_TAG_COMMIT_REQ
| STORAGE_OP_TAG_COMMIT_RES
| STORAGE_OP_TAG_CREATE_REQ
| STORAGE_OP_TAG_CREATE_RES
| STORAGE_OP_TAG_DELETE_REQ
| STORAGE_OP_TAG_DELETE_RES
| STORAGE_OP_WORKER_GET_BLOCK_SIZE_REQ
| STORAGE_OP_WORKER_GET_BLOCK_SIZE_RES
| STORAGE_OP_WORKER_SEND_ID_REQ
| STORAGE_OP_WORKER_SEND_ID_RES
| STORAGE_OP_ACK
| STORAGE_OP_ERROR.

Definition master_op (c : t_master_op_code) : Z :=
  match c with
  | OP_WORKER_HANDSHAKE_REQ => 0
  | OP_WORKER_HANDSHAKE_RES => 1
  | OP_QUERY_HANDSHAKE => 2
  | OP_QUERY_FILE_PATH => 3
  | QC_OP_READ_DATA => 4
  | QC_OP_MASTER_FIN_DESCONEXION => 5
  | QC_OP_MASTER_FIN_PRIORIDAD => 6
  | QC_OP_MASTER_CONNECTION_OK => 7
  | OP_WORKER_ACK => 8
  | OP_WORKER_START_QUERY => 9
  | OP_WORKER_READ_MESSAGE_REQ => 10
  | OP_WORKER_END_QUERY => 11
  | OP_WORKER_PREEMPT_REQ => 12
  | OP_WORKER_EVICT_REQ => 13
  | OP_WORKER_EVICT_RES => 14
  | QC_OP_DISCONNECTION => 15
  | WORKER_OP_DISCONNECTION => 16
  | OP_ASSIGN_QUERY => 17
  | OP_EJECT_QUERY => 18
  | OP_END_QUERY => 19
  | OP_MASTER_QUERY_ERROR => 20
  end.

Definition storage_op (c : t_storage_op_code) : Z :=
  match c with
  | STORAGE_OP_BLOCK_READ_REQ => 0
  | STORAGE_OP_BLOCK_READ_RES => 1
  | STORAGE_OP_BLOCK_WRITE_REQ => 2
  | STORAGE_OP_BLOCK_WRITE_RES => 3
  | STORAGE_OP_FILE_CREATE_REQ => 4
  | STORAGE_OP_FILE_CREATE_RES => 5
  | STORAGE_OP_FILE_TRUNCATE_REQ => 6
  | STORAGE_OP_FILE_TRUNCATE_RES => 7
  | STORAGE_OP_TAG_COMMIT_REQ => 8
  | STORAGE_OP_TAG_COMMIT_RES => 9
  | STORAGE_OP_TAG_CREATE_REQ => 10
  | STORAGE_OP_TAG_CREATE_RES => 11
  | STORAGE_OP_TAG_DELETE_REQ => 12
  | STORAGE_OP_TAG_DELETE_RES => 13
  | STORAGE_OP_WORKER_GET_BLOCK_SIZE_REQ => 14
  | STORAGE_OP_WORKER_GET_BLOCK_SIZE_RES => 15
  | STORAGE_OP_WORKER_SEND_ID_REQ => 16
  | STORAGE_OP_WORKER_SEND_ID_RES => 17
  | STORAGE_OP_ACK => 18
  | STORAGE_OP_ERROR => 19
  end.

Lemma master_op_inj c c' : master_op c = master_op c' -> c = c'.
Proof. destruct c, c'; (done || discriminate). Qed.

Lemma storage_op_inj c c' : storage_op c = storage_op c' -> c = c'.
Proof. destruct c, c'; (done || discriminate). Qed.

Lemma master_op_byte c : 0 <= master_op c < 256.
Proof. destruct c; cbn; lia. Qed.

Lemma storage_op_byte c : 0 <= storage_op c < 256.
Proof. destruct c; cbn; lia. Qed.
