(* ===== verification/PackageTypes.v ===== *)
(** * The types of what is read from a package (utils/src/connection/serialization.c)

    Whatever the bytes of a package are, and whoever sent them, a field that is read
    has the type that the reader asked for. *)

From S2P Require Import Prelude Serialization Protocol.

(** A value of the kind of a field, as the C type and the limits of the format
    bound it. *)
Definition well_typed (kind v : field) : Prop :=
  match kind, v with
  | F_uint8 _, F_uint8 n => 0 <= n < 2 ^ 8
  | F_int8 _, F_int8 n => - 2 ^ 7 <= n < 2 ^ 7
  | F_uint16 _, F_uint16 n => 0 <= n < 2 ^ 16
  | F_uint32 _, F_uint32 n => 0 <= n < 2 ^ 32
  | F_string _, F_string s => strlen s <= MAX_STRING_LENGTH /\ ~ x00 ∈ string_bytes s
  | F_data _, F_data bs => Z.of_nat (length bs) <= MAX_DATA_SIZE
  | _, _ => False
  end.

Lemma length_mem_read_le m off n : (length (mem_read m off n) <= n)%nat.
Proof. unfold mem_read. rewrite length_take. lia. Qed.

Lemma le_val_read m off n : 0 <= le_val (mem_read m off n) < 256 ^ Z.of_nat n.
Proof.
  pose proof (le_val_bound (mem_read m off n)). pose proof (length_mem_read_le m off n).
  assert (256 ^ Z.of_nat (length (mem_read m off n)) <= 256 ^ Z.of_nat n) by (apply Z.pow_le_mono_r; lia). lia.
Qed.

Lemma be_bound n v : 0 <= le_val (rev (le_bytes n v)) < 256 ^ Z.of_nat n.
Proof. pose proof (le_val_bound (rev (le_bytes n v))) as H. by rewrite length_rev, length_le_bytes in H. Qed.

Lemma c_string_short bs : strlen (c_string bs) <= Z.of_nat (length bs).
Proof.
  unfold strlen. induction bs as [|b bs IH]; [done|]. cbn [c_string].
  destruct b; cbn [String.length length]; lia.
Qed.

Lemma c_string_no_nul bs : ~ x00 ∈ string_bytes (c_string bs).
Proof.
  induction bs as [|b bs IH]; [by intros ?%not_elem_of_nil|]. cbn [c_string].
  destruct b; [by intros ?%not_elem_of_nil|..];
    (intros [H|H]%elem_of_cons; [discriminate H|by apply IH]).
Qed.

Lemma read_uint32_typed b v b' : buffer_read_uint32 b = (Some v, b') -> 0 <= v < 2 ^ 32.
Proof.
  unfold buffer_read_uint32. destruct (negb _); [done|]. destruct (get_bytes b 4) as [bs b1]. intros [= <- _].
  unfold ntohl. apply (be_bound 4).
Qed.

Lemma read_string_typed b s b' :
  buffer_read_string b = (Some s, b') -> strlen s <= MAX_STRING_LENGTH /\ ~ x00 ∈ string_bytes s.
Proof.
  unfold buffer_read_string. destruct (buffer_read_uint32 b) as [[len|] b1] eqn:E; [|done]. apply read_uint32_typed in E.
  destruct (Z.ltb_spec MAX_STRING_LENGTH len); [done|]. cbn [orb]. destruct (negb _); [done|]. unfold get_bytes. intros [= <- _].
  split; [|apply c_string_no_nul]. pose proof (c_string_short (mem_read (stream b1) (Z.to_nat (offset b1)) (Z.to_nat len))).
  pose proof (length_mem_read_le (stream b1) (Z.to_nat (offset b1)) (Z.to_nat len)). lia.
Qed.

Lemma read_data_typed b bs b' : buffer_read_data b = (Some bs, b') -> Z.of_nat (length bs) <= MAX_DATA_SIZE.
Proof.
  unfold buffer_read_data. destruct (buffer_read_uint32 b) as [[sz|] b1] eqn:E; [|done]. apply read_uint32_typed in E.
  destruct (Z.ltb_spec MAX_DATA_SIZE sz); [done|]. destruct (buffer_has_capacity b1 sz) as [[|] b2]; cbn [negb]; [|done].
  unfold get_bytes. intros [= <- _]. pose proof (length_mem_read_le (stream b2) (Z.to_nat (offset b2)) (Z.to_nat sz)). lia.
Qed.

Lemma package_read_one p kind v p' : package_read p kind = (Some v, p') -> well_typed kind v.
Proof.
  destruct kind; cbn [package_read];
    unfold package_read_uint8, package_read_int8, package_read_uint16, package_read_uint32, package_read_string, package_read_data, on_buffer.
  - unfold buffer_read_uint8. destruct (negb _); [done|]. unfold get_bytes. intros [= <- _]. apply le_val_read.
  - unfold buffer_read_int8. destruct (negb _); [done|]. unfold get_bytes. intros [= <- _]. cbn [well_typed]. unfold i8, to_signed.
    pose proof (Z.mod_pos_bound (le_val (mem_read (stream (buffer p)) (Z.to_nat (offset (buffer p))) (Z.to_nat 1))) (2 ^ 8) ltac:(lia)).
    change (2 ^ (8 - 1)) with (2 ^ 7). destruct (Z.ltb_spec (le_val (mem_read (stream (buffer p)) (Z.to_nat (offset (buffer p))) (Z.to_nat 1)) mod 2 ^ 8) (2 ^ 7)); lia.
  - unfold buffer_read_uint16. destruct (negb _); [done|]. unfold get_bytes. intros [= <- _]. apply (be_bound 2).
  - destruct (buffer_read_uint32 (buffer p)) as [[n|] b] eqn:E; [|done]. intros [= <- _]. by eapply read_uint32_typed.
  - destruct (buffer_read_string (buffer p)) as [[str|] b] eqn:E; [|done]. intros [= <- _]. by eapply read_string_typed.
  - destruct (buffer_read_data (buffer p)) as [[data|] b] eqn:E; [|done]. intros [= <- _]. by eapply read_data_typed.
Qed.

(** C36: Reads are well typed.  From a package of any bytes, a sequence of reads that
    succeeds gives values of the kinds that were asked for, within the range of
    their C types, strings without a NUL inside and no longer than the limits; so
    what a handler does with a field does not depend on trusting its sender. *)
Theorem package_read_typed p kinds vs : package_read_all p kinds = Some vs -> Forall2 well_typed kinds vs.
Proof.
  revert p vs. induction kinds as [|kind kinds IH]; intros p vs; cbn [package_read_all]; [intros [= <-]; constructor|].
  destruct (package_read p kind) as [[v|] p'] eqn:E; [|done].
  destruct (package_read_all p' kinds) as [vs'|] eqn:E'; [|done]. intros [= <-].
  constructor; [by eapply package_read_one|by eapply IH].
Qed.

Lemma package_read_typed_witness :
  let p := MkPackage 7 (MkBuffer 6 [xff; x00; x00; x00; x01; x41] 0 false) in
  Forall2 well_typed [F_int8 0; F_string ""] [F_int8 (-1); F_string "A"].
Proof. intros p. apply (package_read_typed p). vm_compute. reflexivity. Defined.
