(* ===== verification/Sockets.v ===== *)
(** * Opening sockets (utils/src/utils/server.c, client_socket.c)

    The calls of the kernel that a server and a client make, in order, with what
    each function gives back when one of them fails.  What the kernel answers is a
    class; what the functions own, descriptors and lists of addresses, is the state,
    so that a leak or a second [freeaddrinfo] shows. *)

From S2P Require Import Prelude.

(** ** What a process owns *)

(** The hints of [getaddrinfo]: the family and whether the socket is to be bound. *)
Inductive family := AF_UNSPEC | AF_INET.

Record hints_t := MkHints { ai_family : family; passive : bool }.

(** An address of the list, as the kernel knows it. *)
Record address := MkAddress { host : string; service : string; resolved_with : hints_t }.

(** What has been done to a socket. *)
Inductive setup := Reusable | Bound (a : address) | Listens | Connected (a : address).

(** The open descriptors, the last thing done to each first, and the number of
    lists not yet freed. *)
Record process := MkProcess { descriptors : gmap Z (list setup); address_lists : nat }.

Abbreviation OS := (ST process).

Definition on_descriptors f st := MkProcess (f (descriptors st)) (address_lists st).

(** The answers of the kernel, which may depend on all that the process has done. *)
Class SocketCalls : Type := {
  resolves : process -> string -> string -> hints_t -> bool;
  new_socket : process -> address -> Z;
  setsockopt_returns : process -> Z -> Z;
  bind_returns : process -> Z -> address -> Z;
  listen_returns : process -> Z -> Z;
  connect_returns : process -> Z -> address -> Z
}.

(** A new socket is a descriptor that was not in use, or -1. *)
Class SocketCallsSpec (SC : SocketCalls) : Prop :=
  new_socket_fresh st a : new_socket st a = -1 \/ (0 <= new_socket st a /\ descriptors st !! new_socket st a = None).

Section Sockets.
Context {SC : SocketCalls}.

(** ** System calls *)

Definition getaddrinfo (ip port : string) (hints : hints_t) : OS (option address) := fun st =>
  if resolves st ip port hints then Some (Some (MkAddress ip port hints), MkProcess (descriptors st) (S (address_lists st)))
  else Some (None, st).

(** Undefined for a list that is not there. *)
Definition freeaddrinfo : OS unit := fun st =>
  match address_lists st with O => None | S n => Some (tt, MkProcess (descriptors st) n) end.

Definition socket (a : address) : OS Z := fun st =>
  let fd := new_socket st a in Some (fd, if fd =? -1 then st else on_descriptors <[fd := []]> st).

(** A call that does [s] to a socket when it does not answer -1. *)
Definition call (returns : process -> Z) (fd : Z) (s : setup) : OS Z := fun st =>
  Some (returns st, if returns st =? -1 then st else on_descriptors (alter (cons s) fd) st).

Definition setsockopt (fd : Z) : OS Z := call (fun st => setsockopt_returns st fd) fd Reusable.
Definition bind (fd : Z) (a : address) : OS Z := call (fun st => bind_returns st fd a) fd (Bound a).
Definition listen (fd : Z) : OS Z := call (fun st => listen_returns st fd) fd Listens.
Definition connect (fd : Z) (a : address) : OS Z := call (fun st => connect_returns st fd a) fd (Connected a).

Definition close (fd : Z) : OS unit := st_modify (on_descriptors (delete fd)).

(** ** server.c *)

Definition ERROR_INVALID_PARAMS : Z := -1.
Definition ERROR_GETADDRINFO : Z := -2.
Definition ERROR_SOCKET_CREATE : Z := -3.
Definition ERROR_SETSOCKOPT : Z := -4.
Definition ERROR_BIND : Z := -5.
Definition ERROR_LISTEN : Z := -6.

(** The label [cleanup]. *)
Definition server_cleanup (server_info : bool) (server_socket retval : Z) : OS Z :=
  st_when server_info freeaddrinfo;;
  st_when (negb (server_socket =? -1)) (close server_socket);;
  mret retval.

Definition start_server (ip port : option string) : OS Z :=
  match ip, port with
  | Some ip, Some port =>
      server_info ← getaddrinfo ip port (MkHints AF_UNSPEC true);
      match server_info with
      | None => server_cleanup false (-1) ERROR_GETADDRINFO
      | Some a =>
          server_socket ← socket a;
          if server_socket =? -1 then server_cleanup true server_socket ERROR_SOCKET_CREATE else
          rc ← setsockopt server_socket;
          if rc =? -1 then server_cleanup true server_socket ERROR_SETSOCKOPT else
          rc ← bind server_socket a;
          if rc =? -1 then server_cleanup true server_socket ERROR_BIND else
          rc ← listen server_socket;
          if rc =? -1 then server_cleanup true server_socket ERROR_LISTEN else
          freeaddrinfo;;
          mret server_socket
      end
  | _, _ => mret ERROR_INVALID_PARAMS
  end.

Definition start_server_error_string (error_code : Z) : string :=
  if error_code =? ERROR_INVALID_PARAMS then "Invalid parameters (NULL IP or port)"
  else if error_code =? ERROR_GETADDRINFO then "Failed to resolve address information"
  else if error_code =? ERROR_SOCKET_CREATE then "Failed to create socket"
  else if error_code =? ERROR_SETSOCKOPT then "Failed to set socket options"
  else if error_code =? ERROR_BIND then "Failed to bind socket to address"
  else if error_code =? ERROR_LISTEN then "Failed to set socket to listen mode"
  else "Unknown error".

Definition connect_to_server (ip port : option string) : OS Z :=
  match ip, port with
  | Some ip, Some port =>
      server_info ← getaddrinfo ip port (MkHints AF_UNSPEC false);
      match server_info with
      | None => mret (-2)
      | Some a =>
          client_socket ← socket a;
          if client_socket =? -1 then freeaddrinfo;; mret (-3) else
          rc ← connect client_socket a;
          if rc =? -1 then close client_socket;; freeaddrinfo;; mret (-4) else
          freeaddrinfo;;
          mret client_socket
      end
  | _, _ => mret (-1)
  end.

(** ** client_socket.c *)

Definition client_connect (server_ip server_port : option string) : OS Z :=
  match server_ip, server_port with
  | Some server_ip, Some server_port =>
      server_info ← getaddrinfo server_ip server_port (MkHints AF_INET false);
      match server_info with
      | None => mret (-1)
      | Some a =>
          client_socket ← socket a;
          if client_socket =? -1 then freeaddrinfo;; mret (-1) else
          connection_result ← connect client_socket a;
          if connection_result =? -1 then close client_socket;; freeaddrinfo;; mret (-1) else
          freeaddrinfo;;
          mret client_socket
      end
  | _, _ => mret (-1)
  end.

Definition client_disconnect (client_socket : Z) : OS unit :=
  st_when (negb (client_socket =? -1)) (close client_socket).

(** ** What they own when they return *)

(** [m] gives a socket that was not open, set up as [final] says for the address it was
    asked for, or an error in [lowest .. -1] with nothing left open; the list of
    addresses is freed either way. *)
Definition opens (m : OS Z) (ip port : option string) (h : hints_t) (final : address -> list setup) (lowest : Z) : Prop :=
  forall st, wp m (fun r st' => address_lists st' = address_lists st /\
    ((0 <= r /\ descriptors st !! r = None /\ exists i p, ip = Some i /\ port = Some p /\
        descriptors st' = <[r := final (MkAddress i p h)]> (descriptors st)) \/
     (lowest <= r < 0 /\ descriptors st' = descriptors st))) st.

Definition server_setup (a : address) : list setup := [Listens; Bound a; Reusable].
Definition client_setup (a : address) : list setup := [Connected a].

Context {SCS : SocketCallsSpec SC}.

(** [st'] is [st] with the socket [fd] on the way and a list of addresses. *)
Definition opening (st : process) (fd : Z) (s : list setup) (st' : process) : Prop :=
  0 <= fd /\ descriptors st !! fd = None /\ descriptors st' = <[fd := s]> (descriptors st) /\
  address_lists st' = S (address_lists st).

Lemma wp_getaddrinfo i p h (Q : option address -> process -> Prop) st :
  Q None st ->
  (forall st', descriptors st' = descriptors st -> address_lists st' = S (address_lists st) -> Q (Some (MkAddress i p h)) st') ->
  wp (getaddrinfo i p h) Q st.
Proof. intros H0 H1. unfold wp, getaddrinfo. destruct (resolves st i p h); [by apply H1|done]. Qed.

Lemma wp_socket a (Q : Z -> process -> Prop) st st1 :
  descriptors st1 = descriptors st -> address_lists st1 = S (address_lists st) ->
  Q (-1) st1 -> (forall fd st', fd <> -1 -> opening st fd [] st' -> Q fd st') -> wp (socket a) Q st1.
Proof.
  intros Hd Hl H0 H1. unfold wp, socket. destruct (new_socket_fresh st1 a) as [->|[Hge Hf]]; [done|].
  destruct (Z.eqb_spec (new_socket st1 a) (-1)); [lia|]. apply H1; [done|]. rewrite Hd in Hf.
  split; [done|]. split; [done|]. cbn. by rewrite Hd.
Qed.

Lemma wp_set_up returns fd s s' (Q : Z -> process -> Prop) st st1 :
  opening st fd s st1 -> Q (-1) st1 -> (forall rc st', rc <> -1 -> opening st fd (s' :: s) st' -> Q rc st') ->
  wp (call returns fd s') Q st1.
Proof.
  intros (Hge & Hf & Hd & Hl) H0 H1. unfold wp, call. destruct (Z.eqb_spec (returns st1) (-1)) as [->|Hne]; [done|].
  apply H1; [done|]. split; [done|]. split; [done|]. cbn. by rewrite Hd, alter_insert_eq.
Qed.

Lemma wp_freeaddrinfo (Q : unit -> process -> Prop) n st :
  address_lists st = S n -> Q tt (MkProcess (descriptors st) n) -> wp freeaddrinfo Q st.
Proof. intros E. unfold wp, freeaddrinfo. by rewrite E. Qed.

(** The ends of the three functions. *)
Lemma kept_socket ip port i p h final lowest st fd st1 :
  ip = Some i -> port = Some p -> opening st fd (final (MkAddress i p h)) st1 ->
  wp (freeaddrinfo;; mret fd) (fun r st' => address_lists st' = address_lists st /\
    ((0 <= r /\ descriptors st !! r = None /\ exists i p, ip = Some i /\ port = Some p /\
        descriptors st' = <[r := final (MkAddress i p h)]> (descriptors st)) \/
     (lowest <= r < 0 /\ descriptors st' = descriptors st))) st1.
Proof.
  intros Ei Ep (Hge & Hf & Hd & Hl). apply wp_bind. eapply wp_freeaddrinfo; [done|]. apply wp_ret. split; [done|]. left.
  split; [done|]. split; [done|]. by exists i, p.
Qed.

Lemma closed_socket (Q : Z -> process -> Prop) st fd s st1 r :
  opening st fd s st1 -> (forall st', address_lists st' = address_lists st -> descriptors st' = descriptors st -> Q r st') ->
  wp (close fd;; freeaddrinfo;; mret r) Q st1 /\ wp (freeaddrinfo;; close fd;; mret r) Q st1.
Proof.
  intros (Hge & Hf & Hd & Hl) HQ.
  split; (apply wp_bind, wp_modify, wp_bind || apply wp_bind); (eapply wp_freeaddrinfo; [done|]);
    (apply wp_ret || apply wp_bind, wp_modify, wp_ret); apply HQ; try done; cbn; by rewrite Hd, delete_insert_id.
Qed.

Lemma start_server_opens ip port : opens (start_server ip port) ip port (MkHints AF_UNSPEC true) server_setup (-6).
Proof.
  intros st. unfold start_server. destruct ip as [i|], port as [p|]; try (apply wp_ret; split; [done|right; done]).
  apply wp_bind, wp_getaddrinfo; [apply wp_bind, wp_ret, wp_bind, wp_ret, wp_ret; split; [done|right; done]|]. intros st1 Hd1 Hl1.
  apply wp_bind. eapply wp_socket; [done|done| |].
  { change (-1 =? -1) with true. cbv iota. apply wp_bind. eapply wp_freeaddrinfo; [done|]. apply wp_bind, wp_ret, wp_ret.
    split; [done|right; done]. }
  intros fd st2 Hfd H2. assert (Efd : (fd =? -1) = false) by by apply Z.eqb_neq. rewrite Efd.
  assert (Hclean : forall s st' r, opening st fd s st' -> -6 <= r < 0 ->
            wp (server_cleanup true fd r) (fun r st' => address_lists st' = address_lists st /\
              ((0 <= r /\ descriptors st !! r = None /\ exists i' p', Some i = Some i' /\ Some p = Some p' /\
                  descriptors st' = <[r := server_setup (MkAddress i' p' (MkHints AF_UNSPEC true))]> (descriptors st)) \/
               (-6 <= r < 0 /\ descriptors st' = descriptors st))) st').
  { intros s st' r Hop Hr. unfold server_cleanup. rewrite Efd. eapply closed_socket; [done|]. intros st'' Hl Hd. split; [done|]. by right. }
  apply wp_bind. eapply wp_set_up; [done|by eapply Hclean|]. intros rc3 st3 H3 Hop3. rewrite (proj2 (Z.eqb_neq _ _) H3).
  apply wp_bind. eapply wp_set_up; [done|by eapply Hclean|]. intros rc4 st4 H4 Hop4. rewrite (proj2 (Z.eqb_neq _ _) H4).
  apply wp_bind. eapply wp_set_up; [done|by eapply Hclean|]. intros rc5 st5 H5 Hop5. rewrite (proj2 (Z.eqb_neq _ _) H5).
  by eapply kept_socket.
Qed.

Lemma connect_to_server_opens ip port : opens (connect_to_server ip port) ip port (MkHints AF_UNSPEC false) client_setup (-4).
Proof.
  intros st. unfold connect_to_server. destruct ip as [i|], port as [p|]; try (apply wp_ret; split; [done|right; done]).
  apply wp_bind, wp_getaddrinfo; [apply wp_ret; split; [done|right; done]|]. intros st1 Hd1 Hl1.
  apply wp_bind. eapply wp_socket; [done|done| |].
  { apply wp_bind. eapply wp_freeaddrinfo; [done|]. apply wp_ret. split; [done|right; done]. }
  intros fd st2 Hfd H2. rewrite (proj2 (Z.eqb_neq _ _) Hfd).
  apply wp_bind. eapply wp_set_up; [done| |].
  { eapply closed_socket; [done|]. intros st'' Hl Hd. split; [done|]. by right. }
  intros rc st3 H3 Hop3. rewrite (proj2 (Z.eqb_neq _ _) H3). by eapply kept_socket.
Qed.

Lemma client_connect_opens ip port : opens (client_connect ip port) ip port (MkHints AF_INET false) client_setup (-1).
Proof.
  intros st. unfold client_connect. destruct ip as [i|], port as [p|]; try (apply wp_ret; split; [done|right; done]).
  apply wp_bind, wp_getaddrinfo; [apply wp_ret; split; [done|right; done]|]. intros st1 Hd1 Hl1.
  apply wp_bind. eapply wp_socket; [done|done| |].
  { apply wp_bind. eapply wp_freeaddrinfo; [done|]. apply wp_ret. split; [done|right; done]. }
  intros fd st2 Hfd H2. rewrite (proj2 (Z.eqb_neq _ _) Hfd).
  apply wp_bind. eapply wp_set_up; [done| |].
  { eapply closed_socket; [done|]. intros st'' Hl Hd. split; [done|]. by right. }
  intros rc st3 H3 Hop3. rewrite (proj2 (Z.eqb_neq _ _) H3). by eapply kept_socket.
Qed.

(** C35: Nothing leaks.  Whatever the kernel refuses, each of the three functions gives
    either a socket that is new and ready, listening for [start_server] and
    connected for the others, or an error, with every descriptor as it was; the list
    of addresses is always freed, once; and every error of [start_server] has its
    message. *)
Theorem sockets_accounted ip port :
  opens (start_server ip port) ip port (MkHints AF_UNSPEC true) server_setup (-6) /\
  opens (connect_to_server ip port) ip port (MkHints AF_UNSPEC false) client_setup (-4) /\
  opens (client_connect ip port) ip port (MkHints AF_INET false) client_setup (-1) /\
  (forall r, -6 <= r < 0 -> start_server_error_string r <> "Unknown error").
Proof.
  split; [apply start_server_opens|]. split; [apply connect_to_server_opens|]. split; [apply client_connect_opens|].
  intros r Hr. assert (H : r = -1 \/ r = -2 \/ r = -3 \/ r = -4 \/ r = -5 \/ r = -6) by lia.
  by repeat destruct H as [->|H]; [..|subst r].
Qed.

End Sockets.

(** ** A kernel that refuses to bind *)

(** One socket at a time. *)
Definition one_socket : SocketCalls := {|
  resolves _ _ _ _ := true;
  new_socket st _ := if decide (descriptors st !! 3 = None) then 3 else -1;
  setsockopt_returns _ _ := 0;
  bind_returns _ _ _ := -1;
  listen_returns _ _ := 0;
  connect_returns _ _ _ := 0
|}.

Lemma one_socket_spec : SocketCallsSpec one_socket.
Proof. intros st a. cbn. destruct (decide _); [right; split; [lia|done]|by left]. Qed.

Lemma sockets_accounted_witness :
  start_server (SC := one_socket) (Some "0.0.0.0") (Some "8001") (MkProcess ∅ 0) = Some (ERROR_BIND, MkProcess ∅ 0) /\
  opens (start_server (SC := one_socket) (Some "0.0.0.0") (Some "8001")) (Some "0.0.0.0") (Some "8001")
    (MkHints AF_UNSPEC true) server_setup (-6).
Proof.
  split; [reflexivity|]. apply (sockets_accounted (SC := one_socket) (SCS := one_socket_spec) (Some "0.0.0.0") (Some "8001")).
Defined.
