(* ===== verification/Config.v ===== *)
(** * The configuration files of the processes

    [t_config] of the so-commons library, a class, and what the Master, the worker
    and the Query Control read of theirs (config/ of each).  The Storage reads its
    own in StorageMain.v.

    A file that cannot be opened is none; a missing key is NULL, which [strdup] and
    [atoi] must not get: [None] outside is undefined behaviour, inside the NULL of
    the function. *)

From S2P Require Import Prelude CStrings.

Class CommonsConfig : Type := {
  t_config : Type;
  config_parse : list byte -> t_config;
  config_text : t_config -> list byte;
  config_get : t_config -> string -> option string;
  config_set_value : t_config -> string -> string -> t_config;
  string_get_string_as_array : string -> list string
}.

(** The number of keys, which only one component asks for. *)
Class CommonsConfigKeys (CC : CommonsConfig) : Type := config_keys_amount : t_config -> nat.

Section Config.
Context {CC : CommonsConfig}.

Definition config_has_property (c : t_config) (key : string) : bool :=
  match config_get c key with Some _ => true | None => false end.

(** [config_get_int_value] is [atoi] of the value. *)
Definition config_get_int_value (c : t_config) (key : string) : Z := atoi (default EmptyString (config_get c key)).

(** ** The Master (master_config.c) *)

Record t_master_config := MkMasterConfig {
  mc_ip : string;
  mc_port : string;
  scheduler_algorithm : string;
  aging_time : Z;
  mc_log_level : string
}.

Definition create_master_config (config_file : option t_config) : option (option t_master_config) :=
  match config_file with
  | None => Some None
  | Some config =>
      ip ← config_get config "IP_ESCUCHA";
      port ← config_get config "PUERTO_ESCUCHA";
      scheduler_algorithm ← config_get config "ALGORITMO_PLANIFICACION";
      aging_time ← config_get config "TIEMPO_AGING";
      log_level ← config_get config "LOG_LEVEL";
      Some (Some (MkMasterConfig ip port scheduler_algorithm (atoi aging_time) log_level))
  end.

(** ** The Query Control (query_control_config.c) *)

Record t_query_control_config := MkQueryControlConfig { qc_ip : string; qc_port : string; qc_log_level : string }.

Definition create_query_control_config (config_file : option t_config) : option (option t_query_control_config) :=
  match config_file with
  | None => Some None
  | Some config =>
      ip ← config_get config "IP_MASTER";
      port ← config_get config "PUERTO_MASTER";
      log_level ← config_get config "LOG_LEVEL";
      Some (Some (MkQueryControlConfig ip port log_level))
  end.

(** ** The worker (worker_config.c) *)

(** A block of [malloc], by the names of its fields: what has been written so far. *)
Record t_worker_config := MkWorkerConfig { strings : gmap string string; numbers : gmap string Z }.

Definition str_fields : list (string * string) := [
  ("IP_MASTER", "master_ip");
  ("PUERTO_MASTER", "master_port");
  ("IP_STORAGE", "storage_ip");
  ("PUERTO_STORAGE", "storage_port");
  ("ALGORITMO_REEMPLAZO", "replacement_algorithm");
  ("PATH_SCRIPTS", "path_scripts");
  ("LOG_LEVEL", "log_level")].

Definition int_fields : list (string * string) := [
  ("TAM_MEMORIA", "memory_size");
  ("RETARDO_MEMORIA", "memory_retardation")].

(** The two loops: false is [goto error]. *)
Fixpoint read_str_fields (fields : list (string * string)) (config : t_config) (wc : t_worker_config)
    : bool * t_worker_config :=
  match fields with
  | [] => (true, wc)
  | (key, field) :: fields =>
      match config_get config key with
      | None | Some EmptyString => (false, wc)
      | Some value => read_str_fields fields config (MkWorkerConfig (<[field := value]> (strings wc)) (numbers wc))
      end
  end.

Fixpoint read_int_fields (fields : list (string * string)) (config : t_config) (wc : t_worker_config)
    : bool * t_worker_config :=
  match fields with
  | [] => (true, wc)
  | (key, field) :: fields =>
      if negb (config_has_property config key) then (false, wc) else
      read_int_fields fields config
        (MkWorkerConfig (strings wc) (<[field := config_get_int_value config key]> (numbers wc)))
  end.

(** [free] of a field that nobody has written is undefined. *)
Definition destroy_worker_config (wc : t_worker_config) : option unit :=
  if forallb (fun field => bool_decide (is_Some (strings wc !! field)))
       ["master_ip"; "master_port"; "storage_ip"; "storage_port"; "replacement_algorithm"; "path_scripts"; "log_level"]
  then Some tt else None.

Definition create_worker_config (config_file : option t_config) : option (option t_worker_config) :=
  match config_file with
  | None => Some None
  | Some config =>
      let fail wc := (_ ← destroy_worker_config wc; Some None) in
      let '(ok, wc) := read_str_fields str_fields config (MkWorkerConfig ∅ ∅) in
      if negb ok then fail wc else
      let '(ok, wc) := read_int_fields int_fields config wc in
      if negb ok then fail wc else Some (Some wc)
  end.

(** ** What the worker reads *)

(** A value that [create_worker_config] takes. *)
Definition has_value (config : t_config) (key : string) : Prop := exists v, config_get config key = Some v /\ v <> EmptyString.

Lemma read_str_fields_ok fields config wc :
  NoDup fields.*2 ->
  match read_str_fields fields config wc with
  | (true, wc') => numbers wc' = numbers wc /\
      (forall field, field ∉ fields.*2 -> strings wc' !! field = strings wc !! field) /\
      (forall key field, (key, field) ∈ fields ->
         exists v, config_get config key = Some v /\ v <> EmptyString /\ strings wc' !! field = Some v)
  | (false, wc') => exists key field, (key, field) ∈ fields /\ ~ has_value config key /\ strings wc' !! field = strings wc !! field
  end.
Proof.
  revert wc. induction fields as [|[key field] fields IH]; intros wc Hnd; cbn [read_str_fields].
  - split; [done|]. split; [done|]. by intros ? ? ?%not_elem_of_nil.
  - cbn [fmap list_fmap] in Hnd. apply NoDup_cons in Hnd as [Hf Hnd].
    assert (Hbad : ~ has_value config key -> exists k f, (k, f) ∈ (key, field) :: fields /\ ~ has_value config k /\ strings wc !! f = strings wc !! f).
    { intros Hn. exists key, field. split; [left|done]. }
    destruct (config_get config key) as [[|c v]|] eqn:E; [apply Hbad; intros (v & E' & Hv); congruence| |apply Hbad; intros (v & E' & _); congruence].
    specialize (IH (MkWorkerConfig (<[field := String c v]> (strings wc)) (numbers wc)) Hnd).
    destruct (read_str_fields fields config _) as [[|] wc']; cbn [strings numbers] in IH.
    + destruct IH as (Hn & Hsame & Hread). split; [done|]. split.
      * intros f [Hne Hin]%not_elem_of_cons. rewrite Hsame by done. by rewrite lookup_insert_ne.
      * intros k f [[= -> ->]|Hin]%elem_of_cons; [|by apply Hread]. exists (String c v).
        split; [done|]. split; [done|]. rewrite Hsame by done. apply lookup_insert_eq.
    + destruct IH as (k & f & Hin & Hno & Hs). exists k, f. split; [by right|]. split; [done|]. rewrite Hs, lookup_insert_ne; [done|].
      intros ->. apply Hf. apply list_elem_of_fmap. by exists (k, f).
Qed.

Lemma read_int_fields_ok fields config wc :
  NoDup fields.*2 ->
  strings (snd (read_int_fields fields config wc)) = strings wc /\
  match read_int_fields fields config wc with
  | (true, wc') => (forall field, field ∉ fields.*2 -> numbers wc' !! field = numbers wc !! field) /\
      (forall key field, (key, field) ∈ fields ->
         is_Some (config_get config key) /\ numbers wc' !! field = Some (config_get_int_value config key))
  | (false, _) => exists key field, (key, field) ∈ fields /\ config_get config key = None
  end.
Proof.
  revert wc. induction fields as [|[key field] fields IH]; intros wc Hnd; cbn [read_int_fields].
  - split; [done|]. split; [done|]. by intros ? ? ?%not_elem_of_nil.
  - cbn [fmap list_fmap] in Hnd. apply NoDup_cons in Hnd as [Hf Hnd].
    unfold config_has_property. destruct (config_get config key) as [v|] eqn:E; cbn [negb].
    2:{ split; [done|]. exists key, field. split; [left|done]. }
    specialize (IH (MkWorkerConfig (strings wc) (<[field := config_get_int_value config key]> (numbers wc))) Hnd).
    destruct IH as [Hs IH]. split; [exact Hs|].
    destruct (read_int_fields fields config _) as [[|] wc']; cbn [strings numbers] in IH.
    + destruct IH as (Hsame & Hread). split.
      * intros f [Hne Hin]%not_elem_of_cons. rewrite Hsame by done. by rewrite lookup_insert_ne.
      * intros k f [[= -> ->]|Hin]%elem_of_cons; [|by apply Hread]. rewrite E. split; [by eexists|].
        rewrite Hsame by done. apply lookup_insert_eq.
    + destruct IH as (k & f & Hin & Hno). exists k, f. split; [by right|done].
Qed.

(** What the worker makes of its file.  With all its keys the fields are the values;
    without a number it says so; but without one of the strings the function frees
    fields it has not written: the error it means to report is undefined behaviour. *)
Theorem worker_config_read config :
  match create_worker_config (Some config) with
  | Some (Some wc) =>
      (forall key field, (key, field) ∈ str_fields ->
         exists v, config_get config key = Some v /\ v <> EmptyString /\ strings wc !! field = Some v) /\
      (forall key field, (key, field) ∈ int_fields ->
         is_Some (config_get config key) /\ numbers wc !! field = Some (config_get_int_value config key))
  | Some None =>
      (forall key field, (key, field) ∈ str_fields -> has_value config key) /\
      (exists key field, (key, field) ∈ int_fields /\ config_get config key = None)
  | None => exists key field, (key, field) ∈ str_fields /\ ~ has_value config key
  end.
Proof.
  assert (Hs : NoDup str_fields.*2) by (by apply (bool_decide_unpack _)).
  assert (Hi : NoDup int_fields.*2) by (by apply (bool_decide_unpack _)).
  unfold create_worker_config. pose proof (read_str_fields_ok str_fields config (MkWorkerConfig ∅ ∅) Hs) as H1.
  destruct (read_str_fields str_fields config _) as [[|] wc]; cbn [negb].
  - destruct H1 as (_ & _ & H1). pose proof (read_int_fields_ok int_fields config wc Hi) as [Hsame H2].
    destruct (read_int_fields int_fields config wc) as [[|] wc']; cbn [negb snd] in *.
    + destruct H2 as [_ H2]. split; [|done]. by rewrite Hsame.
    + assert (Hd : destroy_worker_config wc' = Some tt).
      { unfold destroy_worker_config. rewrite Hsame. assert (Hall : forallb (fun f => bool_decide (is_Some (strings wc !! f))) str_fields.*2 = true).
        { apply forallb_forall. intros f Hin%list_elem_of_In. apply list_elem_of_fmap in Hin as ([k f'] & -> & Hin).
          destruct (H1 k f' Hin) as (v & _ & _ & E). apply bool_decide_eq_true. cbn. by rewrite E. }
        cbn [fmap list_fmap str_fields snd] in Hall. by rewrite Hall. }
      rewrite Hd. cbn. split; [|done]. intros k f Hin. destruct (H1 k f Hin) as (v & E & Hv & _). by exists v.
  - destruct H1 as (key & field & Hin & Hno & E). cbn [strings] in E. rewrite lookup_empty in E.
    assert (Hd : destroy_worker_config wc = None).
    { unfold destroy_worker_config. destruct (forallb _ _) eqn:Eb; [|done]. exfalso.
      rewrite forallb_forall in Eb. assert (Hin' : In field str_fields.*2).
      { apply list_elem_of_In, list_elem_of_fmap. by exists (key, field). }
      specialize (Eb field Hin'). apply bool_decide_eq_true in Eb. rewrite E in Eb. by destruct Eb. }
    rewrite Hd. cbn. by exists key, field.
Qed.

End Config.
