(* ===== verification/MasterState.v ===== *)
(** * The state of the Master (master/src/init_master.h and the two managers' headers)

    The tables, the control blocks in the heap the lists point into, the two
    mutexes, and what has been handed to the sockets.  The handlers of the other
    Master files are programs of the monad [M] over this state; a dereference of a
    freed block, a second lock of a mutex by its owner and an unlock of a mutex
    that is not held are undefined. *)

From S2P Require Import Prelude Commons Serialization.

(** ** Data *)

Inductive t_query_state :=
| QUERY_STATE_NEW | QUERY_STATE_READY | QUERY_STATE_RUNNING
| QUERY_STATE_COMPLETED | QUERY_STATE_CANCELED.

Inductive t_worker_state :=
| WORKER_STATE_DISCONNECTED | WORKER_STATE_IDLE | WORKER_STATE_BUSY.

#[export] Instance t_query_state_eq_dec : EqDecision t_query_state.
Proof. solve_decision. Defined.
#[export] Instance t_worker_state_eq_dec : EqDecision t_worker_state.
Proof. solve_decision. Defined.

Record t_query_control_block := MkQcb {
  q_socket_fd : Z;
  query_id : Z;
  query_file_path : string;
  priority : Z;
  initial_priority : Z;
  ready_timestamp : Z;
  assigned_worker_id : Z;
  program_counter : Z;
  preemption_pending : bool;
  cleaned_up : bool;
  q_state : t_query_state
}.

Record t_worker_control_block := MkWcb {
  worker_id : Z;
  ip_address : option string;
  port : Z;
  w_socket_fd : Z;
  current_query_id : Z;
  w_state : t_worker_state
}.

Record t_query_table := MkQueryTable {
  query_list : list ptr;
  ready_queue : list ptr;
  running_list : list ptr;
  completed_list : list ptr;
  canceled_list : list ptr;
  total_queries : Z;
  next_query_id : Z
}.

Record t_worker_table := MkWorkerTable {
  worker_list : list ptr;
  total_workers_connected : Z;
  idle_list : list ptr;
  busy_list : list ptr;
  disconnected_list : list ptr
}.

Record t_master := MkMaster {
  queries_table : t_query_table;
  workers_table : t_worker_table;
  aging_interval : Z;
  scheduling_algorithm : string;
  multiprogramming_level : Z
}.

Inductive mutex := worker_table_mutex | query_table_mutex.

#[export] Instance mutex_eq_dec : EqDecision mutex.
Proof. solve_decision. Defined.

(** [held] are the mutexes the running thread owns; [lock_log] records every
    acquisition with the mutexes already owned at that moment. *)
Record world := MkWorld {
  master : t_master;
  qheap : gmap ptr t_query_control_block;
  wheap : gmap ptr t_worker_control_block;
  held : list mutex;
  lock_log : list (mutex * list mutex);
  outbox : list (Z * list byte);
  closed_fds : list Z
}.

Abbreviation M := (ST world).

(** ** Field updates *)

Definition on_qcb_state (s : t_query_state) (q : t_query_control_block) :=
  MkQcb (q_socket_fd q) (query_id q) (query_file_path q) (priority q) (initial_priority q)
    (ready_timestamp q) (assigned_worker_id q) (program_counter q) (preemption_pending q)
    (cleaned_up q) s.
Definition on_qcb_worker (i : Z) (q : t_query_control_block) :=
  MkQcb (q_socket_fd q) (query_id q) (query_file_path q) (priority q) (initial_priority q)
    (ready_timestamp q) i (program_counter q) (preemption_pending q) (cleaned_up q) (q_state q).
Definition on_qcb_pc (pc : Z) (q : t_query_control_block) :=
  MkQcb (q_socket_fd q) (query_id q) (query_file_path q) (priority q) (initial_priority q)
    (ready_timestamp q) (assigned_worker_id q) pc (preemption_pending q) (cleaned_up q) (q_state q).
Definition on_qcb_pending (b : bool) (q : t_query_control_block) :=
  MkQcb (q_socket_fd q) (query_id q) (query_file_path q) (priority q) (initial_priority q)
    (ready_timestamp q) (assigned_worker_id q) (program_counter q) b (cleaned_up q) (q_state q).
Definition on_qcb_timestamp (t : Z) (q : t_query_control_block) :=
  MkQcb (q_socket_fd q) (query_id q) (query_file_path q) (priority q) (initial_priority q)
    t (assigned_worker_id q) (program_counter q) (preemption_pending q) (cleaned_up q) (q_state q).
Definition on_qcb_priority (n : Z) (q : t_query_control_block) :=
  MkQcb (q_socket_fd q) (query_id q) (query_file_path q) n (initial_priority q)
    (ready_timestamp q) (assigned_worker_id q) (program_counter q) (preemption_pending q)
    (cleaned_up q) (q_state q).
Definition on_qcb_cleaned (b : bool) (q : t_query_control_block) :=
  MkQcb (q_socket_fd q) (query_id q) (query_file_path q) (priority q) (initial_priority q)
    (ready_timestamp q) (assigned_worker_id q) (program_counter q) (preemption_pending q)
    b (q_state q).

(** A worker block with another current query and state. *)
Definition on_wcb (current : Z) (s : t_worker_state) (w : t_worker_control_block) :=
  MkWcb (worker_id w) (ip_address w) (port w) (w_socket_fd w) current s.

Definition on_query_list f t := MkQueryTable (f (query_list t)) (ready_queue t) (running_list t)
  (completed_list t) (canceled_list t) (total_queries t) (next_query_id t).
Definition on_ready_queue f t := MkQueryTable (query_list t) (f (ready_queue t)) (running_list t)
  (completed_list t) (canceled_list t) (total_queries t) (next_query_id t).
Definition on_running_list f t := MkQueryTable (query_list t) (ready_queue t) (f (running_list t))
  (completed_list t) (canceled_list t) (total_queries t) (next_query_id t).
Definition on_completed_list f t := MkQueryTable (query_list t) (ready_queue t) (running_list t)
  (f (completed_list t)) (canceled_list t) (total_queries t) (next_query_id t).
Definition on_canceled_list f t := MkQueryTable (query_list t) (ready_queue t) (running_list t)
  (completed_list t) (f (canceled_list t)) (total_queries t) (next_query_id t).
Definition on_total_queries f t := MkQueryTable (query_list t) (ready_queue t) (running_list t)
  (completed_list t) (canceled_list t) (f (total_queries t)) (next_query_id t).
Definition on_next_query_id f t := MkQueryTable (query_list t) (ready_queue t) (running_list t)
  (completed_list t) (canceled_list t) (total_queries t) (f (next_query_id t)).

Definition on_worker_list f t := MkWorkerTable (f (worker_list t)) (total_workers_connected t)
  (idle_list t) (busy_list t) (disconnected_list t).
Definition on_workers_connected f t := MkWorkerTable (worker_list t)
  (f (total_workers_connected t)) (idle_list t) (busy_list t) (disconnected_list t).
Definition on_idle_list f t := MkWorkerTable (worker_list t) (total_workers_connected t)
  (f (idle_list t)) (busy_list t) (disconnected_list t).
Definition on_busy_list f t := MkWorkerTable (worker_list t) (total_workers_connected t)
  (idle_list t) (f (busy_list t)) (disconnected_list t).
Definition on_disconnected_list f t := MkWorkerTable (worker_list t) (total_workers_connected t)
  (idle_list t) (busy_list t) (f (disconnected_list t)).

Definition on_master f w := MkWorld (f (master w)) (qheap w) (wheap w) (held w) (lock_log w)
  (outbox w) (closed_fds w).
Definition on_qheap f w := MkWorld (master w) (f (qheap w)) (wheap w) (held w) (lock_log w)
  (outbox w) (closed_fds w).
Definition on_wheap f w := MkWorld (master w) (qheap w) (f (wheap w)) (held w) (lock_log w)
  (outbox w) (closed_fds w).
Definition on_queries f w := on_master (fun m => MkMaster (f (queries_table m))
  (workers_table m) (aging_interval m) (scheduling_algorithm m) (multiprogramming_level m)) w.
Definition on_workers f w := on_master (fun m => MkMaster (queries_table m)
  (f (workers_table m)) (aging_interval m) (scheduling_algorithm m) (multiprogramming_level m)) w.
Definition on_level (n : Z) w := on_master (fun m => MkMaster (queries_table m)
  (workers_table m) (aging_interval m) (scheduling_algorithm m) n) w.

Definition on_held hs log w := MkWorld (master w) (qheap w) (wheap w) hs log
  (outbox w) (closed_fds w).
Definition on_outbox ob w := MkWorld (master w) (qheap w) (wheap w) (held w) (lock_log w)
  ob (closed_fds w).
Definition on_closed fds w := MkWorld (master w) (qheap w) (wheap w) (held w) (lock_log w)
  (outbox w) fds.

(** ** Reading the state *)

Definition queries (w : world) : t_query_table := queries_table (master w).
Definition workers (w : world) : t_worker_table := workers_table (master w).

(** ** Memory *)

Definition get_q (p : ptr) : M t_query_control_block := fun w =>
  match qheap w !! p with Some q => Some (q, w) | None => None end.
Definition get_w (p : ptr) : M t_worker_control_block := fun w =>
  match wheap w !! p with Some b => Some (b, w) | None => None end.

(** Assignments to fields of [*p]. *)
Definition mod_q (p : ptr) (f : t_query_control_block -> t_query_control_block) : M unit :=
  q ← get_q p; st_modify (on_qheap (fun h => <[p := f q]> h)).
Definition mod_w (p : ptr) (f : t_worker_control_block -> t_worker_control_block) : M unit :=
  b ← get_w p; st_modify (on_wheap (fun h => <[p := f b]> h)).

Definition malloc_q (q : t_query_control_block) : M ptr := fun w =>
  let p := fresh (dom (qheap w)) in Some (p, on_qheap (fun h => <[p := q]> h) w).
Definition malloc_w (b : t_worker_control_block) : M ptr := fun w =>
  let p := fresh (dom (wheap w)) in Some (p, on_wheap (fun h => <[p := b]> h) w).

Definition free_q (p : ptr) : M unit :=
  _ ← get_q p; st_modify (on_qheap (fun h => delete p h)).
Definition free_w (p : ptr) : M unit :=
  _ ← get_w p; st_modify (on_wheap (fun h => delete p h)).

(** ** Mutexes *)

Definition lock (m : mutex) : M unit := fun w =>
  if bool_decide (m ∈ held w) then None
  else Some (tt, on_held (m :: held w) ((m, held w) :: lock_log w) w).

Definition unlock (m : mutex) : M unit := fun w =>
  if bool_decide (m ∈ held w)
  then Some (tt, on_held (filter (fun m' => m' <> m) (held w)) (lock_log w) w)
  else None.

(** ** Sockets

    [kernel] is what [send] answers, as a function of everything sent before, the
    socket and the block: any behaviour of the network is some such function. *)

Class Kernel : Type := send_returns : list (Z * list byte) -> Z -> list byte -> Z.

Definition send_package `{Kernel} (p : t_package) (fd : Z) : M Z := fun w =>
  let answer := send_returns (outbox w) fd (serialized_package p) in
  let '(rc, block) := package_send p fd answer in
  Some (rc, on_outbox ((fd, block) :: outbox w) w).

Definition close_fd (fd : Z) : M unit := fun w =>
  Some (tt, on_closed (fd :: closed_fds w) w).

(** A kernel that takes every block whole. *)
Definition kernel_ok : Kernel := fun _ _ block => Z.of_nat (length block).
(** A kernel that refuses every block. *)
Definition kernel_down : Kernel := fun _ _ _ => -1.

(** ** Loops and searches over the lists *)

Section Lists.
Context `{CL : CommonsList}.

(** [for (i = ...; i < list_size(l); i++) { x = list_get(l, i); if (c) break; }] *)
Fixpoint scan_from {S} (l : list ptr) (c : ptr -> ST S bool) (i n : nat) : ST S (option ptr) :=
  match n with
  | O => mret None
  | Datatypes.S n =>
      match list_get l i with
      | None => scan_from l c (Datatypes.S i) n
      | Some p => b ← c p; if (b : bool) then mret (Some p) else scan_from l c (Datatypes.S i) n
      end
  end.

Definition scan {S} (l : list ptr) (c : ptr -> ST S bool) : ST S (option ptr) :=
  scan_from l c 0 (list_size l).

(** [list_find] calls its predicate on elements of the list, all of which it
    dereferences: they must be allocated. *)
Definition find_q (l : list ptr) (c : t_query_control_block -> bool) : M (option ptr) := fun w =>
  if forallb (fun p => bool_decide (is_Some (qheap w !! p))) l
  then Some (list_find l (fun p => match qheap w !! p with Some q => c q | None => false end), w)
  else None.
Definition find_w (l : list ptr) (c : t_worker_control_block -> bool) : M (option ptr) := fun w =>
  if forallb (fun p => bool_decide (is_Some (wheap w !! p))) l
  then Some (list_find l (fun p => match wheap w !! p with Some b => c b | None => false end), w)
  else None.

(** [list_remove_element] on a list of the tables, for its effect. *)
Definition drop_elem (x : ptr) (l : list ptr) : list ptr := snd (list_remove_element l x).

End Lists.

(** ** What an update leaves: the equations that simplify a state *)

Create Rewrite HintDb world.

Section WorldEquations.
Implicit Types (w : world).

Lemma queries_on_queries f w : queries (on_queries f w) = f (queries w).
Proof. done. Qed.
Lemma queries_on_workers f w : queries (on_workers f w) = queries w.
Proof. done. Qed.
Lemma queries_on_level n w : queries (on_level n w) = queries w.
Proof. done. Qed.
Lemma queries_on_qheap f w : queries (on_qheap f w) = queries w.
Proof. done. Qed.
Lemma queries_on_wheap f w : queries (on_wheap f w) = queries w.
Proof. done. Qed.
Lemma queries_on_held hs log w : queries (on_held hs log w) = queries w.
Proof. done. Qed.
Lemma queries_on_outbox ob w : queries (on_outbox ob w) = queries w.
Proof. done. Qed.
Lemma queries_on_closed fds w : queries (on_closed fds w) = queries w.
Proof. done. Qed.

Lemma workers_on_queries f w : workers (on_queries f w) = workers w.
Proof. done. Qed.
Lemma workers_on_workers f w : workers (on_workers f w) = f (workers w).
Proof. done. Qed.
Lemma workers_on_level n w : workers (on_level n w) = workers w.
Proof. done. Qed.
Lemma workers_on_qheap f w : workers (on_qheap f w) = workers w.
Proof. done. Qed.
Lemma workers_on_wheap f w : workers (on_wheap f w) = workers w.
Proof. done. Qed.
Lemma workers_on_held hs log w : workers (on_held hs log w) = workers w.
Proof. done. Qed.
Lemma workers_on_outbox ob w : workers (on_outbox ob w) = workers w.
Proof. done. Qed.
Lemma workers_on_closed fds w : workers (on_closed fds w) = workers w.
Proof. done. Qed.

Lemma qheap_on_queries f w : qheap (on_queries f w) = qheap w.
Proof. done. Qed.
Lemma qheap_on_workers f w : qheap (on_workers f w) = qheap w.
Proof. done. Qed.
Lemma qheap_on_level n w : qheap (on_level n w) = qheap w.
Proof. done. Qed.
Lemma qheap_on_qheap f w : qheap (on_qheap f w) = f (qheap w).
Proof. done. Qed.
Lemma qheap_on_wheap f w : qheap (on_wheap f w) = qheap w.
Proof. done. Qed.
Lemma qheap_on_held hs log w : qheap (on_held hs log w) = qheap w.
Proof. done. Qed.
Lemma qheap_on_outbox ob w : qheap (on_outbox ob w) = qheap w.
Proof. done. Qed.
Lemma qheap_on_closed fds w : qheap (on_closed fds w) = qheap w.
Proof. done. Qed.

Lemma wheap_on_queries f w : wheap (on_queries f w) = wheap w.
Proof. done. Qed.
Lemma wheap_on_workers f w : wheap (on_workers f w) = wheap w.
Proof. done. Qed.
Lemma wheap_on_level n w : wheap (on_level n w) = wheap w.
Proof. done. Qed.
Lemma wheap_on_qheap f w : wheap (on_qheap f w) = wheap w.
Proof. done. Qed.
Lemma wheap_on_wheap f w : wheap (on_wheap f w) = f (wheap w).
Proof. done. Qed.
Lemma wheap_on_held hs log w : wheap (on_held hs log w) = wheap w.
Proof. done. Qed.
Lemma wheap_on_outbox ob w : wheap (on_outbox ob w) = wheap w.
Proof. done. Qed.
Lemma wheap_on_closed fds w : wheap (on_closed fds w) = wheap w.
Proof. done. Qed.

Lemma held_on_queries f w : held (on_queries f w) = held w.
Proof. done. Qed.
Lemma held_on_workers f w : held (on_workers f w) = held w.
Proof. done. Qed.
Lemma held_on_level n w : held (on_level n w) = held w.
Proof. done. Qed.
Lemma held_on_qheap f w : held (on_qheap f w) = held w.
Proof. done. Qed.
Lemma held_on_wheap f w : held (on_wheap f w) = held w.
Proof. done. Qed.
Lemma held_on_held hs log w : held (on_held hs log w) = hs.
Proof. done. Qed.
Lemma held_on_outbox ob w : held (on_outbox ob w) = held w.
Proof. done. Qed.
Lemma held_on_closed fds w : held (on_closed fds w) = held w.
Proof. done. Qed.
End WorldEquations.

#[export] Hint Rewrite queries_on_queries queries_on_workers queries_on_level queries_on_qheap
  queries_on_wheap queries_on_held queries_on_outbox queries_on_closed : world.
#[export] Hint Rewrite workers_on_queries workers_on_workers workers_on_level workers_on_qheap
  workers_on_wheap workers_on_held workers_on_outbox workers_on_closed : world.
#[export] Hint Rewrite qheap_on_queries qheap_on_workers qheap_on_level qheap_on_qheap
  qheap_on_wheap qheap_on_held qheap_on_outbox qheap_on_closed : world.
#[export] Hint Rewrite wheap_on_queries wheap_on_workers wheap_on_level wheap_on_qheap
  wheap_on_wheap wheap_on_held wheap_on_outbox wheap_on_closed : world.
#[export] Hint Rewrite held_on_queries held_on_workers held_on_level held_on_qheap
  held_on_wheap held_on_held held_on_outbox held_on_closed : world.

(** ** Rules for the primitives *)

Lemma wp_get_q p q (Q : _ -> world -> Prop) w :
  qheap w !! p = Some q -> Q q w -> wp (get_q p) Q w.
Proof. intros H HQ. unfold wp, get_q. by rewrite H. Qed.

Lemma wp_get_w p b (Q : _ -> world -> Prop) w :
  wheap w !! p = Some b -> Q b w -> wp (get_w p) Q w.
Proof. intros H HQ. unfold wp, get_w. by rewrite H. Qed.

Lemma wp_mod_q p q f (Q : unit -> world -> Prop) w :
  qheap w !! p = Some q -> Q tt (on_qheap (fun h => <[p := f q]> h) w) -> wp (mod_q p f) Q w.
Proof. intros H HQ. unfold mod_q. apply wp_bind. by eapply wp_get_q. Qed.

Lemma wp_mod_w p b f (Q : unit -> world -> Prop) w :
  wheap w !! p = Some b -> Q tt (on_wheap (fun h => <[p := f b]> h) w) -> wp (mod_w p f) Q w.
Proof. intros H HQ. unfold mod_w. apply wp_bind. by eapply wp_get_w. Qed.

Lemma wp_free_q p q (Q : unit -> world -> Prop) w :
  qheap w !! p = Some q -> Q tt (on_qheap (fun h => delete p h) w) -> wp (free_q p) Q w.
Proof. intros H HQ. unfold free_q. apply wp_bind. by eapply wp_get_q. Qed.

Lemma wp_free_w p b (Q : unit -> world -> Prop) w :
  wheap w !! p = Some b -> Q tt (on_wheap (fun h => delete p h) w) -> wp (free_w p) Q w.
Proof. intros H HQ. unfold free_w. apply wp_bind. by eapply wp_get_w. Qed.

Lemma wp_lock m (Q : unit -> world -> Prop) w :
  m ∉ held w -> Q tt (on_held (m :: held w) ((m, held w) :: lock_log w) w) -> wp (lock m) Q w.
Proof. intros H HQ. unfold wp, lock. by rewrite bool_decide_eq_false_2. Qed.

Lemma wp_unlock m (Q : unit -> world -> Prop) w :
  m ∈ held w -> Q tt (on_held (filter (fun m' => m' <> m) (held w)) (lock_log w) w) ->
  wp (unlock m) Q w.
Proof. intros H HQ. unfold wp, unlock. by rewrite bool_decide_eq_true_2. Qed.

Lemma wp_send_package `{Kernel} p fd (Q : Z -> world -> Prop) w :
  (forall rc ob, Q rc (on_outbox ob w)) -> wp (send_package p fd) Q w.
Proof. intros HQ. unfold wp, send_package. destruct (package_send _ _ _). apply HQ. Qed.

Lemma wp_close_fd fd (Q : unit -> world -> Prop) w :
  Q tt (on_closed (fd :: closed_fds w) w) -> wp (close_fd fd) Q w.
Proof. done. Qed.

(** Computes the updates of a state given by its fields. *)
Ltac world_cbv :=
  cbv [on_master on_qheap on_wheap on_queries on_workers on_level on_held on_outbox on_closed
       on_query_list on_ready_queue on_running_list on_completed_list on_canceled_list
       on_total_queries on_next_query_id on_worker_list on_workers_connected on_idle_list
       on_busy_list on_disconnected_list queries workers master qheap wheap held lock_log outbox
       closed_fds queries_table workers_table aging_interval scheduling_algorithm
       multiprogramming_level query_list ready_queue running_list completed_list canceled_list
       total_queries next_query_id worker_list total_workers_connected idle_list busy_list
       disconnected_list].

(** Two states are compared field by field. *)
Ltac destruct_world w :=
  destruct w as [[[? ? ? ? ? ? ?] [? ? ? ? ?] ? ? ?] ? ? ? ? ? ?].
