(* ===== verification/Scheduler.v ===== *)
(** * Queries and dispatch (master/src/query_control_manager.c, scheduler.c)

    The creation of a query control block, the ordered insertion in the READY
    queue and [try_dispatch], which hands the first ready query to the first idle
    worker. *)

From S2P Require Import Prelude Commons Serialization Protocol MasterState.

Section Scheduler.
Context `{CL : CommonsList} `{KN : Kernel}.

Definition is_priority (w : world) : bool :=
  String.eqb (scheduling_algorithm (master w)) "PRIORITY".

(** ** query_control_manager.c *)

(** The counter is an [int]: past [INT_MAX] the increment is undefined. *)
Definition generate_query_id : M Z :=
  n ← st_gets (fun w => next_query_id (queries w));
  if n + 1 <? 2 ^ 31 then
    st_modify (on_queries (on_next_query_id (fun _ => n + 1)));; mret (n + 1)
  else st_ub.

Fixpoint insert_loop (l : list ptr) (new_qcb : ptr) (i n : nat) : M (Z * list ptr) :=
  match n with
  | O => mret (0, list_add l new_qcb)
  | S n =>
      match list_get l i with
      | None => mret (-1, l)
      | Some existing_qcb =>
          a ← get_q new_qcb;
          b ← get_q existing_qcb;
          if priority a <? priority b
          then mret (0, list_add_in_index l i new_qcb)
          else insert_loop l new_qcb (S i) n
      end
  end.

(** Returns the code and the list as it is left. *)
Definition insert_query_by_priority (l : list ptr) (new_qcb : ptr) : M (Z * list ptr) :=
  insert_loop l new_qcb 0 (list_size l).

(** The insertion on the READY queue of the tables. *)
Definition insert_ready (qcb : ptr) : M Z :=
  l ← st_gets (fun w => ready_queue (queries w));
  r ← insert_query_by_priority l qcb;
  st_modify (on_queries (on_ready_queue (fun _ => snd r)));;
  mret (fst r).

Definition new_qcb (id : Z) (path : string) (prio socket_fd now : Z) : t_query_control_block :=
  MkQcb socket_fd id path prio prio now (-1) 0 false false QUERY_STATE_READY.

Definition create_query (id : Z) (path : string) (prio socket_fd now : Z) : M ptr :=
  lock query_table_mutex;;
  qcb ← malloc_q (new_qcb id path prio socket_fd now);
  st_modify (on_queries (on_query_list (fun l => list_add l qcb)));;
  by_priority ← st_gets is_priority;
  (if (by_priority : bool)
   then _ ← insert_ready qcb; mret tt
   else st_modify (on_queries (on_ready_queue (fun l => list_add l qcb))));;
  st_modify (on_queries (on_total_queries (fun n => n + 1)));;
  unlock query_table_mutex;;
  mret qcb.

Definition manage_query_handshake (client_socket : Z) : M Z :=
  rc ← send_package (package_create_empty (master_op OP_QUERY_HANDSHAKE)) client_socket;
  mret (if rc <? 0 then -2 else 0).

(** ** scheduler.c *)

Definition send_query_to_worker (worker query : ptr) : M Z :=
  w ← get_w worker;
  if w_socket_fd w <=? 0 then mret (-1) else
  q ← get_q query;
  let pkg := package_create_empty (master_op OP_WORKER_START_QUERY) in
  let '(ok, pkg) := package_add_uint32 pkg (u32 (query_id q)) in
  if negb ok then mret (-1) else
  let '(ok, pkg) := package_add_uint32 pkg (u32 (program_counter q)) in
  if negb ok then mret (-1) else
  let '(ok, pkg) := package_add_string pkg (query_file_path q) in
  if negb ok then mret (-1) else
  rc ← send_package pkg (w_socket_fd w);
  mret (if rc =? 0 then 0 else -1).

(** Undo of an assignment whose message could not be sent. *)
Definition revert_dispatch (query worker : ptr) : M unit :=
  mod_w worker (on_wcb (-1) WORKER_STATE_IDLE);;
  mod_q query (fun q => on_qcb_worker (-1) (on_qcb_state QUERY_STATE_READY q));;
  st_modify (on_queries (on_running_list (drop_elem query)));;
  st_modify (on_workers (on_busy_list (drop_elem worker)));;
  by_priority ← st_gets is_priority;
  (if (by_priority : bool)
   then _ ← insert_ready query; mret tt
   else st_modify (on_queries (on_ready_queue (fun l => list_add l query))));;
  st_modify (on_workers (on_idle_list (fun l => list_add l worker))).

Definition assign_query_to_worker (query worker : ptr) : M Z :=
  q ← get_q query;
  mod_w worker (on_wcb (query_id q) WORKER_STATE_BUSY);;
  w ← get_w worker;
  mod_q query (fun q => on_qcb_pending false
                 (on_qcb_worker (worker_id w) (on_qcb_state QUERY_STATE_RUNNING q)));;
  st_modify (on_queries (on_running_list (fun l => list_add l query)));;
  st_modify (on_workers (on_busy_list (fun l => list_add l worker)));;
  rc ← send_query_to_worker worker query;
  if rc =? 0 then mret 0 else revert_dispatch query worker;; mret (-1).

(** What [try_dispatch] does with both mutexes taken. *)
Definition dispatch_locked : M Z :=
  wt ← st_gets workers;
  qt ← st_gets queries;
  if list_is_empty (idle_list wt) then mret 0 else
  if list_is_empty (ready_queue qt) then mret 0 else
  pending ← scan (running_list qt) (fun p => q ← get_q p; mret (preemption_pending q));
  match pending with
  | Some _ => mret 0
  | None =>
      let '(query, ready') := list_remove (ready_queue qt) 0 in
      let '(worker, idle') := list_remove (idle_list wt) 0 in
      st_modify (on_queries (on_ready_queue (fun _ => ready')));;
      st_modify (on_workers (on_idle_list (fun _ => idle')));;
      match query, worker with
      | Some query, Some worker => assign_query_to_worker query worker
      | _, _ => mret (-1)
      end
  end.

Definition try_dispatch : M Z :=
  lock worker_table_mutex;;
  lock query_table_mutex;;
  result ← dispatch_locked;
  unlock query_table_mutex;;
  unlock worker_table_mutex;;
  mret result.

(** The handler of OP_QUERY_FILE_PATH: [package] is the request, [now] the clock. *)
Definition manage_query_file_path (package : t_package) (client_socket now : Z) : M Z :=
  let '(query_path, package) := package_read_string package in
  let '(query_priority, _) := package_read_uint8 package in
  id ← generate_query_id;
  _ ← send_package (package_create_empty (master_op QC_OP_MASTER_CONNECTION_OK)) client_socket;
  match query_path, query_priority with
  | Some path, Some prio =>
      _ ← create_query id path prio client_socket now;
      _ ← try_dispatch;
      mret 0
  | _, _ => st_ub
  end.

End Scheduler.
