(* ===== verification/Cleanup.v ===== *)
(** * Release of queries and workers (master/src/disconnection_handler.c, second half)

    What the other handlers call to tell a Query Control that its query is over and
    to take a control block out of every list and free it. *)

From S2P Require Import Prelude Commons Serialization Protocol MasterState.

Section Cleanup.
Context `{CL : CommonsList} `{KN : Kernel}.

Definition find_query_by_socket (fd : Z) : M (option ptr) :=
  l ← st_gets (fun w => query_list (queries w));
  find_q l (fun q => q_socket_fd q =? fd).

Definition find_worker_by_socket (fd : Z) : M (option ptr) :=
  l ← st_gets (fun w => worker_list (workers w));
  find_w l (fun b => w_socket_fd b =? fd).

(** The results of the [package_add] calls are ignored by the code. *)
Definition finalize_query_with_error (qcb : ptr) (error_reason : option string) : M unit :=
  q ← get_q qcb;
  let pkg := package_create_empty (master_op QC_OP_MASTER_FIN_DESCONEXION) in
  let pkg := snd (package_add_uint32 pkg (u32 (query_id q))) in
  let pkg := match error_reason with
             | Some r => snd (package_add_string pkg r)
             | None => pkg
             end in
  _ ← send_package pkg (q_socket_fd q);
  mod_q qcb (on_qcb_state QUERY_STATE_CANCELED).

Definition cleanup_query_resources (qcb : ptr) : M unit :=
  q ← get_q qcb;
  if cleaned_up q then mret tt else
  mod_q qcb (on_qcb_cleaned true);;
  st_modify (on_queries (on_ready_queue (drop_elem qcb)));;
  st_modify (on_queries (on_running_list (drop_elem qcb)));;
  st_modify (on_queries (on_completed_list (drop_elem qcb)));;
  st_modify (on_queries (on_canceled_list (drop_elem qcb)));;
  st_modify (on_queries (on_query_list (drop_elem qcb)));;
  free_q qcb.

Definition cancel_query_in_ready (qcb : ptr) : M unit :=
  mod_q qcb (on_qcb_state QUERY_STATE_CANCELED);;
  finalize_query_with_error qcb (Some "Se cancela Query - QC desconectada (READY)").

Definition cleanup_worker_resources (wcb : ptr) : M unit :=
  _ ← get_w wcb;
  st_modify (on_workers (on_idle_list (drop_elem wcb)));;
  st_modify (on_workers (on_busy_list (drop_elem wcb)));;
  st_modify (on_workers (on_worker_list (drop_elem wcb)));;
  n ← st_gets (fun w => total_workers_connected (workers w));
  (if 0 <? n then
     st_modify (on_workers (on_workers_connected (fun n => n - 1)));;
     st_modify (on_level (n - 1))
   else mret tt);;
  st_modify (on_workers (on_disconnected_list (fun l => list_add l wcb)));;
  free_w wcb.

End Cleanup.
