(* ===== verification/Aging.v ===== *)
(** * Aging and preemption (master/src/aging.c)

    One round of the aging thread ages every query of the READY queue, sorts the
    queue again and then asks for the eviction of the worst running query when a
    better one waits. *)

From S2P Require Import Prelude Commons Serialization Protocol MasterState Cleanup.

Section Aging.
Context `{CL : CommonsList} `{KN : Kernel}.

(** [int intervals = elapsed / aging_interval], computed on 64-bit unsigned. *)
Definition aging_intervals (interval now : Z) (q : t_query_control_block) : Z :=
  i32 (u64 (now - ready_timestamp q) / u64 interval).

(** The body of the loop over the READY queue; the flag is [priorities_changed]. *)
Definition age_query (interval now : Z) (q : t_query_control_block)
    : t_query_control_block * bool :=
  if negb (bool_decide (q_state q = QUERY_STATE_READY)) then (q, false) else
  if ready_timestamp q =? 0 then (on_qcb_timestamp now q, false) else
  let elapsed := u64 (now - ready_timestamp q) in
  if elapsed <? u64 interval then (q, false) else
  let intervals := aging_intervals interval now q in
  let decrements := intervals in
  if (0 <? decrements) && (0 <? priority q) then
    let prio := if priority q <=? decrements then 0 else priority q - decrements in
    (on_qcb_timestamp (u64 (ready_timestamp q + u64 intervals * u64 interval))
       (on_qcb_priority prio q), true)
  else (q, false).

Fixpoint aging_scan (l : list ptr) (interval now : Z) (i n : nat) (changed : bool) : M bool :=
  match n with
  | O => mret changed
  | S n =>
      match list_get l i with
      | None => aging_scan l interval now (S i) n changed
      | Some p =>
          q ← get_q p;
          mod_q p (fun q => fst (age_query interval now q));;
          aging_scan l interval now (S i) n (changed || snd (age_query interval now q))
      end
  end.

(** [_qcb_priority_compare]: the lower number goes first. *)
Definition _qcb_priority_compare (h : gmap ptr t_query_control_block) (a b : ptr) : bool :=
  match h !! a, h !! b with
  | Some q1, Some q2 => priority q1 <? priority q2
  | _, _ => false
  end.

(** [list_sort] compares elements of the queue, which must be allocated. *)
Definition sort_ready : M unit := fun w =>
  if forallb (fun p => bool_decide (is_Some (qheap w !! p))) (ready_queue (queries w))
  then Some (tt, on_queries (on_ready_queue
                   (fun l => list_sort l (_qcb_priority_compare (qheap w)))) w)
  else None.

Definition match_worker_by_id (search_worker_id : Z) (b : t_worker_control_block) : bool :=
  worker_id b =? search_worker_id.

Definition preempt_query_in_exec (qcb : ptr) : M Z :=
  q ← get_q qcb;
  if preemption_pending q then mret 0 else
  l ← st_gets (fun w => worker_list (workers w));
  worker ← find_w l (match_worker_by_id (assigned_worker_id q));
  let invalid :=
    finalize_query_with_error qcb (Some "Error en preemption - worker inválido");;
    cleanup_query_resources qcb;;
    mret (-1) in
  match worker with
  | None => invalid
  | Some worker =>
      b ← get_w worker;
      if w_socket_fd b <=? 0 then invalid else
      mod_q qcb (on_qcb_pending true);;
      let pkg := package_create_empty (master_op OP_WORKER_PREEMPT_REQ) in
      let pkg := snd (package_add_uint32 pkg (u32 (query_id q))) in
      rc ← send_package pkg (w_socket_fd b);
      if negb (rc =? 0)
      then mod_q qcb (on_qcb_pending false);; mret (-1)
      else mret 0
  end.

(** The loop that looks for the running query with the largest number. *)
Fixpoint worst_loop (l : list ptr) (worst : option ptr) (i n : nat) : M (option ptr) :=
  match n with
  | O => mret worst
  | S n =>
      match list_get l i with
      | None => st_ub
      | Some p =>
          match worst with
          | None => worst_loop l (Some p) (S i) n
          | Some v =>
              q ← get_q p;
              b ← get_q v;
              worst_loop l (if priority b <? priority q then Some p else worst) (S i) n
          end
      end
  end.

(** What [check_preemption] does with both mutexes taken. *)
Definition preemption_locked : M unit :=
  wt ← st_gets workers;
  qt ← st_gets queries;
  if list_is_empty (busy_list wt) || list_is_empty (ready_queue qt) then mret tt else
  match list_get (ready_queue qt) 0 with
  | None => st_ub
  | Some best_ready =>
      worst_running ← worst_loop (running_list qt) None 0 (list_size (running_list qt));
      match worst_running with
      | None => mret tt
      | Some worst =>
          b ← get_q best_ready;
          v ← get_q worst;
          if priority v <=? priority b then mret tt
          else _ ← preempt_query_in_exec worst; mret tt
      end
  end.

Definition check_preemption : M unit :=
  lock worker_table_mutex;;
  lock query_table_mutex;;
  preemption_locked;;
  unlock query_table_mutex;;
  unlock worker_table_mutex.

(** One round of the loop of [aging_thread_func] after its sleep, at time [now]. *)
Definition aging_round (now : Z) : M unit :=
  interval ← st_gets (fun w => aging_interval (master w));
  if interval <=? 0 then mret tt else
  lock query_table_mutex;;
  l ← st_gets (fun w => ready_queue (queries w));
  if list_is_empty l then unlock query_table_mutex else
  changed ← aging_scan l interval now 0 (list_size l) false;
  (if (changed : bool) then sort_ready else mret tt);;
  unlock query_table_mutex;;
  check_preemption.

End Aging.
