(* ===== verification/Disconnection.v ===== *)
(** * Disconnections and errors (master/src/disconnection_handler.c, first half)

    The handlers that run when a Query Control or a worker goes away, when a worker
    reports an error of the Storage, and [handle_eviction_response], which no
    handler calls. *)

From S2P Require Import Prelude Commons Serialization Protocol MasterState Scheduler Cleanup Aging.

Section Disconnection.
Context `{CL : CommonsList} `{KN : Kernel}.

Definition handle_query_control_disconnection (client_socket : Z) : M Z :=
  lock query_table_mutex;;
  found ← find_query_by_socket client_socket;
  match found with
  | None =>
      unlock query_table_mutex;;
      close_fd client_socket;;
      mret (-1)
  | Some qcb =>
      q ← get_q qcb;
      if cleaned_up q then
        unlock query_table_mutex;;
        close_fd client_socket;;
        mret 0
      else
        (match q_state q with
         | QUERY_STATE_READY =>
             cancel_query_in_ready qcb;;
             cleanup_query_resources qcb
         | QUERY_STATE_RUNNING =>
             lock worker_table_mutex;;
             mod_q qcb (on_qcb_state QUERY_STATE_CANCELED);;
             _ ← preempt_query_in_exec qcb;
             unlock worker_table_mutex
         | QUERY_STATE_COMPLETED | QUERY_STATE_CANCELED =>
             cleanup_query_resources qcb
         | QUERY_STATE_NEW =>
             finalize_query_with_error qcb
               (Some "Query cancelada porque Query Control se desconectó");;
             cleanup_query_resources qcb
         end);;
        unlock query_table_mutex;;
        close_fd client_socket;;
        mret 0
  end.

Definition handle_worker_disconnection (client_socket : Z) : M Z :=
  lock worker_table_mutex;;
  found ← find_worker_by_socket client_socket;
  match found with
  | None =>
      unlock worker_table_mutex;;
      close_fd client_socket;;
      mret (-1)
  | Some wcb =>
      b ← get_w wcb;
      let running_query_id := current_query_id b in
      (if 0 <=? running_query_id then
         lock query_table_mutex;;
         l ← st_gets (fun w => query_list (queries w));
         qcb ← find_q l (fun q => query_id q =? running_query_id);
         (match qcb with
          | Some qcb =>
              finalize_query_with_error qcb
                (Some "Se desconectó worker mientras realizaba la query");;
              cleanup_query_resources qcb
          | None => mret tt
          end);;
         unlock query_table_mutex
       else mret tt);;
      cleanup_worker_resources wcb;;
      close_fd client_socket;;
      unlock worker_table_mutex;;
      mret 0
  end.

(** What [handle_error_from_storage] does with both mutexes taken. *)
Definition storage_error_locked (client_socket : Z) (error_msg : option string) : M unit :=
  found ← find_worker_by_socket client_socket;
  match found with
  | None => mret tt
  | Some wcb =>
      b ← get_w wcb;
      let id := current_query_id b in
      if id <? 0 then mret tt else
      l ← st_gets (fun w => running_list (queries w));
      qcb ← scan l (fun p => q ← get_q p; mret (query_id q =? id));
      match qcb with
      | None => mret tt
      | Some qcb =>
          mod_w wcb (on_wcb (-1) WORKER_STATE_IDLE);;
          st_modify (on_workers (on_busy_list (drop_elem wcb)));;
          st_modify (on_workers (on_idle_list (fun l => list_add l wcb)));;
          finalize_query_with_error qcb
            (Some (match error_msg with Some m => m | None => "Error en Storage" end));;
          cleanup_query_resources qcb
      end
  end.

(** The handler of STORAGE_OP_ERROR. *)
Definition handle_error_from_storage (required_package : t_package) (client_socket : Z) : M Z :=
  let pkg := package_reset_read_offset required_package in
  let '(_, pkg) := package_read_uint32 pkg in
  lock worker_table_mutex;;
  lock query_table_mutex;;
  storage_error_locked client_socket (fst (package_read_string pkg));;
  unlock query_table_mutex;;
  unlock worker_table_mutex;;
  _ ← try_dispatch;
  mret 0.

(** The end of [handle_eviction_response]: [id] is the static variable that the
    predicate of [list_find] reads, which this function does not set, and a [pc]
    that is [None] was never initialised. *)
Definition evict_by_predicate (id : Z) (pc : option Z) : M Z :=
  lock query_table_mutex;;
  l ← st_gets (fun w => query_list (queries w));
  qcb ← find_q l (fun q => query_id q =? id);
  match qcb with
  | None => unlock query_table_mutex;; mret (-1)
  | Some qcb =>
      match pc with
      | None => st_ub
      | Some pc =>
          mod_q qcb (fun q => on_qcb_state QUERY_STATE_CANCELED (on_qcb_pc pc q));;
          finalize_query_with_error qcb (Some "Query evicted by master (worker responded)");;
          cleanup_query_resources qcb;;
          unlock query_table_mutex;;
          mret 0
      end
  end.

(** A read that reports success is taken for a failure, as the code does. *)
Definition handle_eviction_response (running_query_id_for_predicate worker_socket : Z)
    (buf : t_buffer) : M Z :=
  match buffer_read_uint32 (buffer_reset_offset buf) with
  | (Some _, _) =>
      lock worker_table_mutex;;
      found ← find_worker_by_socket worker_socket;
      match found with
      | None => unlock worker_table_mutex;; mret (-1)
      | Some wcb =>
          b ← get_w wcb;
          unlock worker_table_mutex;;
          if u32 (current_query_id b) <=? 0 then mret (-1)
          else evict_by_predicate running_query_id_for_predicate None
      end
  | (None, buf) =>
      evict_by_predicate running_query_id_for_predicate
        (match buffer_read_uint32 buf with (Some _, _) => Some (-1) | (None, _) => None end)
  end.

End Disconnection.
