(* ===== verification/WorkerManager.v ===== *)
(** * Workers (master/src/worker_manager.c)

    The handlers of the messages a worker sends to the Master. *)

From S2P Require Import Prelude Commons Serialization Protocol MasterState Scheduler Cleanup.

Section WorkerManager.
Context `{CL : CommonsList} `{KN : Kernel}.

Definition create_worker (id socket_fd : Z) : M ptr :=
  lock worker_table_mutex;;
  wcb ← malloc_w (MkWcb id None (-1) socket_fd (-1) WORKER_STATE_IDLE);
  st_modify (on_workers (on_worker_list (fun l => list_add l wcb)));;
  st_modify (on_workers (on_workers_connected (fun n => n + 1)));;
  st_modify (on_workers (on_idle_list (fun l => list_add l wcb)));;
  unlock worker_table_mutex;;
  mret wcb.

(** The answer reuses the buffer of the request, its cursor included. *)
Definition manage_worker_handshake (buf : t_buffer) (client_socket : Z) : M Z :=
  match buffer_read_uint32 buf with
  | (None, _) => st_ub
  | (Some id, buf) =>
      if id <=? 0 then mret (-1) else
      _ ← create_worker (i32 id) client_socket;
      n ← st_gets (fun w => total_workers_connected (workers w));
      st_modify (on_level n);;
      rc ← send_package (MkPackage (u8 (master_op OP_WORKER_ACK)) buf) client_socket;
      if negb (rc =? 0) then mret (-1) else
      _ ← try_dispatch;
      mret 0
  end.

(** No mutex is taken around the scan of the running list. *)
Definition manage_read_message_from_worker (buf : t_buffer) (client_socket : Z) : M Z :=
  let buf := buffer_reset_offset buf in
  let '(_, buf) := buffer_read_uint32 buf in
  let '(qid, buf) := buffer_read_uint32 buf in
  let '(data, buf) := buffer_read_data buf in
  let '(file, buf) := buffer_read_string buf in
  let '(tag, _) := buffer_read_string buf in
  match qid, file, tag with
  | Some qid, Some file, Some tag =>
      let file_tag := (file +:+ ":" +:+ tag)%string in
      l ← st_gets (fun w => running_list (queries w));
      found ← scan l (fun p => q ← get_q p; mret (u32 (query_id q) =? qid));
      match found with
      | None => _ ← try_dispatch; mret (-1)
      | Some query =>
          q ← get_q query;
          let pkg := package_create_empty (master_op QC_OP_READ_DATA) in
          match data with
          | None => mret (-1)
          | Some data =>
              let '(ok, pkg) := package_add_data pkg data in
              if negb ok then mret (-1) else
              let '(ok, pkg) := package_add_string pkg file_tag in
              if negb ok then mret (-1) else
              rc ← send_package pkg (q_socket_fd q);
              mret (if negb (rc =? 0) then -1 else 0)
          end
      end
  | _, _, _ => st_ub
  end.

(** The query was canceled while its eviction was awaited. *)
Definition evict_canceled (query : ptr) (pc : Z) : M bool :=
  mod_q query (fun q => on_qcb_worker (-1) (on_qcb_pending false (on_qcb_pc (i32 pc) q)));;
  st_modify (on_queries (on_running_list (drop_elem query)));;
  cleanup_query_resources query;;
  mret true.

(** The query goes back to the READY queue; [false] is the jump to the end. *)
Definition evict_to_ready (query : ptr) (pc now : Z) : M bool :=
  mod_q query (fun q => on_qcb_timestamp now (on_qcb_pending false
    (on_qcb_worker (-1) (on_qcb_state QUERY_STATE_READY (on_qcb_pc (i32 pc) q)))));;
  l ← st_gets (fun w => running_list (queries w));
  let '(removed, l') := list_remove_element l query in
  st_modify (on_queries (on_running_list (fun _ => l')));;
  if negb removed then mret false else
  rc ← insert_ready query;
  if negb (rc =? 0) then cleanup_query_resources query;; mret false
  else mret true.

(** What [manage_worker_evict_response] does with both mutexes taken. *)
Definition evict_locked (socket_fd qid pc now : Z) : M unit :=
  wl ← st_gets (fun w => worker_list (workers w));
  worker ← scan wl (fun p => b ← get_w p; mret (w_socket_fd b =? socket_fd));
  match worker with
  | None => mret tt
  | Some worker =>
      l ← st_gets (fun w => running_list (queries w));
      query ← scan l (fun p => q ← get_q p; mret (u32 (query_id q) =? qid));
      match query with
      | None => mret tt
      | Some query =>
          q ← get_q query;
          go_on ← (if bool_decide (q_state q = QUERY_STATE_CANCELED)
                   then evict_canceled query pc else evict_to_ready query pc now);
          if (go_on : bool) then
            mod_w worker (on_wcb (-1) WORKER_STATE_IDLE);;
            bl ← st_gets (fun w => busy_list (workers w));
            let '(removed, bl') := list_remove_element bl worker in
            st_modify (on_workers (on_busy_list (fun _ => bl')));;
            if removed
            then st_modify (on_workers (on_idle_list (fun l => list_add l worker)))
            else mret tt
          else mret tt
      end
  end.

Definition manage_worker_evict_response (socket_fd : Z) (package : t_package) (now : Z) : M unit :=
  match package_read_uint32 package with
  | (None, _) => mret tt
  | (Some qid, package) =>
      match package_read_uint32 package with
      | (None, _) => mret tt
      | (Some pc, _) =>
          lock worker_table_mutex;;
          lock query_table_mutex;;
          evict_locked socket_fd qid pc now;;
          unlock query_table_mutex;;
          unlock worker_table_mutex;;
          _ ← try_dispatch;
          mret tt
      end
  end.

(** The worker becomes idle: its block, then the two lists. *)
Definition release_worker (worker : ptr) : M unit :=
  mod_w worker (on_wcb (-1) WORKER_STATE_IDLE);;
  st_modify (on_workers (on_busy_list (drop_elem worker)));;
  st_modify (on_workers (on_idle_list (fun l => list_add l worker))).

(** The message that tells the Query Control that its query is complete. *)
Definition notify_end (q : t_query_control_block) : M unit :=
  if 0 <? q_socket_fd q then
    let resp := package_create_empty (master_op OP_END_QUERY) in
    let resp := snd (package_add_uint32 resp (u32 (query_id q))) in
    _ ← send_package resp (q_socket_fd q);
    mret tt
  else mret tt.

(** The part of [manage_worker_end_query] between lock and unlock: the code it
    returns and whether it goes on to dispatch. *)
Definition end_query_locked (client_socket qid : Z) : M (Z * bool) :=
  wl ← st_gets (fun w => worker_list (workers w));
  worker ← scan wl (fun p => b ← get_w p; mret (w_socket_fd b =? client_socket));
  match worker with
  | None => mret (-1, false)
  | Some worker =>
      l ← st_gets (fun w => running_list (queries w));
      qcb ← scan l (fun p => q ← get_q p; mret (query_id q =? i32 qid));
      match qcb with
      | None =>
          mod_w worker (on_wcb (-1) WORKER_STATE_IDLE);;
          mret (-1, false)
      | Some qcb =>
          q ← get_q qcb;
          if cleaned_up q then
            release_worker worker;;
            mret (0, true)
          else
            mod_q qcb (fun q => on_qcb_worker (-1) (on_qcb_state QUERY_STATE_COMPLETED q));;
            st_modify (on_queries (on_running_list (drop_elem qcb)));;
            release_worker worker;;
            notify_end q;;
            cleanup_query_resources qcb;;
            mret (0, true)
      end
  end.

Definition manage_worker_end_query (buf : t_buffer) (client_socket : Z) : M Z :=
  let buf := buffer_reset_offset buf in
  let '(_, buf) := buffer_read_uint32 buf in
  match buffer_read_uint32 buf with
  | (None, _) => st_ub
  | (Some qid, _) =>
      lock worker_table_mutex;;
      lock query_table_mutex;;
      r ← end_query_locked client_socket qid;
      unlock query_table_mutex;;
      unlock worker_table_mutex;;
      if (snd r : bool) then _ ← try_dispatch; mret (fst r) else mret (fst r)
  end.

End WorkerManager.
