(* ===== verification/MasterInvariant.v ===== *)
(** * The invariant of the Master's tables

    Every list of a table points to allocated blocks, every block of a table is in
    exactly one of the lists that say where it stands, and the blocks of those
    lists are in the state the list stands for.  [queries_wf e] and [workers_wf e]
    are the invariants of the two tables; while a handler moves a block [e] from
    one place to another they hold with that block excepted. *)

From S2P Require Import Prelude Commons Serialization MasterState.

(** ** The table of queries *)

Definition ready_block (q : t_query_control_block) : Prop :=
  q_state q = QUERY_STATE_READY /\ assigned_worker_id q = -1 /\ preemption_pending q = false.

Definition running_block (q : t_query_control_block) : Prop :=
  q_state q = QUERY_STATE_RUNNING \/ q_state q = QUERY_STATE_CANCELED.

Record queries_wf (e : option ptr) (t : t_query_table)
    (h : gmap ptr t_query_control_block) : Prop := {
  qwf_nodup : NoDup (query_list t);
  qwf_ready_nodup : NoDup (ready_queue t);
  qwf_running_nodup : NoDup (running_list t);
  qwf_alloc x : x ∈ query_list t <-> is_Some (h !! x);
  qwf_sub x : x ∈ ready_queue t \/ x ∈ running_list t -> x ∈ query_list t;
  qwf_disjoint x : e <> Some x -> ~ (x ∈ ready_queue t /\ x ∈ running_list t);
  qwf_placed x : e <> Some x -> x ∈ query_list t -> x ∈ ready_queue t \/ x ∈ running_list t;
  qwf_ready x q : e <> Some x -> x ∈ ready_queue t -> h !! x = Some q -> ready_block q;
  qwf_running x q : e <> Some x -> x ∈ running_list t -> h !! x = Some q -> running_block q;
  qwf_live x q : h !! x = Some q -> cleaned_up q = false;
  qwf_bound x q : h !! x = Some q -> 0 <= query_id q <= next_query_id t;
  qwf_ids x y q r : h !! x = Some q -> h !! y = Some r -> query_id q = query_id r -> x = y;
  qwf_unused : completed_list t = [] /\ canceled_list t = [];
  qwf_counter : -1 <= next_query_id t
}.

(** ** The table of workers *)

Definition idle_block (b : t_worker_control_block) : Prop :=
  w_state b = WORKER_STATE_IDLE /\ current_query_id b = -1.

Record workers_wf (e : option ptr) (t : t_worker_table)
    (h : gmap ptr t_worker_control_block) : Prop := {
  wwf_nodup : NoDup (worker_list t);
  wwf_idle_nodup : NoDup (idle_list t);
  wwf_busy_nodup : NoDup (busy_list t);
  wwf_alloc x : x ∈ worker_list t <-> is_Some (h !! x);
  wwf_sub x : x ∈ idle_list t \/ x ∈ busy_list t -> x ∈ worker_list t;
  wwf_disjoint x : e <> Some x -> ~ (x ∈ idle_list t /\ x ∈ busy_list t);
  wwf_placed x : e <> Some x -> x ∈ worker_list t -> x ∈ idle_list t \/ x ∈ busy_list t;
  wwf_idle x b : e <> Some x -> x ∈ idle_list t -> h !! x = Some b -> idle_block b;
  wwf_count : total_workers_connected t = Z.of_nat (length (worker_list t))
}.

(** The invariant between two handlers. *)
Record master_wf (w : world) : Prop := {
  mwf_queries : queries_wf None (queries w) (qheap w);
  mwf_workers : workers_wf None (workers w) (wheap w);
  mwf_unlocked : held w = []
}.

Section Invariant.
Context `{CLS : CommonsListSpec}.
Implicit Types (t : t_query_table) (h : gmap ptr t_query_control_block).
Implicit Types (u : t_worker_table) (k : gmap ptr t_worker_control_block).

Lemma drop_elem_spec x l : drop_elem x l = remove_first x l.
Proof. unfold drop_elem. by rewrite list_remove_element_spec. Qed.

Lemma drop_elem_elem x y l : NoDup l -> y ∈ drop_elem x l <-> y ∈ l /\ y <> x.
Proof. rewrite drop_elem_spec. apply remove_first_elem. Qed.

Lemma drop_elem_nodup x l : NoDup l -> NoDup (drop_elem x l).
Proof. rewrite drop_elem_spec. apply remove_first_nodup. Qed.

Lemma list_add_elem x y l : y ∈ list_add l x <-> y ∈ l \/ y = x.
Proof. rewrite list_add_spec, elem_of_app, list_elem_of_singleton. done. Qed.

Lemma list_add_nodup x l : NoDup l -> x ∉ l -> NoDup (list_add l x).
Proof.
  intros Hl Hx. rewrite list_add_spec. apply NoDup_app. split; [done|].
  split; [|apply NoDup_singleton]. intros y Hy ->%list_elem_of_singleton. done.
Qed.

Lemma drop_elem_nil x : drop_elem x [] = [].
Proof. by rewrite drop_elem_spec. Qed.

Lemma drop_elem_add x l : x ∉ l -> drop_elem x (list_add l x) = l.
Proof.
  rewrite drop_elem_spec, list_add_spec. induction l as [|y l IH]; simpl.
  - by rewrite decide_True.
  - intros [Hne Hl]%not_elem_of_cons. rewrite decide_False by congruence. by rewrite IH.
Qed.

(** *** Moving a query *)

Lemma qwf_open p t h : queries_wf None t h -> queries_wf (Some p) t h.
Proof. intros []; split; naive_solver. Qed.

(** Any change of the excepted block that keeps its identity. *)
Lemma qwf_update p q q' t h :
  queries_wf (Some p) t h -> h !! p = Some q ->
  query_id q' = query_id q -> cleaned_up q' = cleaned_up q ->
  queries_wf (Some p) t (<[p := q']> h).
Proof.
  intros [] Hp Hid Hcl. split; try done.
  - intros x. rewrite qwf_alloc0. destruct (decide (p = x)) as [<-|];
      [rewrite lookup_insert_eq, Hp; naive_solver|by rewrite lookup_insert_ne].
  - intros x r Hx. rewrite lookup_insert_ne by congruence. eauto.
  - intros x r Hx. rewrite lookup_insert_ne by congruence. eauto.
  - intros x r Hx%lookup_insert_Some. naive_solver.
  - intros x r Hx%lookup_insert_Some.
    destruct Hx as [[<- <-]|[_ Hx]]; [rewrite Hid|]; eauto.
  - intros x y r s Hx%lookup_insert_Some Hy%lookup_insert_Some Heq.
    destruct Hx as [[<- <-]|[Hx Hx']], Hy as [[<- <-]|[Hy Hy']]; eauto; rewrite ?Hid in Heq; eauto.
Qed.

Lemma qwf_drop_running p t h :
  queries_wf (Some p) t h -> queries_wf (Some p) (on_running_list (drop_elem p) t) h.
Proof.
  intros []. split; cbn [query_list ready_queue running_list completed_list canceled_list
    next_query_id on_running_list]; try done.
  - by apply drop_elem_nodup.
  - intros x [Hx|Hx]; [|apply drop_elem_elem in Hx as [Hx _]; [|done]]; eauto.
  - intros x Hx. rewrite drop_elem_elem by done. naive_solver.
  - intros x Hx. rewrite drop_elem_elem by done. intros Hl.
    destruct (qwf_placed0 x Hx Hl); [by left|right; split; congruence].
  - intros x q Hx. rewrite drop_elem_elem by done. naive_solver.
Qed.

Lemma qwf_drop_ready p t h :
  queries_wf (Some p) t h -> queries_wf (Some p) (on_ready_queue (drop_elem p) t) h.
Proof.
  intros []. split; cbn [query_list ready_queue running_list completed_list canceled_list
    next_query_id on_ready_queue]; try done.
  - by apply drop_elem_nodup.
  - intros x [Hx|Hx]; [apply drop_elem_elem in Hx as [Hx _]; [|done]|]; eauto.
  - intros x Hx. rewrite drop_elem_elem by done. naive_solver.
  - intros x Hx. rewrite drop_elem_elem by done. intros Hl.
    destruct (qwf_placed0 x Hx Hl); [left; split; congruence|by right].
  - intros x q Hx. rewrite drop_elem_elem by done. naive_solver.
Qed.

(** The excepted block goes into one of the lists, at any position. *)
Lemma qwf_enter_ready p l t h :
  queries_wf (Some p) t h -> l ≡ₚ p :: ready_queue t -> p ∉ ready_queue t -> is_Some (h !! p) ->
  queries_wf (Some p) (on_ready_queue (fun _ => l) t) h.
Proof.
  intros [] Hl Hp Ha.
  assert (Hin : forall x, x ∈ l <-> x = p \/ x ∈ ready_queue t)
    by (intros x; rewrite (elem_of_perm _ _ x Hl); apply elem_of_cons).
  split; cbn [query_list ready_queue running_list completed_list canceled_list
    next_query_id on_ready_queue]; try done.
  - rewrite Hl. by constructor.
  - intros x. rewrite Hin. intros [[->|Hx]|Hx]; [by apply qwf_alloc0| |]; eauto.
  - intros x Hx. rewrite Hin. naive_solver.
  - intros x Hx. rewrite Hin. intros Hq. destruct (qwf_placed0 x Hx Hq); auto.
  - intros x q Hx. rewrite Hin. naive_solver.
Qed.

Lemma qwf_enter_running p t h :
  queries_wf (Some p) t h -> p ∉ running_list t -> is_Some (h !! p) ->
  queries_wf (Some p) (on_running_list (fun l => list_add l p) t) h.
Proof.
  intros [] Hp Ha. split; cbn [query_list ready_queue running_list completed_list canceled_list
    next_query_id on_running_list]; try done.
  - by apply list_add_nodup.
  - intros x. rewrite list_add_elem. intros [Hx|[Hx| ->]]; [| |by apply qwf_alloc0]; eauto.
  - intros x Hx. rewrite list_add_elem. naive_solver.
  - intros x Hx. rewrite list_add_elem. intros Hq. destruct (qwf_placed0 x Hx Hq); auto.
  - intros x q Hx. rewrite list_add_elem. naive_solver.
Qed.

(** The excepted block is where its state says: the invariant holds again. *)
Lemma qwf_close p q t h :
  queries_wf (Some p) t h -> h !! p = Some q ->
  ((p ∈ ready_queue t /\ p ∉ running_list t /\ ready_block q) \/
   (p ∉ ready_queue t /\ p ∈ running_list t /\ running_block q)) ->
  queries_wf None t h.
Proof.
  intros [] Hp Hplace. split; try done.
  - intros x _. destruct (decide (p = x)) as [<-|]; [naive_solver|]. apply qwf_disjoint0; congruence.
  - intros x _. destruct (decide (p = x)) as [<-|]; [naive_solver|]. apply qwf_placed0; congruence.
  - intros x r _. destruct (decide (p = x)) as [<-|]; [naive_solver|]. apply qwf_ready0; congruence.
  - intros x r _. destruct (decide (p = x)) as [<-|]; [naive_solver|]. apply qwf_running0; congruence.
Qed.

(** The table that [cleanup_query_resources] leaves. *)
Definition cleaned_table (p : ptr) (t : t_query_table) : t_query_table :=
  on_query_list (drop_elem p) (on_canceled_list (drop_elem p) (on_completed_list (drop_elem p)
    (on_running_list (drop_elem p) (on_ready_queue (drop_elem p) t)))).

Lemma qwf_remove p t h :
  queries_wf (Some p) t h -> queries_wf None (cleaned_table p t) (delete p h).
Proof.
  intros []. unfold cleaned_table.
  assert (Hnp : forall x, x <> p -> Some p <> Some x) by congruence.
  split; cbn [query_list ready_queue running_list completed_list canceled_list
    next_query_id on_ready_queue on_running_list on_completed_list on_canceled_list on_query_list].
  - by apply drop_elem_nodup.
  - by apply drop_elem_nodup.
  - by apply drop_elem_nodup.
  - intros x. rewrite drop_elem_elem by done. rewrite lookup_delete_is_Some, qwf_alloc0. naive_solver.
  - intros x. rewrite !drop_elem_elem by done. naive_solver.
  - intros x _. rewrite !drop_elem_elem by done. naive_solver.
  - intros x _. rewrite !drop_elem_elem by done. intros [Hx Hne].
    destruct (qwf_placed0 x); auto.
  - intros x q _. rewrite drop_elem_elem, lookup_delete_Some by done. naive_solver.
  - intros x q _. rewrite drop_elem_elem, lookup_delete_Some by done. naive_solver.
  - intros x q [_ Hx]%lookup_delete_Some. eauto.
  - intros x q [_ Hx]%lookup_delete_Some. eauto.
  - intros x y q r [_ Hx]%lookup_delete_Some [_ Hy]%lookup_delete_Some. eauto.
  - destruct qwf_unused0 as [-> ->]. by rewrite !drop_elem_nil.
  - done.
Qed.

(** A new block with a new identifier. *)
Lemma qwf_create p q t h :
  queries_wf None t h -> h !! p = None -> cleaned_up q = false ->
  0 <= query_id q <= next_query_id t ->
  (forall x r, h !! x = Some r -> query_id r <> query_id q) ->
  queries_wf (Some p) (on_query_list (fun l => list_add l p) t) (<[p := q]> h).
Proof.
  intros [] Hp Hcl Hid Hfresh.
  assert (Hnl : p ∉ query_list t) by (rewrite qwf_alloc0, Hp; apply is_Some_None).
  assert (Hneq : forall x, x ∈ query_list t -> p <> x) by congruence.
  split; cbn [query_list ready_queue running_list completed_list canceled_list
    next_query_id on_query_list]; try done.
  - by apply list_add_nodup.
  - intros x. rewrite list_add_elem, qwf_alloc0. destruct (decide (p = x)) as [<-|].
    + rewrite lookup_insert_eq. split; eauto.
    + rewrite lookup_insert_ne by done. naive_solver.
  - intros x Hx. rewrite list_add_elem. auto.
  - intros x _. apply qwf_disjoint0. done.
  - intros x Hx. rewrite list_add_elem. intros [?| ->]; [|done]. by apply qwf_placed0.
  - intros x r Hx Hx'. rewrite lookup_insert_ne by congruence. by apply qwf_ready0.
  - intros x r Hx Hx'. rewrite lookup_insert_ne by congruence. by apply qwf_running0.
  - intros x r Hx%lookup_insert_Some. naive_solver.
  - intros x r [[<- <-]|[_ Hx]]%lookup_insert_Some; eauto.
  - intros x y r s [[<- <-]|[Hx Hx']]%lookup_insert_Some [[<- <-]|[Hy Hy']]%lookup_insert_Some Heq;
      eauto; exfalso; [by eapply Hfresh|by eapply Hfresh].
Qed.

(** The READY queue in another order. *)
Lemma qwf_permute e l t h :
  queries_wf e t h -> l ≡ₚ ready_queue t -> queries_wf e (on_ready_queue (fun _ => l) t) h.
Proof.
  intros [] Hl. pose proof (fun x => elem_of_perm _ _ x Hl) as Hin.
  split; cbn [query_list ready_queue running_list completed_list canceled_list
    next_query_id on_ready_queue]; try done.
  - by rewrite Hl.
  - intros x. rewrite Hin. eauto.
  - intros x. rewrite Hin. eauto.
  - intros x. rewrite Hin. eauto.
  - intros x q. rewrite Hin. eauto.
Qed.

(** Counters. *)
Lemma qwf_total e f t h : queries_wf e t h -> queries_wf e (on_total_queries f t) h.
Proof. by intros []. Qed.

Lemma qwf_next e n t h :
  queries_wf e t h -> next_query_id t <= n -> queries_wf e (on_next_query_id (fun _ => n) t) h.
Proof.
  intros [] Hn. split; try done; cbn [next_query_id on_next_query_id]; [|lia].
  intros x q Hx. specialize (qwf_bound0 x q Hx). lia.
Qed.

(** *** Moving a worker *)

Lemma wwf_open p u k : workers_wf None u k -> workers_wf (Some p) u k.
Proof. intros []; split; naive_solver. Qed.

Lemma wwf_update p b' u k :
  workers_wf (Some p) u k -> is_Some (k !! p) -> workers_wf (Some p) u (<[p := b']> k).
Proof.
  intros [] Hp. split; try done.
  - intros x. rewrite wwf_alloc0. destruct (decide (p = x)) as [<-|];
      [rewrite lookup_insert_eq; naive_solver|by rewrite lookup_insert_ne].
  - intros x r Hx. rewrite lookup_insert_ne by congruence. eauto.
Qed.

Lemma wwf_drop_idle p u k :
  workers_wf (Some p) u k -> workers_wf (Some p) (on_idle_list (drop_elem p) u) k.
Proof.
  intros []. split; cbn [worker_list idle_list busy_list total_workers_connected on_idle_list];
    try done.
  - by apply drop_elem_nodup.
  - intros x. rewrite drop_elem_elem by done. naive_solver.
  - intros x Hx. rewrite drop_elem_elem by done. naive_solver.
  - intros x Hx. rewrite drop_elem_elem by done. intros Hl.
    destruct (wwf_placed0 x Hx Hl); [left; split; congruence|by right].
  - intros x q Hx. rewrite drop_elem_elem by done. naive_solver.
Qed.

Lemma wwf_drop_busy p u k :
  workers_wf (Some p) u k -> workers_wf (Some p) (on_busy_list (drop_elem p) u) k.
Proof.
  intros []. split; cbn [worker_list idle_list busy_list total_workers_connected on_busy_list];
    try done.
  - by apply drop_elem_nodup.
  - intros x. rewrite drop_elem_elem by done. naive_solver.
  - intros x Hx. rewrite drop_elem_elem by done. naive_solver.
  - intros x Hx. rewrite drop_elem_elem by done. intros Hl.
    destruct (wwf_placed0 x Hx Hl); [by left|right; split; congruence].
Qed.

Lemma wwf_enter_idle p u k :
  workers_wf (Some p) u k -> p ∉ idle_list u -> is_Some (k !! p) ->
  workers_wf (Some p) (on_idle_list (fun l => list_add l p) u) k.
Proof.
  intros [] Hp Ha. split; cbn [worker_list idle_list busy_list total_workers_connected on_idle_list];
    try done.
  - by apply list_add_nodup.
  - intros x. rewrite list_add_elem. intros [[Hx| ->]|Hx]; [|by apply wwf_alloc0|]; eauto.
  - intros x Hx. rewrite list_add_elem. naive_solver.
  - intros x Hx. rewrite list_add_elem. intros Hq. destruct (wwf_placed0 x Hx Hq); auto.
  - intros x q Hx. rewrite list_add_elem. naive_solver.
Qed.

Lemma wwf_enter_busy p u k :
  workers_wf (Some p) u k -> p ∉ busy_list u -> is_Some (k !! p) ->
  workers_wf (Some p) (on_busy_list (fun l => list_add l p) u) k.
Proof.
  intros [] Hp Ha. split; cbn [worker_list idle_list busy_list total_workers_connected on_busy_list];
    try done.
  - by apply list_add_nodup.
  - intros x. rewrite list_add_elem. intros [Hx|[Hx| ->]]; [| |by apply wwf_alloc0]; eauto.
  - intros x Hx. rewrite list_add_elem. naive_solver.
  - intros x Hx. rewrite list_add_elem. intros Hq. destruct (wwf_placed0 x Hx Hq); auto.
Qed.

Lemma wwf_close p b u k :
  workers_wf (Some p) u k -> k !! p = Some b ->
  ((p ∈ idle_list u /\ p ∉ busy_list u /\ idle_block b) \/
   (p ∉ idle_list u /\ p ∈ busy_list u)) ->
  workers_wf None u k.
Proof.
  intros [] Hp Hplace. split; try done.
  - intros x _. destruct (decide (p = x)) as [<-|]; [naive_solver|]. apply wwf_disjoint0; congruence.
  - intros x _. destruct (decide (p = x)) as [<-|]; [naive_solver|]. apply wwf_placed0; congruence.
  - intros x r _. destruct (decide (p = x)) as [<-|]; [naive_solver|]. apply wwf_idle0; congruence.
Qed.

(** The table that [cleanup_worker_resources] leaves. *)
Definition removed_table (p : ptr) (u : t_worker_table) : t_worker_table :=
  on_disconnected_list (fun l => list_add l p) (on_workers_connected (fun n => n - 1)
    (on_worker_list (drop_elem p) (on_busy_list (drop_elem p) (on_idle_list (drop_elem p) u)))).

Lemma drop_elem_length x l : x ∈ l -> length l = S (length (drop_elem x l)).
Proof. intros Hx. rewrite drop_elem_spec. exact (Permutation_length (remove_first_perm x l Hx)). Qed.

Lemma wwf_remove p u k :
  workers_wf (Some p) u k -> is_Some (k !! p) ->
  workers_wf None (removed_table p u) (delete p k).
Proof.
  intros [] Ha. unfold removed_table.
  assert (Hnp : forall x, x <> p -> Some p <> Some x) by congruence.
  split; cbn [worker_list idle_list busy_list total_workers_connected on_idle_list on_busy_list
    on_worker_list on_workers_connected on_disconnected_list].
  - by apply drop_elem_nodup.
  - by apply drop_elem_nodup.
  - by apply drop_elem_nodup.
  - intros x. rewrite drop_elem_elem by done. rewrite lookup_delete_is_Some, wwf_alloc0. naive_solver.
  - intros x. rewrite !drop_elem_elem by done. naive_solver.
  - intros x _. rewrite !drop_elem_elem by done. naive_solver.
  - intros x _. rewrite !drop_elem_elem by done. intros [Hx Hne]. destruct (wwf_placed0 x); auto.
  - intros x q _. rewrite drop_elem_elem, lookup_delete_Some by done. naive_solver.
  - apply wwf_alloc0 in Ha. rewrite wwf_count0, (drop_elem_length p (worker_list u)) by done. lia.
Qed.

(** A new worker enters the table and the idle list at once. *)
Lemma wwf_create p b u k :
  workers_wf None u k -> k !! p = None -> idle_block b ->
  workers_wf None (on_idle_list (fun l => list_add l p) (on_workers_connected (fun n => n + 1)
    (on_worker_list (fun l => list_add l p) u))) (<[p := b]> k).
Proof.
  intros [] Hp Hb.
  assert (Hnl : p ∉ worker_list u) by (rewrite wwf_alloc0, Hp; apply is_Some_None).
  split; cbn [worker_list idle_list busy_list total_workers_connected on_idle_list on_worker_list
    on_workers_connected]; try done.
  - by apply list_add_nodup.
  - apply list_add_nodup; auto.
  - intros x. rewrite list_add_elem, wwf_alloc0. destruct (decide (p = x)) as [<-|].
    + rewrite lookup_insert_eq. split; eauto.
    + rewrite lookup_insert_ne by done. naive_solver.
  - intros x. rewrite !list_add_elem. naive_solver.
  - intros x Hx. rewrite list_add_elem. intros [[Hi| ->] Hy]; [by apply (wwf_disjoint0 x)|auto].
  - intros x Hx. rewrite !list_add_elem. intros [Hl| ->]; [|by auto].
    destruct (wwf_placed0 x); auto.
  - intros x c Hx. rewrite list_add_elem.
    intros Hi [[E <-]|[Hne Hc]]%lookup_insert_Some; [done|]. destruct Hi as [Hi| ->]; eauto; done.
  - rewrite list_add_spec, length_app, wwf_count0. simpl. lia.
Qed.

(** *** Looking a block up in a list of the tables *)

Lemma wp_scan {S} l c (f : ptr -> bool) (Q : option ptr -> S -> Prop) s :
  (forall p, p ∈ l -> c p s = Some (f p, s)) -> Q (List.find f l) s -> wp (scan l c) Q s.
Proof.
  intros Hc HQ. unfold scan. rewrite list_size_spec.
  enough (E : forall i n, (i + n = length l)%nat ->
            scan_from l c i n s = Some (List.find f (drop i l), s)).
  { unfold wp. by rewrite E, drop_0. }
  intros i n. revert i. induction n as [|n IH]; intros i Hn; cbn [scan_from].
  - by rewrite drop_ge by lia.
  - rewrite list_get_spec. destruct (l !! i) as [y|] eqn:Ey.
    2:{ apply lookup_ge_None in Ey. lia. }
    rewrite (drop_S l y i Ey). cbn [List.find]. unfold mbind, st_bind.
    rewrite Hc by (by eapply list_elem_of_lookup_2). destruct (f y); [done|].
    apply IH. lia.
Qed.

Definition test_q (g : t_query_control_block -> bool) (w : world) (p : ptr) : bool :=
  match qheap w !! p with Some q => g q | None => false end.
Definition test_w (g : t_worker_control_block -> bool) (w : world) (p : ptr) : bool :=
  match wheap w !! p with Some b => g b | None => false end.

Lemma wp_scan_q l g (Q : option ptr -> world -> Prop) w :
  (forall p, p ∈ l -> is_Some (qheap w !! p)) -> Q (List.find (test_q g w) l) w ->
  wp (scan l (fun p => q ← get_q p; mret (g q))) Q w.
Proof.
  intros Hl. apply wp_scan. intros p Hp. destruct (Hl p Hp) as [q Hq].
  unfold mbind, st_bind, get_q, test_q. by rewrite Hq.
Qed.

Lemma wp_scan_w l g (Q : option ptr -> world -> Prop) w :
  (forall p, p ∈ l -> is_Some (wheap w !! p)) -> Q (List.find (test_w g w) l) w ->
  wp (scan l (fun p => b ← get_w p; mret (g b))) Q w.
Proof.
  intros Hl. apply wp_scan. intros p Hp. destruct (Hl p Hp) as [q Hq].
  unfold mbind, st_bind, get_w, test_w. by rewrite Hq.
Qed.

Lemma wp_find_q l g (Q : option ptr -> world -> Prop) w :
  (forall p, p ∈ l -> is_Some (qheap w !! p)) -> Q (List.find (test_q g w) l) w ->
  wp (find_q l g) Q w.
Proof.
  intros Hl HQ. unfold wp, find_q. rewrite list_find_spec.
  replace (forallb _ l) with true; [done|]. symmetry. apply forallb_forall.
  intros p Hp. apply bool_decide_eq_true, Hl. by apply list_elem_of_In.
Qed.

Lemma wp_find_w l g (Q : option ptr -> world -> Prop) w :
  (forall p, p ∈ l -> is_Some (wheap w !! p)) -> Q (List.find (test_w g w) l) w ->
  wp (find_w l g) Q w.
Proof.
  intros Hl HQ. unfold wp, find_w. rewrite list_find_spec.
  replace (forallb _ l) with true; [done|]. symmetry. apply forallb_forall.
  intros p Hp. apply bool_decide_eq_true, Hl. by apply list_elem_of_In.
Qed.

Lemma find_q_found g w l p :
  List.find (test_q g w) l = Some p -> p ∈ l /\ exists q, qheap w !! p = Some q /\ g q = true.
Proof.
  intros [Hp Ht]%find_some_in. split; [done|]. unfold test_q in Ht.
  destruct (qheap w !! p); naive_solver.
Qed.

Lemma find_q_missing g w l p q :
  List.find (test_q g w) l = None -> p ∈ l -> qheap w !! p = Some q -> g q = false.
Proof.
  intros H Hp Hq. pose proof (find_none_all _ _ p H Hp) as E. unfold test_q in E. by rewrite Hq in E.
Qed.

Lemma find_w_found g w l p :
  List.find (test_w g w) l = Some p -> p ∈ l /\ exists b, wheap w !! p = Some b /\ g b = true.
Proof.
  intros [Hp Ht]%find_some_in. split; [done|]. unfold test_w in Ht.
  destruct (wheap w !! p); naive_solver.
Qed.

(** The lists of a table point into the heap. *)
Lemma qwf_allocated e t h x :
  queries_wf e t h -> x ∈ query_list t \/ x ∈ ready_queue t \/ x ∈ running_list t ->
  is_Some (h !! x).
Proof. intros [] Hx. apply qwf_alloc0. naive_solver. Qed.

Lemma wwf_allocated e u k x :
  workers_wf e u k -> x ∈ worker_list u \/ x ∈ idle_list u \/ x ∈ busy_list u ->
  is_Some (k !! x).
Proof. intros [] Hx. apply wwf_alloc0. naive_solver. Qed.

End Invariant.
