(* ===== verification/SchedulerSpec.v ===== *)
(** * What the scheduler does (theorems about Scheduler.v)

    The ordered insertion against its reference definition, the message a worker
    receives, and [try_dispatch] on every branch. *)

From Stdlib Require Import Sorting.Sorted.
From S2P Require Import Prelude Commons Serialization Protocol MasterState MasterInvariant Scheduler.

(** ** The insertion as a function *)

Definition priority_of (h : gmap ptr t_query_control_block) (p : ptr) : Z :=
  match h !! p with Some q => priority q | None => 0 end.

(** Before the first element with a larger number, at the end when there is none. *)
Fixpoint place (f : ptr -> Z) (x : ptr) (l : list ptr) : list ptr :=
  match l with
  | [] => [x]
  | y :: l => if f x <? f y then x :: y :: l else y :: place f x l
  end.

Definition by_priority (f : ptr -> Z) (a b : ptr) : Prop := f a <= f b.

Lemma place_split f x l :
  exists a b, l = a ++ b /\ place f x l = a ++ x :: b /\
    Forall (fun y => f y <= f x) a /\ (forall y b', b = y :: b' -> f x < f y).
Proof.
  induction l as [|y l (a & b & -> & Ep & Ha & Hb)]; simpl.
  - exists [], []. repeat split; [constructor|]. discriminate.
  - destruct (Z.ltb_spec (f x) (f y)).
    + exists [], (y :: a ++ b). repeat split; [constructor|]. by intros ? ? [= <- <-].
    + exists (y :: a), b. rewrite Ep. repeat split; [by constructor|done].
Qed.

Lemma place_perm f x l : place f x l ≡ₚ x :: l.
Proof.
  destruct (place_split f x l) as (a & b & -> & -> & _). symmetry. apply Permutation_middle.
Qed.

Lemma place_sorted f x l :
  StronglySorted (by_priority f) l -> StronglySorted (by_priority f) (place f x l).
Proof.
  unfold by_priority. induction 1 as [|y l Hl IH Hy]; simpl; [by repeat constructor|].
  destruct (Z.ltb_spec (f x) (f y)).
  - constructor; [by constructor|]. constructor; [lia|].
    eapply Forall_impl; [exact Hy|]. simpl. lia.
  - constructor; [done|]. rewrite place_perm. by constructor.
Qed.

Lemma place_ext f g x l : (forall y, f y = g y) -> place f x l = place g x l.
Proof. intros E. induction l as [|y l IH]; simpl; [done|]. by rewrite !E, IH. Qed.

(** An update that keeps the priority keeps the order. *)
Lemma priority_of_insert h p q q' y :
  h !! p = Some q -> priority q' = priority q -> priority_of (<[p := q']> h) y = priority_of h y.
Proof.
  intros Hp E. unfold priority_of. destruct (decide (p = y)) as [<-|].
  - by rewrite lookup_insert_eq, Hp.
  - by rewrite lookup_insert_ne.
Qed.

(** ** What a dispatch makes of the two blocks *)

Definition running_qcb (b : t_worker_control_block) (q : t_query_control_block) :=
  on_qcb_pending false (on_qcb_worker (worker_id b) (on_qcb_state QUERY_STATE_RUNNING q)).

Definition waiting_qcb (q : t_query_control_block) :=
  on_qcb_worker (-1) (on_qcb_state QUERY_STATE_READY q).

Section SchedulerSpec.
Context `{CLS : CommonsListSpec} `{KN : Kernel}.

(** *** Memory reads of the insertion *)

Lemma insert_loop_place l x i n w :
  (i + n = length l)%nat -> is_Some (qheap w !! x) ->
  (forall y, y ∈ l -> is_Some (qheap w !! y)) ->
  insert_loop l x i n w =
    Some ((0, take i l ++ place (priority_of (qheap w)) x (drop i l)), w).
Proof.
  intros Hn [q Hx] Hl. revert i Hn. induction n as [|n IH]; intros i Hn; simpl.
  - rewrite list_add_spec, take_ge, drop_ge by lia. done.
  - rewrite list_get_spec. destruct (l !! i) as [y|] eqn:Ey.
    2:{ apply lookup_ge_None in Ey. lia. }
    destruct (Hl y) as [r Hy]; [by eapply list_elem_of_lookup_2|].
    unfold mbind, st_bind, get_q at 1. rewrite Hx. unfold get_q at 1. rewrite Hy.
    rewrite (drop_S l y i Ey). cbn [place]. unfold priority_of at 1 2. rewrite Hx, Hy.
    destruct (priority q <? priority r) eqn:E.
    + rewrite list_add_in_index_spec by lia. by rewrite (drop_S l y i Ey).
    + rewrite IH by lia. do 3 f_equal.
      rewrite (take_S_r l i y Ey), <- app_assoc. done.
Qed.

Lemma insert_query_by_priority_place l x w :
  is_Some (qheap w !! x) -> (forall y, y ∈ l -> is_Some (qheap w !! y)) ->
  insert_query_by_priority l x w = Some ((0, place (priority_of (qheap w)) x l), w).
Proof.
  intros. unfold insert_query_by_priority. rewrite insert_loop_place by (rewrite ?list_size_spec; done).
  done.
Qed.

Lemma wp_insert_ready x (Q : Z -> world -> Prop) w :
  is_Some (qheap w !! x) -> (forall y, y ∈ ready_queue (queries w) -> is_Some (qheap w !! y)) ->
  Q 0 (on_queries (on_ready_queue (fun _ => place (priority_of (qheap w)) x
                                              (ready_queue (queries w)))) w) ->
  wp (insert_ready x) Q w.
Proof.
  intros Hx Hl HQ. unfold insert_ready. apply wp_bind, wp_gets, wp_bind.
  eapply wp_intro; [by apply insert_query_by_priority_place|]. done.
Qed.

(** Where a query goes when it becomes ready. *)
Definition enqueue (w : world) (x : ptr) (l : list ptr) : list ptr :=
  if is_priority w then place (priority_of (qheap w)) x l else l ++ [x].

Lemma enqueue_perm w x l : enqueue w x l ≡ₚ x :: l.
Proof.
  unfold enqueue. destruct (is_priority w); [apply place_perm|].
  rewrite Permutation_app_comm. done.
Qed.

Lemma on_ready_queue_ext f g w :
  f (ready_queue (queries w)) = g (ready_queue (queries w)) ->
  on_queries (on_ready_queue f) w = on_queries (on_ready_queue g) w.
Proof.
  destruct w as [[[] ? ? ? ?] ? ? ? ? ? ?]. unfold on_queries, on_ready_queue, on_master, queries.
  cbn. by intros ->.
Qed.

Lemma wp_enqueue x (Q : unit -> world -> Prop) w :
  is_Some (qheap w !! x) -> (forall y, y ∈ ready_queue (queries w) -> is_Some (qheap w !! y)) ->
  Q tt (on_queries (on_ready_queue (fun _ => enqueue w x (ready_queue (queries w)))) w) ->
  wp (if is_priority w then _ ← insert_ready x; mret tt
      else st_modify (on_queries (on_ready_queue (fun l => list_add l x)))) Q w.
Proof.
  intros Hx Hl HQ. unfold enqueue in HQ. destruct (is_priority w).
  - apply wp_bind, wp_insert_ready; [done..|]. by apply wp_ret.
  - apply wp_modify. erewrite on_ready_queue_ext; [exact HQ|]. apply list_add_spec.
Qed.

(** *** The message of a dispatch *)

Definition start_fields (q : t_query_control_block) : list field :=
  [F_uint32 (u32 (query_id q)); F_uint32 (u32 (program_counter q)); F_string (query_file_path q)].

(** The path came in a message: it is a C string of a bounded length. *)
Definition valid_path (q : t_query_control_block) : Prop :=
  valid_field (F_string (query_file_path q)).

(** What [send_query_to_worker] answers: nothing but the network changes, and a
    success has put the whole message on the worker's socket. *)
Definition start_sent (b : t_worker_control_block) (q : t_query_control_block)
    (w : world) (rc : Z) (ob : list (Z * list byte)) : Prop :=
  (rc = 0 \/ rc = -1) /\
  (rc = 0 -> valid_path q -> exists block, ob = (w_socket_fd b, block) :: outbox w /\
     carries block (master_op OP_WORKER_START_QUERY) (start_fields q)).

Lemma on_outbox_same w : on_outbox (outbox w) w = w.
Proof. by destruct w. Qed.

(** The three additions, as one call. *)
Lemma send_query_fields x q b qb w :
  wheap w !! x = Some b -> qheap w !! q = Some qb -> 0 < w_socket_fd b ->
  send_query_to_worker x q w =
    match package_add_all (package_create_empty (master_op OP_WORKER_START_QUERY))
            (start_fields qb) with
    | (true, pkg) => (rc ← send_package pkg (w_socket_fd b);
                      mret (if rc =? 0 then 0 else -1)) w
    | (false, _) => Some (-1, w)
    end.
Proof.
  intros Hb Hq Hfd. unfold send_query_to_worker, start_fields.
  unfold mbind at 1, st_bind at 1, get_w at 1. rewrite Hb.
  destruct (Z.leb_spec (w_socket_fd b) 0); [lia|].
  unfold mbind at 1, st_bind at 1, get_q at 1. rewrite Hq.
  cbn [package_add_all package_add].
  destruct (package_add_uint32 _ (u32 (query_id qb))) as [[] p1]; [|done]. simpl negb. cbv iota.
  destruct (package_add_uint32 p1 _) as [[] p2]; [|done]. simpl negb. cbv iota.
  destruct (package_add_string p2 _) as [[] p3]; done.
Qed.

Lemma start_fields_built qb :
  valid_path qb ->
  exists p, package_add_all (package_create_empty (master_op OP_WORKER_START_QUERY))
              (start_fields qb) = (true, p) /\ buffer_wf (buffer p) /\
    carries (serialized_package p) (master_op OP_WORKER_START_QUERY) (start_fields qb).
Proof.
  intros Hv. apply package_built; [done| |].
  - repeat constructor; try (apply u32_bound). all: apply Hv.
  - destruct Hv as [Hlen _]. unfold wire_size, start_fields, encode_all. cbn [flat_map encode].
    rewrite !length_app, !length_be32, length_string_bytes. cbn [length].
    unfold strlen, MAX_STRING_LENGTH in Hlen. lia.
Qed.

Lemma send_query_run x q b qb w :
  wheap w !! x = Some b -> qheap w !! q = Some qb ->
  exists rc ob, send_query_to_worker x q w = Some (rc, on_outbox ob w) /\
    start_sent b qb w rc ob.
Proof.
  intros Hb Hq. destruct (Z.leb_spec (w_socket_fd b) 0) as [Hfd|Hfd].
  { exists (-1), (outbox w). rewrite on_outbox_same. split; [|split; [by right|done]].
    unfold send_query_to_worker, mbind at 1, st_bind at 1, get_w at 1. rewrite Hb.
    by destruct (Z.leb_spec (w_socket_fd b) 0); [|lia]. }
  rewrite (send_query_fields x q b qb) by done.
  destruct (package_add_all _ _) as [ok p] eqn:E. destruct ok.
  2:{ exists (-1), (outbox w). rewrite on_outbox_same. split; [done|]. split; [by right|done]. }
  unfold mbind, st_bind, send_package. set (answer := send_returns _ _ _).
  destruct (package_send p (w_socket_fd b) answer) as [rc block] eqn:Es.
  eexists _, _. split; [reflexivity|]. split; [destruct (rc =? 0); auto|].
  intros Hrc Hv. destruct (start_fields_built qb Hv) as (p' & E' & Hwf & Hc).
  rewrite E' in E. injection E as ->. exists block. split; [done|].
  rewrite package_send_whole in Es by (done || lia).
  destruct (Z.eqb_spec answer (Z.of_nat (length (serialized_package p)))) as [->|].
  - rewrite Nat2Z.id, firstn_all in Es. by injection Es as _ <-.
  - injection Es as <- _. discriminate Hrc.
Qed.

(** *** Dispatch *)

(** The first query runs on the first worker. *)
Definition dispatched (q x : ptr) qb b (w : world) : world :=
  on_workers (fun u => on_busy_list (fun l => l ++ [x]) (on_idle_list tail u))
    (on_queries (fun t => on_running_list (fun l => l ++ [q]) (on_ready_queue tail t))
      (on_wheap (fun k => <[x := on_wcb (query_id qb) WORKER_STATE_BUSY b]> k)
        (on_qheap (fun h => <[q := running_qcb b qb]> h) w))).

(** The message could not be sent: the query is queued again, the worker goes to
    the end of the idle list. *)
Definition refused (q x : ptr) qb b (w : world) : world :=
  on_workers (on_idle_list (fun l => tail l ++ [x]))
    (on_queries (on_ready_queue (fun l => enqueue w q (tail l)))
      (on_wheap (fun k => <[x := on_wcb (-1) WORKER_STATE_IDLE b]> k)
        (on_qheap (fun h => <[q := waiting_qcb (running_qcb b qb)]> h) w))).

Definition no_dispatch (w : world) : Prop :=
  idle_list (workers w) = [] \/ ready_queue (queries w) = [] \/
  exists p q, p ∈ running_list (queries w) /\ qheap w !! p = Some q /\ preemption_pending q = true.

Inductive dispatch_outcome (w : world) : Z -> world -> Prop :=
| nothing_dispatched : no_dispatch w -> dispatch_outcome w 0 w
| query_dispatched q qs x xs qb b ob :
    ready_queue (queries w) = q :: qs -> idle_list (workers w) = x :: xs ->
    qheap w !! q = Some qb -> wheap w !! x = Some b -> ~ no_dispatch w ->
    start_sent b qb w 0 ob ->
    dispatch_outcome w 0 (on_outbox ob (dispatched q x qb b w))
| dispatch_refused q qs x xs qb b ob :
    ready_queue (queries w) = q :: qs -> idle_list (workers w) = x :: xs ->
    qheap w !! q = Some qb -> wheap w !! x = Some b -> ~ no_dispatch w ->
    dispatch_outcome w (-1) (on_outbox ob (refused q x qb b w)).

(** Both tables, apart from the locks. *)
Definition tables_wf (e f : option ptr) (w : world) : Prop :=
  queries_wf e (queries w) (qheap w) /\ workers_wf f (workers w) (wheap w).

(** The states [dispatch_locked] goes through, as the code writes them. *)
Definition assigned_state (q x : ptr) qs xs qb b (w : world) : world :=
  on_workers (on_busy_list (fun l => list_add l x))
    (on_queries (on_running_list (fun l => list_add l q))
      (on_qheap (fun h => <[q := running_qcb b qb]> h)
        (on_wheap (fun k => <[x := on_wcb (query_id qb) WORKER_STATE_BUSY b]> k)
          (on_workers (on_idle_list (fun _ => xs))
            (on_queries (on_ready_queue (fun _ => qs)) w))))).

Lemma assigned_state_eq q qs x xs qb b w :
  ready_queue (queries w) = q :: qs -> idle_list (workers w) = x :: xs ->
  assigned_state q x qs xs qb b w = dispatched q x qb b w.
Proof.
  destruct_world w. unfold assigned_state, dispatched. world_cbv. intros -> ->.
  by rewrite !list_add_spec.
Qed.

(** What the steps of [revert_dispatch] add up to. *)
Lemma refused_eq q qs x xs qb b ob f (w : world) :
  ready_queue (queries w) = q :: qs -> idle_list (workers w) = x :: xs ->
  q ∉ running_list (queries w) -> x ∉ busy_list (workers w) ->
  (forall y, f y = priority_of (qheap w) y) ->
  on_workers (on_idle_list (fun l => list_add l x))
    (on_queries (on_ready_queue (fun _ => if is_priority w then place f q qs else qs ++ [q]))
      (on_workers (on_busy_list (drop_elem x)) (on_queries (on_running_list (drop_elem q))
        (on_qheap (fun h => <[q := waiting_qcb (running_qcb b qb)]> h)
          (on_wheap (fun k => <[x := on_wcb (-1) WORKER_STATE_IDLE
                                       (on_wcb (query_id qb) WORKER_STATE_BUSY b)]> k)
            (on_outbox ob (assigned_state q x qs xs qb b w))))))) =
  on_outbox ob (refused q x qb b w).
Proof.
  intros Er Ei Hq Hx Hf. unfold refused, enqueue, assigned_state.
  rewrite (place_ext f (priority_of (qheap w)) q qs Hf). clear Hf.
  destruct_world w. revert Er Ei Hq Hx. unfold is_priority. world_cbv. intros -> -> Hq Hx.
  rewrite !drop_elem_add, !insert_insert_eq, !list_add_spec by done. done.
Qed.

Lemma revert_dispatch_run q qs x xs qb b ob w :
  tables_wf None None w -> ready_queue (queries w) = q :: qs -> idle_list (workers w) = x :: xs ->
  qheap w !! q = Some qb -> wheap w !! x = Some b ->
  wp (revert_dispatch q x) (fun _ w' => w' = on_outbox ob (refused q x qb b w))
     (on_outbox ob (assigned_state q x qs xs qb b w)).
Proof.
  intros [Hq Hw] Er Ei Hqb Hb.
  assert (Hqin : q ∉ running_list (queries w)).
  { intros Hin. apply (qwf_disjoint _ _ _ Hq q); [done|]. rewrite Er. set_solver. }
  assert (Hxin : x ∉ busy_list (workers w)).
  { intros Hin. apply (wwf_disjoint _ _ _ Hw x); [done|]. rewrite Ei. set_solver. }
  unfold revert_dispatch, assigned_state.
  apply wp_bind. eapply wp_mod_w; [apply lookup_insert_eq|].
  apply wp_bind. eapply wp_mod_q; [apply lookup_insert_eq|].
  apply wp_bind, wp_modify, wp_bind, wp_modify, wp_bind, wp_gets, wp_bind.
  apply wp_enqueue.
  - autorewrite with world. rewrite lookup_insert_eq. eauto.
  - intros y Hy. autorewrite with world in *. cbn in Hy.
    apply lookup_insert_is_Some'. right. apply lookup_insert_is_Some'. right.
    eapply qwf_allocated; [exact Hq|]. rewrite Er. set_solver.
  - apply wp_modify.
    refine (refused_eq q qs x xs qb b ob
      (priority_of (<[q := waiting_qcb (running_qcb b qb)]> (<[q := running_qcb b qb]> (qheap w))))
      w _ _ _ _ _); [done..|].
    intros y. rewrite !priority_of_insert with (q := running_qcb b qb) by (done || apply lookup_insert_eq).
    by apply priority_of_insert with (q := qb).
Qed.

Lemma dispatch_locked_run w :
  tables_wf None None w ->
  wp dispatch_locked (fun rc w' => dispatch_outcome w rc w') w.
Proof.
  intros [Hq Hw]. unfold dispatch_locked. apply wp_bind, wp_gets, wp_bind, wp_gets.
  rewrite !list_is_empty_spec.
  case_bool_decide as Hi; [apply wp_ret, nothing_dispatched; by left|].
  case_bool_decide as Hr; [apply wp_ret, nothing_dispatched; by right; left|].
  apply wp_bind, wp_scan_q; [intros p Hp; eapply qwf_allocated; eauto|].
  destruct (List.find _ _) as [p|] eqn:Ef.
  { apply find_q_found in Ef as (Hp & q & Hl & E).
    apply wp_ret, nothing_dispatched. right. right. eauto. }
  destruct (idle_list (workers w)) as [|x xs] eqn:Ei; [done|].
  destruct (ready_queue (queries w)) as [|q qs] eqn:Er; [done|].
  rewrite !list_remove_spec. cbn [lookup list_lookup delete list_delete].
  apply wp_bind, wp_modify, wp_bind, wp_modify.
  destruct (qwf_allocated _ _ _ q Hq) as [qb Hqb]; [rewrite Er; set_solver|].
  destruct (wwf_allocated _ _ _ x Hw) as [b Hb]; [rewrite Ei; set_solver|].
  assert (Hno : ~ no_dispatch w).
  { intros [?|[?|(p & r & Hp & Hpr & E)]]; [congruence..|].
    pose proof (find_q_missing _ _ _ p r Ef Hp Hpr). congruence. }
  unfold assign_query_to_worker.
  apply wp_bind. eapply wp_get_q; [exact Hqb|].
  apply wp_bind. eapply wp_mod_w; [exact Hb|].
  apply wp_bind. eapply wp_get_w; [autorewrite with world; by rewrite lookup_insert_eq|].
  apply wp_bind. eapply wp_mod_q; [exact Hqb|].
  apply wp_bind, wp_modify, wp_bind, wp_modify, wp_bind.
  cbn [worker_id on_wcb].
  destruct (send_query_run x q (on_wcb (query_id qb) WORKER_STATE_BUSY b) (running_qcb b qb)
              (assigned_state q x qs xs qb b w)) as (rc & ob & Es & Hs);
    [by apply lookup_insert_eq..|].
  eapply wp_intro; [exact Es|].
  destruct Hs as [[-> | ->] Hsent]; simpl.
  - apply wp_ret. rewrite (assigned_state_eq q qs x xs) by done.
    eapply query_dispatched; try done. split; [by left|exact Hsent].
  - apply wp_bind. eapply wp_mono; [by apply revert_dispatch_run|].
    intros _ w' ->. apply wp_ret. by eapply dispatch_refused.
Qed.

(** *** A dispatch keeps the invariant *)

Lemma drop_head_ready q qs t :
  ready_queue t = q :: qs -> on_ready_queue tail t = on_ready_queue (drop_elem q) t.
Proof.
  destruct t. unfold on_ready_queue. cbn. intros ->. rewrite drop_elem_spec. simpl.
  by rewrite decide_True.
Qed.

Lemma drop_head_idle x xs u :
  idle_list u = x :: xs -> on_idle_list tail u = on_idle_list (drop_elem x) u.
Proof.
  destruct u. unfold on_idle_list. cbn. intros ->. rewrite drop_elem_spec. simpl.
  by rewrite decide_True.
Qed.

Lemma on_running_app q t :
  on_running_list (fun l => l ++ [q]) t = on_running_list (fun l => list_add l q) t.
Proof. unfold on_running_list. by rewrite list_add_spec. Qed.

Lemma on_busy_app x u :
  on_busy_list (fun l => l ++ [x]) u = on_busy_list (fun l => list_add l x) u.
Proof. unfold on_busy_list. by rewrite list_add_spec. Qed.

Lemma dispatched_wf q qs x xs qb b ob w :
  tables_wf None None w -> ready_queue (queries w) = q :: qs -> idle_list (workers w) = x :: xs ->
  qheap w !! q = Some qb -> wheap w !! x = Some b ->
  tables_wf None None (on_outbox ob (dispatched q x qb b w)).
Proof.
  intros [Hq Hw] Er Ei Hqb Hb.
  assert (Hqin : q ∉ running_list (queries w)).
  { intros Hin. apply (qwf_disjoint _ _ _ Hq q); [done|]. rewrite Er. set_solver. }
  assert (Hxin : x ∉ busy_list (workers w)).
  { intros Hin. apply (wwf_disjoint _ _ _ Hw x); [done|]. rewrite Ei. set_solver. }
  unfold dispatched. split; autorewrite with world.
  - rewrite on_running_app, (drop_head_ready q qs) by done.
    eapply (qwf_close q (running_qcb b qb)); [|apply lookup_insert_eq|].
    + apply qwf_enter_running; [|done|by rewrite lookup_insert_eq].
      eapply qwf_update; [|exact Hqb|done..]. by apply qwf_drop_ready, qwf_open.
    + right. cbn [ready_queue running_list on_running_list on_ready_queue].
      rewrite drop_elem_elem, list_add_elem by apply Hq. split; [naive_solver|].
      split; [by right|by left].
  - rewrite on_busy_app, (drop_head_idle x xs) by done.
    eapply (wwf_close x); [|apply lookup_insert_eq|].
    + apply wwf_enter_busy; [|done|by rewrite lookup_insert_eq].
      eapply wwf_update; [|by eauto]. by apply wwf_drop_idle, wwf_open.
    + right. cbn [idle_list busy_list on_idle_list on_busy_list].
      rewrite drop_elem_elem, list_add_elem by apply Hw. naive_solver.
Qed.

Lemma refused_wf q qs x xs qb b ob w :
  tables_wf None None w -> ready_queue (queries w) = q :: qs -> idle_list (workers w) = x :: xs ->
  qheap w !! q = Some qb -> wheap w !! x = Some b ->
  tables_wf None None (on_outbox ob (refused q x qb b w)).
Proof.
  intros [Hq Hw] Er Ei Hqb Hb.
  assert (Hp : q :: qs ≡ₚ q :: ready_queue (on_ready_queue (drop_elem q) (queries w))).
  { rewrite <- (drop_head_ready q qs) by done. unfold on_ready_queue. cbn. by rewrite Er. }
  unfold refused. split; autorewrite with world.
  - assert (Hq' : queries_wf (Some q) (on_ready_queue (drop_elem q) (queries w))
                    (<[q := waiting_qcb (running_qcb b qb)]> (qheap w))).
    { eapply qwf_update; [|exact Hqb|done..]. by apply qwf_drop_ready, qwf_open. }
    eapply (qwf_close q (waiting_qcb (running_qcb b qb))); [|apply lookup_insert_eq|].
    + change (on_ready_queue (fun l => enqueue w q (tail l)) (queries w))
        with (on_ready_queue (fun _ => enqueue w q (tail (ready_queue (queries w))))
                (on_ready_queue (drop_elem q) (queries w))).
      apply qwf_enter_ready with (p := q); [done| | |by rewrite lookup_insert_eq].
      * rewrite enqueue_perm, Er. done.
      * cbn [ready_queue on_ready_queue]. rewrite drop_elem_elem by apply Hq. naive_solver.
    + left. cbn [ready_queue running_list on_ready_queue].
      rewrite (elem_of_perm _ _ q (enqueue_perm w q _)), elem_of_cons.
      split; [by left|]. split; [|done].
      intros Hin. apply (qwf_disjoint _ _ _ Hq q); [done|]. rewrite Er. set_solver.
  - assert (E : on_idle_list (fun l => tail l ++ [x]) (workers w) =
              on_idle_list (fun l => list_add l x) (on_idle_list (drop_elem x) (workers w))).
    { rewrite <- (drop_head_idle x xs) by done. unfold on_idle_list. by rewrite list_add_spec. }
    rewrite E. eapply (wwf_close x); [|apply lookup_insert_eq|].
    + apply wwf_enter_idle; [| |by rewrite lookup_insert_eq].
      * eapply wwf_update; [|by eauto]. by apply wwf_drop_idle, wwf_open.
      * cbn [idle_list on_idle_list]. rewrite drop_elem_elem by apply Hw. naive_solver.
    + left. cbn [idle_list busy_list on_idle_list]. rewrite list_add_elem.
      split; [by right|]. split; [|done].
      intros Hin. apply (wwf_disjoint _ _ _ Hw x); [done|]. rewrite Ei. set_solver.
Qed.

Lemma dispatch_outcome_wf w rc w' :
  tables_wf None None w -> dispatch_outcome w rc w' ->
  tables_wf None None w' /\ held w' = held w.
Proof.
  intros Hw []; [done|split; [by eapply dispatched_wf|done]|split; [by eapply refused_wf|done]].
Qed.

(** Both mutexes taken, the workers' first; both given back. *)
Definition both_locked (w : world) : world :=
  on_held [query_table_mutex; worker_table_mutex]
    ((query_table_mutex, [worker_table_mutex]) :: (worker_table_mutex, []) :: lock_log w) w.
Definition released (w : world) : world := on_held [] (lock_log w) w.

Lemma on_held_held hs log hs' log' w : on_held hs log (on_held hs' log' w) = on_held hs log w.
Proof. done. Qed.

(** A block of code between the two locks and the two unlocks. *)
Lemma wp_locked {A B} (m : M A) (k : A -> M B) (Q : B -> world -> Prop) w :
  held w = [] ->
  wp m (fun a v => held v = [query_table_mutex; worker_table_mutex] /\
                   wp (k a) Q (released v)) (both_locked w) ->
  wp (lock worker_table_mutex;; lock query_table_mutex;; a ← m;
      unlock query_table_mutex;; unlock worker_table_mutex;; k a) Q w.
Proof.
  intros Hh Hm.
  apply wp_bind, wp_lock; [rewrite Hh; set_solver|]. rewrite Hh.
  apply wp_bind, wp_lock; [cbn; set_solver|].
  cbn [held on_held lock_log]. rewrite on_held_held.
  apply wp_bind. eapply wp_mono; [exact Hm|]. intros a v [Hv Hk].
  apply wp_bind, wp_unlock; [rewrite Hv; set_solver|]. rewrite Hv.
  apply wp_bind, wp_unlock; [cbn; set_solver|]. exact Hk.
Qed.

(** [try_dispatch] takes both mutexes, dispatches once and gives them back. *)
Lemma try_dispatch_run w :
  master_wf w ->
  wp try_dispatch (fun rc w' => master_wf w' /\ exists v,
    dispatch_outcome (both_locked w) rc v /\ w' = released v) w.
Proof.
  intros [Hq Hw Hh]. unfold try_dispatch. apply wp_locked; [done|].
  eapply wp_mono; [apply dispatch_locked_run; by split|].
  intros rc v Hv. eapply dispatch_outcome_wf in Hv as Hv'; [|by split].
  destruct Hv' as [[Hq' Hw'] Hh']. split; [done|]. apply wp_ret. split; [by split|]. eauto.
Qed.

End SchedulerSpec.
