(* ===== verification/CleanupSpec.v ===== *)
(** * What cancellation, cleanup and preemption do (theorems about Cleanup.v, Aging.v)

    The sub-procedures the handlers share, as rules: the state each leaves and the
    message it sends. *)

From S2P Require Import Prelude Commons Serialization Protocol MasterState MasterInvariant.
From S2P Require Import Scheduler SchedulerSpec Cleanup Aging.

Section CleanupSpec.
Context `{CLS : CommonsListSpec} `{KN : Kernel}.

Lemma on_qheap_qheap f g w :
  on_qheap f (on_qheap g w) = on_qheap (fun h => f (g h)) w.
Proof. done. Qed.

Lemma wp_finalize p q reason (Q : unit -> world -> Prop) w :
  qheap w !! p = Some q ->
  (forall ob, Q tt (on_qheap (fun h => <[p := on_qcb_state QUERY_STATE_CANCELED q]> h)
                 (on_outbox ob w))) ->
  wp (finalize_query_with_error p reason) Q w.
Proof.
  intros Hp HQ. unfold finalize_query_with_error.
  apply wp_bind. eapply wp_get_q; [exact Hp|].
  apply wp_bind, wp_send_package. intros rc ob. eapply wp_mod_q; [exact Hp|]. apply HQ.
Qed.

Lemma wp_cleanup_query p q (Q : unit -> world -> Prop) w :
  qheap w !! p = Some q -> cleaned_up q = false ->
  Q tt (on_qheap (fun h => delete p h) (on_queries (cleaned_table p) w)) ->
  wp (cleanup_query_resources p) Q w.
Proof.
  intros Hp Hc HQ. unfold cleanup_query_resources.
  apply wp_bind. eapply wp_get_q; [exact Hp|]. rewrite Hc.
  apply wp_bind. eapply wp_mod_q; [exact Hp|].
  do 5 apply wp_bind, wp_modify.
  eapply wp_free_q; [apply lookup_insert_eq|].
  match goal with |- Q tt ?w2 => replace w2 with
    (on_qheap (fun h => delete p h) (on_queries (cleaned_table p) w)); [done|] end.
  destruct_world w. unfold cleaned_table. world_cbv. by rewrite delete_insert_eq.
Qed.

Lemma wp_cleanup_worker p b (Q : unit -> world -> Prop) w :
  wheap w !! p = Some b -> 0 < total_workers_connected (workers w) ->
  Q tt (on_wheap (fun k => delete p k) (on_level (total_workers_connected (workers w) - 1)
          (on_workers (removed_table p) w))) ->
  wp (cleanup_worker_resources p) Q w.
Proof.
  intros Hp Hn HQ. unfold cleanup_worker_resources.
  apply wp_bind. eapply wp_get_w; [exact Hp|].
  do 3 apply wp_bind, wp_modify. apply wp_bind, wp_gets. autorewrite with world.
  cbn [total_workers_connected on_worker_list on_busy_list on_idle_list].
  destruct (Z.ltb_spec 0 (total_workers_connected (workers w))); [|lia].
  apply wp_bind, wp_bind, wp_modify, wp_modify, wp_bind, wp_modify.
  eapply wp_free_w; [exact Hp|]. exact HQ.
Qed.

(** *** Asking a worker for its query *)

Definition match_assigned (q : t_query_control_block) (b : t_worker_control_block) : Prop :=
  worker_id b = assigned_worker_id q /\ 0 < w_socket_fd b.

(** [preempt_query_in_exec] on the block [q] of [p]. *)
Inductive preempt_outcome (p : ptr) (q : t_query_control_block) (w : world) : Z -> world -> Prop :=
| preempt_pending :
    preemption_pending q = true -> preempt_outcome p q w 0 w
| preempt_requested x b block :
    preemption_pending q = false -> x ∈ worker_list (workers w) -> wheap w !! x = Some b ->
    match_assigned q b ->
    carries block (master_op OP_WORKER_PREEMPT_REQ) [F_uint32 (u32 (query_id q))] ->
    preempt_outcome p q w 0
      (on_qheap (fun h => <[p := on_qcb_pending true q]> h)
        (on_outbox ((w_socket_fd b, block) :: outbox w) w))
| preempt_unsent x b ob :
    preemption_pending q = false -> x ∈ worker_list (workers w) -> wheap w !! x = Some b ->
    match_assigned q b ->
    preempt_outcome p q w (-1)
      (on_qheap (fun h => <[p := on_qcb_pending false q]> h) (on_outbox ob w))
| preempt_invalid ob :
    preemption_pending q = false ->
    preempt_outcome p q w (-1)
      (on_qheap (fun h => delete p h) (on_queries (cleaned_table p) (on_outbox ob w))).

Lemma query_id_built op n :
  0 <= op < 256 ->
  exists pkg, package_add_uint32 (package_create_empty op) (u32 n) = (true, pkg) /\
    buffer_wf (buffer pkg) /\ carries (serialized_package pkg) op [F_uint32 (u32 n)].
Proof.
  intros Hop. destruct (package_built op [F_uint32 (u32 n)]) as (pkg & E & Hwf & Hc);
    [done|by repeat constructor; apply u32_bound|vm_compute; discriminate|].
  cbn [package_add_all package_add] in E.
  destruct (package_add_uint32 _ _) as [[] p]; [|done]. injection E as ->. eauto.
Qed.

(** Sent whole, or reported as a failure. *)
Lemma wp_send_built pkg fd (Q : Z -> world -> Prop) w :
  buffer_wf (buffer pkg) -> 0 <= fd ->
  Q 0 (on_outbox ((fd, serialized_package pkg) :: outbox w) w) ->
  (forall ob, Q (-1) (on_outbox ob w)) ->
  wp (send_package pkg fd) Q w.
Proof.
  intros Hwf Hfd HQ HQ'. unfold wp, send_package. rewrite package_send_whole by done.
  destruct (Z.eqb_spec (send_returns (outbox w) fd (serialized_package pkg))
              (Z.of_nat (length (serialized_package pkg)))) as [->|]; [|apply HQ'].
  by rewrite Nat2Z.id, firstn_all.
Qed.

Lemma preempt_query_run p q w :
  qheap w !! p = Some q -> cleaned_up q = false ->
  (forall x, x ∈ worker_list (workers w) -> is_Some (wheap w !! x)) ->
  wp (preempt_query_in_exec p) (fun rc w' => preempt_outcome p q w rc w') w.
Proof.
  intros Hp Hc Hl. unfold preempt_query_in_exec.
  apply wp_bind. eapply wp_get_q; [exact Hp|].
  destruct (preemption_pending q) eqn:Epend; [by apply wp_ret, preempt_pending|].
  apply wp_bind, wp_gets. apply wp_bind, wp_find_w; [done|].
  assert (Hinv : wp (finalize_query_with_error p (Some "Error en preemption - worker inválido"%string);;
                     cleanup_query_resources p;; mret (-1))
                   (fun rc w' => preempt_outcome p q w rc w') w).
  { apply wp_bind. eapply wp_finalize; [exact Hp|]. intros ob.
    apply wp_bind. eapply wp_cleanup_query; [apply lookup_insert_eq|done|]. apply wp_ret.
    replace (on_qheap _ _) with (on_qheap (fun h => delete p h) (on_queries (cleaned_table p)
       (on_outbox ob w))); [by apply preempt_invalid|].
    destruct_world w. world_cbv. by rewrite delete_insert_eq. }
  destruct (List.find _ _) as [x|] eqn:Ef; [|exact Hinv].
  apply find_w_found in Ef as (Hx & b & Hb & Em).
  apply wp_bind. eapply wp_get_w; [exact Hb|].
  destruct (Z.leb_spec (w_socket_fd b) 0); [exact Hinv|].
  assert (Ha : match_assigned q b) by (apply Z.eqb_eq in Em; split; [done|lia]).
  apply wp_bind. eapply wp_mod_q; [exact Hp|].
  destruct (query_id_built (master_op OP_WORKER_PREEMPT_REQ) (query_id q)) as (pkg & E & Hwf & Hcarry);
    [done|]. rewrite E. cbn [snd]. apply wp_bind, wp_send_built; [done|lia| |intros ob].
  - apply wp_ret. exact (preempt_requested p q w x b _ Epend Hx Hb Ha Hcarry).
  - apply wp_bind. eapply wp_mod_q; [apply lookup_insert_eq|]. apply wp_ret.
    replace (on_qheap _ _) with (on_qheap (fun h => <[p := on_qcb_pending false q]> h)
       (on_outbox ob w)); [by eapply preempt_unsent|].
    destruct_world w. world_cbv. by rewrite insert_insert_eq.
Qed.

(** *** The invariant *)

Lemma canceled_running q : running_block (on_qcb_state QUERY_STATE_CANCELED q).
Proof. by right. Qed.

(** A running block, whatever becomes of its other fields. *)
Lemma running_update_wf p q q' t h :
  queries_wf None t h -> p ∈ running_list t -> h !! p = Some q ->
  query_id q' = query_id q -> cleaned_up q' = cleaned_up q -> running_block q' ->
  queries_wf None t (<[p := q']> h).
Proof.
  intros Hq Hp Hh Hid Hc Hr. eapply (qwf_close p q'); [|apply lookup_insert_eq|].
  - eapply qwf_update; [by apply qwf_open|done..].
  - right. split; [|done]. intros Hin. by apply (qwf_disjoint _ _ _ Hq p).
Qed.

(** Taking a block out of the table altogether. *)
Lemma cleaned_wf p t h : queries_wf None t h -> queries_wf None (cleaned_table p t) (delete p h).
Proof. intros Hq. by apply qwf_remove, qwf_open. Qed.

Lemma preempt_outcome_wf p q w rc w' :
  tables_wf None None w -> qheap w !! p = Some q -> p ∈ running_list (queries w) ->
  preempt_outcome p q w rc w' -> tables_wf None None w' /\ held w' = held w.
Proof.
  intros [Hq Hw] Hh Hp Ho. pose proof (qwf_running _ _ _ Hq p q ltac:(done) Hp Hh) as Hr.
  destruct Ho; (split; [|done]); (split; [|exact Hw]); autorewrite with world; try done.
  - by eapply running_update_wf.
  - by eapply running_update_wf.
  - by apply cleaned_wf.
Qed.

Lemma wp_preempt p q (Q : Z -> world -> Prop) w :
  tables_wf None None w -> qheap w !! p = Some q -> p ∈ running_list (queries w) ->
  (forall rc w', preempt_outcome p q w rc w' -> tables_wf None None w' -> held w' = held w -> Q rc w') ->
  wp (preempt_query_in_exec p) Q w.
Proof.
  intros [Hq Hw] Hh Hp HQ. eapply wp_mono; [apply preempt_query_run|].
  - exact Hh.
  - by eapply qwf_live.
  - intros x Hx. eapply wwf_allocated; eauto.
  - intros rc w' Ho. eapply preempt_outcome_wf in Ho as Ho'; [|by split|done..].
    destruct Ho'. by apply HQ.
Qed.

End CleanupSpec.
