(* ===== verification/AgingSpec.v ===== *)
(** * What aging and preemption do (theorems about Aging.v) *)

From Stdlib Require Import Sorting.Sorted.
From S2P Require Import Prelude Commons Serialization Protocol MasterState MasterInvariant.
From S2P Require Import Scheduler SchedulerSpec Cleanup Aging CleanupSpec.

(** ** One query *)

(** The clock has run since the query became ready, for less than [2 ^ 31]
    intervals: the counts of the code fit their types. *)
Definition clock_ok (interval now : Z) (q : t_query_control_block) : Prop :=
  0 < interval < 2 ^ 31 /\ 0 < ready_timestamp q <= now /\ now < 2 ^ 63 /\
  (now - ready_timestamp q) / interval < 2 ^ 31 /\ 0 <= priority q.

Definition whole_intervals (interval now : Z) (q : t_query_control_block) : Z :=
  (now - ready_timestamp q) / interval.

Lemma aging_intervals_exact interval now q :
  clock_ok interval now q -> aging_intervals interval now q = whole_intervals interval now q.
Proof.
  intros (Hi & Ht & Hn & Hk & _). unfold aging_intervals, whole_intervals.
  rewrite !u64_small by lia. unfold i32. apply to_signed_id; [lia|].
  pose proof (Z.div_pos (now - ready_timestamp q) interval ltac:(lia) ltac:(lia)). lia.
Qed.

Lemma age_query_exact interval now q :
  clock_ok interval now q -> q_state q = QUERY_STATE_READY ->
  let k := whole_intervals interval now q in
  age_query interval now q =
    if (0 <? k) && (0 <? priority q)
    then (on_qcb_timestamp (ready_timestamp q + k * interval)
            (on_qcb_priority (Z.max 0 (priority q - k)) q), true)
    else (q, false).
Proof.
  intros Hc Hs k. pose proof (aging_intervals_exact _ _ _ Hc) as Ek.
  destruct Hc as (Hi & Ht & Hn & Hk & Hp). fold k in Ek. unfold whole_intervals in k.
  assert (Hkp : 0 <= k) by (apply Z.div_pos; lia).
  assert (Hkb : k * interval <= now - ready_timestamp q).
  { rewrite Z.mul_comm. apply Z.mul_div_le. lia. }
  unfold age_query. rewrite bool_decide_eq_true_2 by done. simpl negb. cbv iota.
  destruct (Z.eqb_spec (ready_timestamp q) 0); [lia|].
  rewrite (u64_small (now - ready_timestamp q)), (u64_small interval), Ek by lia.
  destruct (Z.ltb_spec (now - ready_timestamp q) interval) as [Hlt|Hge].
  { replace k with 0; [done|]. symmetry. apply Z.div_small. lia. }
  destruct (Z.ltb_spec 0 k); [|done]. destruct (Z.ltb_spec 0 (priority q)); [|done]. simpl.
  rewrite (u64_small k) by lia. rewrite u64_small by lia. do 3 f_equal.
  destruct (Z.leb_spec (priority q) k); lia.
Qed.

(** What aging leaves alone. *)
Lemma age_query_frame interval now q :
  let q' := fst (age_query interval now q) in
  query_id q' = query_id q /\ cleaned_up q' = cleaned_up q /\ q_state q' = q_state q /\
  assigned_worker_id q' = assigned_worker_id q /\ preemption_pending q' = preemption_pending q /\
  program_counter q' = program_counter q /\ q_socket_fd q' = q_socket_fd q /\
  query_file_path q' = query_file_path q /\ initial_priority q' = initial_priority q.
Proof. unfold age_query. repeat case_match; done. Qed.

Lemma age_query_unchanged interval now q :
  snd (age_query interval now q) = false ->
  priority (fst (age_query interval now q)) = priority q.
Proof. unfold age_query. repeat case_match; done. Qed.

(** ** The READY queue *)

Definition aged (interval now : Z) (l : list ptr) (x : ptr) (q : t_query_control_block) :=
  if decide (x ∈ l) then fst (age_query interval now q) else q.

(** The heap after every block of [l] was aged. *)
Definition age_heap (interval now : Z) (l : list ptr) (h : gmap ptr t_query_control_block) :=
  map_imap (fun x q => Some (aged interval now l x q)) h.

Lemma lookup_age_heap interval now l h x :
  age_heap interval now l h !! x = aged interval now l x <$> h !! x.
Proof. unfold age_heap. rewrite map_lookup_imap. by destruct (h !! x). Qed.

Lemma age_heap_nil interval now h : age_heap interval now [] h = h.
Proof.
  apply map_eq. intros x. rewrite lookup_age_heap. unfold aged.
  destruct (h !! x) as [q|]; simpl; try done.
Qed.

Lemma age_heap_snoc interval now l p q h :
  p ∉ l -> h !! p = Some q ->
  <[p := fst (age_query interval now q)]> (age_heap interval now l h) =
  age_heap interval now (l ++ [p]) h.
Proof.
  intros Hp Hh. apply map_eq. intros x. rewrite lookup_age_heap. destruct (decide (p = x)) as [<-|].
  - rewrite lookup_insert_eq, Hh. unfold aged. simpl. rewrite decide_True; [done|set_solver].
  - rewrite lookup_insert_ne, lookup_age_heap by done. unfold aged. destruct (h !! x); [|done]. simpl.
    destruct (decide (x ∈ l)), (decide (x ∈ l ++ [p])); set_solver.
Qed.

Definition changes (interval now : Z) (h : gmap ptr t_query_control_block) (p : ptr) : bool :=
  match h !! p with Some q => snd (age_query interval now q) | None => false end.

Section AgingSpec.
Context `{CLS : CommonsListSpec} `{KN : Kernel}.

Lemma aging_scan_run interval now l n w i changed h :
  NoDup l -> (i + n = length l)%nat -> (forall p, p ∈ l -> is_Some (h !! p)) ->
  qheap w = age_heap interval now (take i l) h ->
  aging_scan l interval now i n changed w =
    Some (changed || existsb (changes interval now h) (drop i l),
          on_qheap (fun _ => age_heap interval now l h) w).
Proof.
  intros Hnd Hn Hl. revert i w changed Hn. induction n as [|n IH]; intros i w changed Hn Hw.
  - cbn [aging_scan]. rewrite drop_ge by lia. rewrite take_ge in Hw by lia.
    rewrite orb_false_r. rewrite <- Hw. by destruct w.
  - cbn [aging_scan]. rewrite list_get_spec. destruct (l !! i) as [p|] eqn:Ep.
    2:{ apply lookup_ge_None in Ep. lia. }
    destruct (Hl p) as [q Hq]; [by eapply list_elem_of_lookup_2|].
    assert (Hnp : p ∉ take i l).
    { rewrite <- (take_drop_middle l i p Ep) in Hnd. apply NoDup_app in Hnd as (_ & Hd & _).
      intros Hin. apply (Hd p Hin). constructor. }
    assert (Hwp : qheap w !! p = Some q).
    { rewrite Hw, lookup_age_heap, Hq. unfold aged. simpl. by rewrite decide_False. }
    unfold mbind at 1, st_bind at 1, get_q at 1. rewrite Hwp.
    unfold mbind at 1, st_bind at 1, mod_q, mbind at 1, st_bind at 1, get_q at 1. rewrite Hwp.
    unfold st_modify. rewrite (drop_S l p i Ep).
    rewrite IH; [|lia|].
    + cbn [existsb]. unfold changes at 2. by rewrite Hq, orb_assoc.
    + autorewrite with world. rewrite Hw, (take_S_r l i p Ep). by apply age_heap_snoc.
Qed.

(** *** The comparator *)

Lemma compare_priority h a b :
  is_Some (h !! a) -> is_Some (h !! b) ->
  _qcb_priority_compare h a b = (priority_of h a <? priority_of h b).
Proof. intros [? Ha] [? Hb]. unfold _qcb_priority_compare, priority_of. by rewrite Ha, Hb. Qed.

Lemma compare_strict_weak h l :
  (forall p, p ∈ l -> is_Some (h !! p)) -> strict_weak l (_qcb_priority_compare h).
Proof.
  intros Hl. split; [|split].
  - intros a Ha. rewrite compare_priority by auto. lia.
  - intros a b c Ha Hb Hc. rewrite !compare_priority by auto. lia.
  - intros a b c Ha Hb Hc. rewrite !compare_priority by auto. lia.
Qed.

Lemma sort_by_priority h l :
  (forall p, p ∈ l -> is_Some (h !! p)) ->
  StronglySorted (by_priority (priority_of h)) (list_sort l (_qcb_priority_compare h)).
Proof.
  intros Hl. pose proof (list_sort_sorted l _ (compare_strict_weak h l Hl)) as Hs.
  assert (Hin : forall p, p ∈ list_sort l (_qcb_priority_compare h) -> is_Some (h !! p)).
  { intros p. rewrite (list_sort_perm l _). apply Hl. }
  induction Hs as [|x k Hs IH Hx]; constructor.
  - apply IH. intros. apply Hin. by constructor.
  - apply Forall_forall. intros y Hy. eapply Forall_forall in Hx; [|done].
    rewrite compare_priority in Hx by (apply Hin; by constructor). unfold by_priority. lia.
Qed.

Lemma wp_sort_ready (Q : unit -> world -> Prop) w :
  (forall p, p ∈ ready_queue (queries w) -> is_Some (qheap w !! p)) ->
  Q tt (on_queries (on_ready_queue
          (fun l => list_sort l (_qcb_priority_compare (qheap w)))) w) ->
  wp sort_ready Q w.
Proof.
  intros Hl HQ. unfold wp, sort_ready. replace (forallb _ _) with true; [done|].
  symmetry. apply forallb_forall. intros p Hp. apply bool_decide_eq_true, Hl.
  by apply list_elem_of_In.
Qed.

(** *** The worst running query *)

Definition is_worst (h : gmap ptr t_query_control_block) (l : list ptr) (r : option ptr) : Prop :=
  match r with
  | None => l = []
  | Some p => p ∈ l /\ forall y, y ∈ l -> priority_of h y <= priority_of h p
  end.

Lemma worst_loop_run l n w i worst :
  (i + n = length l)%nat -> (forall p, p ∈ l -> is_Some (qheap w !! p)) ->
  is_worst (qheap w) (take i l) worst ->
  wp (worst_loop l worst i n) (fun r w' => w' = w /\ is_worst (qheap w) l r) w.
Proof.
  intros Hn Hl. revert i worst Hn. induction n as [|n IH]; intros i worst Hn Hi.
  - cbn [worst_loop]. apply wp_ret. rewrite take_ge in Hi by lia. done.
  - cbn [worst_loop]. rewrite list_get_spec. destruct (l !! i) as [p|] eqn:Ep.
    2:{ apply lookup_ge_None in Ep. lia. }
    assert (Hp : p ∈ l) by (by eapply list_elem_of_lookup_2).
    destruct (Hl p Hp) as [q Hq]. pose proof (take_S_r l i p Ep) as Et.
    destruct worst as [v|]; cbn [is_worst] in Hi.
    2:{ apply IH; [lia|]. rewrite Et, Hi. simpl. split; [set_solver|].
        intros y ->%list_elem_of_singleton. lia. }
    destruct Hi as [Hv Hmax]. destruct (Hl v) as [b Hb].
    { rewrite <- (take_drop i l). apply elem_of_app. by left. }
    apply wp_bind. eapply wp_get_q; [exact Hq|].
    apply wp_bind. eapply wp_get_q; [exact Hb|].
    apply IH; [lia|]. rewrite Et.
    assert (Ep' : priority_of (qheap w) p = priority q) by (unfold priority_of; by rewrite Hq).
    assert (Ev' : priority_of (qheap w) v = priority b) by (unfold priority_of; by rewrite Hb).
    destruct (Z.ltb_spec (priority b) (priority q)); cbn [is_worst]; (split; [set_solver|]);
      intros y [Hy| ->%list_elem_of_singleton]%elem_of_app; try lia;
      specialize (Hmax y Hy); lia.
Qed.

(** What [check_preemption] does between its locks. *)
Inductive preemption_round (w : world) : world -> Prop :=
| no_preemption :
    (busy_list (workers w) = [] \/ ready_queue (queries w) = [] \/
     running_list (queries w) = [] \/
     exists best rest, ready_queue (queries w) = best :: rest /\
       forall y, y ∈ running_list (queries w) ->
         priority_of (qheap w) y <= priority_of (qheap w) best) ->
    preemption_round w w
| preemption best rest p q rc w' :
    ready_queue (queries w) = best :: rest -> p ∈ running_list (queries w) ->
    qheap w !! p = Some q ->
    (forall y, y ∈ running_list (queries w) -> priority_of (qheap w) y <= priority q) ->
    priority_of (qheap w) best < priority q ->
    preempt_outcome p q w rc w' -> preemption_round w w'.

Lemma preemption_locked_run w :
  tables_wf None None w ->
  wp preemption_locked (fun _ w' => preemption_round w w' /\ tables_wf None None w' /\
                                    held w' = held w) w.
Proof.
  intros Hwf. pose proof Hwf as [Hq Hw]. unfold preemption_locked.
  apply wp_bind, wp_gets, wp_bind, wp_gets. rewrite !list_is_empty_spec.
  case_bool_decide as Hbusy; [apply wp_ret; split; [|done]; apply no_preemption; auto|].
  case_bool_decide as Hready; [apply wp_ret; split; [|done]; apply no_preemption; auto|].
  simpl orb. cbv iota. rewrite list_get_spec.
  destruct (ready_queue (queries w)) as [|best rest] eqn:Er; [done|]. cbn [lookup list_lookup].
  assert (Hrun : forall p, p ∈ running_list (queries w) -> is_Some (qheap w !! p))
    by (intros; eapply qwf_allocated; eauto).
  apply wp_bind. eapply wp_mono; [apply worst_loop_run; [by rewrite list_size_spec|done|done]|].
  intros r w1 [-> Hr]. destruct r as [p|]; cbn [is_worst] in Hr.
  2:{ apply wp_ret. split; [|done]. apply no_preemption. auto. }
  destruct Hr as [Hp Hmax]. destruct (Hrun p Hp) as [v Hv].
  destruct (qwf_allocated _ _ _ best Hq) as [b Hb]; [rewrite Er; set_solver|].
  assert (Eb : priority_of (qheap w) best = priority b) by (unfold priority_of; by rewrite Hb).
  assert (Ev : priority_of (qheap w) p = priority v) by (unfold priority_of; by rewrite Hv).
  apply wp_bind. eapply wp_get_q; [exact Hb|]. apply wp_bind. eapply wp_get_q; [exact Hv|].
  destruct (Z.leb_spec (priority v) (priority b)).
  - apply wp_ret. split; [|done]. apply no_preemption. right. right. right.
    exists best, rest. split; [done|]. intros y Hy. specialize (Hmax y Hy). lia.
  - apply wp_bind. eapply wp_preempt; [done|done|done|]. intros rc w' Ho Hwf' Hh.
    apply wp_ret. split; [|done]. eapply preemption; try done; [|lia].
    intros y Hy. rewrite <- Ev. auto.
Qed.

(** *** One round of the thread *)

Lemma qwf_age interval now e t h :
  queries_wf e t h -> queries_wf e t (age_heap interval now (ready_queue t) h).
Proof.
  intros Hq. set (h' := age_heap _ _ _ _).
  assert (Hback : forall x q', h' !! x = Some q' -> exists q, h !! x = Some q /\
            q' = aged interval now (ready_queue t) x q).
  { intros x q'. unfold h'. rewrite lookup_age_heap. destruct (h !! x); naive_solver. }
  assert (Hframe : forall x q, let q' := aged interval now (ready_queue t) x q in
            query_id q' = query_id q /\ cleaned_up q' = cleaned_up q /\ q_state q' = q_state q /\
            assigned_worker_id q' = assigned_worker_id q /\
            preemption_pending q' = preemption_pending q).
  { intros x q. unfold aged. pose proof (age_query_frame interval now q) as F. simpl in F.
    destruct (decide _); [|done]. naive_solver. }
  destruct Hq. split; try done.
  - intros x. rewrite qwf_alloc. unfold h'. rewrite lookup_age_heap, fmap_is_Some. done.
  - intros x q' He Hx (q & Hh & ->)%Hback. unfold ready_block.
    destruct (Hframe x q) as (_ & _ & -> & -> & ->). by eapply qwf_ready.
  - intros x q' He Hx (q & Hh & ->)%Hback. unfold running_block.
    destruct (Hframe x q) as (_ & _ & -> & _). by eapply qwf_running.
  - intros x q' (q & Hh & ->)%Hback. destruct (Hframe x q) as (_ & -> & _). eauto.
  - intros x q' (q & Hh & ->)%Hback. destruct (Hframe x q) as (-> & _). eauto.
  - intros x y q' r' (q & Hh & ->)%Hback (r & Hh' & ->)%Hback.
    destruct (Hframe x q) as (-> & _), (Hframe y r) as (-> & _). eauto.
Qed.

(** The queue after a round: aged, and sorted again when a number changed. *)
Definition aged_state (interval now : Z) (w : world) : world :=
  let h := age_heap interval now (ready_queue (queries w)) (qheap w) in
  let w' := on_qheap (fun _ => h) w in
  if existsb (changes interval now (qheap w)) (ready_queue (queries w))
  then on_queries (on_ready_queue (fun l => list_sort l (_qcb_priority_compare h))) w'
  else w'.

Lemma aged_state_wf interval now w :
  tables_wf None None w -> tables_wf None None (aged_state interval now w).
Proof.
  intros [Hq Hw]. unfold aged_state. destruct (existsb _ _); (split; [|exact Hw]).
  - eapply qwf_permute; [by apply qwf_age|]. apply list_sort_perm.
  - by apply qwf_age.
Qed.

Lemma priority_unchanged interval now l h :
  (forall p, p ∈ l -> changes interval now h p = false) ->
  forall y, priority_of (age_heap interval now l h) y = priority_of h y.
Proof.
  intros Hl y. unfold priority_of. rewrite lookup_age_heap. destruct (h !! y) as [q|] eqn:E; [|done].
  simpl. unfold aged. destruct (decide (y ∈ l)) as [Hy|]; [|done].
  apply age_query_unchanged. specialize (Hl y Hy). unfold changes in Hl. by rewrite E in Hl.
Qed.

Lemma by_priority_ext f g l :
  (forall y, f y = g y) -> StronglySorted (by_priority f) l -> StronglySorted (by_priority g) l.
Proof.
  intros E. induction 1 as [|x l Hl IH Hx]; constructor; [done|].
  eapply Forall_impl; [exact Hx|]. unfold by_priority. intros y. by rewrite !E.
Qed.

Lemma aged_state_sorted interval now w :
  tables_wf None None w ->
  let w' := aged_state interval now w in
  ready_queue (queries w') ≡ₚ ready_queue (queries w) /\
  (StronglySorted (by_priority (priority_of (qheap w))) (ready_queue (queries w)) ->
   StronglySorted (by_priority (priority_of (qheap w'))) (ready_queue (queries w'))).
Proof.
  intros [Hq Hw]. unfold aged_state. destruct (existsb _ _) eqn:Ee; cbn zeta; autorewrite with world.
  - cbn [ready_queue on_ready_queue]. split; [apply list_sort_perm|]. intros _.
    apply sort_by_priority. intros p Hp. rewrite lookup_age_heap, fmap_is_Some.
    eapply qwf_allocated; eauto.
  - split; [done|]. apply by_priority_ext. intros y. symmetry. apply priority_unchanged.
    intros p Hp. destruct (changes interval now (qheap w) p) eqn:E; [|done].
    enough (existsb (changes interval now (qheap w)) (ready_queue (queries w)) = true) by congruence.
    apply existsb_exists. exists p. split; [by apply list_elem_of_In|done].
Qed.

Lemma check_preemption_run w :
  master_wf w ->
  wp check_preemption (fun _ w' => master_wf w' /\ exists v,
    preemption_round (both_locked w) v /\ w' = released v) w.
Proof.
  intros [Hq Hw Hh]. unfold check_preemption.
  apply wp_bind, wp_lock; [rewrite Hh; set_solver|]. rewrite Hh.
  apply wp_bind, wp_lock; [cbn; set_solver|]. cbn [held on_held lock_log]. rewrite on_held_held.
  apply wp_bind. eapply wp_mono; [apply preemption_locked_run; by split|].
  intros _ v (Hv & [Hq' Hw'] & Hh'). cbn in Hh'.
  apply wp_bind, wp_unlock; [rewrite Hh'; set_solver|]. rewrite Hh'.
  apply wp_unlock; [cbn; set_solver|]. split; [by split|]. exists v. split; [exact Hv|].
  by destruct_world v.
Qed.

(** What a round leaves when there is something to age. *)
Lemma aging_round_run now w :
  master_wf w -> 0 < aging_interval (master w) -> ready_queue (queries w) <> [] ->
  wp (aging_round now) (fun _ w' => master_wf w' /\ exists v,
    preemption_round
      (both_locked (aged_state (aging_interval (master w)) now
         (on_held [] ((query_table_mutex, []) :: lock_log w) w))) v /\ w' = released v) w.
Proof.
  intros [Hq Hw Hh] Hi Hr. unfold aging_round. apply wp_bind, wp_gets.
  destruct (Z.leb_spec (aging_interval (master w)) 0); [lia|].
  apply wp_bind, wp_lock; [rewrite Hh; set_solver|]. rewrite Hh.
  apply wp_bind, wp_gets. autorewrite with world. rewrite list_is_empty_spec, bool_decide_eq_false_2 by done.
  apply wp_bind. eapply wp_intro.
  { apply (aging_scan_run _ _ _ _ _ _ _ (qheap w)); [apply Hq|by rewrite list_size_spec| |].
    - intros p Hp. eapply qwf_allocated; eauto.
    - by rewrite take_0, age_heap_nil. }
  rewrite drop_0. simpl orb.
  set (w1 := on_held [query_table_mutex] ((query_table_mutex, []) :: lock_log w) w).
  apply wp_bind.
  assert (Hsort : wp (if existsb (changes (aging_interval (master w)) now (qheap w))
                            (ready_queue (queries w)) then sort_ready else mret tt)
            (fun _ w' => w' = aged_state (aging_interval (master w)) now w1)
            (on_qheap (fun _ => age_heap (aging_interval (master w)) now (ready_queue (queries w))
                                  (qheap w)) w1)).
  { unfold aged_state. change (queries w1) with (queries w). change (qheap w1) with (qheap w).
    destruct (existsb _ _); [|by apply wp_ret]. apply wp_sort_ready; [|done].
    intros p Hp. autorewrite with world. rewrite lookup_age_heap, fmap_is_Some.
    eapply qwf_allocated; eauto. }
  eapply wp_mono; [exact Hsort|]. intros _ w2 ->.
  assert (Hh2 : held (aged_state (aging_interval (master w)) now w1) = [query_table_mutex])
    by (unfold aged_state; by destruct (existsb _ _)).
  apply wp_bind, wp_unlock; [rewrite Hh2; set_solver|]. rewrite Hh2.
  eapply wp_mono; [apply check_preemption_run|].
  - destruct (aged_state_wf (aging_interval (master w)) now w1) as [H1 H2]; [by split|].
    by split.
  - intros _ w3 (Hwf3 & v & Hv & ->). split; [done|]. exists v. split; [|done].
    replace (aged_state (aging_interval (master w)) now
               (on_held [] ((query_table_mutex, []) :: lock_log w) w))
      with (on_held [] (lock_log (aged_state (aging_interval (master w)) now w1))
              (aged_state (aging_interval (master w)) now w1)); [exact Hv|].
    unfold aged_state, w1. autorewrite with world. by destruct (existsb _ _).
Qed.

End AgingSpec.
