(* ===== verification/HandlersSpec.v ===== *)
(** * What the handlers of the Master do (theorems about Disconnection.v, WorkerManager.v)

    Each handler, run to its end: the state it leaves and the invariant it keeps. *)

From S2P Require Import Prelude Commons Serialization Protocol MasterState MasterInvariant.
From S2P Require Import Scheduler SchedulerSpec Cleanup Aging CleanupSpec Disconnection WorkerManager.

Section HandlersSpec.
Context `{CLS : CommonsListSpec} `{KN : Kernel}.

(** ** A worker that becomes idle *)

Definition freed_worker (x : ptr) (b : t_worker_control_block) (w : world) : world :=
  let w := on_wheap (fun k => <[x := on_wcb (-1) WORKER_STATE_IDLE b]> k) w in
  if decide (x ∈ busy_list (workers w))
  then on_workers (fun u => on_idle_list (fun l => list_add l x) (on_busy_list (drop_elem x) u)) w
  else w.

Lemma freed_workers_wf x b w :
  workers_wf None (workers w) (wheap w) -> wheap w !! x = Some b ->
  workers_wf None (workers (freed_worker x b w)) (wheap (freed_worker x b w)).
Proof.
  intros Hw Hb. unfold freed_worker. cbn zeta. autorewrite with world.
  assert (Hx : x ∈ worker_list (workers w)) by (apply (wwf_alloc _ _ _ Hw); eauto).
  destruct (decide _) as [Hbusy|Hbusy]; autorewrite with world.
  - assert (Hni : x ∉ idle_list (workers w)) by (intros Hi; by apply (wwf_disjoint _ _ _ Hw x)).
    eapply (wwf_close x); [|apply lookup_insert_eq|].
    + apply wwf_enter_idle; [|done|by rewrite lookup_insert_eq].
      apply wwf_drop_busy. eapply wwf_update; [by apply wwf_open|eauto].
    + left. cbn [idle_list busy_list on_idle_list on_busy_list].
      rewrite drop_elem_elem, list_add_elem by apply Hw.
      split; [by right|]. split; [by intros [_ ?]|done].
  - eapply (wwf_close x); [|apply lookup_insert_eq|].
    + eapply wwf_update; [by apply wwf_open|eauto].
    + left. pose proof (wwf_placed _ _ _ Hw x ltac:(done) Hx) as [Hi|Hi]; [|done].
      by repeat split.
Qed.

Lemma freed_worker_frame x b w :
  queries (freed_worker x b w) = queries w /\ qheap (freed_worker x b w) = qheap w /\
  held (freed_worker x b w) = held w /\ outbox (freed_worker x b w) = outbox w.
Proof. unfold freed_worker. cbn zeta. by destruct (decide _). Qed.

Lemma freed_worker_wf x b e w :
  tables_wf e None w -> wheap w !! x = Some b -> tables_wf e None (freed_worker x b w).
Proof.
  intros [Hq Hw] Hb. destruct (freed_worker_frame x b w) as (Eq & Eh & _).
  split; [by rewrite Eq, Eh|by apply freed_workers_wf].
Qed.

Lemma wp_release_worker x b (Q : unit -> world -> Prop) w :
  wheap w !! x = Some b -> x ∈ busy_list (workers w) -> Q tt (freed_worker x b w) ->
  wp (release_worker x) Q w.
Proof.
  intros Hb Hx HQ. unfold release_worker. apply wp_bind. eapply wp_mod_w; [exact Hb|].
  apply wp_bind, wp_modify, wp_modify. unfold freed_worker in HQ. cbn zeta in HQ.
  autorewrite with world in HQ. rewrite decide_True in HQ by done. exact HQ.
Qed.

(** ** The end of a query *)

Definition worker_of_socket (fd : Z) (w : world) : option ptr :=
  List.find (test_w (fun b => w_socket_fd b =? fd) w) (worker_list (workers w)).
Definition running_query (id : Z) (w : world) : option ptr :=
  List.find (test_q (fun q => query_id q =? id) w) (running_list (queries w)).

(** A worker says that a query ended only while it runs one. *)
Definition honest_end (fd id : Z) (w : world) : Prop :=
  forall x p, worker_of_socket fd w = Some x -> running_query id w = Some p ->
  x ∈ busy_list (workers w).

(** The message to the Query Control. *)
Definition end_notified (q : t_query_control_block) (w : world) (ob : list (Z * list byte)) : Prop :=
  (q_socket_fd q <= 0 -> ob = outbox w) /\
  (0 < q_socket_fd q -> exists pkg answer,
     carries (serialized_package pkg) (master_op OP_END_QUERY) [F_uint32 (u32 (query_id q))] /\
     ob = (q_socket_fd q, take (Z.to_nat answer) (serialized_package pkg)) :: outbox w).

Lemma wp_notify_end q (Q : unit -> world -> Prop) w :
  (forall ob, end_notified q w ob -> Q tt (on_outbox ob w)) -> wp (notify_end q) Q w.
Proof.
  intros HQ. unfold notify_end. destruct (Z.ltb_spec 0 (q_socket_fd q)) as [Hfd|Hfd].
  - destruct (query_id_built (master_op OP_END_QUERY) (query_id q)) as (pkg & E & Hwf & Hc); [done|].
    rewrite E. cbn [snd]. apply wp_bind. unfold wp, send_package.
    rewrite package_send_whole by (done || lia). apply HQ. split; [lia|]. intros _. eauto.
  - apply wp_ret. rewrite <- (on_outbox_same w). apply HQ. split; [done|lia].
Qed.

(** The query is out of every list and its worker idle. *)
Definition ended (p x : ptr) b (ob : list (Z * list byte)) (w : world) : world :=
  on_qheap (fun h => delete p h) (on_queries (cleaned_table p) (on_outbox ob (freed_worker x b w))).

Inductive end_outcome (fd id : Z) (w : world) : Z * bool -> world -> Prop :=
| end_unknown_worker :
    worker_of_socket fd w = None -> end_outcome fd id w (-1, false) w
| end_unknown_query x b :
    worker_of_socket fd w = Some x -> wheap w !! x = Some b -> running_query id w = None ->
    end_outcome fd id w (-1, false)
      (on_wheap (fun k => <[x := on_wcb (-1) WORKER_STATE_IDLE b]> k) w)
| end_done x b p q ob :
    worker_of_socket fd w = Some x -> wheap w !! x = Some b ->
    running_query id w = Some p -> qheap w !! p = Some q -> end_notified q w ob ->
    end_outcome fd id w (0, true) (ended p x b ob w).

Lemma drop_running_cleaned p t :
  NoDup (running_list t) -> cleaned_table p (on_running_list (drop_elem p) t) = cleaned_table p t.
Proof.
  destruct t as [? ? ? ? ? ? ?]. unfold cleaned_table. world_cbv. intros Hnd.
  f_equal. rewrite !drop_elem_spec. apply remove_first_not_in.
  rewrite remove_first_elem by done. naive_solver.
Qed.

Lemma end_query_locked_run fd qid w :
  tables_wf None None w -> honest_end fd (i32 qid) w ->
  wp (end_query_locked fd qid) (fun r w' => end_outcome fd (i32 qid) w r w') w.
Proof.
  intros [Hq Hw] Hon. unfold end_query_locked.
  apply wp_bind, wp_gets, wp_bind, wp_scan_w; [intros; eapply wwf_allocated; eauto|].
  fold (worker_of_socket fd w). destruct (worker_of_socket fd w) as [x|] eqn:Ex.
  2:{ apply wp_ret. by apply end_unknown_worker. }
  destruct (find_w_found _ _ _ _ Ex) as (Hx & b & Hb & _).
  apply wp_bind, wp_gets, wp_bind, wp_scan_q; [intros; eapply qwf_allocated; eauto|].
  fold (running_query (i32 qid) w). destruct (running_query (i32 qid) w) as [p|] eqn:Ep.
  2:{ apply wp_bind. eapply wp_mod_w; [exact Hb|]. apply wp_ret. by eapply end_unknown_query. }
  destruct (find_q_found _ _ _ _ Ep) as (Hp & q & Hh & _).
  specialize (Hon x p Ex Ep).
  apply wp_bind. eapply wp_get_q; [exact Hh|]. rewrite (qwf_live _ _ _ Hq p q Hh).
  apply wp_bind. eapply wp_mod_q; [exact Hh|]. apply wp_bind, wp_modify.
  apply wp_bind. eapply wp_release_worker; [exact Hb|exact Hon|].
  apply wp_bind, wp_notify_end. intros ob Hob.
  apply wp_bind. eapply wp_cleanup_query.
  { autorewrite with world. unfold freed_worker. cbn zeta.
    destruct (decide _); apply lookup_insert_eq. }
  { cbn. by eapply qwf_live. }
  apply wp_ret.
  match goal with |- end_outcome _ _ _ _ ?w2 => replace w2 with (ended p x b ob w) end.
  { eapply end_done; try done. revert Hob. unfold end_notified, freed_worker. cbn zeta.
    by destruct (decide _). }
  unfold ended, freed_worker. cbn zeta. autorewrite with world. rewrite !decide_True by done.
  pose proof (drop_running_cleaned p (queries w) (qwf_running_nodup _ _ _ Hq)) as E.
  destruct_world w. revert E. world_cbv. intros E. rewrite delete_insert_eq.
  unfold cleaned_table in *. world_cbv. revert E. world_cbv. intros [= ->]. done.
Qed.

Lemma end_outcome_wf fd id w r w' :
  tables_wf None None w -> end_outcome fd id w r w' -> tables_wf None None w' /\ held w' = held w.
Proof.
  intros Hwf [|x b Hx Hb _|x b p q ob Hx Hb Hp Hh Hob]; [done| |].
  - destruct Hwf as [Hq Hw]. split; [|done]. split; [done|]. autorewrite with world.
    destruct (find_w_found _ _ _ _ Hx) as (Hin & _).
    destruct (wwf_placed _ _ _ Hw x ltac:(done) Hin) as [Hi|Hi];
      (eapply (wwf_close x); [eapply wwf_update; [by apply wwf_open|eauto]|apply lookup_insert_eq|]).
    + left. split; [done|]. split; [|done]. intros ?. by apply (wwf_disjoint _ _ _ Hw x).
    + right. split; [|done]. intros ?. by apply (wwf_disjoint _ _ _ Hw x).
  - destruct (freed_worker_wf x b None w Hwf Hb) as [Hq Hw].
    destruct (freed_worker_frame x b w) as (_ & _ & Ehd & _).
    unfold ended. split; [|done]. split; [|done]. autorewrite with world. by apply cleaned_wf.
Qed.

(** The handler: the outcome above, then a dispatch. *)
Lemma manage_worker_end_query_run buf fd qid w rest :
  master_wf w ->
  buffer_read_uint32 (snd (buffer_read_uint32 (buffer_reset_offset buf))) = (Some qid, rest) ->
  honest_end fd (i32 qid) w ->
  wp (manage_worker_end_query buf fd) (fun rc w' => master_wf w' /\ exists r v,
    end_outcome fd (i32 qid) (both_locked w) r v /\ rc = fst r /\
    (snd r = false -> w' = released v) /\
    (snd r = true -> exists rc' u, dispatch_outcome (both_locked (released v)) rc' u /\ w' = released u)) w.
Proof.
  intros Hwf Hread Hon. pose proof Hwf as [Hq Hw Hh]. unfold manage_worker_end_query.
  destruct (buffer_read_uint32 (buffer_reset_offset buf)) as [_v buf1]. cbn [snd] in Hread.
  rewrite Hread. apply wp_locked; [done|].
  eapply wp_mono; [apply end_query_locked_run; [by split|exact Hon]|].
  intros r v Hv. eapply end_outcome_wf in Hv as Hv'; [|by split]. destruct Hv' as [[Hq' Hw'] Hh'].
  split; [done|]. destruct (snd r) eqn:Er.
  - apply wp_bind. eapply wp_mono; [apply try_dispatch_run; by split|].
    intros rc w' (Hwf' & u & Hu & ->). apply wp_ret. split; [done|].
    exists r, v. rewrite Er. split; [done|]. split; [done|]. split; [done|]. eauto.
  - apply wp_ret. split; [by split|]. exists r, v. rewrite Er. by repeat split.
Qed.

(** ** The answer to an eviction *)

Definition running_query_u (id : Z) (w : world) : option ptr :=
  List.find (test_q (fun q => u32 (query_id q) =? id) w) (running_list (queries w)).

Definition evicted_qcb (pc now : Z) (q : t_query_control_block) : t_query_control_block :=
  on_qcb_timestamp now (on_qcb_pending false
    (on_qcb_worker (-1) (on_qcb_state QUERY_STATE_READY (on_qcb_pc (i32 pc) q)))).

(** The query goes back to the READY queue, by priority, with its program counter. *)
Definition requeued (p : ptr) (q : t_query_control_block) (w : world) : world :=
  on_queries (fun t => on_ready_queue (place (priority_of (<[p := q]> (qheap w))) p)
                         (on_running_list (drop_elem p) t))
    (on_qheap (fun h => <[p := q]> h) w).

Inductive evict_outcome (fd qid pc now : Z) (w : world) : world -> Prop :=
| evict_unknown :
    worker_of_socket fd w = None \/ running_query_u qid w = None ->
    evict_outcome fd qid pc now w w
| evict_dropped x b p q :
    worker_of_socket fd w = Some x -> wheap w !! x = Some b ->
    running_query_u qid w = Some p -> qheap w !! p = Some q -> q_state q = QUERY_STATE_CANCELED ->
    evict_outcome fd qid pc now w
      (freed_worker x b (on_qheap (fun h => delete p h) (on_queries (cleaned_table p) w)))
| evict_requeued x b p q :
    worker_of_socket fd w = Some x -> wheap w !! x = Some b ->
    running_query_u qid w = Some p -> qheap w !! p = Some q -> q_state q <> QUERY_STATE_CANCELED ->
    evict_outcome fd qid pc now w (freed_worker x b (requeued p (evicted_qcb pc now q) w)).

(** The end of [evict_locked]: the worker becomes idle if it was busy. *)
Lemma wp_evict_release x b (Q : unit -> world -> Prop) w :
  wheap w !! x = Some b -> NoDup (busy_list (workers w)) -> Q tt (freed_worker x b w) ->
  wp (mod_w x (on_wcb (-1) WORKER_STATE_IDLE);;
      bl ← st_gets (fun w => busy_list (workers w));
      let '(removed, bl') := list_remove_element bl x in
      st_modify (on_workers (on_busy_list (fun _ => bl')));;
      if removed
      then st_modify (on_workers (on_idle_list (fun l => list_add l x)))
      else mret tt) Q w.
Proof.
  intros Hb Hnd HQ. apply wp_bind. eapply wp_mod_w; [exact Hb|].
  apply wp_bind, wp_gets. autorewrite with world. rewrite list_remove_element_spec.
  apply wp_bind, wp_modify. unfold freed_worker in HQ. cbn zeta in HQ. autorewrite with world in HQ.
  case_bool_decide as Hx.
  - rewrite decide_True in HQ by done. apply wp_modify.
    match goal with |- Q tt ?w2 => match type of HQ with Q tt ?w1 => replace w2 with w1; [done|] end end.
    destruct_world w. world_cbv. by rewrite drop_elem_spec.
  - rewrite decide_False in HQ by done. apply wp_ret.
    match goal with |- Q tt ?w2 => match type of HQ with Q tt ?w1 => replace w2 with w1; [done|] end end.
    destruct_world w. revert Hx. world_cbv. intros Hx. by rewrite remove_first_not_in.
Qed.

Lemma wp_evict_to_ready p q pc now (Q : bool -> world -> Prop) w :
  tables_wf None None w -> p ∈ running_list (queries w) -> qheap w !! p = Some q ->
  Q true (requeued p (evicted_qcb pc now q) w) -> wp (evict_to_ready p pc now) Q w.
Proof.
  intros [Hq Hw] Hp Hh HQ. unfold evict_to_ready.
  apply wp_bind. eapply wp_mod_q; [exact Hh|]. apply wp_bind, wp_gets.
  autorewrite with world. rewrite list_remove_element_spec, bool_decide_eq_true_2 by done.
  apply wp_bind, wp_modify. simpl negb. cbv iota. apply wp_bind, wp_insert_ready.
  - autorewrite with world. rewrite lookup_insert_eq. eauto.
  - intros y Hy. autorewrite with world in *. apply lookup_insert_is_Some'. right.
    eapply qwf_allocated; eauto.
  - apply wp_ret. match goal with |- Q true ?w2 =>
      replace w2 with (requeued p (evicted_qcb pc now q) w); [done|] end.
    unfold requeued, evicted_qcb. destruct_world w. world_cbv. by rewrite drop_elem_spec.
Qed.

Lemma requeued_wf p q q' w :
  tables_wf None None w -> p ∈ running_list (queries w) -> qheap w !! p = Some q ->
  query_id q' = query_id q -> cleaned_up q' = cleaned_up q -> ready_block q' ->
  tables_wf None None (requeued p q' w).
Proof.
  intros [Hq Hw] Hp Hh Hid Hc Hr. split; [|exact Hw]. unfold requeued. autorewrite with world.
  assert (Hnr : p ∉ ready_queue (queries w)) by (intros Hin; by apply (qwf_disjoint _ _ _ Hq p)).
  set (f := priority_of _).
  eapply (qwf_close p q'); [|apply lookup_insert_eq|].
  - change (on_ready_queue (place f p) (on_running_list (drop_elem p) (queries w)))
      with (on_ready_queue (fun _ => place f p (ready_queue (queries w)))
              (on_running_list (drop_elem p) (queries w))).
    apply (qwf_enter_ready p); [|apply place_perm|done|by rewrite lookup_insert_eq].
    eapply qwf_update; [|exact Hh|done..]. by apply qwf_drop_running, qwf_open.
  - left. cbn [ready_queue running_list on_ready_queue on_running_list].
    rewrite (elem_of_perm _ _ p (place_perm f p _)), elem_of_cons, drop_elem_elem by apply Hq.
    split; [by left|]. split; [naive_solver|done].
Qed.

Lemma evict_locked_run fd qid pc now w :
  tables_wf None None w ->
  wp (evict_locked fd qid pc now) (fun _ w' => evict_outcome fd qid pc now w w') w.
Proof.
  intros Hwf. pose proof Hwf as [Hq Hw]. unfold evict_locked.
  apply wp_bind, wp_gets, wp_bind, wp_scan_w; [intros; eapply wwf_allocated; eauto|].
  fold (worker_of_socket fd w). destruct (worker_of_socket fd w) as [x|] eqn:Ex.
  2:{ apply wp_ret, evict_unknown. by left. }
  destruct (find_w_found _ _ _ _ Ex) as (Hx & b & Hb & _).
  apply wp_bind, wp_gets, wp_bind, wp_scan_q; [intros; eapply qwf_allocated; eauto|].
  fold (running_query_u qid w). destruct (running_query_u qid w) as [p|] eqn:Ep.
  2:{ apply wp_ret, evict_unknown. by right. }
  destruct (find_q_found _ _ _ _ Ep) as (Hp & q & Hh & _).
  apply wp_bind. eapply wp_get_q; [exact Hh|]. apply wp_bind. case_bool_decide as Hs.
  - unfold evict_canceled. apply wp_bind. eapply wp_mod_q; [exact Hh|].
    apply wp_bind, wp_modify, wp_bind. eapply wp_cleanup_query;
      [apply lookup_insert_eq|cbn; by eapply qwf_live|]. apply wp_ret.
    match goal with |- wp _ _ ?w2 => replace w2 with
      (on_qheap (fun h => delete p h) (on_queries (cleaned_table p) w)) end.
    + apply wp_evict_release with (b := b); [exact Hb|apply Hw|]. by eapply evict_dropped.
    + pose proof (drop_running_cleaned p (queries w) (qwf_running_nodup _ _ _ Hq)) as E.
      destruct_world w. revert E. unfold cleaned_table. world_cbv. intros [= E].
      by rewrite delete_insert_eq, E.
  - eapply wp_evict_to_ready; [done|exact Hp|exact Hh|].
    apply wp_evict_release with (b := b); [exact Hb|apply Hw|]. by eapply evict_requeued.
Qed.

Lemma evict_outcome_wf fd qid pc now w w' :
  tables_wf None None w -> evict_outcome fd qid pc now w w' ->
  tables_wf None None w' /\ held w' = held w.
Proof.
  intros Hwf [|x b p q Hx Hb Hp Hh Hs|x b p q Hx Hb Hp Hh Hs]; [done| |];
    destruct (find_q_found _ _ _ _ Hp) as (Hin & _).
  - split; [|unfold freed_worker; cbn zeta; by destruct (decide _)].
    apply freed_worker_wf; [|done]. destruct Hwf as [Hq Hw]. split; [|done].
    autorewrite with world. by apply cleaned_wf.
  - split; [|unfold freed_worker; cbn zeta; by destruct (decide _)].
    apply freed_worker_wf; [|done]. by eapply requeued_wf.
Qed.

Lemma manage_worker_evict_response_run fd package pkg1 pkg2 qid pc now w :
  master_wf w ->
  package_read_uint32 package = (Some qid, pkg1) -> package_read_uint32 pkg1 = (Some pc, pkg2) ->
  wp (manage_worker_evict_response fd package now) (fun _ w' => master_wf w' /\ exists v rc u,
    evict_outcome fd qid pc now (both_locked w) v /\
    dispatch_outcome (both_locked (released v)) rc u /\ w' = released u) w.
Proof.
  intros Hwf E1 E2. pose proof Hwf as [Hq Hw Hh]. unfold manage_worker_evict_response.
  rewrite E1, E2.
  apply (wp_locked (evict_locked fd qid pc now) (fun _ => _ ← try_dispatch; mret tt)); [done|].
  eapply wp_mono; [apply evict_locked_run; by split|].
  intros [] v Hv. cbv beta in Hv. eapply evict_outcome_wf in Hv as Hv'; [|by split]. destruct Hv' as [[Hq' Hw'] Hh'].
  split; [done|]. apply wp_bind. eapply wp_mono; [apply try_dispatch_run; by split|].
  intros rc w' (Hwf' & u & Hu & ->). apply wp_ret. split; [done|]. by exists v, rc, u.
Qed.

(** ** Errors of the Storage *)

Definition canceled_state (p : ptr) (ob : list (Z * list byte)) (w : world) : world :=
  on_qheap (fun h => delete p h) (on_queries (cleaned_table p) (on_outbox ob w)).

Inductive storage_error_outcome (fd : Z) (w : world) : world -> Prop :=
| error_ignored :
    (forall x b, worker_of_socket fd w = Some x -> wheap w !! x = Some b ->
       0 <= current_query_id b -> running_query (current_query_id b) w = None) ->
    storage_error_outcome fd w w
| error_canceled x b p ob :
    worker_of_socket fd w = Some x -> wheap w !! x = Some b -> 0 <= current_query_id b ->
    running_query (current_query_id b) w = Some p ->
    storage_error_outcome fd w (canceled_state p ob (freed_worker x b w)).

Lemma canceled_state_wf p ob w :
  tables_wf None None w -> tables_wf None None (canceled_state p ob w).
Proof. intros [Hq Hw]. split; [|exact Hw]. unfold canceled_state. autorewrite with world. by apply cleaned_wf. Qed.

(** Telling the Query Control and taking the query out of the tables. *)
Lemma wp_cancel_query p q reason (Q : unit -> world -> Prop) w :
  qheap w !! p = Some q -> cleaned_up q = false ->
  (forall ob, Q tt (canceled_state p ob w)) ->
  wp (finalize_query_with_error p reason;; cleanup_query_resources p) Q w.
Proof.
  intros Hh Hc HQ. apply wp_bind. eapply wp_finalize; [exact Hh|]. intros ob.
  eapply wp_cleanup_query; [apply lookup_insert_eq|done|].
  match goal with |- Q tt ?w2 => replace w2 with (canceled_state p ob w); [apply HQ|] end.
  unfold canceled_state. destruct_world w. world_cbv. by rewrite delete_insert_eq.
Qed.

Lemma wp_find_worker fd (Q : option ptr -> world -> Prop) w :
  workers_wf None (workers w) (wheap w) -> Q (worker_of_socket fd w) w ->
  wp (find_worker_by_socket fd) Q w.
Proof.
  intros Hw HQ. apply wp_bind, wp_gets, wp_find_w; [intros; eapply wwf_allocated; eauto|done].
Qed.

Lemma storage_error_locked_run fd msg w :
  tables_wf None None w ->
  wp (storage_error_locked fd msg) (fun _ w' => storage_error_outcome fd w w') w.
Proof.
  intros [Hq Hw]. unfold storage_error_locked. apply wp_bind, wp_find_worker; [done|].
  destruct (worker_of_socket fd w) as [x|] eqn:Ex.
  2:{ apply wp_ret, error_ignored. congruence. }
  destruct (find_w_found _ _ _ _ Ex) as (Hx & b & Hb & _).
  apply wp_bind. eapply wp_get_w; [exact Hb|].
  destruct (Z.ltb_spec (current_query_id b) 0) as [Hlt|Hge].
  { apply wp_ret, error_ignored. intros x' b' ? ?. simplify_eq. lia. }
  apply wp_bind, wp_gets, wp_bind, wp_scan_q; [intros; eapply qwf_allocated; eauto|].
  fold (running_query (current_query_id b) w).
  destruct (running_query (current_query_id b) w) as [p|] eqn:Ep.
  2:{ apply wp_ret, error_ignored. intros x' b' ? ?. by simplify_eq. }
  destruct (find_q_found _ _ _ _ Ep) as (Hp & q & Hh & _).
  assert (Hbusy : x ∈ busy_list (workers w)).
  { destruct (wwf_placed _ _ _ Hw x ltac:(done) Hx) as [Hi|Hi]; [|done].
    destruct (wwf_idle _ _ _ Hw x b ltac:(done) Hi Hb). lia. }
  apply wp_bind. eapply wp_mod_w; [exact Hb|]. apply wp_bind, wp_modify, wp_bind, wp_modify.
  eapply wp_cancel_query; [exact Hh|by eapply qwf_live|]. intros ob.
  match goal with |- storage_error_outcome _ _ ?w2 =>
    replace w2 with (canceled_state p ob (freed_worker x b w)) end.
  { by eapply error_canceled. }
  unfold canceled_state, freed_worker. cbn zeta. autorewrite with world. by rewrite decide_True.
Qed.

Lemma storage_error_wf fd w w' :
  tables_wf None None w -> storage_error_outcome fd w w' ->
  tables_wf None None w' /\ held w' = held w.
Proof.
  intros Hwf [|x b p ob Hx Hb Hid Hp]; [done|].
  split; [by apply canceled_state_wf, freed_worker_wf|].
  unfold canceled_state, freed_worker. cbn zeta. by destruct (decide _).
Qed.

Lemma handle_error_from_storage_run pkg fd w :
  master_wf w ->
  wp (handle_error_from_storage pkg fd) (fun _ w' => master_wf w' /\ exists v rc u,
    storage_error_outcome fd (both_locked w) v /\
    dispatch_outcome (both_locked (released v)) rc u /\ w' = released u) w.
Proof.
  intros [Hq Hw Hh]. unfold handle_error_from_storage.
  destruct (package_read_uint32 (package_reset_read_offset pkg)) as [_v p1].
  apply (wp_locked (storage_error_locked fd _) (fun _ => _ ← try_dispatch; mret 0)); [done|].
  eapply wp_mono; [apply storage_error_locked_run; by split|].
  intros [] v Hv. cbv beta in Hv. eapply storage_error_wf in Hv as Hv'; [|by split].
  destruct Hv' as [[Hq' Hw'] Hh'].
  split; [done|]. apply wp_bind. eapply wp_mono; [apply try_dispatch_run; by split|].
  intros rc w' (Hwf' & u & Hu & ->). apply wp_ret. split; [done|]. by exists v, rc, u.
Qed.

(** ** Disconnections *)

Definition query_of_socket (fd : Z) (w : world) : option ptr :=
  List.find (test_q (fun q => q_socket_fd q =? fd) w) (query_list (queries w)).
Definition query_of_id (id : Z) (w : world) : option ptr :=
  List.find (test_q (fun q => query_id q =? id) w) (query_list (queries w)).

Lemma wp_find_query fd (Q : option ptr -> world -> Prop) w :
  queries_wf None (queries w) (qheap w) -> Q (query_of_socket fd w) w ->
  wp (find_query_by_socket fd) Q w.
Proof.
  intros Hq HQ. apply wp_bind, wp_gets, wp_find_q; [intros; eapply qwf_allocated; eauto|done].
Qed.

(** Apart from the mutexes and the closed socket. *)
Inductive qc_gone (fd : Z) (w : world) : world -> Prop :=
| qc_unknown : query_of_socket fd w = None -> qc_gone fd w w
| qc_ready p q ob :
    query_of_socket fd w = Some p -> qheap w !! p = Some q -> q_state q = QUERY_STATE_READY ->
    qc_gone fd w (canceled_state p ob w)
| qc_running p q rc w' :
    query_of_socket fd w = Some p -> qheap w !! p = Some q -> q_state q = QUERY_STATE_RUNNING ->
    preempt_outcome p (on_qcb_state QUERY_STATE_CANCELED q)
      (on_qheap (fun h => <[p := on_qcb_state QUERY_STATE_CANCELED q]> h) w) rc w' ->
    qc_gone fd w w'
| qc_canceled p q :
    query_of_socket fd w = Some p -> qheap w !! p = Some q -> q_state q = QUERY_STATE_CANCELED ->
    qc_gone fd w (on_qheap (fun h => delete p h) (on_queries (cleaned_table p) w)).

(** A block of the table is READY, RUNNING or CANCELED, and runs unless READY. *)
Lemma qwf_state t h p q :
  queries_wf None t h -> h !! p = Some q ->
  q_state q = QUERY_STATE_READY /\ p ∈ ready_queue t \/
  (q_state q = QUERY_STATE_RUNNING \/ q_state q = QUERY_STATE_CANCELED) /\ p ∈ running_list t.
Proof.
  intros Hq Hh. assert (Hp : p ∈ query_list t) by (apply (qwf_alloc _ _ _ Hq); eauto).
  destruct (qwf_placed _ _ _ Hq p ltac:(done) Hp) as [Hr|Hr].
  - left. split; [|done]. by apply (qwf_ready _ _ _ Hq p q).
  - right. split; [|done]. by apply (qwf_running _ _ _ Hq p q).
Qed.

(** Same tables, heaps and messages: only the mutexes and descriptors differ. *)
Definition same_tables (w w' : world) : Prop :=
  master w' = master w /\ qheap w' = qheap w /\ wheap w' = wheap w /\ outbox w' = outbox w.

Lemma same_tables_wf e f w w' : tables_wf e f w -> same_tables w w' -> tables_wf e f w'.
Proof.
  intros [Hq Hw] (E1 & E2 & E3 & _). unfold tables_wf, queries, workers. by rewrite E1, E2, E3.
Qed.

(** The mutexes do not matter to a preemption. *)
Lemma preempt_outcome_held p q hs log w rc w' :
  preempt_outcome p q (on_held hs log w) rc w' ->
  exists u, preempt_outcome p q w rc u /\ same_tables u w'.
Proof.
  intros [Hp|x b block Hp Hx Hb Hm Hc|x b ob Hp Hx Hb Hm|ob Hp].
  - exists w. split; [by apply preempt_pending|done].
  - eexists. split; [by apply (preempt_requested p q w x b block)|done].
  - eexists. split; [by apply (preempt_unsent p q w x b ob)|done].
  - eexists. split; [by apply (preempt_invalid p q w ob)|done].
Qed.

(** The query of the Query Control, on each of its states, under the lock of its table. *)
Section Gone.
Context (fd : Z) (p : ptr) (q : t_query_control_block) (v : world).
Context (Hwf : tables_wf None None v) (Hheld : held v = [query_table_mutex]).
Context (Hp : query_of_socket fd v = Some p) (Hh : qheap v !! p = Some q).

Definition gone_locked (u' : world) : Prop :=
  held u' = [query_table_mutex] /\ tables_wf None None u' /\ exists u, qc_gone fd v u /\ same_tables u u'.

Lemma gone_ready :
  q_state q = QUERY_STATE_READY ->
  wp (cancel_query_in_ready p;; cleanup_query_resources p) (fun _ => gone_locked) v.
Proof.
  intros Es. pose proof Hwf as [Hq _]. unfold cancel_query_in_ready.
  apply wp_bind, wp_bind. eapply wp_mod_q; [exact Hh|].
  eapply wp_finalize; [apply lookup_insert_eq|]. intros ob.
  eapply wp_cleanup_query; [apply lookup_insert_eq|cbn; by eapply qwf_live|].
  match goal with |- gone_locked ?w2 => replace w2 with (canceled_state p ob v) end.
  - split; [done|]. split; [by apply canceled_state_wf|].
    exists (canceled_state p ob v). split; [by eapply qc_ready|done].
  - clear -v. unfold canceled_state. destruct_world v. world_cbv. by rewrite !delete_insert_eq.
Qed.

Lemma gone_running :
  q_state q = QUERY_STATE_RUNNING -> p ∈ running_list (queries v) ->
  wp (lock worker_table_mutex;;
      mod_q p (on_qcb_state QUERY_STATE_CANCELED);;
      _ ← preempt_query_in_exec p;
      unlock worker_table_mutex) (fun _ => gone_locked) v.
Proof.
  intros Es Hr. pose proof Hwf as [Hq Hw]. set (q' := on_qcb_state QUERY_STATE_CANCELED q).
  apply wp_bind, wp_lock; [rewrite Hheld; set_solver|]. rewrite Hheld.
  apply wp_bind. eapply wp_mod_q; [exact Hh|]. fold q'.
  apply wp_bind. eapply (wp_preempt p q'); [|by apply lookup_insert_eq|exact Hr|].
  { split; [|exact Hw]. by eapply running_update_wf; try done; apply canceled_running. }
  intros rc w' Ho [Hq' Hw'] Hh'. apply wp_unlock; [rewrite Hh'; set_solver|].
  rewrite Hh'. split; [done|]. split; [by split|].
  apply (preempt_outcome_held p q' [worker_table_mutex; query_table_mutex]
           ((worker_table_mutex, [query_table_mutex]) :: lock_log v)
           (on_qheap (fun h => <[p := q']> h) v)) in Ho as (u & Ho & Hs).
  exists u. split; [by eapply qc_running|done].
Qed.

Lemma gone_canceled :
  q_state q = QUERY_STATE_CANCELED -> wp (cleanup_query_resources p) (fun _ => gone_locked) v.
Proof.
  intros Es. pose proof Hwf as [Hq Hw]. eapply wp_cleanup_query; [exact Hh|by eapply qwf_live|].
  split; [done|]. split; [split; [by apply cleaned_wf|exact Hw]|].
  eexists. split; [by eapply qc_canceled|done].
Qed.

End Gone.

Lemma handle_query_control_disconnection_run fd w :
  master_wf w ->
  wp (handle_query_control_disconnection fd) (fun _ w' => master_wf w' /\ exists v u,
    same_tables w v /\ qc_gone fd v u /\ same_tables u w') w.
Proof.
  intros Hwf. pose proof Hwf as [Hq Hw Hh]. unfold handle_query_control_disconnection.
  apply wp_bind, wp_lock; [rewrite Hh; set_solver|]. rewrite Hh.
  set (v := on_held [query_table_mutex] _ w).
  assert (Hlocked : forall u w', qc_gone fd v u -> same_tables u w' -> tables_wf None None w' ->
            held w' = [] -> master_wf w' /\ exists v u,
              same_tables w v /\ qc_gone fd v u /\ same_tables u w').
  { intros u w' Hu Hs [Hq' Hw'] Hh'. split; [by split|]. by exists v, u. }
  apply wp_bind, wp_find_query; [done|].
  destruct (query_of_socket fd v) as [p|] eqn:Ep.
  2:{ apply wp_bind, wp_unlock; [cbn; set_solver|]. apply wp_bind, wp_close_fd, wp_ret.
      by apply (Hlocked v); [apply qc_unknown|..]. }
  destruct (find_q_found _ _ _ _ Ep) as (Hp & q & Hhp & _).
  apply wp_bind. eapply wp_get_q; [exact Hhp|]. rewrite (qwf_live _ _ _ Hq p q Hhp).
  apply wp_bind. eapply (wp_mono _ (fun _ => gone_locked fd v)).
  2:{ intros [] u' (Hu' & Hwf' & u & Hgone & Hs).
      apply wp_bind, wp_unlock; [rewrite Hu'; set_solver|]. rewrite Hu'.
      apply wp_bind, wp_close_fd, wp_ret. by apply (Hlocked u). }
  destruct (qwf_state _ _ _ _ Hq Hhp) as [[Es _]|[[Es|Es] Hr]]; rewrite Es.
  - by apply (gone_ready fd p q).
  - by apply (gone_running fd p q).
  - by apply (gone_canceled fd p q).
Qed.

(** A worker that goes away takes its query with it. *)
Definition removed_worker (x : ptr) (w : world) : world :=
  on_wheap (fun k => delete x k) (on_level (total_workers_connected (workers w) - 1)
    (on_workers (removed_table x) w)).

Inductive worker_gone (fd : Z) (w : world) : world -> Prop :=
| worker_unknown : worker_of_socket fd w = None -> worker_gone fd w w
| worker_free x b :
    worker_of_socket fd w = Some x -> wheap w !! x = Some b ->
    (0 <= current_query_id b -> query_of_id (current_query_id b) w = None) ->
    worker_gone fd w (removed_worker x w)
| worker_running x b p ob :
    worker_of_socket fd w = Some x -> wheap w !! x = Some b -> 0 <= current_query_id b ->
    query_of_id (current_query_id b) w = Some p ->
    worker_gone fd w (removed_worker x (canceled_state p ob w)).

Lemma removed_worker_wf x w :
  tables_wf None None w -> is_Some (wheap w !! x) -> tables_wf None None (removed_worker x w).
Proof.
  intros [Hq Hw] Hx. split; [exact Hq|]. unfold removed_worker. autorewrite with world.
  apply wwf_remove; [by apply wwf_open|done].
Qed.

Lemma wp_remove_worker x (Q : unit -> world -> Prop) w :
  workers_wf None (workers w) (wheap w) -> is_Some (wheap w !! x) -> Q tt (removed_worker x w) ->
  wp (cleanup_worker_resources x) Q w.
Proof.
  intros Hw [b Hb] HQ. eapply wp_cleanup_worker; [exact Hb| |exact HQ].
  rewrite (wwf_count _ _ _ Hw). assert (Hx : x ∈ worker_list (workers w)).
  { apply (wwf_alloc _ _ _ Hw). eauto. }
  destruct (worker_list (workers w)); [by apply not_elem_of_nil in Hx|simpl; lia].
Qed.

Lemma handle_worker_disconnection_run fd w :
  master_wf w ->
  wp (handle_worker_disconnection fd) (fun _ w' => master_wf w' /\ exists v u,
    same_tables w v /\ worker_gone fd v u /\ same_tables u w') w.
Proof.
  intros Hwf. pose proof Hwf as [Hq Hw Hh]. unfold handle_worker_disconnection.
  apply wp_bind, wp_lock; [rewrite Hh; set_solver|]. rewrite Hh.
  set (v := on_held [worker_table_mutex] _ w).
  assert (Hlocked : forall u w', worker_gone fd v u -> same_tables u w' -> tables_wf None None w' ->
            held w' = [] -> master_wf w' /\ exists v u,
              same_tables w v /\ worker_gone fd v u /\ same_tables u w').
  { intros u w' Hu Hs [Hq' Hw'] Hh'. split; [by split|]. by exists v, u. }
  apply wp_bind, wp_find_worker; [done|].
  destruct (worker_of_socket fd v) as [x|] eqn:Ex.
  2:{ apply wp_bind, wp_unlock; [cbn; set_solver|]. apply wp_bind, wp_close_fd, wp_ret.
      by apply (Hlocked v); [apply worker_unknown|..]. }
  destruct (find_w_found _ _ _ _ Ex) as (Hx & b & Hb & _).
  apply wp_bind. eapply wp_get_w; [exact Hb|]. apply wp_bind.
  eapply (wp_mono _ (fun _ u => held u = [worker_table_mutex] /\ tables_wf None None u /\
            wheap u = wheap v /\
            exists u0, worker_gone fd v u0 /\ same_tables u0 (removed_worker x u))).
  2:{ intros [] u (Hu & [Hq' Hw'] & Ewh & u0 & Hgone & Hs).
      assert (Hxu : is_Some (wheap u !! x)) by (rewrite Ewh; eauto).
      apply wp_bind, wp_remove_worker; [done|done|].
      apply wp_bind, wp_close_fd, wp_bind, wp_unlock; [cbn; rewrite Hu; set_solver|]. apply wp_ret.
      apply (Hlocked u0); [done|done| |cbn; by rewrite Hu].
      by apply (removed_worker_wf x u). }
  destruct (Z.leb_spec 0 (current_query_id b)) as [Hid|Hid].
  2:{ apply wp_ret. split; [done|]. split; [by split|]. split; [done|].
      exists (removed_worker x v). split; [|done]. eapply worker_free; [done|done|lia]. }
  apply wp_bind, wp_lock; [set_solver|].
  apply wp_bind, wp_gets, wp_bind, wp_find_q; [intros; eapply qwf_allocated; eauto|].
  change (List.find _ _) with (query_of_id (current_query_id b) v).
  destruct (query_of_id (current_query_id b) v) as [p|] eqn:Ep.
  2:{ apply wp_bind, wp_ret, wp_unlock; [cbn; set_solver|].
      split; [done|]. split; [by split|]. split; [done|].
      exists (removed_worker x v). split; [|done]. by eapply worker_free. }
  destruct (find_q_found _ _ _ _ Ep) as (Hp & q & Hhp & _).
  apply wp_bind. eapply wp_cancel_query; [exact Hhp|by eapply qwf_live|]. intros ob.
  apply wp_unlock; [cbn; set_solver|].
  split; [done|]. split; [by apply (canceled_state_wf p ob v)|]. split; [done|].
  exists (removed_worker x (canceled_state p ob v)). split; [by eapply worker_running|done].
Qed.

(** ** Arrivals *)

Lemma wp_malloc_q q (Q : ptr -> world -> Prop) w :
  (forall p, qheap w !! p = None -> Q p (on_qheap (fun h => <[p := q]> h) w)) ->
  wp (malloc_q q) Q w.
Proof. intros HQ. unfold wp, malloc_q. apply HQ. apply not_elem_of_dom, is_fresh. Qed.

Lemma wp_malloc_w b (Q : ptr -> world -> Prop) w :
  (forall p, wheap w !! p = None -> Q p (on_wheap (fun k => <[p := b]> k) w)) ->
  wp (malloc_w b) Q w.
Proof. intros HQ. unfold wp, malloc_w. apply HQ. apply not_elem_of_dom, is_fresh. Qed.

(** The new query waits in the READY queue, by priority or at the end. *)
Definition query_created (p : ptr) (q : t_query_control_block) (w : world) : world :=
  on_queries (fun t => on_total_queries (fun n => n + 1)
      (on_ready_queue (enqueue (on_qheap (fun h => <[p := q]> h) w) p)
        (on_query_list (fun l => list_add l p) t)))
    (on_qheap (fun h => <[p := q]> h) w).

Lemma query_created_wf p q w :
  tables_wf None None w -> qheap w !! p = None -> cleaned_up q = false ->
  0 <= query_id q <= next_query_id (queries w) ->
  (forall x r, qheap w !! x = Some r -> query_id r <> query_id q) -> ready_block q ->
  tables_wf None None (query_created p q w).
Proof.
  intros [Hq Hw] Hp Hc Hid Hf Hr. split; [|exact Hw]. unfold query_created. autorewrite with world.
  set (f := enqueue _ p). pose proof (enqueue_perm (on_qheap (fun h => <[p := q]> h) w) p) as Hperm.
  fold f in Hperm.
  assert (Hnl : p ∉ query_list (queries w)).
  { rewrite (qwf_alloc _ _ _ Hq), Hp. apply is_Some_None. }
  apply qwf_total. eapply (qwf_close p q); [|apply lookup_insert_eq|].
  - change (on_ready_queue f (on_query_list (fun l => list_add l p) (queries w)))
      with (on_ready_queue (fun _ => f (ready_queue (queries w)))
              (on_query_list (fun l => list_add l p) (queries w))).
    apply (qwf_enter_ready p); [by apply qwf_create|apply Hperm| |by rewrite lookup_insert_eq].
    cbn. intros Hin. apply Hnl. apply (qwf_sub _ _ _ Hq). by left.
  - left. cbn [ready_queue running_list on_ready_queue on_query_list].
    rewrite (elem_of_perm _ _ p (Hperm _)), elem_of_cons. split; [by left|]. split; [|done].
    intros Hin. apply Hnl. apply (qwf_sub _ _ _ Hq). by right.
Qed.

Lemma create_query_run id path prio fd now w :
  master_wf w -> 0 <= id <= next_query_id (queries w) ->
  (forall x r, qheap w !! x = Some r -> query_id r <> id) ->
  wp (create_query id path prio fd now) (fun p w' => master_wf w' /\ qheap w !! p = None /\
    same_tables (query_created p (new_qcb id path prio fd now) w) w') w.
Proof.
  intros [Hq Hw Hh] Hid Hf. unfold create_query.
  apply wp_bind, wp_lock; [rewrite Hh; set_solver|]. rewrite Hh.
  apply wp_bind, wp_malloc_q. intros p Hp. autorewrite with world in Hp.
  set (q := new_qcb id path prio fd now).
  apply wp_bind, wp_modify, wp_bind, wp_gets, wp_bind, wp_enqueue.
  - autorewrite with world. rewrite lookup_insert_eq. eauto.
  - intros y Hy. autorewrite with world in *. apply lookup_insert_is_Some'. right.
    eapply qwf_allocated; [exact Hq|]. by right; left.
  - apply wp_bind, wp_modify, wp_bind, wp_unlock; [cbn; set_solver|]. apply wp_ret.
    destruct (query_created_wf p q w) as [Hq' Hw']; [by split|done|done|done|done|done|].
    match goal with |- master_wf ?w2 /\ _ => assert (Hs : same_tables (query_created p q w) w2) end.
    { unfold query_created, enqueue, is_priority. destruct_world w. done. }
    split; [|done]. destruct (same_tables_wf None None _ _ (conj Hq' Hw') Hs). by split.
Qed.

(** The query of a request: the next identifier, the path and the priority of the
    message. *)
Definition requested_qcb (w : world) path prio fd now : t_query_control_block :=
  new_qcb (next_query_id (queries w) + 1) path prio fd now.

Definition next_id (w : world) : world := on_queries (on_next_query_id (fun _ => next_query_id (queries w) + 1)) w.

Lemma next_id_wf w : tables_wf None None w -> tables_wf None None (next_id w).
Proof. intros [Hq Hw]. split; [|exact Hw]. apply (qwf_next _ (next_query_id (queries w) + 1) (queries w)); [done|lia]. Qed.

Lemma manage_query_file_path_run package p1 p2 path prio fd now w :
  master_wf w -> next_query_id (queries w) + 1 < 2 ^ 31 ->
  package_read_string package = (Some path, p1) -> package_read_uint8 p1 = (Some prio, p2) ->
  wp (manage_query_file_path package fd now) (fun rc w' => rc = 0 /\ master_wf w' /\
    exists p ob v rc' u,
      qheap w !! p = None /\
      same_tables (query_created p (requested_qcb w path prio fd now) (on_outbox ob (next_id w))) v /\
      dispatch_outcome (both_locked v) rc' u /\ w' = released u) w.
Proof.
  intros Hwf Hmax E1 E2. pose proof Hwf as [Hq Hw Hh]. unfold manage_query_file_path.
  rewrite E1, E2. pose proof (qwf_counter _ _ _ Hq) as Hc.
  apply wp_bind. unfold generate_query_id. apply wp_bind, wp_gets.
  destruct (Z.ltb_spec (next_query_id (queries w) + 1) (2 ^ 31)); [|lia].
  apply wp_bind, wp_modify, wp_ret. fold (next_id w).
  destruct (next_id_wf w) as [Hq' Hw']; [by split|].
  apply wp_bind, wp_send_package. intros _rc ob.
  apply wp_bind. eapply wp_mono; [apply create_query_run|].
  - by split.
  - cbn. lia.
  - intros x r Hx. pose proof (qwf_bound _ _ _ Hq x r Hx). lia.
  - intros p v (Hv & Hp & Hs). apply wp_bind. eapply wp_mono; [by apply try_dispatch_run|].
    intros rc' w' (Hwf' & u & Hu & ->). apply wp_ret. split; [done|]. split; [done|].
    exists p, ob, v, rc', u. split; [done|]. split; [exact Hs|done].
Qed.

(** The new worker is idle. *)
Definition worker_created (x : ptr) (b : t_worker_control_block) (w : world) : world :=
  on_workers (fun u => on_idle_list (fun l => list_add l x) (on_workers_connected (fun n => n + 1)
      (on_worker_list (fun l => list_add l x) u)))
    (on_wheap (fun k => <[x := b]> k) w).

Definition new_wcb (id fd : Z) : t_worker_control_block :=
  MkWcb id None (-1) fd (-1) WORKER_STATE_IDLE.

Lemma create_worker_run id fd w :
  master_wf w ->
  wp (create_worker id fd) (fun x w' => master_wf w' /\ wheap w !! x = None /\
    same_tables (worker_created x (new_wcb id fd) w) w') w.
Proof.
  intros [Hq Hw Hh]. unfold create_worker.
  apply wp_bind, wp_lock; [rewrite Hh; set_solver|]. rewrite Hh.
  apply wp_bind, wp_malloc_w. intros x Hx. autorewrite with world in Hx.
  do 3 apply wp_bind, wp_modify. apply wp_bind, wp_unlock; [cbn; set_solver|]. apply wp_ret.
  split; [|done]. split; [exact Hq| |done]. apply wwf_create; [done|done|by split].
Qed.

Lemma manage_worker_handshake_run buf id buf' fd w :
  master_wf w -> buffer_read_uint32 buf = (Some id, buf') -> 0 < id ->
  wp (manage_worker_handshake buf fd) (fun rc w' => master_wf w' /\
    exists x v ob, wheap w !! x = None /\
      v = on_outbox ob (on_level (total_workers_connected (workers w) + 1)
            (worker_created x (new_wcb (i32 id) fd) w)) /\
      ((rc = -1 /\ same_tables v w') \/
       rc = 0 /\ exists v' rc' u, same_tables v v' /\
         dispatch_outcome (both_locked v') rc' u /\ w' = released u)) w.
Proof.
  intros Hwf E Hid. unfold manage_worker_handshake. rewrite E.
  destruct (Z.leb_spec id 0); [lia|].
  apply wp_bind. eapply wp_mono; [by apply create_worker_run|].
  intros x v ([Hq Hw Hh] & Hx & Hs). apply wp_bind, wp_gets, wp_bind, wp_modify.
  assert (En : total_workers_connected (workers v) = total_workers_connected (workers w) + 1).
  { destruct Hs as (Em & _). unfold workers. by rewrite Em. }
  rewrite En. apply wp_bind, wp_send_package. intros rc ob.
  set (v1 := on_outbox ob (on_level (total_workers_connected (workers w) + 1) (worker_created x (new_wcb (i32 id) fd) w))).
  assert (Hs1 : same_tables v1 (on_outbox ob (on_level (total_workers_connected (workers w) + 1) v))).
  { unfold v1. destruct Hs as (Em & E1 & E2 & _). unfold on_level, on_master. repeat split; cbn; try done.
    by rewrite Em. }
  destruct (rc =? 0); simpl negb; cbv iota.
  - apply wp_bind. eapply wp_mono; [apply try_dispatch_run; by split|].
    intros rc' w' (Hwf' & u & Hu & ->). apply wp_ret. split; [done|].
    exists x, v1, ob. split; [done|]. split; [done|]. right. split; [done|]. by eexists _, rc', u.
  - apply wp_ret. split; [by split|]. exists x, v1, ob. split; [done|]. split; [done|]. by left.
Qed.

(** ** Data read by a query *)

Definition file_tag_of (file tag : string) : string := (file +:+ ":" +:+ tag)%string.

Definition read_fields (data : list byte) (file tag : string) : list field :=
  [F_data data; F_string (file_tag_of file tag)].

(** The block a worker read, forwarded to the Query Control of the query. *)
Definition read_forwarded (q : t_query_control_block) data file tag (w : world) (rc : Z) (w' : world) : Prop :=
  (rc = 0 \/ rc = -1) /\ exists ob, w' = on_outbox ob w /\
  (0 <= q_socket_fd q -> Forall valid_field (read_fields data file tag) ->
   exists block, carries block (master_op QC_OP_READ_DATA) (read_fields data file tag) /\
     (rc = 0 -> ob = (q_socket_fd q, block) :: outbox w) /\
     (send_returns (outbox w) (q_socket_fd q) block = Z.of_nat (length block) -> rc = 0)).

Lemma read_fields_built data file tag :
  Forall valid_field (read_fields data file tag) ->
  exists p, package_add_all (package_create_empty (master_op QC_OP_READ_DATA))
              (read_fields data file tag) = (true, p) /\ buffer_wf (buffer p) /\
    carries (serialized_package p) (master_op QC_OP_READ_DATA) (read_fields data file tag).
Proof.
  intros Hv. apply package_built; [done|done|].
  apply Forall_cons in Hv as [Hd Hv]. apply Forall_cons in Hv as [[Hs _] _]. destruct Hd as [_ Hd].
  unfold wire_size, read_fields, encode_all. cbn [flat_map encode].
  rewrite !length_app, !length_be32, length_string_bytes. cbn [length].
  unfold strlen, MAX_STRING_LENGTH in Hs. unfold MAX_DATA_SIZE in Hd. lia.
Qed.

Lemma forward_read_run q data file tag w :
  wp (let pkg := package_create_empty (master_op QC_OP_READ_DATA) in
      let '(ok, pkg) := package_add_data pkg data in
      if negb ok then mret (-1) else
      let '(ok, pkg) := package_add_string pkg (file_tag_of file tag) in
      if negb ok then mret (-1) else
      rc ← send_package pkg (q_socket_fd q);
      mret (if negb (rc =? 0) then -1 else 0))
    (fun rc w' => read_forwarded q data file tag w rc w') w.
Proof.
  assert (Hfail : ~ Forall valid_field (read_fields data file tag) -> read_forwarded q data file tag w (-1) w).
  { intros Hno. split; [by right|]. exists (outbox w). by rewrite on_outbox_same. }
  pose proof (read_fields_built data file tag) as Hb.
  unfold read_fields in Hb at 2. cbn [package_add_all package_add] in Hb. cbn zeta.
  destruct (package_add_data _ data) as [[] p1]; simpl negb; cbv iota;
    [|apply wp_ret, Hfail; intros Hv; by destruct (Hb Hv) as (p & [=] & _)].
  destruct (package_add_string p1 _) as [[] p2]; simpl negb; cbv iota;
    [|apply wp_ret, Hfail; intros Hv; by destruct (Hb Hv) as (p & [=] & _)].
  apply wp_bind. unfold wp, send_package. set (answer := send_returns _ _ _).
  destruct (package_send p2 (q_socket_fd q) answer) as [rc block] eqn:Es.
  split; [destruct (rc =? 0); auto|]. eexists. split; [reflexivity|].
  intros Hfd Hv. destruct (Hb Hv) as (p & [= ->] & Hwf & Hc). exists (serialized_package p). split; [exact Hc|].
  rewrite package_send_whole in Es by done. fold answer.
  destruct (Z.eqb_spec answer (Z.of_nat (length (serialized_package p)))) as [Ea|Ea].
  - rewrite Ea, Nat2Z.id, firstn_all in Es. by injection Es as <- <-.
  - injection Es as <- _. done.
Qed.

Lemma on_outbox_wf ob w : master_wf w -> master_wf (on_outbox ob w).
Proof. by intros []. Qed.

Lemma manage_read_message_run buf v1 b1 qid b2 data b3 file b4 tag b5 fd w :
  master_wf w ->
  buffer_read_uint32 (buffer_reset_offset buf) = (v1, b1) -> buffer_read_uint32 b1 = (Some qid, b2) ->
  buffer_read_data b2 = (data, b3) -> buffer_read_string b3 = (Some file, b4) ->
  buffer_read_string b4 = (Some tag, b5) ->
  wp (manage_read_message_from_worker buf fd) (fun rc w' => master_wf w' /\
    match running_query_u qid w with
    | None => rc = -1 /\ exists rc' u, dispatch_outcome (both_locked w) rc' u /\ w' = released u
    | Some p => exists q, qheap w !! p = Some q /\
        match data with
        | None => rc = -1 /\ w' = w
        | Some data => read_forwarded q data file tag w rc w'
        end
    end) w.
Proof.
  intros Hwf E1 E2 E3 E4 E5. pose proof Hwf as [Hq Hw Hh]. unfold manage_read_message_from_worker.
  rewrite E1, E2, E3, E4, E5.
  apply wp_bind, wp_gets, wp_bind, wp_scan_q; [intros; eapply qwf_allocated; eauto|].
  fold (running_query_u qid w). destruct (running_query_u qid w) as [p|] eqn:Ep.
  - destruct (find_q_found _ _ _ _ Ep) as (Hp & q & Hhp & _).
    apply wp_bind. eapply wp_get_q; [exact Hhp|]. destruct data as [data|].
    + eapply wp_mono; [apply (forward_read_run q data file tag)|]. intros rc w' Hf. cbv beta in Hf.
      split; [|by eauto]. destruct Hf as (_ & ob & -> & _). by apply on_outbox_wf.
    + apply wp_ret. split; [done|]. by exists q.
  - apply wp_bind. eapply wp_mono; [by apply try_dispatch_run|].
    intros rc w' (Hwf' & u & Hu & ->). apply wp_ret. split; [done|]. split; [done|]. eauto.
Qed.

End HandlersSpec.
