(* ===== verification/MasterMain.v ===== *)
(** * The Master (master/src/main.c, init_master.c)

    The initial state, the loop of [handle_client] that serves one package at a
    time, and the runs of the program: sequences of packages, disconnections and
    aging rounds, each served to its end. *)

From Stdlib Require Import Sorting.Sorted.
From S2P Require Import Prelude Commons Serialization Protocol MasterState MasterInvariant.
From S2P Require Import Scheduler SchedulerSpec Cleanup Aging CleanupSpec AgingSpec Disconnection.
From S2P Require Import WorkerManager HandlersSpec.

(** ** The program *)

Definition init_queries_table : t_query_table := MkQueryTable [] [] [] [] [] 0 (-1).
Definition init_workers_table : t_worker_table := MkWorkerTable [] 0 [] [] [].

Definition init_master (aging_interval : Z) (scheduling_algorithm : string) : world :=
  MkWorld (MkMaster init_queries_table init_workers_table aging_interval scheduling_algorithm 0)
    ∅ ∅ [] [] [] [].

(** The flags of [handle_client]. *)
Record client := MkClient { is_query_control : bool; is_worker : bool }.

Section Main.
Context `{CL : CommonsList} `{KN : Kernel}.

(** The [switch] of [handle_client]. *)
Definition handle_package (client_socket now : Z) (c : client) (p : t_package) : M client :=
  let op := operation_code p in
  if op =? master_op OP_QUERY_HANDSHAKE then
    rc ← manage_query_handshake client_socket;
    mret (if rc =? 0 then MkClient true (is_worker c) else c)
  else if op =? master_op OP_QUERY_FILE_PATH then
    _ ← manage_query_file_path p client_socket now; mret c
  else if op =? master_op QC_OP_DISCONNECTION then
    _ ← handle_query_control_disconnection client_socket; mret c
  else if op =? master_op OP_WORKER_HANDSHAKE_REQ then
    rc ← manage_worker_handshake (buffer p) client_socket;
    mret (if rc =? 0 then MkClient (is_query_control c) true else c)
  else if op =? master_op OP_WORKER_READ_MESSAGE_REQ then
    _ ← manage_read_message_from_worker (buffer p) client_socket; mret c
  else if op =? master_op OP_WORKER_END_QUERY then
    _ ← manage_worker_end_query (buffer p) client_socket; mret c
  else if op =? master_op OP_WORKER_EVICT_RES then
    _ ← manage_worker_evict_response client_socket p now; mret c
  else if op =? master_op WORKER_OP_DISCONNECTION then
    _ ← handle_worker_disconnection client_socket; mret c
  else if op =? storage_op STORAGE_OP_ERROR then
    _ ← handle_error_from_storage p client_socket; mret c
  else mret c.

(** [package_receive] returned NULL. *)
Definition handle_gone (client_socket : Z) (c : client) : M unit :=
  if is_query_control c then _ ← handle_query_control_disconnection client_socket; mret tt
  else if is_worker c then _ ← handle_worker_disconnection client_socket; mret tt
  else close_fd client_socket.

(** One thing that happens to the Master: a package for a thread, the end of its
    connection, the [close] with which the thread ends, a round of the aging. *)
Inductive event :=
| PackageArrived (fd now : Z) (c : client) (p : t_package)
| ConnectionClosed (fd : Z) (c : client)
| SocketClosed (fd : Z)
| AgingRound (now : Z).

Definition serve (e : event) : M unit :=
  match e with
  | PackageArrived fd now c p => _ ← handle_package fd now c p; mret tt
  | ConnectionClosed fd c => handle_gone fd c
  | SocketClosed fd => close_fd fd
  | AgingRound now => aging_round now
  end.

End Main.

(** ** Runs *)

Section Runs.
Context `{CLS : CommonsListSpec} `{KN : Kernel}.

(** What the peers are trusted for: a package carries the fields its operation
    code announces, a worker ends only queries while it is busy, and there are
    identifiers left. *)
Definition well_formed_package (fd : Z) (p : t_package) (w : world) : Prop :=
  (operation_code p = master_op OP_QUERY_FILE_PATH ->
     next_query_id (queries w) + 1 < 2 ^ 31 /\
     exists path p1 prio p2, package_read_string p = (Some path, p1) /\
       package_read_uint8 p1 = (Some prio, p2)) /\
  (operation_code p = master_op OP_WORKER_HANDSHAKE_REQ ->
     exists id b, buffer_read_uint32 (buffer p) = (Some id, b)) /\
  (operation_code p = master_op OP_WORKER_READ_MESSAGE_REQ ->
     exists v1 b1 qid b2 data b3 file b4 tag b5,
       buffer_read_uint32 (buffer_reset_offset (buffer p)) = (v1, b1) /\
       buffer_read_uint32 b1 = (Some qid, b2) /\ buffer_read_data b2 = (data, b3) /\
       buffer_read_string b3 = (Some file, b4) /\ buffer_read_string b4 = (Some tag, b5)) /\
  (operation_code p = master_op OP_WORKER_END_QUERY ->
     exists qid b, buffer_read_uint32 (snd (buffer_read_uint32 (buffer_reset_offset (buffer p)))) =
                     (Some qid, b) /\ honest_end fd (i32 qid) w).

Definition valid_event (e : event) (w : world) : Prop :=
  match e with
  | PackageArrived fd _ _ p => well_formed_package fd p w
  | _ => True
  end.

(** The states of the program, from [init_master] on. *)
Inductive reachable (interval : Z) (algorithm : string) : world -> Prop :=
| reach_init : reachable interval algorithm (init_master interval algorithm)
| reach_event e w w' :
    reachable interval algorithm w -> valid_event e w -> serve e w = Some (tt, w') ->
    reachable interval algorithm w'.

Lemma init_master_wf interval algorithm : master_wf (init_master interval algorithm).
Proof.
  split; [| |done].
  - split; cbn; try done; try apply NoDup_nil_2; try (by intros; set_solver);
      try (by intros; rewrite lookup_empty in *).
    intros x. rewrite lookup_empty. split; [by intros ?%not_elem_of_nil|by intros ?%is_Some_None].
  - split; cbn; try done; try apply NoDup_nil_2; try (by intros; set_solver).
    intros x. rewrite lookup_empty. split; [by intros ?%not_elem_of_nil|by intros ?%is_Some_None].
Qed.

Lemma handle_package_run fd now c p w :
  master_wf w -> well_formed_package fd p w ->
  wp (handle_package fd now c p) (fun _ w' => master_wf w') w.
Proof.
  intros Hwf (Hpath & Hhand & Hread & Hend). unfold handle_package. cbn zeta.
  repeat match goal with |- context [operation_code p =? ?v] =>
    destruct (Z.eqb_spec (operation_code p) v); [apply wp_bind|] end.
  - unfold manage_query_handshake. apply wp_bind, wp_send_package. intros rc ob.
    apply wp_ret, wp_ret. by apply on_outbox_wf.
  - destruct Hpath as (Hmax & path & p1 & prio & p2 & E1 & E2); [done|].
    eapply wp_mono; [by eapply manage_query_file_path_run|]. intros rc w' (_ & H & _). by apply wp_ret.
  - eapply wp_mono; [by apply handle_query_control_disconnection_run|]. intros rc w' (H & _). by apply wp_ret.
  - destruct Hhand as (id & b & E); [done|]. destruct (Z.leb_spec id 0) as [Hid|Hid].
    + unfold manage_worker_handshake. rewrite E. destruct (Z.leb_spec id 0); [|lia].
      by apply wp_ret, wp_ret.
    + eapply wp_mono; [by eapply manage_worker_handshake_run|]. intros rc w' (H & _). by apply wp_ret.
  - destruct Hread as (v1 & b1 & qid & b2 & data & b3 & file & b4 & tag & b5 & E1 & E2 & E3 & E4 & E5); [done|].
    eapply wp_mono; [by eapply manage_read_message_run|]. intros rc w' (H & _). by apply wp_ret.
  - destruct Hend as (qid & b & E & Hon); [done|].
    eapply wp_mono; [by eapply manage_worker_end_query_run|]. intros rc w' (H & _). by apply wp_ret.
  - unfold manage_worker_evict_response.
    destruct (package_read_uint32 p) as [[qid|] p1] eqn:E1; [|by apply wp_ret, wp_ret].
    destruct (package_read_uint32 p1) as [[pc|] p2] eqn:E2; [|by apply wp_ret, wp_ret].
    pose proof (manage_worker_evict_response_run fd p p1 p2 qid pc now w Hwf E1 E2) as H.
    unfold manage_worker_evict_response in H. rewrite E1, E2 in H.
    eapply wp_mono; [exact H|]. intros rc w' (H' & _). by apply wp_ret.
  - eapply wp_mono; [by apply handle_worker_disconnection_run|]. intros rc w' (H & _). by apply wp_ret.
  - eapply wp_mono; [by apply handle_error_from_storage_run|]. intros rc w' (H & _). by apply wp_ret.
  - by apply wp_ret.
Qed.

Lemma on_closed_wf fds w : master_wf w -> master_wf (on_closed fds w).
Proof. by intros []. Qed.

Lemma handle_gone_run fd c w :
  master_wf w -> wp (handle_gone fd c) (fun _ w' => master_wf w') w.
Proof.
  intros Hwf. unfold handle_gone. destruct (is_query_control c); [|destruct (is_worker c)].
  - apply wp_bind. eapply wp_mono; [by apply handle_query_control_disconnection_run|].
    intros rc w' (H & _). by apply wp_ret.
  - apply wp_bind. eapply wp_mono; [by apply handle_worker_disconnection_run|].
    intros rc w' (H & _). by apply wp_ret.
  - apply wp_close_fd. by apply on_closed_wf.
Qed.

Lemma aging_round_wf now w :
  master_wf w -> wp (aging_round now) (fun _ w' => master_wf w') w.
Proof.
  intros Hwf. destruct (decide (0 < aging_interval (master w))) as [Hi|Hi].
  - destruct (ready_queue (queries w)) as [|q qs] eqn:Er.
    + pose proof Hwf as [Hq Hw Hh]. unfold aging_round. apply wp_bind, wp_gets.
      destruct (Z.leb_spec (aging_interval (master w)) 0); [lia|].
      apply wp_bind, wp_lock; [rewrite Hh; set_solver|]. apply wp_bind, wp_gets.
      autorewrite with world. rewrite Er, list_is_empty_spec, bool_decide_eq_true_2 by done.
      rewrite Hh. apply wp_unlock; [cbn; set_solver|]. by split.
    + eapply wp_mono; [apply aging_round_run; [done|done|by rewrite Er]|]. by intros _ w' (H & _).
  - unfold aging_round. apply wp_bind, wp_gets.
    destruct (Z.leb_spec (aging_interval (master w)) 0); [by apply wp_ret|lia].
Qed.

(** Every event is served to its end and keeps the invariant. *)
Lemma serve_run e w :
  master_wf w -> valid_event e w -> wp (serve e) (fun _ w' => master_wf w') w.
Proof.
  intros Hwf He. destruct e as [fd now c p|fd c|fd|now]; cbn [serve].
  - apply wp_bind. eapply wp_mono; [by apply handle_package_run|]. intros; by apply wp_ret.
  - by apply handle_gone_run.
  - apply wp_close_fd. by apply on_closed_wf.
  - by apply aging_round_wf.
Qed.

Lemma reachable_wf interval algorithm w : reachable interval algorithm w -> master_wf w.
Proof.
  induction 1 as [|e w w' Hr IH He Es]; [apply init_master_wf|].
  pose proof (serve_run e w IH He) as H. unfold wp in H. by rewrite Es in H.
Qed.

End Runs.
