(* ===== verification/MasterStart.v ===== *)
(** * The start and the end of the Master (master/src/main.c, init_master.c)

    [main] up to the loop that accepts clients, its label [clean], and
    [destroy_master].  The file of the configuration and the answer of
    [start_server] are parameters; the directory and the logger are taken to be
    there. *)

From S2P Require Import Prelude CStrings Config Commons Serialization Protocol MasterState MasterInvariant MasterMain.
From S2P Require Import Scheduler SchedulerSpec Cleanup Aging CleanupSpec AgingSpec Disconnection WorkerManager HandlersSpec.

Section Start.
Context `{CL : CommonsList} {CC : CommonsConfig}.

(** ** [destroy_master] *)

(** The loops over [query_list] and [worker_list], which take the first element
    until there is none. *)
Fixpoint free_queries (fuel : nat) : M unit :=
  l ← st_gets (fun w => query_list (queries w));
  if list_is_empty l then mret tt else
  match fuel with
  | O => st_ub
  | S fuel =>
      let '(qcb, rest) := list_remove l 0 in
      st_modify (on_queries (on_query_list (fun _ => rest)));;
      (match qcb with Some p => free_q p | None => mret tt end);;
      free_queries fuel
  end.

Fixpoint free_workers (fuel : nat) : M unit :=
  l ← st_gets (fun w => worker_list (workers w));
  if list_is_empty l then mret tt else
  match fuel with
  | O => st_ub
  | S fuel =>
      let '(wcb, rest) := list_remove l 0 in
      st_modify (on_workers (on_worker_list (fun _ => rest)));;
      (match wcb with Some p => free_w p | None => mret tt end);;
      free_workers fuel
  end.

Definition log_destroy (logger : bool) : option bool := if logger then Some false else None.

(** The tables, the thread and the logger.  With PRIORITY it waits for the aging
    thread, that reads the tables while [running], which nothing resets. *)
Definition destroy_master (logger : bool) (w : world) : option (bool * world) :=
  match (free_queries (list_size (query_list (queries w)));; free_workers (list_size (worker_list (workers w)))) w with
  | None => None
  | Some (_, w') =>
      if String.eqb (scheduling_algorithm (master w)) "PRIORITY" then None else
      match log_destroy logger with Some logger => Some (logger, w') | None => None end
  end.

(** ** [main] *)

(** The label [clean]: [master] is no value when it has not been initialised. *)
Definition clean (master : option world) (logger : bool) : option Z :=
  match master with
  | None => None
  | Some w =>
      match destroy_master logger w with
      | None => None
      | Some (logger, _) => _ ← log_destroy logger; Some 1
      end
  end.

(** The exit code, or the Master that serves. *)
Definition master_main (argv : list string) (config_file : string -> option t_config) (start_server : string -> string -> Z)
    : option (Z + world) :=
  match argv with
  | [path] =>
      match create_master_config (config_file path) with
      | None => None
      | Some None => inl <$> clean None true
      | Some (Some master_config) =>
          let master := init_master (aging_time master_config) (scheduler_algorithm master_config) in
          if start_server (mc_ip master_config) (mc_port master_config) <? 0 then inl <$> clean (Some master) true
          else Some (inr master)
      end
  | _ => Some (inl (-1))
  end.

(** The Master starts, or does not even fail.  Given its file, all the keys in it,
    and a socket, it serves from the initial state; given no file it says so with
    -1; but when the configuration cannot be read, or the port is taken, the
    cleaning up is undefined: it reads a pointer that has no value, or destroys
    the logger twice, or waits for a thread that does not end. *)
Theorem master_starts argv config_file start_server :
  match master_main argv config_file start_server with
  | Some (inr w) => exists path c, argv = [path] /\ create_master_config (config_file path) = Some (Some c) /\
      0 <= start_server (mc_ip c) (mc_port c) /\ w = init_master (aging_time c) (scheduler_algorithm c)
  | Some (inl code) => code = -1 /\ length argv <> 1%nat
  | None => exists path, argv = [path] /\ forall c, create_master_config (config_file path) = Some (Some c) ->
      start_server (mc_ip c) (mc_port c) < 0
  end.
Proof.
  unfold master_main. destruct argv as [|path [|? ?]]; [done| |done].
  destruct (create_master_config (config_file path)) as [[c|]|] eqn:E.
  - destruct (Z.ltb_spec (start_server (mc_ip c) (mc_port c)) 0) as [Hs|Hs]; [|eauto 10].
    assert (Hn : clean (Some (init_master (aging_time c) (scheduler_algorithm c))) true = None).
    { unfold clean, destroy_master. destruct ((free_queries _;; _) _) as [[u w']|]; [|done]. by destruct (String.eqb _ _). }
    rewrite Hn. exists path. split; [done|]. intros c' E'. congruence.
  - cbn. exists path. split; [done|]. intros c E'. congruence.
  - exists path. split; [done|]. intros c E'. congruence.
Qed.

End Start.

Section Destroy.
Context `{CLS : CommonsListSpec}.

Lemma free_queries_run n w :
  length (query_list (queries w)) = n -> NoDup (query_list (queries w)) ->
  (forall x, x ∈ query_list (queries w) <-> is_Some (qheap w !! x)) ->
  wp (free_queries n) (fun _ w' => qheap w' = ∅ /\ wheap w' = wheap w /\ workers w' = workers w /\
    scheduling_algorithm (master w') = scheduling_algorithm (master w)) w.
Proof.
  revert w. induction n as [|n IH]; intros w Hn Hnd Hin; cbn [free_queries]; apply wp_bind, wp_gets; rewrite list_is_empty_spec.
  - apply nil_length_inv in Hn. rewrite Hn. apply wp_ret. split; [|done]. apply map_empty. intros x.
    destruct (qheap w !! x) eqn:E; [|done]. assert (H : x ∈ query_list (queries w)) by (apply Hin; by eexists).
    rewrite Hn in H. by apply not_elem_of_nil in H.
  - destruct (query_list (queries w)) as [|p l] eqn:El; [done|]. rewrite list_remove_spec. cbn [lookup list_lookup delete list_delete].
    apply NoDup_cons in Hnd as [Hp Hnd]. destruct (proj1 (Hin p)) as [q Eq]; [left|].
    apply wp_bind, wp_modify, wp_bind, wp_bind. unfold wp at 1, get_q. autorewrite with world. rewrite Eq. apply wp_modify.
    eapply wp_mono; [apply IH|].
    + autorewrite with world. cbn. cbn in Hn. lia.
    + autorewrite with world. done.
    + autorewrite with world. cbn. intros x. rewrite lookup_delete_is_Some, <- Hin. set_solver.
    + intros _ w' (H1 & H2 & H3 & H4). autorewrite with world in *. split; [done|]. split; [done|]. split; [done|]. by rewrite H4.
Qed.

Lemma free_workers_run n w :
  length (worker_list (workers w)) = n -> NoDup (worker_list (workers w)) ->
  (forall x, x ∈ worker_list (workers w) <-> is_Some (wheap w !! x)) ->
  wp (free_workers n) (fun _ w' => wheap w' = ∅ /\ qheap w' = qheap w /\
    scheduling_algorithm (master w') = scheduling_algorithm (master w)) w.
Proof.
  revert w. induction n as [|n IH]; intros w Hn Hnd Hin; cbn [free_workers]; apply wp_bind, wp_gets; rewrite list_is_empty_spec.
  - apply nil_length_inv in Hn. rewrite Hn. apply wp_ret. split; [|done]. apply map_empty. intros x.
    destruct (wheap w !! x) eqn:E; [|done]. assert (H : x ∈ worker_list (workers w)) by (apply Hin; by eexists).
    rewrite Hn in H. by apply not_elem_of_nil in H.
  - destruct (worker_list (workers w)) as [|p l] eqn:El; [done|]. rewrite list_remove_spec. cbn [lookup list_lookup delete list_delete].
    apply NoDup_cons in Hnd as [Hp Hnd]. destruct (proj1 (Hin p)) as [b Eb]; [left|].
    apply wp_bind, wp_modify, wp_bind, wp_bind. unfold wp at 1, get_w. autorewrite with world. rewrite Eb. apply wp_modify.
    eapply wp_mono; [apply IH|].
    + autorewrite with world. cbn. cbn in Hn. lia.
    + autorewrite with world. done.
    + autorewrite with world. cbn. intros x. rewrite lookup_delete_is_Some, <- Hin. set_solver.
    + intros _ w' (H1 & H2 & H3). autorewrite with world in *. split; [done|]. split; [done|]. by rewrite H3.
Qed.

(** The end of the Master frees every query and every worker, once, from any state
    between two handlers; but with the PRIORITY scheduler it never comes to an
    end. *)
Theorem destroy_master_frees w :
  master_wf w ->
  (scheduling_algorithm (master w) <> "PRIORITY" ->
     exists w', destroy_master true w = Some (false, w') /\ qheap w' = ∅ /\ wheap w' = ∅) /\
  (scheduling_algorithm (master w) = "PRIORITY" -> destroy_master true w = None).
Proof.
  intros [Hq Hw _].
  assert (H : wp (free_queries (list_size (query_list (queries w)));; free_workers (list_size (worker_list (workers w))))
            (fun _ w' => qheap w' = ∅ /\ wheap w' = ∅) w).
  { rewrite !list_size_spec. apply wp_bind. eapply wp_mono; [apply free_queries_run; [done|apply Hq|apply Hq]|].
    intros _ w1 (H1 & H2 & H3 & _). rewrite <- H3. eapply wp_mono; [apply free_workers_run; [done|rewrite H3; apply Hw|]|].
    - intros x. rewrite H3, H2. apply Hw.
    - intros _ w2 (H4 & H5 & _). by rewrite H5. }
  apply wp_run in H as ([] & w' & E & H1 & H2). unfold destroy_master. rewrite E. split.
  - intros Hne. apply String.eqb_neq in Hne. rewrite Hne. by exists w'.
  - intros ->. reflexivity.
Qed.

End Destroy.

Lemma destroy_master_frees_witness :
  exists w', destroy_master (CL := commons_list_ref) true (init_master 100 "FIFO") = Some (false, w') /\ qheap w' = ∅ /\ wheap w' = ∅.
Proof.
  apply (destroy_master_frees (CL := commons_list_ref) (init_master 100 "FIFO")); [apply init_master_wf|discriminate].
Defined.
