(* ===== verification/PriorityOrder.v ===== *)
(** * The order of the READY queue under PRIORITY

    Every operation of the Master keeps the queue sorted by priority, so that the
    query at its head, the one a dispatch takes, is always one of the best. *)

From Stdlib Require Import Sorting.Sorted.
From S2P Require Import Prelude Commons Serialization Protocol MasterState MasterInvariant.
From S2P Require Import Scheduler SchedulerSpec Cleanup Aging CleanupSpec AgingSpec Disconnection.
From S2P Require Import WorkerManager HandlersSpec MasterMain.

Definition sorted_queue (h : gmap ptr t_query_control_block) (l : list ptr) : Prop :=
  StronglySorted (by_priority (priority_of h)) l.

Definition ready_sorted (w : world) : Prop :=
  is_priority w = true -> sorted_queue (qheap w) (ready_queue (queries w)).

Lemma sorted_sublist {A} (R : A -> A -> Prop) l k :
  sublist l k -> StronglySorted R k -> StronglySorted R l.
Proof.
  induction 1 as [|x l k Hlk IH|x l k Hlk IH]; intros Hs; [done| |].
  - apply StronglySorted_inv in Hs as [Hs Hx]. constructor; [auto|].
    apply Forall_forall. intros y Hy. eapply Forall_forall in Hx; [exact Hx|].
    by eapply elem_of_sublist.
  - apply StronglySorted_inv in Hs as [Hs _]. auto.
Qed.

Lemma remove_first_sublist x l : sublist (remove_first x l) l.
Proof.
  induction l as [|y l IH]; simpl; [done|]. destruct (decide (y = x)).
  - by apply sublist_cons.
  - by apply sublist_skip.
Qed.

(** Fewer elements, with the numbers they had. *)
Lemma sorted_queue_sub h h' l l' :
  sublist l' l -> (forall x, x ∈ l' -> priority_of h' x = priority_of h x) ->
  sorted_queue h l -> sorted_queue h' l'.
Proof.
  intros Hsub Hp Hs. eapply sorted_sublist in Hs; [|exact Hsub]. clear Hsub. unfold sorted_queue.
  induction Hs as [|x l' Hs IH Hx]; constructor.
  - apply IH. intros y Hy. apply Hp. by constructor.
  - apply Forall_forall. intros y Hy. eapply Forall_forall in Hx; [|done]. unfold by_priority in *.
    rewrite !Hp; [done|by constructor|by constructor].
Qed.

Lemma sorted_queue_same h h' l :
  (forall x, x ∈ l -> priority_of h' x = priority_of h x) -> sorted_queue h l -> sorted_queue h' l.
Proof. intros. by eapply sorted_queue_sub. Qed.

Lemma priority_of_delete h p x : p <> x -> priority_of (delete p h) x = priority_of h x.
Proof. intros. unfold priority_of. by rewrite lookup_delete_ne. Qed.

Section PriorityOrder.
Context `{CLS : CommonsListSpec} `{KN : Kernel}.

(** ** Each operation *)

Lemma same_tables_sorted w w' : same_tables w w' -> ready_sorted w -> ready_sorted w'.
Proof.
  intros (Em & Eh & _). unfold ready_sorted, is_priority, queries. by rewrite Em, Eh.
Qed.

Lemma cleaned_sorted p w :
  NoDup (ready_queue (queries w)) -> ready_sorted w ->
  ready_sorted (on_qheap (fun h => delete p h) (on_queries (cleaned_table p) w)).
Proof.
  intros Hnd Hs Hp. specialize (Hs Hp). autorewrite with world.
  change (ready_queue (cleaned_table p (queries w))) with (drop_elem p (ready_queue (queries w))).
  eapply sorted_queue_sub; [| |exact Hs].
  - rewrite drop_elem_spec. apply remove_first_sublist.
  - intros x [_ Hx]%drop_elem_elem; [|done]. apply priority_of_delete. congruence.
Qed.

(** A change of a block that keeps its priority. *)
Lemma update_sorted p q q' w :
  qheap w !! p = Some q -> priority q' = priority q -> ready_sorted w ->
  ready_sorted (on_qheap (fun h => <[p := q']> h) w).
Proof.
  intros Hh Ep Hs Hp. eapply sorted_queue_same; [|by apply Hs].
  intros x _. by apply (priority_of_insert _ _ q).
Qed.

Lemma freed_worker_sorted x b w : ready_sorted w -> ready_sorted (freed_worker x b w).
Proof.
  unfold ready_sorted, is_priority, freed_worker. cbn zeta. by destruct (decide _).
Qed.

Lemma enqueue_sorted w p q l :
  is_priority w = true -> sorted_queue (qheap w) l -> qheap w !! p = Some q ->
  sorted_queue (qheap w) (enqueue w p l).
Proof. intros Hp Hs Hq. unfold enqueue. rewrite Hp. by apply place_sorted. Qed.

Lemma dispatch_outcome_sorted w rc w' :
  dispatch_outcome w rc w' -> ready_sorted w -> ready_sorted w'.
Proof.
  intros [|q qs x xs qb b ob Er Ei Hq Hb Hno Hs|q qs x xs qb b ob Er Ei Hq Hb Hno]; [done| |].
  - intros Hsw Hp. specialize (Hsw Hp). rewrite Er in Hsw.
    change (ready_queue _) with (tail (ready_queue (queries w))). rewrite Er. simpl tail.
    eapply sorted_queue_sub; [by apply sublist_cons| |exact Hsw].
    intros y _. exact (priority_of_insert (qheap w) q qb (running_qcb b qb) y Hq eq_refl).
  - intros Hsw Hp. specialize (Hsw Hp). rewrite Er in Hsw.
    change (ready_queue _) with (enqueue w q (tail (ready_queue (queries w)))). rewrite Er. simpl tail.
    eapply (sorted_queue_same (qheap w)).
    + intros y _. exact (priority_of_insert (qheap w) q qb (waiting_qcb (running_qcb b qb)) y Hq eq_refl).
    + eapply enqueue_sorted; [exact Hp| |exact Hq]. by apply StronglySorted_inv in Hsw as [? _].
Qed.

Lemma preempt_outcome_sorted p q w rc w' :
  qheap w !! p = Some q -> NoDup (ready_queue (queries w)) ->
  preempt_outcome p q w rc w' -> ready_sorted w -> ready_sorted w'.
Proof.
  intros Hh Hnd [Hp|x b block Hp Hx Hb Hm Hc|x b ob Hp Hx Hb Hm|ob Hp] Hs; [done| | |].
  - by apply (update_sorted p q (on_qcb_pending true q) (on_outbox _ w)).
  - by apply (update_sorted p q (on_qcb_pending false q) (on_outbox _ w)).
  - by apply (cleaned_sorted p (on_outbox ob w)).
Qed.

Lemma canceled_state_sorted p ob w :
  NoDup (ready_queue (queries w)) -> ready_sorted w -> ready_sorted (canceled_state p ob w).
Proof. intros Hnd Hs. by apply (cleaned_sorted p (on_outbox ob w)). Qed.

Lemma requeued_sorted p q q' w :
  qheap w !! p = Some q -> priority q' = priority q -> ready_sorted w ->
  ready_sorted (requeued p q' w).
Proof.
  intros Hh Ep Hs Hp. specialize (Hs Hp).
  change (qheap (requeued p q' w)) with (<[p := q']> (qheap w)).
  change (ready_queue _) with (place (priority_of (<[p := q']> (qheap w))) p (ready_queue (queries w))).
  apply place_sorted. eapply sorted_queue_same; [|exact Hs]. intros x _. by apply (priority_of_insert _ _ q).
Qed.

Lemma query_created_sorted p q w :
  qheap w !! p = None -> (forall x, x ∈ ready_queue (queries w) -> is_Some (qheap w !! x)) ->
  ready_sorted w -> ready_sorted (query_created p q w).
Proof.
  intros Hp Hal Hs Hpr. specialize (Hs Hpr).
  change (sorted_queue (<[p := q]> (qheap w))
    (enqueue (on_qheap (fun h => <[p := q]> h) w) p (ready_queue (queries w)))).
  refine (enqueue_sorted (on_qheap (fun h => <[p := q]> h) w) p q _ Hpr _ (lookup_insert_eq _ _ _)).
  eapply sorted_queue_same; [|exact Hs]. intros x Hx. unfold priority_of. autorewrite with world.
  rewrite lookup_insert_ne; [done|]. intros <-. destruct (Hal p Hx). congruence.
Qed.

(** ** Each handler *)

Lemma end_outcome_sorted fd id w r w' :
  NoDup (ready_queue (queries w)) -> end_outcome fd id w r w' -> ready_sorted w -> ready_sorted w'.
Proof.
  intros Hnd [|x b Hx Hb Hr|x b p q ob Hx Hb Hp Hh Ho] Hs; [done|done|].
  destruct (freed_worker_frame x b w) as (Eq & _).
  apply (cleaned_sorted p (on_outbox ob (freed_worker x b w))); [autorewrite with world; by rewrite Eq|].
  by apply (freed_worker_sorted x b w).
Qed.

Lemma evict_outcome_sorted fd qid pc now w w' :
  NoDup (ready_queue (queries w)) -> evict_outcome fd qid pc now w w' ->
  ready_sorted w -> ready_sorted w'.
Proof.
  intros Hnd [|x b p q Hx Hb Hp Hh Hc|x b p q Hx Hb Hp Hh Hc] Hs; [done| |];
    apply freed_worker_sorted.
  - by apply cleaned_sorted.
  - by eapply requeued_sorted.
Qed.

Lemma storage_error_sorted fd w w' :
  NoDup (ready_queue (queries w)) -> storage_error_outcome fd w w' ->
  ready_sorted w -> ready_sorted w'.
Proof.
  intros Hnd [|x b p ob Hx Hb Hid Hp] Hs; [done|].
  destruct (freed_worker_frame x b w) as (Eq & _).
  apply canceled_state_sorted; [by rewrite Eq|by apply freed_worker_sorted].
Qed.

Lemma qc_gone_sorted fd w w' :
  NoDup (ready_queue (queries w)) -> qc_gone fd w w' -> ready_sorted w -> ready_sorted w'.
Proof.
  intros Hnd [|p q ob Hp Hh Es|p q rc w1 Hp Hh Es Ho|p q Hp Hh Es] Hs; [done| | |].
  - by apply canceled_state_sorted.
  - eapply preempt_outcome_sorted; [| |exact Ho|by eapply update_sorted];
      [apply lookup_insert_eq|exact Hnd].
  - by apply cleaned_sorted.
Qed.

Lemma worker_gone_sorted fd w w' :
  NoDup (ready_queue (queries w)) -> worker_gone fd w w' -> ready_sorted w -> ready_sorted w'.
Proof.
  intros Hnd [|x b Hx Hb Hq|x b p ob Hx Hb Hid Hp] Hs; [done|exact Hs|].
  exact (canceled_state_sorted p ob w Hnd Hs).
Qed.

(** The nesting of outcomes: a handler, then a dispatch. *)
Lemma dispatch_sorted v rc u :
  dispatch_outcome (both_locked v) rc u -> ready_sorted v -> ready_sorted (released u).
Proof. intros Ho Hs. by eapply (dispatch_outcome_sorted _ _ _ Ho). Qed.

Lemma preemption_round_sorted w w' :
  NoDup (ready_queue (queries w)) -> preemption_round w w' -> ready_sorted w -> ready_sorted w'.
Proof. intros Hnd [|best rest p q rc w1 Er Hp Hh Hmax Hlt Ho] Hs; [done|]. by eapply preempt_outcome_sorted. Qed.

(** Each handler keeps the queue in order. *)
Lemma query_control_disconnection_sorted fd w :
  master_wf w -> ready_sorted w -> wp (handle_query_control_disconnection fd) (fun _ w' => ready_sorted w') w.
Proof.
  intros Hwf Hs. pose proof Hwf as [Hq _ _]. pose proof (qwf_ready_nodup _ _ _ Hq) as Hnd.
  eapply wp_mono; [by apply handle_query_control_disconnection_run|].
  intros rc w' (_ & v & u & Hv & Hg & Hu). eapply same_tables_sorted; [exact Hu|].
  eapply qc_gone_sorted; [|exact Hg|by eapply same_tables_sorted].
  destruct Hv as (Em & _). unfold queries. by rewrite Em.
Qed.

Lemma worker_disconnection_sorted fd w :
  master_wf w -> ready_sorted w -> wp (handle_worker_disconnection fd) (fun _ w' => ready_sorted w') w.
Proof.
  intros Hwf Hs. pose proof Hwf as [Hq _ _]. pose proof (qwf_ready_nodup _ _ _ Hq) as Hnd.
  eapply wp_mono; [by apply handle_worker_disconnection_run|].
  intros rc w' (_ & v & u & Hv & Hg & Hu). eapply same_tables_sorted; [exact Hu|].
  eapply worker_gone_sorted; [|exact Hg|by eapply same_tables_sorted].
  destruct Hv as (Em & _). unfold queries. by rewrite Em.
Qed.

Lemma worker_handshake_sorted fd buf id b w :
  master_wf w -> ready_sorted w -> buffer_read_uint32 buf = (Some id, b) ->
  wp (manage_worker_handshake buf fd) (fun _ w' => ready_sorted w') w.
Proof.
  intros Hwf Hs E. destruct (Z.leb_spec id 0) as [Hid|Hid].
  - unfold manage_worker_handshake. rewrite E. destruct (Z.leb_spec id 0); [|lia]. by apply wp_ret.
  - eapply wp_mono; [by eapply manage_worker_handshake_run|].
    intros rc w' (_ & x & v & ob & Hx & -> & [[_ Hv]|(_ & v' & rc' & u & Hv & Hu & ->)]).
    + by eapply same_tables_sorted.
    + eapply dispatch_sorted; [exact Hu|]. by eapply same_tables_sorted.
Qed.

Lemma evict_response_sorted fd now p w :
  master_wf w -> ready_sorted w -> wp (manage_worker_evict_response fd p now) (fun _ w' => ready_sorted w') w.
Proof.
  intros Hwf Hs. pose proof Hwf as [Hq _ _]. pose proof (qwf_ready_nodup _ _ _ Hq) as Hnd. unfold manage_worker_evict_response.
  destruct (package_read_uint32 p) as [[qid|] p1] eqn:E1; [|by apply wp_ret].
  destruct (package_read_uint32 p1) as [[pc|] p2] eqn:E2; [|by apply wp_ret].
  pose proof (manage_worker_evict_response_run fd p p1 p2 qid pc now w Hwf E1 E2) as H.
  unfold manage_worker_evict_response in H. rewrite E1, E2 in H.
  eapply wp_mono; [exact H|]. intros rc w' (_ & v & rc' & u & Hv & Hu & ->).
  eapply dispatch_sorted; [exact Hu|]. exact (evict_outcome_sorted _ _ _ _ (both_locked w) v Hnd Hv Hs).
Qed.

Lemma handle_package_sorted fd now c p w :
  master_wf w -> ready_sorted w -> well_formed_package fd p w ->
  wp (handle_package fd now c p) (fun _ w' => ready_sorted w') w.
Proof.
  intros Hwf Hs (Hpath & Hhand & Hread & Hend). unfold handle_package. cbn zeta.
  pose proof Hwf as [Hq _ _]. pose proof (qwf_ready_nodup _ _ _ Hq) as Hnd.
  repeat match goal with |- context [operation_code p =? ?v] =>
    destruct (Z.eqb_spec (operation_code p) v); [apply wp_bind|] end; [..|by apply wp_ret];
    eapply (wp_mono _ (fun _ w' => ready_sorted w')); try (intros ? ? H; apply wp_ret; exact H).
  - unfold manage_query_handshake. apply wp_bind, wp_send_package. intros rc ob. by apply wp_ret.
  - destruct Hpath as (Hmax & path & p1 & prio & p2 & E1 & E2); [done|].
    eapply wp_mono; [by eapply manage_query_file_path_run|].
    intros rc w' (_ & _ & x & ob & v & rc' & u & Hx & Hv & Hu & ->).
    eapply dispatch_sorted; [exact Hu|]. eapply same_tables_sorted; [exact Hv|].
    apply query_created_sorted; [exact Hx| |exact Hs].
    intros y Hy. eapply qwf_allocated; [exact Hq|]. by right; left.
  - by apply query_control_disconnection_sorted.
  - destruct Hhand as (id & b & E); [done|]. by eapply worker_handshake_sorted.
  - destruct Hread as (v1 & b1 & qid & b2 & data & b3 & file & b4 & tag & b5 & E1 & E2 & E3 & E4 & E5); [done|].
    eapply wp_mono; [by eapply manage_read_message_run|]. intros rc w' (_ & H).
    destruct (running_query_u qid w) as [x|].
    + destruct H as (q & Hh & H). destruct data; [|by destruct H as [_ ->]].
      by destruct H as (_ & ob & -> & _).
    + destruct H as (_ & rc' & u & Hu & ->). by eapply dispatch_sorted.
  - destruct Hend as (qid & b & E & Hon); [done|].
    eapply wp_mono; [by eapply manage_worker_end_query_run|]. intros rc w' (_ & r & v & Hv & _ & H1 & H2).
    pose proof (end_outcome_sorted _ _ (both_locked w) _ _ Hnd Hv Hs) as Hsv. destruct (snd r).
    + destruct H2 as (rc' & u & Hu & ->); [done|]. by eapply dispatch_sorted.
    + by rewrite H1.
  - by apply evict_response_sorted.
  - by apply worker_disconnection_sorted.
  - eapply wp_mono; [by apply handle_error_from_storage_run|]. intros rc w' (_ & v & rc' & u & Hv & Hu & ->).
    eapply dispatch_sorted; [exact Hu|]. exact (storage_error_sorted _ (both_locked w) v Hnd Hv Hs).
Qed.

Lemma serve_sorted e w :
  master_wf w -> ready_sorted w -> valid_event e w -> wp (serve e) (fun _ w' => ready_sorted w') w.
Proof.
  intros Hwf Hs He. pose proof Hwf as [Hq Hw Hh]. pose proof (qwf_ready_nodup _ _ _ Hq) as Hnd.
  destruct e as [fd now c p|fd c|fd|now]; cbn [serve].
  - apply wp_bind. eapply wp_mono; [by apply handle_package_sorted|]. intros; by apply wp_ret.
  - unfold handle_gone. destruct (is_query_control c); [|destruct (is_worker c)].
    + apply wp_bind. eapply wp_mono; [by apply query_control_disconnection_sorted|]. intros; by apply wp_ret.
    + apply wp_bind. eapply wp_mono; [by apply worker_disconnection_sorted|]. intros; by apply wp_ret.
    + by apply wp_close_fd.
  - by apply wp_close_fd.
  - destruct (decide (0 < aging_interval (master w) /\ ready_queue (queries w) <> [])) as [[Hi Hr]|Hn].
    + eapply wp_mono; [by apply aging_round_run|]. intros _ w' (_ & v & Hv & ->).
      set (w1 := on_held [] ((query_table_mutex, []) :: lock_log w) w) in Hv.
      assert (Hwf1 : tables_wf None None w1) by (by split).
      destruct (aged_state_wf (aging_interval (master w)) now w1 Hwf1) as [Hq1 _].
      refine (preemption_round_sorted (both_locked (aged_state _ now w1)) v _ Hv _).
      * exact (qwf_ready_nodup _ _ _ Hq1).
      * intros Hp. apply (aged_state_sorted (aging_interval (master w)) now w1 Hwf1), Hs.
        revert Hp. unfold aged_state, is_priority. by destruct (existsb _ _).
    + unfold aging_round. apply wp_bind, wp_gets.
      destruct (Z.leb_spec (aging_interval (master w)) 0); [by apply wp_ret|].
      apply wp_bind, wp_lock; [rewrite Hh; set_solver|]. apply wp_bind, wp_gets.
      autorewrite with world. rewrite list_is_empty_spec.
      case_bool_decide as He0; [|by destruct Hn].
      rewrite Hh. by apply wp_unlock; [cbn; set_solver|].
Qed.

Lemma reachable_sorted interval algorithm w : reachable interval algorithm w -> ready_sorted w.
Proof.
  induction 1 as [|e w w' Hr IH He Es]; [intros _; constructor|].
  pose proof (serve_sorted e w (reachable_wf _ _ _ Hr) IH He) as H. unfold wp in H. by rewrite Es in H.
Qed.

End PriorityOrder.
