(* ===== verification/MasterProps.v ===== *)
(** * Properties of the Master *)

From Stdlib Require Import Sorting.Sorted.
From S2P Require Import Prelude Commons Serialization Protocol MasterState MasterInvariant.
From S2P Require Import Scheduler SchedulerSpec Cleanup Aging CleanupSpec AgingSpec Disconnection.
From S2P Require Import WorkerManager HandlersSpec MasterMain PriorityOrder.

(** ** A concrete run, on which the theorems are applied *)

(** Of the requirements on a package, only those of its operation code matter. *)
Ltac package_ok :=
  split; [|split; [|split]];
    first [intros E; exfalso; vm_compute in E; discriminate E | intros _].

Section Sample.
Local Existing Instance kernel_ok.

Definition sample_package (op : Z) (fs : list field) : t_package :=
  package_reset_read_offset (snd (package_add_all (package_create_empty op) fs)).

Definition after (e : event) (w : world) : world :=
  match serve e w with Some (_, w') => w' | None => w end.

Definition sample_init : world := init_master 1000 "PRIORITY".
(** Worker 7 arrives on socket 4. *)
Definition sample_worker_event : event :=
  PackageArrived 4 0 (MkClient false false)
    (sample_package (master_op OP_WORKER_HANDSHAKE_REQ) [F_uint32 7]).
Definition sample_worker : world := after sample_worker_event sample_init.
(** A query of priority 5 arrives on socket 9 and is dispatched. *)
Definition sample_query_event (fd prio now : Z) : event :=
  PackageArrived fd now (MkClient true false)
    (sample_package (master_op OP_QUERY_FILE_PATH) [F_string "A"; F_uint8 prio]).
Definition sample_running : world := after (sample_query_event 9 5 10) sample_worker.
(** Two more queries wait, of priorities 4 and 2. *)
Definition sample_waiting : world :=
  after (sample_query_event 11 2 30) (after (sample_query_event 10 4 20) sample_running).

Definition some {A} (o : option A) : bool := match o with Some _ => true | None => false end.

Lemma path_fields p :
  some (fst (package_read_string p)) &&
  some (fst (package_read_uint8 (snd (package_read_string p)))) = true ->
  exists path p1 prio p2, package_read_string p = (Some path, p1) /\
    package_read_uint8 p1 = (Some prio, p2).
Proof.
  destruct (package_read_string p) as [[path|] p1]; [|done]. cbn [fst snd].
  destruct (package_read_uint8 p1) as [[prio|] p2] eqn:E; [|done]. intros _. by exists path, p1, prio, p2.
Qed.

Lemma id_field b :
  some (fst (buffer_read_uint32 b)) = true -> exists id b', buffer_read_uint32 b = (Some id, b').
Proof. destruct (buffer_read_uint32 b) as [[id|] b']; [eauto|done]. Qed.

Lemma sample_query_valid fd prio now w :
  next_query_id (queries w) + 1 < 2 ^ 31 -> prio = 5 \/ prio = 4 \/ prio = 2 ->
  valid_event (sample_query_event fd prio now) w.
Proof.
  intros Hn Hp. unfold valid_event, sample_query_event.
  destruct Hp as [->|[->| ->]]; package_ok;
    (split; [exact Hn|]; apply path_fields; vm_compute; reflexivity).
Defined.

Lemma reach_after e w :
  reachable 1000 "PRIORITY" w -> valid_event e w -> some (serve e w) = true ->
  reachable 1000 "PRIORITY" (after e w).
Proof.
  intros Hr He. unfold after. destruct (serve e w) as [[[] w1]|] eqn:Es; [|done]. intros _.
  eapply reach_event; [exact Hr|exact He|exact Es].
Defined.

Lemma sample_worker_reachable : reachable 1000 "PRIORITY" sample_worker.
Proof.
  unfold sample_worker. apply reach_after; [apply reach_init| |vm_compute; reflexivity].
  unfold valid_event, sample_worker_event. package_ok. apply id_field. vm_compute. reflexivity.
Defined.

Lemma sample_running_reachable : reachable 1000 "PRIORITY" sample_running.
Proof.
  unfold sample_running. apply reach_after; [apply sample_worker_reachable| |vm_compute; reflexivity].
  apply sample_query_valid; [vm_compute; reflexivity|auto].
Defined.

Lemma sample_waiting_reachable : reachable 1000 "PRIORITY" sample_waiting.
Proof.
  unfold sample_waiting. apply reach_after; [apply reach_after| |vm_compute; reflexivity].
  - apply sample_running_reachable.
  - apply sample_query_valid; [vm_compute; reflexivity|auto].
  - vm_compute. reflexivity.
  - apply sample_query_valid; [vm_compute; reflexivity|auto].
Defined.

End Sample.

(** ** The theorems *)

Section Theorems.
Context `{CLS : CommonsListSpec} `{KN : Kernel}.


(** C14: Under PRIORITY the READY queue is sorted in every reachable state, so the
    query the next dispatch takes has the best priority of those that wait. *)
Theorem ready_queue_sorted interval algorithm w q rest :
  reachable interval algorithm w -> is_priority w = true -> ready_queue (queries w) = q :: rest ->
  sorted_queue (qheap w) (q :: rest) /\
  forall p, p ∈ rest -> priority_of (qheap w) q <= priority_of (qheap w) p.
Proof.
  intros Hr Hp Er. pose proof (reachable_sorted _ _ _ Hr Hp) as Hs. rewrite Er in Hs.
  split; [done|]. apply StronglySorted_inv in Hs as [_ Hx]. by apply Forall_forall.
Qed.

(** The insertion by priority is ordered and stable: in a sorted queue the new
    query goes behind every query of a priority number not larger than its own and
    before all the others, and nothing else changes. *)
Theorem insert_query_by_priority_stable l x w :
  is_Some (qheap w !! x) -> (forall y, y ∈ l -> is_Some (qheap w !! y)) ->
  sorted_queue (qheap w) l ->
  exists a b, l = a ++ b /\
    insert_query_by_priority l x w = Some ((0, a ++ x :: b), w) /\
    sorted_queue (qheap w) (a ++ x :: b) /\
    (forall y, y ∈ a -> priority_of (qheap w) y <= priority_of (qheap w) x) /\
    (forall y, y ∈ b -> priority_of (qheap w) x < priority_of (qheap w) y).
Proof.
  intros Hx Hl Hs. destruct (place_split (priority_of (qheap w)) x l) as (a & b & El & Ep & Ha & Hb).
  exists a, b. split; [done|].
  rewrite insert_query_by_priority_place, Ep by done. split; [done|].
  split; [rewrite <- Ep; by apply place_sorted|]. split; [by apply Forall_forall|].
  destruct b as [|z b]; [by intros y ?%not_elem_of_nil|]. specialize (Hb z b eq_refl).
  rewrite El in Hs. apply (sorted_sublist _ (z :: b)) in Hs; [|by apply sublist_inserts_l].
  apply StronglySorted_inv in Hs as [_ Hz]. intros y [->|Hy]%elem_of_cons; [done|].
  eapply Forall_forall in Hz; [|exact Hy]. unfold by_priority in Hz. lia.
Qed.

(** What [try_dispatch] does on every branch.  With no idle worker, no waiting
    query or an eviction pending it changes nothing; otherwise the first waiting
    query runs on the first idle worker, or, when its message cannot be sent, is
    queued again while the worker goes back to the idle list.  It always returns,
    with both mutexes free and the tables sound. *)
Theorem try_dispatch_branches w :
  master_wf w ->
  exists rc w', try_dispatch w = Some (rc, w') /\ master_wf w' /\
    exists v, dispatch_outcome (both_locked w) rc v /\ w' = released v.
Proof. intros Hwf. apply (wp_run _ _ _ (try_dispatch_run w Hwf)). Qed.

(** The worker receives the query it was given.  What [send_query_to_worker]
    puts on a socket that takes it is a message from which the worker reads the
    identifier, the program counter and the path of the query; the call succeeds
    only then, and changes nothing but the network. *)
Theorem start_query_received x q b qb w :
  wheap w !! x = Some b -> qheap w !! q = Some qb -> valid_path qb -> 0 < w_socket_fd b ->
  exists rc block answer,
    send_query_to_worker x q w =
      Some (rc, on_outbox ((w_socket_fd b, take (Z.to_nat answer) block) :: outbox w) w) /\
    carries block (master_op OP_WORKER_START_QUERY)
      [F_uint32 (u32 (query_id qb)); F_uint32 (u32 (program_counter qb)); F_string (query_file_path qb)] /\
    rc = (if answer =? Z.of_nat (length block) then 0 else -1).
Proof.
  intros Hb Hq Hv Hfd. rewrite (send_query_fields x q b qb) by done.
  destruct (start_fields_built qb Hv) as (p & E & Hwf & Hc). rewrite E.
  unfold mbind, st_bind, send_package. set (answer := send_returns _ _ _).
  rewrite package_send_whole by (done || lia). eexists _, _, answer. split; [reflexivity|].
  split; [exact Hc|]. by destruct (answer =? _).
Qed.

(** Aging is exact.  A query that has waited [k] whole intervals loses [k]
    units of priority, never below 0, and keeps the rest of its waiting time: what
    is left on its clock is less than an interval. *)
Theorem aging_exact interval now q :
  clock_ok interval now q -> q_state q = QUERY_STATE_READY -> 0 < priority q ->
  let k := (now - ready_timestamp q) / interval in
  let q' := fst (age_query interval now q) in
  priority q' = Z.max 0 (priority q - k) /\
  ready_timestamp q' = ready_timestamp q + k * interval /\
  0 <= now - ready_timestamp q' < interval.
Proof.
  intros Hc Hs Hp k q'. pose proof (age_query_exact interval now q Hc Hs) as E.
  destruct Hc as (Hi & Ht & Hn & Hk & _). unfold whole_intervals in E. cbn zeta in E. fold k in E, Hk.
  pose proof (Z.div_mod (now - ready_timestamp q) interval ltac:(lia)) as Hd. fold k in Hd.
  pose proof (Z.mod_pos_bound (now - ready_timestamp q) interval ltac:(lia)) as Hm.
  unfold q'. rewrite E. destruct (Z.ltb_spec 0 k); destruct (Z.ltb_spec 0 (priority q)); try lia;
    cbn [fst andb on_qcb_timestamp on_qcb_priority priority ready_timestamp].
  - split; [done|]. split; [done|]. nia.
  - assert (k = 0) by (assert (0 <= k) by (apply Z.div_pos; lia); lia). nia.
Qed.

(** No waiting time is lost to the rhythm of the aging thread: a query aged at
    one moment and again later has the priority it would have if it had been aged
    at the later moment only. *)
Theorem aging_composes interval t1 t2 q :
  clock_ok interval t1 q -> clock_ok interval t2 q -> t1 <= t2 -> q_state q = QUERY_STATE_READY ->
  priority (fst (age_query interval t2 (fst (age_query interval t1 q)))) =
  priority (fst (age_query interval t2 q)).
Proof.
  intros H1 H2 Hle Hs. pose proof (age_query_exact interval t1 q H1 Hs) as E1.
  pose proof (age_query_exact interval t2 q H2 Hs) as E2. cbn zeta in E1, E2.
  destruct H1 as (Hi & Ht1 & Hn1 & Hk1 & Hp), H2 as (_ & Ht2 & Hn2 & Hk2 & _).
  unfold whole_intervals in E1, E2.
  set (k1 := (t1 - ready_timestamp q) / interval) in *.
  set (k2 := (t2 - ready_timestamp q) / interval) in *.
  destruct (Z.ltb_spec 0 k1) as [H|H]; destruct (Z.ltb_spec 0 (priority q)) as [H'|H'];
    cbn [andb] in E1; rewrite E1; cbn [fst]; try done.
  (* aged at t1 *)
  set (q1 := on_qcb_timestamp _ _).
  pose proof (Z.div_mod (t1 - ready_timestamp q) interval ltac:(lia)) as Hd. fold k1 in Hd.
  pose proof (Z.mod_pos_bound (t1 - ready_timestamp q) interval ltac:(lia)) as Hm.
  assert (Ek : (t2 - ready_timestamp q1) / interval = k2 - k1).
  { unfold q1, k2. cbn [ready_timestamp on_qcb_timestamp].
    replace (t2 - (ready_timestamp q + k1 * interval))
      with (t2 - ready_timestamp q + (- k1) * interval) by lia. rewrite Z.div_add by lia. lia. }
  assert (Hc1 : clock_ok interval t2 q1).
  { unfold clock_ok. rewrite Ek. unfold q1. cbn [ready_timestamp priority on_qcb_timestamp on_qcb_priority].
    assert (0 <= k1) by lia. repeat split; try lia; nia. }
  pose proof (age_query_exact interval t2 q1 Hc1) as E3. cbn zeta in E3. unfold whole_intervals in E3.
  rewrite Ek in E3. rewrite E3 by done. unfold q1 at 1 2.
  cbn [ready_timestamp priority on_qcb_timestamp on_qcb_priority].
  assert (Hk : k1 <= k2) by (apply Z.div_le_mono; lia).
  rewrite E2. destruct (Z.ltb_spec 0 k2); [|lia].
  destruct (Z.ltb_spec 0 (priority q)); [|lia].
  destruct (Z.ltb_spec 0 (k2 - k1)); destruct (Z.ltb_spec 0 (Z.max 0 (priority q - k1)));
    cbn [andb fst priority on_qcb_timestamp on_qcb_priority q1]; unfold q1;
    cbn [priority on_qcb_timestamp on_qcb_priority]; lia.
Qed.

(** C33: One round of the aging thread.  Every waiting query is aged exactly once and
    no other block is touched, the queue is a permutation of what it was and is
    sorted if it was, and then the preemption check runs on that state; the round
    ends with the tables sound and both mutexes free. *)
Theorem aging_round_correct now w :
  master_wf w -> 0 < aging_interval (master w) -> ready_queue (queries w) <> [] ->
  exists w' w1 v, aging_round now w = Some (tt, w') /\ master_wf w' /\
    (forall x, qheap w1 !! x = aged (aging_interval (master w)) now (ready_queue (queries w)) x <$> qheap w !! x) /\
    ready_queue (queries w1) ≡ₚ ready_queue (queries w) /\
    (sorted_queue (qheap w) (ready_queue (queries w)) ->
     sorted_queue (qheap w1) (ready_queue (queries w1))) /\
    preemption_round (both_locked w1) v /\ w' = released v.
Proof.
  intros Hwf Hi Hr. destruct (wp_run _ _ _ (aging_round_run now w Hwf Hi Hr)) as ([] & w' & E & Hwf' & v & Hv & ->).
  set (w0 := on_held [] ((query_table_mutex, []) :: lock_log w) w) in Hv.
  eexists _, (aged_state (aging_interval (master w)) now w0), v.
  split; [exact E|]. split; [done|]. split.
  - intros x. rewrite <- lookup_age_heap. unfold aged_state. by destruct (existsb _ _).
  - destruct Hwf as [Hq Hw _].
    destruct (aged_state_sorted (aging_interval (master w)) now w0) as [Hp Hs]; [by split|].
    split; [exact Hp|]. split; [exact Hs|]. by split.
Qed.

(** Preemption.  [check_preemption] asks for an eviction only when a query waits
    whose priority is strictly better than that of the worst running query, and
    the query it asks for is one of the worst; otherwise it changes nothing. *)
Theorem check_preemption_worst w :
  master_wf w ->
  exists w', check_preemption w = Some (tt, w') /\ master_wf w' /\
    exists v, preemption_round (both_locked w) v /\ w' = released v.
Proof.
  intros Hwf. destruct (wp_run _ _ _ (check_preemption_run w Hwf)) as ([] & w' & E & H). eauto.
Qed.

(** C27: The end of a query.  When a busy worker reports the end of a running query,
    the query leaves every list and its memory is released, the worker becomes
    idle, the Query Control is told, and the next query is dispatched. *)
Theorem end_query_correct buf fd qid rest x b p q w :
  master_wf w ->
  buffer_read_uint32 (snd (buffer_read_uint32 (buffer_reset_offset buf))) = (Some qid, rest) ->
  worker_of_socket fd w = Some x -> wheap w !! x = Some b -> x ∈ busy_list (workers w) ->
  running_query (i32 qid) w = Some p -> qheap w !! p = Some q ->
  exists ob rc u, manage_worker_end_query buf fd w = Some (0, released u) /\ master_wf (released u) /\
    end_notified q w ob /\
    dispatch_outcome (both_locked (released (ended p x b ob (both_locked w)))) rc u.
Proof.
  intros Hwf Hread Hx Hb Hbusy Hp Hq.
  destruct (wp_run _ _ _ (manage_worker_end_query_run buf fd qid w rest Hwf Hread
    ltac:(intros x' p' ? ?; by simplify_eq))) as (rc & w' & E & Hwf' & r & v & Hv & -> & _ & Hd).
  destruct Hv as [Hn|x' b' Hx' _ Hn|x' b' p' q' ob Hx' Hb' Hp' Hq' Hob].
  - exfalso. change (worker_of_socket fd w = None) in Hn. congruence.
  - exfalso. change (running_query (i32 qid) w = None) in Hn. congruence.
  - change (worker_of_socket fd w = Some x') in Hx'. change (wheap w !! x' = Some b') in Hb'.
    change (running_query (i32 qid) w = Some p') in Hp'. change (qheap w !! p' = Some q') in Hq'.
    simplify_eq. destruct (Hd eq_refl) as (rc' & u & Hu & ->). by exists ob, rc', u.
Qed.

(** C30: The answer to an eviction.  A query evicted for a better one goes back to
    the READY queue by priority with the program counter the worker reports, no
    longer assigned nor pending, and the worker becomes idle; then the next query
    is dispatched. *)
Theorem evict_response_correct fd package p1 p2 qid pc now x b p q w :
  master_wf w ->
  package_read_uint32 package = (Some qid, p1) -> package_read_uint32 p1 = (Some pc, p2) ->
  worker_of_socket fd w = Some x -> wheap w !! x = Some b ->
  running_query_u qid w = Some p -> qheap w !! p = Some q -> q_state q <> QUERY_STATE_CANCELED ->
  exists rc u, manage_worker_evict_response fd package now w = Some (tt, released u) /\
    master_wf (released u) /\
    dispatch_outcome (both_locked (released (freed_worker x b
      (requeued p (evicted_qcb pc now q) (both_locked w))))) rc u.
Proof.
  intros Hwf E1 E2 Hx Hb Hp Hq Hs.
  destruct (wp_run _ _ _ (manage_worker_evict_response_run fd package p1 p2 qid pc now w Hwf E1 E2))
    as ([] & w' & E & Hwf' & v & rc & u & Hv & Hu & ->).
  exists rc, u. split; [exact E|]. split; [done|].
  destruct Hv as [Hn|x' b' p' q' Hx' Hb' Hp' Hq' Hs'|x' b' p' q' Hx' Hb' Hp' Hq' Hs'].
  - exfalso. change (worker_of_socket fd w = None \/ running_query_u qid w = None) in Hn.
    destruct Hn; congruence.
  - exfalso. change (running_query_u qid w = Some p') in Hp'. change (qheap w !! p' = Some q') in Hq'.
    by simplify_eq.
  - change (worker_of_socket fd w = Some x') in Hx'. change (wheap w !! x' = Some b') in Hb'.
    change (running_query_u qid w = Some p') in Hp'. change (qheap w !! p' = Some q') in Hq'.
    by simplify_eq.
Qed.



(** An error of the Storage, reported by a worker, ends the query that worker
    runs: the Query Control is told, the query released, the worker idle, and the
    next query dispatched.  A report from a worker that runs nothing changes no
    table before the dispatch. *)
Theorem storage_error_correct pkg fd w :
  master_wf w ->
  exists rc w' v rc' u, handle_error_from_storage pkg fd w = Some (rc, w') /\ master_wf w' /\
    storage_error_outcome fd (both_locked w) v /\
    dispatch_outcome (both_locked (released v)) rc' u /\ w' = released u.
Proof.
  intros Hwf. destruct (wp_run _ _ _ (handle_error_from_storage_run pkg fd w Hwf))
    as (rc & w' & E & Hwf' & v & rc' & u & H). by exists rc, w', v, rc', u.
Qed.

(** What a query reads reaches its Query Control.  The data of a read message
    of a running query is sent, with the name [file:tag], to the socket of the
    query's owner; a success means the owner can read both back. *)
Theorem read_message_forwarded buf v1 b1 qid b2 data b3 file b4 tag b5 fd p q w :
  master_wf w ->
  buffer_read_uint32 (buffer_reset_offset buf) = (v1, b1) -> buffer_read_uint32 b1 = (Some qid, b2) ->
  buffer_read_data b2 = (Some data, b3) -> buffer_read_string b3 = (Some file, b4) ->
  buffer_read_string b4 = (Some tag, b5) ->
  running_query_u qid w = Some p -> qheap w !! p = Some q ->
  0 <= q_socket_fd q -> Forall valid_field [F_data data; F_string (file_tag_of file tag)] ->
  exists rc ob, manage_read_message_from_worker buf fd w = Some (rc, on_outbox ob w) /\
    (rc = 0 -> exists block, ob = (q_socket_fd q, block) :: outbox w /\
       carries block (master_op QC_OP_READ_DATA) [F_data data; F_string (file_tag_of file tag)]).
Proof.
  intros Hwf E1 E2 E3 E4 E5 Hp Hq Hfd Hv.
  destruct (wp_run _ _ _ (manage_read_message_run buf v1 b1 qid b2 (Some data) b3 file b4 tag b5 fd w
    Hwf E1 E2 E3 E4 E5)) as (rc & w' & E & _ & H). rewrite Hp in H.
  destruct H as (q' & Hq' & _ & ob & -> & Hs). simplify_eq. exists rc, ob. split; [done|].
  intros Hrc. destruct (Hs Hfd Hv) as (block & Hc & Hob & _). exists block. by split; [apply Hob|].
Qed.

End Theorems.

(** ** The theorems at work on the sample run *)

Section Witnesses.
Local Existing Instance kernel_ok.

Definition sample_qcb (fd id prio now worker : Z) (s : t_query_state) : t_query_control_block :=
  MkQcb fd id "A" prio prio now worker 0 false false s.
Definition sample_wcb : t_worker_control_block := MkWcb 7 None (-1) 4 0 WORKER_STATE_BUSY.

Lemma sample_waiting_wf : master_wf sample_waiting.
Proof. apply (reachable_wf 1000 "PRIORITY"), sample_waiting_reachable. Defined.

Lemma sample_worker_wf : master_wf sample_worker.
Proof. apply (reachable_wf 1000 "PRIORITY"), sample_worker_reachable. Defined.

(** A query waits and a worker is idle: [create_query] before its dispatch. *)
Definition sample_pending : world :=
  match create_query 0 "A" 5 9 10 (next_id sample_worker) with
  | Some (_, w') => w' | None => sample_worker end.

Lemma sample_pending_wf : master_wf sample_pending.
Proof.
  pose proof sample_worker_wf as [Hq Hw Hh].
  assert (Hwf : master_wf (next_id sample_worker)).
  { destruct (next_id_wf sample_worker (conj Hq Hw)) as [Hq' Hw']. by split. }
  assert (En : next_query_id (queries (next_id sample_worker)) = 0) by (vm_compute; reflexivity).
  assert (Eh : qheap (next_id sample_worker) = ∅) by (vm_compute; reflexivity).
  destruct (wp_run _ _ _ (create_query_run 0 "A" 5 9 10 (next_id sample_worker) Hwf
    ltac:(rewrite En; lia) ltac:(intros x r; rewrite Eh, lookup_empty; discriminate)))
    as (p & w' & E & Hwf' & _).
  unfold sample_pending. rewrite E. exact Hwf'.
Qed.


Example ready_queue_sorted_witness :
  ready_queue (queries sample_waiting) = [3%positive; 2%positive] /\
  sorted_queue (qheap sample_waiting) [3%positive; 2%positive].
Proof.
  assert (E : ready_queue (queries sample_waiting) = [3%positive; 2%positive]) by (vm_compute; reflexivity).
  split; [exact E|].
  apply (ready_queue_sorted 1000 "PRIORITY" sample_waiting 3%positive [2%positive]
           sample_waiting_reachable ltac:(vm_compute; reflexivity) E).
Defined.

Example insert_query_by_priority_stable_witness :
  exists a b, [3%positive; 2%positive] = a ++ b /\
    insert_query_by_priority [3%positive; 2%positive] 1%positive sample_waiting =
      Some ((0, a ++ 1%positive :: b), sample_waiting).
Proof.
  destruct (insert_query_by_priority_stable [3%positive; 2%positive] 1%positive sample_waiting)
    as (a & b & E1 & E2 & _).
  - exists (sample_qcb 9 0 5 10 7 QUERY_STATE_RUNNING). vm_compute. reflexivity.
  - intros y Hy. eapply qwf_allocated; [apply sample_waiting_wf|]. right. left.
    replace (ready_queue (queries sample_waiting)) with [3%positive; 2%positive]
      by (vm_compute; reflexivity). exact Hy.
  - apply (ready_queue_sorted 1000 "PRIORITY" sample_waiting 3%positive [2%positive]
             sample_waiting_reachable); vm_compute; reflexivity.
  - exists a, b. split; [exact E1|exact E2].
Defined.

Example try_dispatch_branches_witness :
  master_wf sample_pending /\
  exists rc w', try_dispatch sample_pending = Some (rc, w') /\ master_wf w' /\
    exists v, dispatch_outcome (both_locked sample_pending) rc v /\ w' = released v.
Proof. split; [apply sample_pending_wf|]. apply (try_dispatch_branches sample_pending sample_pending_wf). Defined.

Example start_query_received_witness :
  exists rc block answer,
    send_query_to_worker 1 1 sample_waiting =
      Some (rc, on_outbox ((4, take (Z.to_nat answer) block) :: outbox sample_waiting) sample_waiting) /\
    carries block (master_op OP_WORKER_START_QUERY) [F_uint32 0; F_uint32 0; F_string "A"] /\
    rc = (if answer =? Z.of_nat (length block) then 0 else -1).
Proof.
  apply (start_query_received 1%positive 1%positive sample_wcb
           (sample_qcb 9 0 5 10 7 QUERY_STATE_RUNNING) sample_waiting).
  - vm_compute. reflexivity.
  - vm_compute. reflexivity.
  - split; [vm_compute; discriminate|]. vm_compute. intros H. inversion H as [|? ? ? H']; inversion H'.
  - reflexivity.
Defined.

Example aging_exact_witness :
  priority (fst (age_query 1000 3500 (sample_qcb 9 0 5 500 (-1) QUERY_STATE_READY))) = 2.
Proof.
  destruct (aging_exact 1000 3500 (sample_qcb 9 0 5 500 (-1) QUERY_STATE_READY)) as [E _].
  - repeat split; vm_compute; congruence.
  - reflexivity.
  - reflexivity.
  - rewrite E. reflexivity.
Defined.

Example aging_composes_witness :
  priority (fst (age_query 1000 3700 (fst (age_query 1000 1900 (sample_qcb 9 0 5 500 (-1) QUERY_STATE_READY))))) = 2.
Proof.
  rewrite (aging_composes 1000 1900 3700 (sample_qcb 9 0 5 500 (-1) QUERY_STATE_READY)).
  - reflexivity.
  - repeat split; vm_compute; congruence.
  - repeat split; vm_compute; congruence.
  - lia.
  - reflexivity.
Defined.

Example aging_round_correct_witness :
  exists w' w1 v, aging_round 2500 sample_waiting = Some (tt, w') /\ master_wf w' /\
    ready_queue (queries w1) ≡ₚ [3%positive; 2%positive] /\
    preemption_round (both_locked w1) v /\ w' = released v.
Proof.
  destruct (aging_round_correct 2500 sample_waiting) as (w' & w1 & v & E & Hwf & _ & Hp & _ & Hr).
  - apply sample_waiting_wf.
  - vm_compute. reflexivity.
  - vm_compute. discriminate.
  - exists w', w1, v. split; [exact E|]. split; [exact Hwf|]. split; [|exact Hr].
    etransitivity; [exact Hp|]. vm_compute. reflexivity.
Defined.

Example check_preemption_worst_witness :
  master_wf sample_waiting /\
  exists w', check_preemption sample_waiting = Some (tt, w') /\ master_wf w' /\
    exists v, preemption_round (both_locked sample_waiting) v /\ w' = released v.
Proof. split; [apply sample_waiting_wf|]. apply (check_preemption_worst sample_waiting sample_waiting_wf). Defined.



Example storage_error_correct_witness :
  exists rc w' v rc' u,
    handle_error_from_storage (sample_package (storage_op STORAGE_OP_ERROR) [F_uint32 0; F_string "E"]) 4
      sample_waiting = Some (rc, w') /\ master_wf w' /\
    storage_error_outcome 4 (both_locked sample_waiting) v /\
    dispatch_outcome (both_locked (released v)) rc' u /\ w' = released u.
Proof. apply (storage_error_correct _ 4 sample_waiting sample_waiting_wf). Defined.

Lemma pair_fst {A B} (p : A * B) a : fst p = a -> p = (a, snd p).
Proof. destruct p. by intros <-. Defined.

Definition sample_end : t_buffer :=
  buffer (sample_package (master_op OP_WORKER_END_QUERY) [F_uint32 7; F_uint32 0]).

Example end_query_correct_witness :
  exists ob rc u, manage_worker_end_query sample_end 4 sample_waiting = Some (0, released u) /\
    master_wf (released u) /\ end_notified (sample_qcb 9 0 5 10 7 QUERY_STATE_RUNNING) sample_waiting ob /\
    dispatch_outcome (both_locked (released (ended 1 1 sample_wcb ob (both_locked sample_waiting)))) rc u.
Proof.
  apply (end_query_correct sample_end 4 0
    (snd (buffer_read_uint32 (snd (buffer_read_uint32 (buffer_reset_offset sample_end)))))
    1%positive sample_wcb 1%positive (sample_qcb 9 0 5 10 7 QUERY_STATE_RUNNING) sample_waiting).
  - apply sample_waiting_wf.
  - apply pair_fst. vm_compute. reflexivity.
  - vm_compute. reflexivity.
  - vm_compute. reflexivity.
  - replace (busy_list (workers sample_waiting)) with [1%positive] by (vm_compute; reflexivity).
    apply list_elem_of_here.
  - vm_compute. reflexivity.
  - vm_compute. reflexivity.
Defined.

Definition sample_evict : t_package :=
  sample_package (master_op OP_WORKER_EVICT_RES) [F_uint32 0; F_uint32 3].

Example evict_response_correct_witness :
  exists rc u, manage_worker_evict_response 4 sample_evict 50 sample_waiting = Some (tt, released u) /\
    master_wf (released u) /\
    dispatch_outcome (both_locked (released (freed_worker 1 sample_wcb
      (requeued 1 (evicted_qcb 3 50 (sample_qcb 9 0 5 10 7 QUERY_STATE_RUNNING))
        (both_locked sample_waiting))))) rc u.
Proof.
  apply (evict_response_correct 4 sample_evict (snd (package_read_uint32 sample_evict))
    (snd (package_read_uint32 (snd (package_read_uint32 sample_evict)))) 0 3 50
    1%positive sample_wcb 1%positive (sample_qcb 9 0 5 10 7 QUERY_STATE_RUNNING) sample_waiting).
  - apply sample_waiting_wf.
  - apply pair_fst. vm_compute. reflexivity.
  - apply pair_fst. vm_compute. reflexivity.
  - vm_compute. reflexivity.
  - vm_compute. reflexivity.
  - vm_compute. reflexivity.
  - vm_compute. reflexivity.
  - discriminate.
Defined.

Definition sample_read : t_buffer :=
  buffer (sample_package (master_op OP_WORKER_READ_MESSAGE_REQ)
    [F_uint32 7; F_uint32 0; F_data [x41; x42]; F_string "F"; F_string "T"]).
Definition read_1 := buffer_read_uint32 (buffer_reset_offset sample_read).
Definition read_2 := buffer_read_uint32 (snd read_1).
Definition read_3 := buffer_read_data (snd read_2).
Definition read_4 := buffer_read_string (snd read_3).
Definition read_5 := buffer_read_string (snd read_4).

Example read_message_forwarded_witness :
  exists rc ob, manage_read_message_from_worker sample_read 4 sample_waiting =
      Some (rc, on_outbox ob sample_waiting) /\
    (rc = 0 -> exists block, ob = (9, block) :: outbox sample_waiting /\
       carries block (master_op QC_OP_READ_DATA) [F_data [x41; x42]; F_string "F:T"]).
Proof.
  apply (read_message_forwarded sample_read (fst read_1) (snd read_1) 0 (snd read_2) [x41; x42] (snd read_3)
    "F" (snd read_4) "T" (snd read_5) 4 1%positive (sample_qcb 9 0 5 10 7 QUERY_STATE_RUNNING) sample_waiting).
  - apply sample_waiting_wf.
  - apply pair_fst. reflexivity.
  - apply pair_fst. vm_compute. reflexivity.
  - apply pair_fst. vm_compute. reflexivity.
  - apply pair_fst. vm_compute. reflexivity.
  - apply pair_fst. vm_compute. reflexivity.
  - vm_compute. reflexivity.
  - vm_compute. reflexivity.
  - vm_compute. discriminate.
  - constructor; [vm_compute; split; congruence|]. constructor; [|constructor].
    split; [vm_compute; discriminate|]. vm_compute. intros H.
    repeat (inversion H as [|? ? ? H']; clear H; rename H' into H); inversion H.
Defined.

End Witnesses.

(** ** What modelling showed *)

Section Findings.
Local Existing Instance kernel_ok.

(** The query runs, its Query Control says goodbye on socket 9, the Master closes
    the socket and so reads its end, and then the worker answers the eviction. *)
Definition goodbye_events : list event :=
  [PackageArrived 9 60 (MkClient true false) (sample_package (master_op QC_OP_DISCONNECTION) [F_uint32 0]);
   ConnectionClosed 9 (MkClient true false);
   PackageArrived 4 70 (MkClient false true) sample_evict].

(** A worker can be lost.  The second run of the disconnection handler for the
    same socket, which finds the query CANCELED, releases it while the worker is
    still to answer the eviction; the answer then finds no query, and the worker
    stays in the busy list with no query in the system. *)
Theorem worker_lost :
  let w := fold_left (fun w e => after e w) goodbye_events sample_running in
  query_list (queries w) = [] /\ busy_list (workers w) = [1%positive] /\ idle_list (workers w) = [].
Proof. vm_compute. auto. Qed.

(** The two mutexes are taken in both orders: a dispatch takes the workers' and
    then the queries', the disconnection of the Query Control of a running query
    takes the queries' and then the workers'.  Run by two threads, each can hold
    the one the other waits for. *)
Theorem lock_orders_cross :
  (query_table_mutex, [worker_table_mutex]) ∈
    lock_log (match try_dispatch sample_running with Some (_, w) => w | None => sample_running end) /\
  (worker_table_mutex, [query_table_mutex]) ∈
    lock_log (after (PackageArrived 9 60 (MkClient true false)
                       (sample_package (master_op QC_OP_DISCONNECTION) [F_uint32 0])) sample_running).
Proof.
  split; apply (bool_decide_unpack _); vm_compute; exact I.
Qed.

(** The worker reports the error of the Storage, and then the end of the query, as
    query_executor.c does. *)
Definition storage_error : event :=
  PackageArrived 4 60 (MkClient false true)
    (sample_package (storage_op STORAGE_OP_ERROR) [F_uint32 0; F_string "full"]).
Definition late_end : event :=
  PackageArrived 4 70 (MkClient false true)
    (sample_package (master_op OP_WORKER_END_QUERY) [F_uint32 7; F_uint32 0]).

Definition reported_once : world := after storage_error sample_waiting.
Definition reported_twice : world := after late_end reported_once.

Lemma reported_twice_reachable : reachable 1000 "PRIORITY" reported_twice.
Proof.
  apply reach_after; [apply reach_after; [apply sample_waiting_reachable| |vm_compute; reflexivity]| |vm_compute; reflexivity].
  - unfold valid_event, storage_error. package_ok.
  - unfold valid_event, late_end. package_ok.
    eexists 0, _. split; [apply pair_fst; vm_compute; reflexivity|].
    intros x p Hx Hp. exfalso. vm_compute in Hp. discriminate.
Qed.

(** A query that fails by the Storage costs the next one its worker.  The error
    frees the worker, which is given the next query; the end of the failed query,
    which the worker reports too, finds no such query and marks the worker idle
    with no query, though it is busy with the next one.  From then on an error of
    that query is ignored, and when the worker goes away the query is left running
    on no worker, for ever. *)
Theorem double_report_strands_query :
  reachable 1000 "PRIORITY" reported_twice /\
  running_list (queries reported_twice) = [3%positive] /\ busy_list (workers reported_twice) = [1%positive] /\
  (current_query_id <$> wheap reported_twice !! 1%positive) = Some (-1) /\
  (w_state <$> wheap reported_twice !! 1%positive) = Some WORKER_STATE_IDLE /\
  running_list (queries (after storage_error reported_twice)) = [3%positive] /\
  let gone := after (ConnectionClosed 4 (MkClient false true)) reported_twice in
  running_list (queries gone) = [3%positive] /\ worker_list (workers gone) = [].
Proof.
  split; [exact reported_twice_reachable|]. repeat (split; [vm_compute; reflexivity|]). vm_compute. reflexivity.
Qed.

End Findings.
