(* ===== verification/MasterServer.v ===== *)
(** * The Master as a server (master/src/main.c)

    The loop that accepts connections, a thread for each of them, and the
    descriptors of the process.  A thread is at the top of the loop of
    [handle_client], or past it, before its last [close]; between two of its steps
    the other threads, the aging and the accept loop may do theirs.  The kernel
    chooses the descriptor of a new connection among those that are not open. *)

From S2P Require Import Prelude Commons Serialization Protocol MasterState MasterInvariant MasterMain.
From S2P Require Import Scheduler SchedulerSpec Cleanup Aging CleanupSpec AgingSpec Disconnection WorkerManager HandlersSpec.

(** ** The process *)

(** [t_client_data] with the flags of [handle_client]; [leaving]: the loop is over. *)
Record thread := MkThread { client_socket : Z; t_client : client; leaving : bool }.

#[export] Instance client_eq_dec : EqDecision client.
Proof. solve_decision. Defined.
#[export] Instance thread_eq_dec : EqDecision thread.
Proof. solve_decision. Defined.

Record server := MkServer {
  sv_world : world;
  sv_open : gset Z;
  sv_threads : list thread
}.

Definition on_open f sv := MkServer (sv_world sv) (f (sv_open sv)) (sv_threads sv).
Definition on_threads f sv := MkServer (sv_world sv) (sv_open sv) (f (sv_threads sv)).

(** What a handler has closed. *)
Definition newly_closed (w w' : world) : list Z :=
  take (length (closed_fds w') - length (closed_fds w)) (closed_fds w').

(** A handler, run by a thread of the process. *)
Definition in_world {A} (m : M A) : ST server A := fun sv =>
  match m (sv_world sv) with
  | None => None
  | Some (a, w) => Some (a, MkServer w (sv_open sv ∖ list_to_set (newly_closed (sv_world sv) w)) (sv_threads sv))
  end.

Section Process.
Context `{CL : CommonsList} `{KN : Kernel}.

(** A round of the loop of [main]: [fd] is what [accept] gives, [resources] whether
    there is memory and a thread for the client. *)
Definition accept_client (fd : Z) (resources : bool) : ST server unit :=
  if fd <? 0 then mret tt else
  st_modify (on_open (fun o => {[fd]} ∪ o));;
  if negb resources then st_modify (on_open (fun o => o ∖ {[fd]}))
  else st_modify (on_threads (fun l => l ++ [MkThread fd (MkClient false false) false])).

(** A round of the loop of [handle_client], with a package and without. *)
Definition receive_round (i : nat) (t : thread) (now : Z) (p : t_package) : ST server unit :=
  c ← in_world (handle_package (client_socket t) now (t_client t) p);
  st_modify (on_threads (fun l => <[i := MkThread (client_socket t) c false]> l)).

Definition last_round (i : nat) (t : thread) : ST server unit :=
  in_world (handle_gone (client_socket t) (t_client t));;
  st_modify (on_threads (fun l => <[i := MkThread (client_socket t) (t_client t) true]> l)).

(** The end of [handle_client]. *)
Definition leave (i : nat) (t : thread) : ST server unit :=
  in_world (close_fd (client_socket t));;
  st_modify (on_threads (fun l => delete i l)).

Inductive server_event :=
| Accepted (fd : Z) (resources : bool)
| Received (i : nat) (now : Z) (p : t_package)
| Hung_up (i : nat)
| Left (i : nat)
| Aged (now : Z).

Definition with_thread (i : nat) (k : thread -> ST server unit) : ST server unit :=
  l ← st_gets sv_threads;
  match l !! i with Some t => k t | None => mret tt end.

Definition server_step (e : server_event) : ST server unit :=
  match e with
  | Accepted fd resources => accept_client fd resources
  | Received i now p => with_thread i (fun t => receive_round i t now p)
  | Hung_up i => with_thread i (last_round i)
  | Left i => with_thread i (leave i)
  | Aged now => in_world (aging_round now)
  end.

(** What can happen next: a package comes from an open socket, with the fields of
    its operation code. *)
Definition possible (e : server_event) (sv : server) : Prop :=
  match e with
  | Accepted fd _ => fd ∉ sv_open sv
  | Received i _ p => exists t, sv_threads sv !! i = Some t /\ leaving t = false /\
      client_socket t ∈ sv_open sv /\ well_formed_package (client_socket t) p (sv_world sv)
  | Hung_up i => exists t, sv_threads sv !! i = Some t /\ leaving t = false
  | Left i => exists t, sv_threads sv !! i = Some t /\ leaving t = true
  | Aged _ => True
  end.

(** [main] once it listens on [listener]. *)
Definition init_server (interval : Z) (algorithm : string) (listener : Z) : server :=
  MkServer (init_master interval algorithm) {[listener]} [].

(** The runs in which every event satisfies [ok]. *)
Inductive server_run (ok : server_event -> server -> Prop) (sv : server) : server -> Prop :=
| run_start : server_run ok sv sv
| run_event e sv1 sv2 :
    server_run ok sv sv1 -> possible e sv1 -> ok e sv1 -> server_step e sv1 = Some (tt, sv2) -> server_run ok sv sv2.

Definition anything (e : server_event) (sv : server) : Prop := True.

End Process.
