(* ===== verification/MasterFrames.v ===== *)
(** * What the handlers of the Master leave as it was

    Each handler closes at most the socket it serves, and only two of them change
    which workers are registered, with what socket: these facts hold of a program
    when they hold of its parts, so a tactic follows the code. *)

From S2P Require Import Prelude Commons Serialization Protocol MasterState MasterInvariant MasterMain HandlersSpec SchedulerSpec CleanupSpec.
From S2P Require Import Scheduler Cleanup Aging Disconnection WorkerManager.

(** ** Programs and relations *)

Section Frames.
Context {S : Type}.

Definition frames {A} (R : S -> S -> Prop) (m : ST S A) : Prop := forall s a s', m s = Some (a, s') -> R s s'.

Context (R : S -> S -> Prop) `{!PreOrder R}.

Lemma frames_ret {A} (a : A) : frames R (mret a).
Proof. intros s b s' [= <- <-]. reflexivity. Qed.
Lemma frames_bind {A B} (m : ST S A) (k : A -> ST S B) : frames R m -> (forall a, frames R (k a)) -> frames R (mbind k m).
Proof. intros Hm Hk s b s' (a & s1 & E1 & E2)%run_bind. etransitivity; [by eapply Hm|by eapply Hk]. Qed.
Lemma frames_gets {A} (f : S -> A) : frames R (st_gets f).
Proof. intros s a s' [= <- <-]. reflexivity. Qed.
Lemma frames_ub {A} : frames (A := A) R st_ub.
Proof. by intros s a s'. Qed.
Lemma frames_modify f : (forall s, R s (f s)) -> frames R (st_modify f).
Proof. intros H s a s' [= <- <-]. apply H. Qed.

Lemma frames_scan `{CL : CommonsList} l (c : ptr -> ST S bool) : (forall p, frames R (c p)) -> frames R (scan l c).
Proof.
  intros Hc. unfold scan. generalize 0%nat. induction (list_size l) as [|n IH]; intros i; cbn [scan_from]; [apply frames_ret|].
  destruct (list_get l i); [|apply IH]. apply frames_bind; [apply Hc|]. intros []; [apply frames_ret|apply IH].
Qed.

End Frames.

(** ** Sockets *)

(** The blocks of the workers, with their sockets. *)
Definition sockets (w : world) : gmap ptr Z := w_socket_fd <$> wheap w.

(** From [w] to [w'] only [fd] may have been closed, and nobody has come or gone. *)
Record quiet (fd : Z) (w w' : world) : Prop := {
  quiet_closed : exists k, closed_fds w' = replicate k fd ++ closed_fds w;
  quiet_sockets : sockets w' = sockets w
}.

#[export] Instance quiet_preorder fd : PreOrder (quiet fd).
Proof.
  split.
  - intros w. split; [by exists 0%nat|done].
  - intros w1 w2 w3 [[k1 E1] H1] [[k2 E2] H2]. split; [|by rewrite H2].
    exists (k2 + k1)%nat. by rewrite E2, E1, replicate_add, app_assoc.
Qed.

Lemma quiet_same fd w w' : closed_fds w' = closed_fds w -> wheap w' = wheap w -> quiet fd w w'.
Proof. intros E1 E2. split; [by exists 0%nat|]. unfold sockets. by rewrite E2. Qed.

Create HintDb quiet.

Section Quiet.
Context `{CL : CommonsList} `{KN : Kernel} (fd : Z).

Abbreviation calm := (frames (quiet fd)).

Lemma calm_modify f :
  (forall w, closed_fds (f w) = closed_fds w) -> (forall w, wheap (f w) = wheap w) -> calm (st_modify f).
Proof. intros E1 E2. apply frames_modify. intros w. by apply quiet_same. Qed.

Lemma calm_get_q p : calm (get_q p).
Proof. intros w q w'. unfold get_q. destruct (qheap w !! p); [|done]. intros [= _ <-]. reflexivity. Qed.
Lemma calm_get_w p : calm (get_w p).
Proof. intros w q w'. unfold get_w. destruct (wheap w !! p); [|done]. intros [= _ <-]. reflexivity. Qed.
Lemma calm_lock m : calm (lock m).
Proof. intros w u w'. unfold lock. destruct (bool_decide _); [done|]. intros [= _ <-]. by apply quiet_same. Qed.
Lemma calm_unlock m : calm (unlock m).
Proof. intros w u w'. unfold unlock. destruct (bool_decide _); [|done]. intros [= _ <-]. by apply quiet_same. Qed.
Lemma calm_find_q l c : calm (find_q l c).
Proof. intros w r w'. unfold find_q. destruct (forallb _ _); [|done]. intros [= _ <-]. reflexivity. Qed.
Lemma calm_find_w l c : calm (find_w l c).
Proof. intros w r w'. unfold find_w. destruct (forallb _ _); [|done]. intros [= _ <-]. reflexivity. Qed.
Lemma calm_sort : calm sort_ready.
Proof. intros w r w'. unfold sort_ready. destruct (forallb _ _); [|done]. intros [= _ <-]. by apply quiet_same. Qed.
Lemma calm_malloc_q q : calm (malloc_q q).
Proof. intros w r w' [= _ <-]. by apply quiet_same. Qed.
Lemma calm_send p s : calm (send_package p s).
Proof. intros w r w'. unfold send_package. destruct (package_send _ _ _). intros [= _ <-]. by apply quiet_same. Qed.
Lemma calm_close : calm (close_fd fd).
Proof. intros w r w' [= _ <-]. split; [by exists 1%nat|done]. Qed.

(** The block of a worker changes, but not its socket. *)
Lemma calm_mod_w p n s : calm (mod_w p (on_wcb n s)).
Proof.
  intros w u w' (b & w1 & Eb & E)%run_bind. unfold get_w in Eb. destruct (wheap w !! p) as [b0|] eqn:Ep; [|done].
  injection Eb as <- <-. injection E as <- <-. split; [by exists 0%nat|].
  unfold sockets. cbn. rewrite fmap_insert. apply insert_id. by rewrite lookup_fmap, Ep.
Qed.

End Quiet.

#[export] Hint Resolve calm_get_q calm_get_w calm_lock calm_unlock calm_find_q calm_find_w calm_sort calm_malloc_q
  calm_send calm_close calm_mod_w : quiet.

(** Follows a program to its parts. *)
Ltac calm_step :=
  lazymatch goal with
  | |- frames _ (mbind _ _) => apply frames_bind; [exact _| |intros ?]
  | |- frames _ (mret _) => apply frames_ret; exact _
  | |- frames _ st_ub => apply frames_ub
  | |- frames _ (st_gets _) => apply frames_gets; exact _
  | |- frames _ (st_modify _) => apply calm_modify; intros; reflexivity
  | |- frames _ (if ?b then _ else _) => destruct b
  | |- frames _ (match ?x with _ => _ end) => destruct x
  end.
Ltac calm := repeat (solve [eauto with quiet nocore] || calm_step).

Section Handlers.
Context `{CL : CommonsList} `{KN : Kernel} (fd : Z).

Abbreviation calm := (frames (quiet fd)).

Lemma calm_mod_q p f : calm (mod_q p f).
Proof. unfold mod_q. calm. Qed.
Lemma calm_free_q p : calm (free_q p).
Proof. unfold free_q. calm. Qed.

End Handlers.

#[export] Hint Resolve calm_mod_q calm_free_q : quiet.

Ltac calm ::= repeat (solve [eauto with quiet nocore] || (apply frames_scan; [exact _|intros ?]) || calm_step).

Section Components.
Context `{CL : CommonsList} `{KN : Kernel} (fd : Z).

Abbreviation calm := (frames (quiet fd)).

(** *** Queries *)

Lemma calm_finalize p r : calm (finalize_query_with_error p r).
Proof. unfold finalize_query_with_error. calm. Qed.
Lemma calm_cleanup_query p : calm (cleanup_query_resources p).
Proof. unfold cleanup_query_resources. calm. Qed.
Lemma calm_cancel_ready p : calm (cancel_query_in_ready p).
Proof. unfold cancel_query_in_ready. apply frames_bind; [exact _|apply calm_mod_q|intros; apply calm_finalize]. Qed.
Lemma calm_insert_loop l p i n : calm (insert_loop l p i n).
Proof. revert i. induction n as [|n IH]; intros i; cbn [insert_loop]; calm. Qed.
Lemma calm_insert_ready p : calm (insert_ready p).
Proof. unfold insert_ready, insert_query_by_priority. calm. apply calm_insert_loop. Qed.

End Components.

#[export] Hint Resolve calm_finalize calm_cleanup_query calm_cancel_ready calm_insert_ready : quiet.

Section Dispatch.
Context `{CL : CommonsList} `{KN : Kernel} (fd : Z).

Abbreviation calm := (frames (quiet fd)).

Lemma calm_send_query x p : calm (send_query_to_worker x p).
Proof. unfold send_query_to_worker. calm. Qed.
Lemma calm_revert p x : calm (revert_dispatch p x).
Proof. unfold revert_dispatch. calm. Qed.
Lemma calm_assign p x : calm (assign_query_to_worker p x).
Proof.
  pose proof (calm_send_query x p). pose proof (calm_revert p x). unfold assign_query_to_worker. calm.
Qed.
Lemma calm_dispatch : calm try_dispatch.
Proof.
  pose proof calm_assign. unfold try_dispatch, dispatch_locked.
  calm.
Qed.

End Dispatch.

#[export] Hint Resolve calm_dispatch : quiet.

Section Services.
Context `{CL : CommonsList} `{KN : Kernel} (fd : Z).

Abbreviation calm := (frames (quiet fd)).

Lemma calm_create_query id path prio s now : calm (create_query id path prio s now).
Proof. unfold create_query. calm. Qed.
Lemma calm_query_handshake s : calm (manage_query_handshake s).
Proof. unfold manage_query_handshake. calm. Qed.
Lemma calm_file_path p s now : calm (manage_query_file_path p s now).
Proof.
  pose proof calm_create_query. unfold manage_query_file_path, generate_query_id. calm.
Qed.

(** *** Aging and preemption *)

Lemma calm_preempt p : calm (preempt_query_in_exec p).
Proof. unfold preempt_query_in_exec. calm. Qed.
Lemma calm_worst_loop l v i n : calm (worst_loop l v i n).
Proof. revert v i. induction n as [|n IH]; intros v i; cbn [worst_loop]; calm. Qed.
Lemma calm_aging_scan l interval now i n c : calm (aging_scan l interval now i n c).
Proof. revert i c. induction n as [|n IH]; intros i c; cbn [aging_scan]; calm. Qed.
Lemma calm_aging_round now : calm (aging_round now).
Proof.
  pose proof calm_preempt. pose proof calm_worst_loop. pose proof calm_aging_scan.
  unfold aging_round, check_preemption, preemption_locked. calm.
Qed.

(** *** Messages and disconnections *)

Lemma calm_read_message b s : calm (manage_read_message_from_worker b s).
Proof. unfold manage_read_message_from_worker. calm. Qed.
Lemma calm_end_query b s : calm (manage_worker_end_query b s).
Proof. unfold manage_worker_end_query, end_query_locked, release_worker, notify_end. calm. Qed.
Lemma calm_evict_response s p now : calm (manage_worker_evict_response s p now).
Proof. unfold manage_worker_evict_response, evict_locked, evict_canceled, evict_to_ready. calm. Qed.
Lemma calm_storage_error p s : calm (handle_error_from_storage p s).
Proof. unfold handle_error_from_storage, storage_error_locked, find_worker_by_socket. calm. Qed.
Lemma calm_query_gone : calm (handle_query_control_disconnection fd).
Proof.
  pose proof calm_preempt. unfold handle_query_control_disconnection, find_query_by_socket. calm.
Qed.

End Services.

#[export] Hint Resolve calm_create_query calm_query_handshake calm_file_path calm_preempt calm_aging_round calm_read_message
  calm_end_query calm_evict_response calm_storage_error calm_query_gone : quiet.

(** ** Who comes and who goes *)

(** Only [fd] may have been closed. *)
Definition closes (fd : Z) (w w' : world) : Prop := exists k, closed_fds w' = replicate k fd ++ closed_fds w.

#[export] Instance closes_preorder fd : PreOrder (closes fd).
Proof.
  split; [by exists 0%nat|]. intros w1 w2 w3 [k1 E1] [k2 E2]. exists (k2 + k1)%nat. by rewrite E2, E1, replicate_add, app_assoc.
Qed.

Lemma closes_same fd w w' : closed_fds w' = closed_fds w -> closes fd w w'.
Proof. intros E. by exists 0%nat. Qed.

Lemma frames_impl {S A} (R R' : S -> S -> Prop) (m : ST S A) : (forall s s', R s s' -> R' s s') -> frames R m -> frames R' m.
Proof. intros HR Hm s a s' E. by eapply HR, Hm. Qed.

Ltac closing :=
  repeat (solve [match goal with |- frames (closes ?fd) _ => apply (frames_impl (quiet fd)) end;
                   [by intros ? ? []|eauto with quiet nocore]]
          || (apply frames_modify; intros; by apply closes_same)
          || lazymatch goal with |- frames _ (st_modify _) => fail | _ => calm_step end).

Section Arrivals.
Context `{CLS : CommonsListSpec} `{KN : Kernel}.

Lemma closes_malloc_w fd b : frames (closes fd) (malloc_w b).
Proof. intros w r w' [= _ <-]. by apply closes_same. Qed.

Lemma closes_handshake fd b s : frames (closes fd) (manage_worker_handshake b s).
Proof.
  unfold manage_worker_handshake, create_worker. repeat ((apply closes_malloc_w) || (progress closing)).
Qed.

Lemma closes_worker_gone fd : frames (closes fd) (handle_worker_disconnection fd).
Proof.
  unfold handle_worker_disconnection, find_worker_by_socket, cleanup_worker_resources, free_w. closing.
Qed.

(** The answer to an introduction is taken. *)
Definition acknowledged (fd : Z) (p : t_package) : Prop :=
  let ack := MkPackage (u8 (master_op OP_WORKER_ACK)) (snd (buffer_read_uint32 (buffer p))) in
  forall ob, fst (package_send ack fd (send_returns ob fd (serialized_package ack))) = 0.

(** A worker that introduces itself gets one block, with its socket; its number
    may be refused. *)
Lemma handshake_sockets fd p rc w w' :
  master_wf w -> acknowledged fd p -> manage_worker_handshake (buffer p) fd w = Some (rc, w') ->
  (rc <> 0 /\ sockets w' = sockets w) \/
  (rc = 0 /\ exists x, sockets w !! x = None /\ sockets w' = <[x := fd]> (sockets w)).
Proof.
  intros Hwf Hack. unfold acknowledged in Hack. unfold manage_worker_handshake.
  destruct (buffer_read_uint32 (buffer p)) as [[id|] b] eqn:Eb; [|done]. cbn [snd] in Hack.
  destruct (Z.leb_spec id 0); [by intros [= <- <-]; left|].
  intros (x & w1 & E1 & E)%run_bind. right.
  pose proof (create_worker_run (i32 id) fd w Hwf) as Hc. unfold wp in Hc. rewrite E1 in Hc.
  destruct Hc as (Hwf1 & Hx & (_ & _ & Hh & _)).
  assert (Hs1 : sockets w1 = <[x := fd]> (sockets w)).
  { unfold sockets. rewrite Hh. unfold worker_created. autorewrite with world. by rewrite fmap_insert. }
  apply run_bind in E as (n & w2 & [= <- <-] & E). apply run_bind in E as (u & w3 & [= <- <-] & E).
  apply run_bind in E as (rc1 & w4 & E4 & E). unfold send_package in E4.
  match type of E4 with context [package_send ?a ?b ?c] => specialize (Hack (outbox w1)); set (k := package_send a b c) in * end.
  cbn in k. replace (package_send _ fd _) with k in Hack by reflexivity. destruct k as [rc0 block] eqn:Ek. cbn [fst] in Hack. subst rc0.
  injection E4 as <- <-. change (negb (0 =? 0)) with false in E. cbv iota in E.
  apply run_bind in E as (d & w5 & E5 & [= <- <-]). split; [done|]. exists x.
  split; [unfold sockets; by rewrite lookup_fmap, Hx|].
  apply (calm_dispatch fd) in E5 as [_ E5]. rewrite E5. exact Hs1.
Qed.

(** A worker that goes away: its block goes, or it had none. *)
Lemma worker_gone_sockets fd rc w w' :
  master_wf w -> handle_worker_disconnection fd w = Some (rc, w') ->
  (sockets w' = sockets w /\ forall x, sockets w !! x <> Some fd) \/
  exists x, sockets w !! x = Some fd /\ sockets w' = delete x (sockets w).
Proof.
  intros Hwf E. pose proof (handle_worker_disconnection_run fd w Hwf) as H. unfold wp in H. rewrite E in H.
  destruct H as (_ & v & u & (Em & _ & Ev & _) & Hg & (_ & _ & Eu & _)). pose proof Hwf as [_ Hw _].
  unfold sockets. rewrite Eu.
  assert (Hof : forall x b, worker_of_socket fd v = Some x -> wheap v !! x = Some b -> w_socket_fd b = fd).
  { intros x b Hx Hb. destruct (find_w_found _ _ _ _ Hx) as (_ & b' & Hb' & Hfd). rewrite Hb' in Hb. injection Hb as ->. by apply Z.eqb_eq. }
  destruct Hg as [Hn|x b Hx Hb _|x b q ob Hx Hb _ _].
  - left. rewrite Ev. split; [done|]. intros x Hx. rewrite lookup_fmap, <- Ev in Hx.
    destruct (wheap v !! x) as [b|] eqn:Hb; [|done]. injection Hx as Hfd.
    assert (Hin : x ∈ worker_list (workers v)).
    { unfold workers. rewrite Em. apply (wwf_alloc _ _ _ Hw). rewrite <- Ev. eauto. }
    apply list_elem_of_In, (find_none _ _ Hn) in Hin. unfold test_w in Hin. rewrite Hb in Hin. by apply Z.eqb_neq in Hin.
  - right. exists x. rewrite <- Ev, lookup_fmap, Hb. cbn. split; [f_equal; by apply (Hof x)|]. by rewrite fmap_delete.
  - right. exists x. rewrite <- Ev, lookup_fmap, Hb. cbn. split; [f_equal; by apply (Hof x)|]. by rewrite fmap_delete.
Qed.

End Arrivals.
