(* ===== verification/MasterPrograms.v ===== *)
(** * What the Master knows of a program (master/src)

    The script of a query and the line to go on from: no handler changes them, but
    the one that takes the answer to an eviction; and the messages that start the
    query on a worker say nothing else.  As in MasterFrames.v, a tactic follows the
    code. *)

From S2P Require Import Prelude CStrings Commons Serialization Protocol MasterState MasterInvariant MasterMain HandlersSpec.
From S2P Require Import SchedulerSpec CleanupSpec MasterFrames Scheduler Cleanup Aging Disconnection WorkerManager.

(** ** Queries and their messages *)

Definition program_of (q : t_query_control_block) : string * Z := (query_file_path q, program_counter q).

(** The message that starts a query. *)
Definition start_message (q : t_query_control_block) : list byte :=
  serialized_package (snd (package_add_all (package_create_empty (master_op OP_WORKER_START_QUERY)) (start_fields q))).

(** The first byte of a message is its operation code; its fields are after four
    bytes with their size: the message starts query [n]. *)
Definition starts (n : Z) (bytes : list byte) : Prop :=
  take 1 bytes = le_bytes 1 (master_op OP_WORKER_START_QUERY) /\ take 4 (drop 5 bytes) = be32 (u32 n).

(** Identifiers are [int]s that have been given out, paths came in messages. *)
Record queries_ok (w : world) : Prop := {
  qok_next : -1 <= next_query_id (queries w) < 2 ^ 31;
  qok_query p q : qheap w !! p = Some q -> 0 <= query_id q < 2 ^ 31 /\ valid_path q
}.

(** From [w] to [w'] the program of query [n] is the same, and the messages that
    start it are its own. *)
Record keeps (n : Z) (w w' : world) : Prop := {
  keeps_next : n <= next_query_id (queries w');
  keeps_ok : queries_ok w';
  keeps_block p q' : qheap w' !! p = Some q' -> query_id q' = n ->
    exists q, qheap w !! p = Some q /\ query_id q = n /\ program_of q' = program_of q;
  keeps_sent : exists sent, outbox w' = sent ++ outbox w /\
    forall fd bytes, (fd, bytes) ∈ sent -> starts n bytes ->
    exists p q k, qheap w !! p = Some q /\ query_id q = n /\ bytes = take k (start_message q)
}.

Definition keeping (n : Z) (w w' : world) : Prop :=
  n <= next_query_id (queries w) -> queries_ok w -> keeps n w w'.

Lemma start_message_of q q' :
  query_id q' = query_id q -> program_of q' = program_of q -> start_message q' = start_message q.
Proof. unfold program_of, start_message, start_fields. by intros -> [= -> ->]. Qed.

#[export] Instance keeping_preorder n : PreOrder (keeping n).
Proof.
  split.
  - intros w Hn Hok. split; [done..| |].
    + intros p q Hq Hid. by exists q.
    + exists []. split; [done|]. by intros fd bytes ?%not_elem_of_nil.
  - intros w1 w2 w3 H12 H23 Hn Hok. destruct (H12 Hn Hok) as [Hn2 Hok2 Hb2 (s2 & E2 & Hs2)].
    destruct (H23 Hn2 Hok2) as [Hn3 Hok3 Hb3 (s3 & E3 & Hs3)]. split; [done..| |].
    + intros p q' Hq Hid. destruct (Hb3 p q' Hq Hid) as (q & Hq' & Hid' & E).
      destruct (Hb2 p q Hq' Hid') as (q0 & H0 & Hid0 & E0). exists q0. split; [done|]. split; [done|]. congruence.
    + exists (s3 ++ s2). split; [by rewrite E3, E2, app_assoc|]. intros fd bytes [Hin|Hin]%elem_of_app Hst; [|by eapply Hs2].
      destruct (Hs3 fd bytes Hin Hst) as (p & q & k & Hq & Hid & ->). destruct (Hb2 p q Hq Hid) as (q0 & H0 & Hid0 & E0).
      exists p, q0, k. split; [done|]. split; [done|]. f_equal. apply start_message_of; [congruence|done].
Qed.

(** ** The parts of the programs *)

Lemma keeping_same n w w' :
  outbox w' = outbox w -> qheap w' = qheap w -> next_query_id (queries w') = next_query_id (queries w) -> keeping n w w'.
Proof.
  intros E1 E2 E3 Hn [Hx Hq]. split.
  - by rewrite E3.
  - split; [by rewrite E3|by rewrite E2].
  - rewrite E2. intros p q H Hid. by exists q.
  - exists []. split; [by rewrite E1|]. by intros fd bytes ?%not_elem_of_nil.
Qed.

(** A block changes in the fields that are not its program. *)
Lemma keeping_block n w p q q' :
  qheap w !! p = Some q -> (query_id q = n -> program_of q' = program_of q) ->
  query_id q' = query_id q -> query_file_path q' = query_file_path q ->
  keeping n w (on_qheap (fun h => <[p := q']> h) w).
Proof.
  intros Hp Hpr Hid Hpath Hn [Hx Hq]. split; autorewrite with world.
  - done.
  - split; [done|]. autorewrite with world. intros x y [[<- <-]|[_ H]]%lookup_insert_Some; [|by eapply Hq].
    destruct (Hq p q Hp) as [Hb Hv]. rewrite Hid. split; [done|]. unfold valid_path. by rewrite Hpath.
  - intros x y [[<- <-]|[_ H]]%lookup_insert_Some E; [|by exists y]. exists q. split; [done|]. rewrite Hid in E. auto.
  - exists []. split; [done|]. by intros fd bytes ?%not_elem_of_nil.
Qed.

Lemma keeping_free n w p : keeping n w (on_qheap (fun h => delete p h) w).
Proof.
  intros Hn [Hx Hq]. split; autorewrite with world.
  - done.
  - split; [done|]. autorewrite with world. intros x y [_ H]%lookup_delete_Some. by eapply Hq.
  - intros x y [_ H]%lookup_delete_Some E. by exists y.
  - exists []. split; [done|]. by intros fd bytes ?%not_elem_of_nil.
Qed.

Lemma take_starts n k bytes : starts n (take k bytes) -> (9 <= k)%nat /\ take 1 bytes = le_bytes 1 (master_op OP_WORKER_START_QUERY) /\
  take 4 (drop 5 bytes) = be32 (u32 n).
Proof.
  intros [H1 H2]. assert (Hk : (9 <= k)%nat).
  { apply (f_equal length) in H2. rewrite length_be32, length_take, length_drop, length_take in H2. lia. }
  split; [done|]. rewrite <- H1, <- H2. rewrite take_take, skipn_firstn_comm, take_take. split; f_equal; lia.
Qed.

(** A message with another operation code starts nothing. *)
Lemma other_message n p k :
  le_bytes 1 (operation_code p) <> le_bytes 1 (master_op OP_WORKER_START_QUERY) -> ~ starts n (take k (serialized_package p)).
Proof.
  intros Hop (_ & H & _)%take_starts. apply Hop. rewrite <- H. unfold serialized_package.
  assert (Hl : length (le_bytes 1 (operation_code p)) = 1%nat) by apply length_le_bytes.
  by rewrite <- Hl, take_app_length.
Qed.

Lemma i32_u32 z : - 2 ^ 31 <= z < 2 ^ 31 -> i32 (u32 z) = z.
Proof. intros Hz. unfold i32, u32. rewrite to_signed_mod by lia. by apply to_signed_id. Qed.

Lemma be32_inj a b : - 2 ^ 31 <= a < 2 ^ 31 -> - 2 ^ 31 <= b < 2 ^ 31 -> be32 (u32 a) = be32 (u32 b) -> a = b.
Proof.
  intros Ha Hb H. unfold be32 in H. apply (f_equal (fun l => le_val (rev l))) in H.
  rewrite !rev_involutive, !le_val_le_bytes in H. change (256 ^ Z.of_nat 4) with (2 ^ 32) in H. rewrite !Z.mod_small in H by apply u32_bound.
  rewrite <- (i32_u32 a), <- (i32_u32 b) by done. by rewrite H.
Qed.

(** The head of the message that starts a query. *)
Lemma start_message_head q :
  valid_path q -> take 1 (start_message q) = le_bytes 1 (master_op OP_WORKER_START_QUERY) /\
    take 4 (drop 5 (start_message q)) = be32 (u32 (query_id q)).
Proof.
  intros Hv. destruct buffer_create_dynamic_wf as [Hwf0 Hd0].
  destruct (package_add_all_appends (package_create_empty (master_op OP_WORKER_START_QUERY)) (start_fields q))
    as (b & E & Hwf & _ & Hw & Ho); [done|done| | |].
  - repeat constructor; try (apply u32_bound). all: apply Hv.
  - destruct Hv as [Hlen _]. unfold wire_size, start_fields, encode_all. cbn [flat_map encode offset package_create_empty].
    rewrite !length_app, !length_be32, length_string_bytes. cbn. unfold strlen, MAX_STRING_LENGTH in Hlen. lia.
  - unfold start_message. rewrite E. cbn [snd]. unfold serialized_package. cbn [buffer operation_code]. split; [done|].
    rewrite app_assoc, drop_app_length' by (by rewrite length_app, !length_le_bytes).
    destruct Hwf as [Hlen Hoff Hsz]. unfold MAX_BUFFER_SIZE in Hsz. rewrite u32_small, (take_ge (stream b)) by lia.
    apply (f_equal (take 4)) in Hw. unfold written in Hw.
    change (offset (buffer (package_create_empty _))) with 0 in Hw, Ho. change (Z.to_nat 0) with 0%nat in Hw. rewrite take_0, take_take in Hw.
    assert (Hl : (8 <= length (encode_all (start_fields q)))%nat).
    { unfold start_fields, encode_all. cbn [flat_map encode]. rewrite !length_app, !length_be32. lia. }
    rewrite Nat.min_l in Hw by lia. by rewrite Hw.
Qed.

(** A message that starts a query has its identifier. *)
Lemma start_message_id n q k :
  - 2 ^ 31 <= n < 2 ^ 31 -> 0 <= query_id q < 2 ^ 31 -> valid_path q -> starts n (take k (start_message q)) -> query_id q = n.
Proof.
  intros Hn Hq Hv (_ & _ & H)%take_starts. apply be32_inj; [lia|done|]. rewrite <- H. symmetry. by apply start_message_head.
Qed.

(** ** The handlers *)

Create HintDb programs.

Section Parts.
Context `{CL : CommonsList} `{KN : Kernel} (n : Z).

Abbreviation keep := (frames (keeping n)).

Lemma keep_modify f :
  (forall w, outbox (f w) = outbox w) -> (forall w, qheap (f w) = qheap w) ->
  (forall w, next_query_id (queries (f w)) = next_query_id (queries w)) -> keep (st_modify f).
Proof. intros E1 E2 E3. apply frames_modify. intros w. by apply keeping_same. Qed.

Lemma keep_get_q p : keep (get_q p).
Proof. intros w q w'. unfold get_q. destruct (qheap w !! p); [|done]. intros [= _ <-]. reflexivity. Qed.
Lemma keep_get_w p : keep (get_w p).
Proof. intros w q w'. unfold get_w. destruct (wheap w !! p); [|done]. intros [= _ <-]. reflexivity. Qed.
Lemma keep_lock m : keep (lock m).
Proof. intros w u w'. unfold lock. destruct (bool_decide _); [done|]. intros [= _ <-]. by apply keeping_same. Qed.
Lemma keep_unlock m : keep (unlock m).
Proof. intros w u w'. unfold unlock. destruct (bool_decide _); [|done]. intros [= _ <-]. by apply keeping_same. Qed.
Lemma keep_find_q l c : keep (find_q l c).
Proof. intros w r w'. unfold find_q. destruct (forallb _ _); [|done]. intros [= _ <-]. reflexivity. Qed.
Lemma keep_find_w l c : keep (find_w l c).
Proof. intros w r w'. unfold find_w. destruct (forallb _ _); [|done]. intros [= _ <-]. reflexivity. Qed.
Lemma keep_sort : keep sort_ready.
Proof. intros w r w'. unfold sort_ready. destruct (forallb _ _); [|done]. intros [= _ <-]. by apply keeping_same. Qed.
Lemma keep_close fd : keep (close_fd fd).
Proof. intros w r w' [= _ <-]. by apply keeping_same. Qed.
Lemma keep_malloc_w b : keep (malloc_w b).
Proof. intros w r w' [= _ <-]. by apply keeping_same. Qed.
Lemma keep_mod_w p f : keep (mod_w p f).
Proof. intros w u w' (b & w1 & Eb & [= _ <-])%run_bind. apply keep_get_w in Eb. etransitivity; [exact Eb|]. by apply keeping_same. Qed.
Lemma keep_free_q p : keep (free_q p).
Proof. intros w u w' (b & w1 & Eb & [= _ <-])%run_bind. apply keep_get_q in Eb. etransitivity; [exact Eb|]. apply keeping_free. Qed.
Lemma keep_free_w p : keep (free_w p).
Proof. intros w u w' (b & w1 & Eb & [= _ <-])%run_bind. apply keep_get_w in Eb. etransitivity; [exact Eb|]. by apply keeping_same. Qed.

Lemma keep_mod_q p f :
  (forall q, query_id (f q) = query_id q) -> (forall q, program_of (f q) = program_of q) -> keep (mod_q p f).
Proof.
  intros Hid Hpr w u w' (q & w1 & Eb & E)%run_bind. unfold get_q in Eb. destruct (qheap w !! p) as [q0|] eqn:Ep; [|done].
  injection Eb as <- <-. injection E as _ <-. apply (keeping_block n w p q0); auto. specialize (Hpr q0). by injection Hpr.
Qed.

Lemma keep_send p s :
  le_bytes 1 (operation_code p) <> le_bytes 1 (master_op OP_WORKER_START_QUERY) -> keep (send_package p s).
Proof.
  intros Hop w r w' E Hn Hok. unfold send_package, package_send in E.
  assert (Hx : exists k, w' = on_outbox ((s, take k (serialized_package p)) :: outbox w) w).
  { destruct (s <? 0); injection E as _ <-; [by exists 0%nat|by eexists]. }
  destruct Hx as [k ->]. destruct Hok as [Hx Hq]. split; autorewrite with world.
  - done.
  - by split.
  - intros x q H Hid. by exists q.
  - exists [(s, take k (serialized_package p))]. split; [done|]. intros fd bytes [= -> ->]%list_elem_of_singleton Hst.
    by apply other_message in Hst.
Qed.

End Parts.

#[export] Hint Resolve keep_get_q keep_get_w keep_lock keep_unlock keep_find_q keep_find_w keep_sort keep_close keep_malloc_w
  keep_mod_w keep_free_q keep_free_w : programs.

Lemma op_add_uint32 p v : operation_code (snd (package_add_uint32 p v)) = operation_code p.
Proof. unfold package_add_uint32, on_buffer. by destruct (buffer_write_uint32 _ _). Qed.
Lemma op_add_string p v : operation_code (snd (package_add_string p v)) = operation_code p.
Proof. unfold package_add_string, on_buffer. by destruct (buffer_write_string _ _). Qed.
Lemma op_add_data p v : operation_code (snd (package_add_data p v)) = operation_code p.
Proof. unfold package_add_data, on_buffer. destruct (_ =? 0); [done|]. by destruct (buffer_write_data _ _). Qed.

(** The operation code of what is sent. *)
Ltac other_op :=
  cbv zeta; rewrite ?op_add_string, ?op_add_data, ?op_add_uint32;
  repeat match goal with H : operation_code ?p = _ |- context [operation_code ?p] => rewrite H end;
  vm_compute; discriminate.

Ltac keep_step :=
  lazymatch goal with
  | |- frames _ (mbind _ _) => apply frames_bind; [exact _| |intros ?]
  | |- frames _ (mret _) => apply frames_ret; exact _
  | |- frames _ st_ub => apply frames_ub
  | |- frames _ (st_gets _) => apply frames_gets; exact _
  | |- frames _ (st_modify _) => apply keep_modify; intros; reflexivity
  | |- frames _ (mod_q _ _) => apply keep_mod_q; intros; reflexivity
  | |- frames _ (send_package _ _) => apply keep_send; other_op
  | |- frames _ (scan _ _) => apply frames_scan; [exact _|intros ?]
  | |- frames _ (if ?b then _ else _) => destruct b
  | |- frames _ (match package_add_data ?p ?v with _ => _ end) =>
      let H := fresh in pose proof (op_add_data p v) as H; destruct (package_add_data p v); cbn [snd] in H
  | |- frames _ (match package_add_string ?p ?v with _ => _ end) =>
      let H := fresh in pose proof (op_add_string p v) as H; destruct (package_add_string p v); cbn [snd] in H
  | |- frames _ (match ?x with _ => _ end) => destruct x
  end.
Ltac keep := repeat (solve [eauto with programs nocore] || keep_step).

Section Release.
Context `{CL : CommonsList} `{KN : Kernel} (n : Z).

Abbreviation keep := (frames (keeping n)).

Lemma keep_finalize p r : keep (finalize_query_with_error p r).
Proof. unfold finalize_query_with_error. destruct r; keep. Qed.
Lemma keep_cleanup_query p : keep (cleanup_query_resources p).
Proof. unfold cleanup_query_resources. keep. Qed.
Lemma keep_cancel_ready p : keep (cancel_query_in_ready p).
Proof. unfold cancel_query_in_ready. apply frames_bind; [exact _| |intros; apply keep_finalize]. keep. Qed.
Lemma keep_insert_loop l p i k : keep (insert_loop l p i k).
Proof. revert i. induction k as [|k IH]; intros i; cbn [insert_loop]; keep. Qed.
Lemma keep_insert_ready p : keep (insert_ready p).
Proof. pose proof keep_insert_loop. unfold insert_ready, insert_query_by_priority. keep. Qed.

End Release.

#[export] Hint Resolve keep_finalize keep_cleanup_query keep_cancel_ready keep_insert_ready : programs.

Section Dispatch.
Context `{CL : CommonsList} `{KN : Kernel} (n : Z).

Abbreviation keep := (frames (keeping n)).

(** The message of a dispatch is the one of its query. *)
Lemma keep_send_query x p : - 2 ^ 31 <= n < 2 ^ 31 -> keep (send_query_to_worker x p).
Proof.
  intros Hn w rc w' E. destruct (wheap w !! x) as [b|] eqn:Hb.
  2:{ unfold send_query_to_worker in E. apply run_bind in E as (? & ? & Eb & _). unfold get_w in Eb. by rewrite Hb in Eb. }
  destruct (Z.leb_spec (w_socket_fd b) 0) as [Hfd|Hfd].
  { unfold send_query_to_worker, mbind at 1, st_bind at 1, get_w in E. rewrite Hb, (proj2 (Z.leb_le _ _) Hfd) in E.
    injection E as _ <-. reflexivity. }
  destruct (qheap w !! p) as [q|] eqn:Hq.
  2:{ unfold send_query_to_worker, mbind at 1, st_bind at 1, get_w in E. rewrite Hb, (proj2 (Z.leb_gt _ _) Hfd) in E.
      apply run_bind in E as (? & ? & Eq & _). unfold get_q in Eq. by rewrite Hq in Eq. }
  rewrite (send_query_fields x p b q) in E by done. intros Hle [Hx Hok]. destruct (Hok p q Hq) as [Hid Hv].
  destruct (start_fields_built q Hv) as (pk & Epk & Hwf & _). assert (Ekp := Epk). rewrite Epk in E.
  apply run_bind in E as (r & w1 & E & [= _ <-]). unfold send_package in E. rewrite package_send_whole in E by (done || lia).
  injection E as _ <-. split; autorewrite with world.
  - done.
  - by split.
  - intros y q' H Hidy. by exists q'.
  - set (k := Z.to_nat _). eexists [_]. split; [reflexivity|]. intros fd bytes [= -> ->]%list_elem_of_singleton Hst.
    assert (Em : start_message q = serialized_package pk) by (unfold start_message; by rewrite Ekp).
    exists p, q, k. rewrite Em. split; [done|]. split; [|done]. rewrite <- Em in Hst. by eapply start_message_id.
Qed.

Lemma keep_revert p x : keep (revert_dispatch p x).
Proof. unfold revert_dispatch. keep. Qed.
Lemma keep_assign p x : - 2 ^ 31 <= n < 2 ^ 31 -> keep (assign_query_to_worker p x).
Proof.
  intros Hn. pose proof (keep_send_query x p Hn). pose proof (keep_revert p x). unfold assign_query_to_worker. keep.
Qed.
Lemma keep_dispatch : - 2 ^ 31 <= n < 2 ^ 31 -> keep try_dispatch.
Proof. intros Hn. pose proof (fun p x => keep_assign p x Hn). unfold try_dispatch, dispatch_locked. keep. Qed.

(** *** Aging, messages and disconnections *)

Lemma age_query_program interval now q :
  query_id (fst (age_query interval now q)) = query_id q /\ program_of (fst (age_query interval now q)) = program_of q.
Proof. unfold age_query. cbn zeta. by repeat case_match. Qed.

Lemma keep_preempt p : keep (preempt_query_in_exec p).
Proof. unfold preempt_query_in_exec. keep. Qed.
Lemma keep_worst_loop l v i k : keep (worst_loop l v i k).
Proof. revert v i. induction k as [|k IH]; intros v i; cbn [worst_loop]; keep. Qed.
Lemma keep_aging_scan l interval now i k c : keep (aging_scan l interval now i k c).
Proof.
  revert i c. induction k as [|k IH]; intros i c; cbn [aging_scan]; [keep|]. destruct (list_get l i) as [p|]; [|apply IH].
  apply frames_bind; [exact _|keep|intros q]. apply frames_bind; [exact _| |intros; apply IH].
  apply keep_mod_q; intros; apply age_query_program.
Qed.
Lemma keep_aging_round now : keep (aging_round now).
Proof.
  pose proof keep_preempt. pose proof keep_worst_loop. pose proof keep_aging_scan.
  unfold aging_round, check_preemption, preemption_locked. keep.
Qed.
Lemma keep_query_gone fd : keep (handle_query_control_disconnection fd).
Proof. pose proof keep_preempt. unfold handle_query_control_disconnection, find_query_by_socket. keep. Qed.
Lemma keep_worker_gone fd : keep (handle_worker_disconnection fd).
Proof. unfold handle_worker_disconnection, find_worker_by_socket, cleanup_worker_resources. keep. Qed.
Lemma keep_query_handshake s : keep (manage_query_handshake s).
Proof. unfold manage_query_handshake. keep. Qed.
Lemma keep_worker_handshake b s : - 2 ^ 31 <= n < 2 ^ 31 -> keep (manage_worker_handshake b s).
Proof. intros Hn. pose proof (keep_dispatch Hn). unfold manage_worker_handshake, create_worker. keep. Qed.
Lemma keep_end_query b s : - 2 ^ 31 <= n < 2 ^ 31 -> keep (manage_worker_end_query b s).
Proof. intros Hn. pose proof (keep_dispatch Hn). unfold manage_worker_end_query, end_query_locked, release_worker, notify_end. keep. Qed.
Lemma keep_storage_error p s : - 2 ^ 31 <= n < 2 ^ 31 -> keep (handle_error_from_storage p s).
Proof. intros Hn. pose proof (keep_dispatch Hn). unfold handle_error_from_storage, storage_error_locked, find_worker_by_socket. keep. Qed.

End Dispatch.

(** ** Messages that name a query *)

Lemma c_string_valid bs : ~ x00 ∈ string_bytes (c_string bs) /\ (String.length (c_string bs) <= length bs)%nat.
Proof.
  induction bs as [|b bs [IH1 IH2]]; [split; [by apply not_elem_of_nil|done]|]. cbn [c_string].
  assert (Hb : b = x00 \/ c_string (b :: bs) = String (Ascii.ascii_of_byte b) (c_string bs) /\ b <> x00).
  { destruct (Byte.byte_eq_dec b x00) as [->|Hne]; [by left|right]. split; [by destruct b|done]. }
  destruct Hb as [->|[E Hb]]; [split; [by apply not_elem_of_nil|cbn; lia]|]. cbn [c_string] in E. rewrite E. split; [|cbn; lia].
  unfold string_bytes in *. change (String.list_byte_of_string (String ?c ?s)) with (Ascii.byte_of_ascii c :: String.list_byte_of_string s).
  rewrite Ascii.byte_of_ascii_of_byte. by apply not_elem_of_cons.
Qed.

Lemma read_string_valid p s p' : package_read_string p = (Some s, p') -> valid_field (F_string s).
Proof.
  unfold package_read_string, on_buffer, buffer_read_string. destruct (buffer_read_uint32 (buffer p)) as [[len|] b]; [|done].
  destruct ((MAX_STRING_LENGTH <? len) || _) eqn:Hl; [done|]. apply orb_false_iff in Hl as [Hl _]. apply Z.ltb_ge in Hl.
  unfold get_bytes. intros [= <- _]. destruct (c_string_valid (mem_read (stream b) (Z.to_nat (offset b)) (Z.to_nat len))) as [H1 H2].
  split; [|done]. unfold mem_read in H2 at 2. rewrite length_take in H2. unfold strlen, MAX_STRING_LENGTH in *. lia.
Qed.

Section Requests.
Context `{CLS : CommonsListSpec} `{KN : Kernel} (n : Z).
Hypothesis Hn : - 2 ^ 31 <= n < 2 ^ 31.

Abbreviation keep := (frames (keeping n)).

Lemma keep_read_message b s : keep (manage_read_message_from_worker b s).
Proof.
  pose proof (keep_dispatch n Hn). unfold manage_read_message_from_worker.
  destruct (buffer_read_uint32 _) as [v1 b1]. destruct (buffer_read_uint32 b1) as [qid b2]. destruct (buffer_read_data b2) as [data b3].
  destruct (buffer_read_string b3) as [file b4]. destruct (buffer_read_string b4) as [tag b5]. destruct qid, file as [f|], tag as [t|]; keep.
Qed.

(** A new query is not query [n]. *)
Lemma keep_malloc_q q : query_id q <> n -> 0 <= query_id q < 2 ^ 31 -> valid_path q -> keep (malloc_q q).
Proof.
  intros Hq Hid Hv w p w' [= _ <-] Hle [Hx Hok]. split; autorewrite with world.
  - done.
  - split; [done|]. autorewrite with world. intros y z [[<- <-]|[_ H]]%lookup_insert_Some; [by split|by eapply Hok].
  - intros y z [[<- <-]|[_ H]]%lookup_insert_Some E; [done|by exists z].
  - exists []. split; [done|]. by intros fd bytes ?%not_elem_of_nil.
Qed.

Lemma keep_create_query id path prio fd now :
  id <> n -> 0 <= id < 2 ^ 31 -> valid_field (F_string path) -> keep (create_query id path prio fd now).
Proof. intros. pose proof (keep_malloc_q (new_qcb id path prio fd now)). unfold create_query. keep. Qed.

Lemma keep_file_path p fd now : keep (manage_query_file_path p fd now).
Proof.
  intros w rc w' E Hle Hok. unfold manage_query_file_path in E. destruct (package_read_string p) as [path p1] eqn:Ep.
  destruct (package_read_uint8 p1) as [prio p2]. apply run_bind in E as (id & w1 & E1 & E).
  unfold generate_query_id, mbind, st_bind, st_gets in E1. destruct (Z.ltb_spec (next_query_id (queries w) + 1) (2 ^ 31)); [|done].
  injection E1 as <- <-. match type of E with _ ?s = _ => set (w1 := s) in * end.
  assert (H1 : keeps n w w1).
  { pose proof (qok_next w Hok). split; cbn; [lia|split; [cbn; lia|apply Hok]| |].
    - intros x q Hq Hid. by exists q.
    - exists []. split; [done|]. by intros fd' bytes ?%not_elem_of_nil. }
  enough (Hk0 : keeping n w1 w').
  { assert (Ht : keeping n w w') by (etransitivity; [intros _ _; exact H1|exact Hk0]). by apply Ht. }
  assert (Hk : keep (_ ← send_package (package_create_empty (master_op QC_OP_MASTER_CONNECTION_OK)) fd;
    match path, prio with
    | Some path, Some prio => _ ← create_query (next_query_id (queries w) + 1) path prio fd now; _ ← try_dispatch; mret 0
    | _, _ => st_ub
    end)).
  { destruct path as [path|], prio as [prio|]; keep.
    - pose proof (qok_next w Hok). apply keep_create_query; [lia|lia|by eapply read_string_valid].
    - apply keep_dispatch, Hn. }
  by eapply Hk.
Qed.

(** The answer to an eviction: what it does to the tables, and the dispatch. *)
Lemma evict_response_splits fd p p1 p2 qid pc now w w' :
  master_wf w -> package_read_uint32 p = (Some qid, p1) -> package_read_uint32 p1 = (Some pc, p2) ->
  manage_worker_evict_response fd p now w = Some (tt, w') ->
  exists v rc, evict_outcome fd qid pc now (both_locked w) v /\ master_wf (released v) /\ try_dispatch (released v) = Some (rc, w').
Proof.
  intros Hwf E1 E2 E. pose proof Hwf as [Hq Hw Hh].
  assert (H : wp (manage_worker_evict_response fd p now) (fun _ w' => exists v rc,
    evict_outcome fd qid pc now (both_locked w) v /\ master_wf (released v) /\ try_dispatch (released v) = Some (rc, w')) w).
  2:{ unfold wp in H. by rewrite E in H. }
  unfold manage_worker_evict_response. rewrite E1, E2.
  apply (wp_locked (evict_locked fd qid pc now) (fun _ => _ ← try_dispatch; mret tt)); [done|].
  eapply wp_mono; [apply evict_locked_run; by split|].
  intros [] v Hv. cbv beta in Hv. eapply evict_outcome_wf in Hv as Hv'; [|by split]. destruct Hv' as [[Hq' Hw'] Hh'].
  split; [done|]. assert (Hr : master_wf (released v)) by by split.
  pose proof (try_dispatch_run (released v) Hr) as Ht. unfold wp, mbind, st_bind in *.
  destruct (try_dispatch (released v)) as [[rc w1]|] eqn:Ed; [|done]. by exists v, rc.
Qed.

Lemma keeping_freed x b w w' : keeping n w w' -> keeping n w (freed_worker x b w').
Proof. intros H. etransitivity; [exact H|]. unfold freed_worker. cbn zeta. destruct (decide _); by apply keeping_same. Qed.

(** When the answer is not about query [n]. *)
Lemma keep_evict_response fd p now w w' :
  master_wf w -> fst (package_read_uint32 p) <> Some (u32 n) -> manage_worker_evict_response fd p now w = Some (tt, w') -> keeping n w w'.
Proof.
  intros Hwf Hne E. destruct (package_read_uint32 p) as [[qid|] p1] eqn:E1; cbn [fst] in Hne.
  2:{ unfold manage_worker_evict_response in E. rewrite E1 in E. by injection E as <-. }
  destruct (package_read_uint32 p1) as [[pc|] p2] eqn:E2.
  2:{ unfold manage_worker_evict_response in E. rewrite E1, E2 in E. by injection E as <-. }
  destruct (evict_response_splits fd p p1 p2 qid pc now w w' Hwf E1 E2 E) as (v & rc & Hv & _ & Ed).
  apply (keep_dispatch n Hn) in Ed. etransitivity; [|exact Ed].
  enough (Hk : keeping n w v) by (etransitivity; [exact Hk|by apply keeping_same]).
  assert (Hl : keeping n w (both_locked w)) by by apply keeping_same.
  destruct Hv as [_|x b y q Hx Hb Hy Hq Hs|x b y q Hx Hb Hy Hq Hs]; [done|..]; apply keeping_freed.
  - etransitivity; [exact Hl|]. etransitivity; [|apply keeping_free]. by apply keeping_same.
  - etransitivity; [exact Hl|]. unfold requeued.
    transitivity (on_qheap (fun h => <[y := evicted_qcb pc now q]> h) (both_locked w)); [|by apply keeping_same].
    destruct (find_q_found _ _ _ _ Hy) as (_ & q' & Hq' & Hid). rewrite Hq in Hq'. injection Hq' as <-. apply Z.eqb_eq in Hid.
    apply (keeping_block n _ y q); [done| |done|done]. intros Heq. congruence.
Qed.

(** ** What happens to the Master *)

(** The event is not the answer to an eviction of query [n]. *)
Definition not_evicted (e : event) : Prop :=
  match e with
  | PackageArrived _ _ _ p => operation_code p = master_op OP_WORKER_EVICT_RES -> fst (package_read_uint32 p) <> Some (u32 n)
  | _ => True
  end.

Lemma serve_keeps e w w' : master_wf w -> not_evicted e -> serve e w = Some (tt, w') -> keeping n w w'.
Proof.
  intros Hwf He E. destruct e as [fd now c p|fd c|fd|now]; cbn [serve] in E.
  - apply run_bind in E as (c' & w1 & E & [= <-]). unfold handle_package in E. cbn zeta in E.
    pose proof (keep_file_path p fd now) as H1. pose proof (keep_read_message (buffer p) fd) as H2.
    pose proof (keep_worker_handshake n (buffer p) fd Hn) as H3. pose proof (keep_end_query n (buffer p) fd Hn) as H4.
    pose proof (keep_storage_error n p fd Hn) as H5. pose proof (keep_query_handshake n fd) as H6.
    pose proof (keep_query_gone n fd) as H7. pose proof (keep_worker_gone n fd) as H8.
    destruct (Z.eqb_spec (operation_code p) (master_op OP_WORKER_EVICT_RES)) as [Hop|_].
    + rewrite Hop in E. repeat match type of E with context [master_op ?a =? ?x] =>
        let v := eval vm_compute in (master_op a =? x) in change (master_op a =? x) with v in E end.
      cbv iota in E. apply run_bind in E as ([] & w2 & E & [= _ <-]). apply (keep_evict_response fd p now); auto.
    + revert E. match goal with |- ?m w = _ -> _ => enough (Hk : keep m) by apply Hk end. keep.
  - revert E. match goal with |- ?m w = _ -> _ => enough (Hk : keep m) by apply Hk end. unfold handle_gone.
    pose proof (keep_query_gone n fd). pose proof (keep_worker_gone n fd). keep.
  - by apply (keep_close n) in E.
  - by apply (keep_aging_round n) in E.
Qed.

(** A run in which no worker answers an eviction of query [n]. *)
Inductive goes_on (w : world) : world -> Prop :=
| goes_on_start : goes_on w w
| goes_on_event e w1 w2 :
    goes_on w w1 -> valid_event e w1 -> not_evicted e -> serve e w1 = Some (tt, w2) -> goes_on w w2.

Lemma goes_on_keeps w w' : master_wf w -> goes_on w w' -> master_wf w' /\ keeping n w w'.
Proof.
  intros Hwf. induction 1 as [|e w1 w2 Hr [Hwf1 IH] Hv He E]; [by split|].
  pose proof (serve_run e w1 Hwf1 Hv) as H. unfold wp in H. rewrite E in H. split; [done|].
  etransitivity; [exact IH|by eapply serve_keeps].
Qed.

End Requests.

(** The queries of the program are as they should be. *)
Lemma reachable_queries_ok `{CLS : CommonsListSpec} `{KN : Kernel} interval algorithm w : reachable interval algorithm w -> queries_ok w.
Proof.
  induction 1 as [|e w w' Hr IH Hv E].
  - split; [done|]. intros p q. cbn. by rewrite lookup_empty.
  - assert (Hn : exists n, (n = -1 \/ n = -2) /\ not_evicted n e).
    { destruct e as [fd now c p| | |]; [|exists (-1); auto..]. cbn [not_evicted].
      destruct (decide (fst (package_read_uint32 p) = Some (u32 (-1)))) as [->|]; [exists (-2)|exists (-1)]; auto. }
    destruct Hn as (n & Hn & He). pose proof (qok_next w IH).
    destruct (serve_keeps n ltac:(lia) e w w') as [_ H2 _ _]; [by eapply reachable_wf|done|done|lia|done..].
Qed.
