(* ===== verification/FifoOrder.v ===== *)
(** * FIFO: queries start in the order in which they came

    Without priorities (master/src/main.c does not start the aging thread then) the
    READY queue is in the order of arrival, and the Master starts the queries in
    that order, each of them once, for as long as the sockets of the workers take
    what they are sent. *)

From Stdlib Require Import Sorting.Sorted.
From stdpp Require Import sorting.
From S2P Require Import Prelude CStrings Commons Serialization Protocol MasterState MasterInvariant MasterMain HandlersSpec.
From S2P Require Import SchedulerSpec CleanupSpec MasterFrames MasterPrograms PriorityOrder MasterProps.
From S2P Require Import Scheduler Cleanup Aging Disconnection WorkerManager.

(** ** The order *)

(** The query that a message starts. *)
Definition start_id (bytes : list byte) : option Z :=
  match bytes with
  | op :: rest =>
      if Byte.eqb op (byte_of_Z (master_op OP_WORKER_START_QUERY)) then Some (le_val (rev (take 4 (drop 4 rest)))) else None
  | [] => None
  end.

(** The queries started, the first one first, and those that wait. *)
Definition started (w : world) : list Z := omap (fun fb => start_id fb.2) (rev (outbox w)).
Definition ready_ids (w : world) : list Z := omap (fun p => query_id <$> qheap w !! p) (ready_queue (queries w)).

(** A Master without priorities, whose workers have sockets. *)
Record fifo (w : world) : Prop := {
  fifo_algorithm : is_priority w = false;
  fifo_ok : queries_ok w;
  fifo_sockets x b : wheap w !! x = Some b -> 0 < w_socket_fd b
}.

(** What was started and what waits are what waited before, in that order, less the
    queries that are gone, and then new ones. *)
Definition in_turn (w w' : world) : Prop :=
  exists new fresh, started w' = started w ++ new /\ sublist (new ++ ready_ids w') (ready_ids w ++ fresh) /\
    StronglySorted Z.lt fresh /\ Forall (fun i => next_query_id (queries w) < i <= next_query_id (queries w')) fresh /\
    next_query_id (queries w) <= next_query_id (queries w').

Definition turn (w w' : world) : Prop := fifo w -> fifo w' /\ in_turn w w'.

#[export] Instance turn_preorder : PreOrder turn.
Proof.
  split.
  - intros w Hw. split; [done|]. exists [], []. rewrite !app_nil_r. split; [done|]. split; [done|]. repeat split; (constructor || lia).
  - intros w1 w2 w3 H12 H23 H1. destruct (H12 H1) as [H2 (n1 & f1 & E1 & S1 & O1 & B1 & L1)].
    destruct (H23 H2) as [H3 (n2 & f2 & E2 & S2 & O2 & B2 & L2)]. split; [done|].
    exists (n1 ++ n2), (f1 ++ f2). split; [by rewrite E2, E1, app_assoc|]. split; [|split; [|split; [|lia]]].
    + rewrite <- app_assoc. etransitivity; [apply sublist_app; [reflexivity|exact S2]|].
      rewrite (app_assoc n1), (app_assoc (ready_ids w1)). by apply sublist_app.
    + apply StronglySorted_app. split; [|by split]. intros a b Ha Hb.
      eapply Forall_forall in Ha; [|exact B1]. eapply Forall_forall in Hb; [|exact B2]. cbn in Ha, Hb. lia.
    + apply Forall_app. split; (eapply Forall_impl; [eassumption|]); cbn; lia.
Qed.

(** ** The parts of the programs *)

Lemma omap_sublist {A B} (f : A -> option B) l k : sublist l k -> sublist (omap f l) (omap f k).
Proof.
  induction 1 as [|x l k _ IH|x l k _ IH]; cbn; [done| |].
  - destruct (f x); [by apply sublist_skip|done].
  - destruct (f x); [by apply sublist_cons|done].
Qed.

Lemma turn_intro w w' :
  (fifo w -> fifo w') -> outbox w' = outbox w -> next_query_id (queries w') = next_query_id (queries w) ->
  sublist (ready_ids w') (ready_ids w) -> turn w w'.
Proof.
  intros Hf Eo En Hs Hw. split; [auto|]. exists [], []. rewrite En. unfold started. rewrite Eo, !app_nil_r.
  split; [done|]. split; [done|]. repeat split; (constructor || lia).
Qed.

(** The blocks are as they were. *)
Lemma turn_tables w w' :
  outbox w' = outbox w -> qheap w' = qheap w -> wheap w' = wheap w -> is_priority w' = is_priority w ->
  next_query_id (queries w') = next_query_id (queries w) -> sublist (ready_queue (queries w')) (ready_queue (queries w)) -> turn w w'.
Proof.
  intros Eo Eq Ew Ea En Hs. apply turn_intro; [|done|done|].
  - intros [Ha [Hx Ho] Hk]. split; [by rewrite Ea|split; [by rewrite En|by rewrite Eq]|by rewrite Ew].
  - unfold ready_ids. rewrite Eq. by apply omap_sublist.
Qed.

Lemma turn_same w w' :
  outbox w' = outbox w -> qheap w' = qheap w -> wheap w' = wheap w -> master w' = master w -> turn w w'.
Proof. intros Eo Eq Ew Em. apply turn_tables; [done..| | |]; unfold is_priority, queries; by rewrite Em. Qed.

(** A block that keeps its identifier and its script. *)
Lemma ready_ids_block w p q q' :
  qheap w !! p = Some q -> query_id q' = query_id q -> ready_ids (on_qheap (fun h => <[p := q']> h) w) = ready_ids w.
Proof.
  intros Hp Hid. unfold ready_ids. autorewrite with world. apply list_omap_ext. apply Forall_Forall2_diag, Forall_forall.
  intros x _. destruct (decide (x = p)) as [->|Hne]; [rewrite lookup_insert_eq, Hp; cbn; by rewrite Hid|by rewrite lookup_insert_ne].
Qed.

Lemma turn_block w p q q' :
  qheap w !! p = Some q -> query_id q' = query_id q -> query_file_path q' = query_file_path q ->
  turn w (on_qheap (fun h => <[p := q']> h) w).
Proof.
  intros Hp Hid Hpath. apply turn_intro; [|done|done|].
  - intros [Ha [Hx Ho] Hk]. split; [done| |done]. split; [done|]. autorewrite with world.
    intros x y [[<- <-]|[_ H]]%lookup_insert_Some; [|by eapply Ho]. destruct (Ho p q Hp) as [Hb Hv].
    rewrite Hid. split; [done|]. unfold valid_path. by rewrite Hpath.
  - by rewrite (ready_ids_block w p q q').
Qed.

(** A query that arrives, with the next identifier. *)
Lemma turn_arrives w w' p q :
  outbox w' = outbox w -> qheap w' = <[p := q]> (qheap w) -> wheap w' = wheap w -> is_priority w' = is_priority w ->
  next_query_id (queries w') = next_query_id (queries w) + 1 -> ready_queue (queries w') = ready_queue (queries w) ++ [p] ->
  qheap w !! p = None -> (forall y, y ∈ ready_queue (queries w) -> is_Some (qheap w !! y)) ->
  query_id q = next_query_id (queries w) + 1 -> query_id q < 2 ^ 31 -> valid_path q -> turn w w'.
Proof.
  intros Eo Eq Ew Ea En Er Hp Hal Hq Hb Hv [Ha [Hx Ho] Hk]. split.
  - split; [by rewrite Ea| |by rewrite Ew]. split; [lia|]. rewrite Eq.
    intros y z [[<- <-]|[_ H]]%lookup_insert_Some; [split; [lia|done]|by eapply Ho].
  - exists [], [query_id q]. split; [by unfold started; rewrite Eo, app_nil_r|]. split; [|split; [repeat constructor|split; [|lia]]].
    + apply reflexive_eq. unfold ready_ids. rewrite Er, Eq, omap_app. cbn. rewrite lookup_insert_eq. cbn. f_equal.
      apply list_omap_ext. apply Forall_Forall2_diag, Forall_forall. intros y Hy. rewrite lookup_insert_ne; [done|].
      intros ->. destruct (Hal y Hy). congruence.
    + constructor; [lia|constructor].
Qed.

Lemma turn_free w p : turn w (on_qheap (fun h => delete p h) w).
Proof.
  apply turn_intro; [|done|done|].
  - intros [Ha [Hx Ho] Hk]. split; [done| |done]. split; [done|]. autorewrite with world.
    intros x y [_ H]%lookup_delete_Some. by eapply Ho.
  - unfold ready_ids. autorewrite with world. induction (ready_queue (queries w)) as [|x l IH]; [done|]. cbn.
    destruct (decide (x = p)) as [->|Hne].
    + rewrite lookup_delete_eq. cbn. destruct (qheap w !! p); cbn; [by apply sublist_cons|done].
    + rewrite lookup_delete_ne by done. destruct (qheap w !! x); cbn; [by apply sublist_skip|done].
Qed.

Lemma turn_wheap f w :
  (forall x b, f (wheap w) !! x = Some b -> exists b0, wheap w !! x = Some b0 /\ w_socket_fd b = w_socket_fd b0) ->
  turn w (on_wheap f w).
Proof.
  intros Hf. apply turn_intro; [|done..]. intros [Ha Ho Hk]. split; [done|by split; apply Ho|].
  intros x b (b0 & Hb & ->)%Hf. by eapply Hk.
Qed.

Lemma start_id_head bytes i : start_id bytes = Some i -> take 1 bytes = le_bytes 1 (master_op OP_WORKER_START_QUERY).
Proof.
  destruct bytes as [|op rest]; [done|]. cbn [start_id]. destruct (Byte.eqb op _) eqn:E; [|done]. intros _.
  apply Byte.byte_dec_bl in E. by rewrite E.
Qed.

Lemma start_id_other p k :
  le_bytes 1 (operation_code p) <> le_bytes 1 (master_op OP_WORKER_START_QUERY) -> start_id (take k (serialized_package p)) = None.
Proof.
  intros Hop. destruct (start_id _) as [i|] eqn:E; [|done]. apply start_id_head in E. destruct Hop. rewrite <- E.
  destruct k as [|k]; [discriminate E|]. rewrite take_take, Nat.min_l by lia. unfold serialized_package.
  assert (Hl : length (le_bytes 1 (operation_code p)) = 1%nat) by apply length_le_bytes. by rewrite <- Hl, take_app_length.
Qed.

Lemma start_id_message q : 0 <= query_id q < 2 ^ 31 -> valid_path q -> start_id (start_message q) = Some (query_id q).
Proof.
  intros Hid Hv. destruct (start_message_head q Hv) as [H1 H2]. destruct (start_message q) as [|op rest]; [discriminate H1|].
  cbn [take] in H1. cbn [start_id]. injection H1 as ->. rewrite (Byte.byte_dec_lb eq_refl). cbn [drop] in H2. rewrite H2.
  f_equal. unfold be32. rewrite rev_involutive, le_val_le_bytes. change (256 ^ Z.of_nat 4) with (2 ^ 32).
  rewrite Z.mod_small by apply u32_bound. apply u32_small. lia.
Qed.

Lemma started_send fd bytes w :
  started (on_outbox ((fd, bytes) :: outbox w) w) = started w ++ match start_id bytes with Some i => [i] | None => [] end.
Proof. unfold started. cbn [outbox on_outbox rev]. rewrite omap_app. cbn. by destruct (start_id bytes). Qed.

(** ** The handlers *)

Create HintDb turns.

Section Parts.
Context `{CLS : CommonsListSpec} `{KN : Kernel}.

Abbreviation turning := (frames turn).

Lemma turn_get_q p : turning (get_q p).
Proof. intros w q w'. unfold get_q. destruct (qheap w !! p); [|done]. intros [= _ <-]. reflexivity. Qed.
Lemma turn_get_w p : turning (get_w p).
Proof. intros w q w'. unfold get_w. destruct (wheap w !! p); [|done]. intros [= _ <-]. reflexivity. Qed.
Lemma turn_lock m : turning (lock m).
Proof. intros w u w'. unfold lock. destruct (bool_decide _); [done|]. intros [= _ <-]. by apply turn_same. Qed.
Lemma turn_unlock m : turning (unlock m).
Proof. intros w u w'. unfold unlock. destruct (bool_decide _); [|done]. intros [= _ <-]. by apply turn_same. Qed.
Lemma turn_find_q l c : turning (find_q l c).
Proof. intros w r w'. unfold find_q. destruct (forallb _ _); [|done]. intros [= _ <-]. reflexivity. Qed.
Lemma turn_find_w l c : turning (find_w l c).
Proof. intros w r w'. unfold find_w. destruct (forallb _ _); [|done]. intros [= _ <-]. reflexivity. Qed.
Lemma turn_close fd : turning (close_fd fd).
Proof. intros w r w' [= _ <-]. by apply turn_same. Qed.

Lemma turn_mod_q p f :
  (forall q, query_id (f q) = query_id q) -> (forall q, query_file_path (f q) = query_file_path q) -> turning (mod_q p f).
Proof.
  intros Hid Hpath w u w' (q & w1 & Eb & E)%run_bind. unfold get_q in Eb. destruct (qheap w !! p) as [q0|] eqn:Ep; [|done].
  injection Eb as <- <-. injection E as _ <-. by eapply turn_block.
Qed.

Lemma turn_mod_w p n s : turning (mod_w p (on_wcb n s)).
Proof.
  intros w u w' (b & w1 & Eb & E)%run_bind. unfold get_w in Eb. destruct (wheap w !! p) as [b0|] eqn:Ep; [|done].
  injection Eb as <- <-. injection E as _ <-. apply turn_wheap. intros x y [[<- <-]|[_ H]]%lookup_insert_Some; eauto.
Qed.

Lemma turn_free_q p : turning (free_q p).
Proof. intros w u w' (b & w1 & Eb & [= _ <-])%run_bind. apply turn_get_q in Eb. etransitivity; [exact Eb|]. apply turn_free. Qed.
Lemma turn_free_w p : turning (free_w p).
Proof.
  intros w u w' (b & w1 & Eb & [= _ <-])%run_bind. apply turn_get_w in Eb. etransitivity; [exact Eb|]. apply turn_wheap.
  intros x y [_ H]%lookup_delete_Some. by exists y.
Qed.

Lemma turn_malloc_w b : 0 < w_socket_fd b -> turning (malloc_w b).
Proof.
  intros Hb w p w' [= _ <-]. apply turn_intro; [|done..]. intros [Ha Ho Hk]. split; [done|by split; apply Ho|].
  autorewrite with world. intros x y [[<- <-]|[_ H]]%lookup_insert_Some; [done|by eapply Hk].
Qed.

Lemma turn_send p s :
  le_bytes 1 (operation_code p) <> le_bytes 1 (master_op OP_WORKER_START_QUERY) -> turning (send_package p s).
Proof.
  intros Hop w r w' E. unfold send_package, package_send in E.
  assert (Hx : exists k, w' = on_outbox ((s, take k (serialized_package p)) :: outbox w) w).
  { destruct (s <? 0); injection E as _ <-; [by exists 0%nat|by eexists]. }
  destruct Hx as [k ->]. intros [Ha Ho Hk]. split; [split; [done|by split; apply Ho|done]|].
  exists [], []. rewrite started_send, start_id_other, !app_nil_r by done. repeat split; (done || constructor || lia).
Qed.

End Parts.

#[export] Hint Resolve turn_get_q turn_get_w turn_lock turn_unlock turn_find_q turn_find_w turn_close turn_mod_w turn_free_q turn_free_w : turns.

(** An update of the tables: what waits stays, or loses an element. *)
Ltac turn_update :=
  apply frames_modify; intros; apply turn_tables; try reflexivity;
  first [by cbn|cbn; rewrite drop_elem_spec; apply remove_first_sublist].

Ltac turn_step :=
  lazymatch goal with
  | |- frames _ (mbind _ _) => apply frames_bind; [exact _| |intros ?]
  | |- frames _ (mret _) => apply frames_ret; exact _
  | |- frames _ st_ub => apply frames_ub
  | |- frames _ (st_gets _) => apply frames_gets; exact _
  | |- frames _ (st_modify _) => turn_update
  | |- frames _ (mod_q _ _) => apply turn_mod_q; intros; reflexivity
  | |- frames _ (send_package _ _) => apply turn_send; other_op
  | |- frames _ (scan _ _) => apply frames_scan; [exact _|intros ?]
  | |- frames _ (if ?b then _ else _) => destruct b
  | |- frames _ (match package_add_data ?p ?v with _ => _ end) =>
      let H := fresh in pose proof (op_add_data p v) as H; destruct (package_add_data p v); cbn [snd] in H
  | |- frames _ (match package_add_string ?p ?v with _ => _ end) =>
      let H := fresh in pose proof (op_add_string p v) as H; destruct (package_add_string p v); cbn [snd] in H
  | |- frames _ (match ?x with _ => _ end) => destruct x
  end.
Ltac turns := repeat (solve [eauto with turns nocore] || turn_step).

Section Release.
Context `{CLS : CommonsListSpec} `{KN : Kernel}.

Abbreviation turning := (frames turn).

Lemma turn_finalize p r : turning (finalize_query_with_error p r).
Proof. unfold finalize_query_with_error. destruct r; turns. Qed.
Lemma turn_cleanup_query p : turning (cleanup_query_resources p).
Proof. unfold cleanup_query_resources. turns. Qed.
Lemma turn_cancel_ready p : turning (cancel_query_in_ready p).
Proof. unfold cancel_query_in_ready. apply frames_bind; [exact _|turns|intros; apply turn_finalize]. Qed.
Lemma turn_preempt p : turning (preempt_query_in_exec p).
Proof. pose proof turn_finalize. pose proof turn_cleanup_query. unfold preempt_query_in_exec. turns. Qed.
Lemma turn_query_gone fd : turning (handle_query_control_disconnection fd).
Proof.
  pose proof turn_finalize. pose proof turn_cleanup_query. pose proof turn_cancel_ready. pose proof turn_preempt.
  unfold handle_query_control_disconnection, find_query_by_socket. turns.
Qed.
Lemma turn_worker_gone fd : turning (handle_worker_disconnection fd).
Proof.
  pose proof turn_finalize. pose proof turn_cleanup_query.
  unfold handle_worker_disconnection, find_worker_by_socket, cleanup_worker_resources. turns.
Qed.
Lemma turn_query_handshake s : turning (manage_query_handshake s).
Proof. unfold manage_query_handshake. turns. Qed.

End Release.

#[export] Hint Resolve turn_finalize turn_cleanup_query turn_cancel_ready turn_preempt turn_query_gone turn_worker_gone
  turn_query_handshake : turns.

(** ** Dispatch *)

Section Dispatch.
Context `{CLS : CommonsListSpec} `{KN : Kernel}.
Hypothesis takes_all : forall ob fd block, send_returns ob fd block = Z.of_nat (length block).

Abbreviation turning := (frames turn).

Lemma send_query_taken x p b q w rc w' :
  wheap w !! x = Some b -> 0 < w_socket_fd b -> qheap w !! p = Some q -> valid_path q ->
  send_query_to_worker x p w = Some (rc, w') -> rc = 0 /\ w' = on_outbox ((w_socket_fd b, start_message q) :: outbox w) w.
Proof.
  intros Hb Hfd Hq Hv E. rewrite (send_query_fields x p b q) in E by done.
  destruct (start_fields_built q Hv) as (pk & Epk & Hwf & _). assert (Ekp := Epk). rewrite Epk in E.
  apply run_bind in E as (r & w1 & E & [= <- <-]). unfold send_package in E. rewrite package_send_whole in E by (done || lia).
  assert (Em : start_message q = serialized_package pk) by (unfold start_message; by rewrite Ekp).
  rewrite takes_all, Z.eqb_refl, <- Em in E. clear - E. revert E. generalize (start_message q). intros bytes [= <- <-].
  rewrite take_ge by lia. done.
Qed.

(** The first query leaves the queue and is started. *)
Lemma turn_assign q x qs xs w rc w' :
  ready_queue (queries w) = q :: qs ->
  assign_query_to_worker q x (on_workers (on_idle_list (fun _ => xs)) (on_queries (on_ready_queue (fun _ => qs)) w)) = Some (rc, w') ->
  turn w w'.
Proof.
  intros Er E [Ha [Hx Ho] Hk]. unfold assign_query_to_worker in E.
  apply run_bind in E as (qb & w2 & Eq & E). unfold get_q in Eq. autorewrite with world in Eq.
  destruct (qheap w !! q) as [q0|] eqn:Hq; [|done]. injection Eq as <- <-. destruct (Ho q q0 Hq) as [Hid Hv].
  apply run_bind in E as ([] & w2 & Eb & E). unfold mod_w in Eb. apply run_bind in Eb as (b & w3 & Eb & [= <-]).
  unfold get_w in Eb. autorewrite with world in Eb. destruct (wheap w !! x) as [b0|] eqn:Hb; [|done]. injection Eb as <- <-.
  apply run_bind in E as (b' & w2 & Eb & E). unfold get_w in Eb. autorewrite with world in Eb. rewrite lookup_insert_eq in Eb.
  injection Eb as <- <-. apply run_bind in E as ([] & w2 & Eq & E). unfold mod_q in Eq. apply run_bind in Eq as (q1 & w3 & Eq & [= <-]).
  unfold get_q in Eq. autorewrite with world in Eq. rewrite Hq in Eq. injection Eq as <- <-.
  do 2 (apply run_bind in E as ([] & ? & [= <-] & E)). apply run_bind in E as (r & w2 & E1 & E).
  change (send_query_to_worker x q (assigned_state q x qs xs q0 b0 w) = Some (r, w2)) in E1.
  destruct (send_query_taken x q (on_wcb (query_id q0) WORKER_STATE_BUSY b0) (running_qcb b0 q0) (assigned_state q x qs xs q0 b0 w) r w2)
    as [-> ->]; [apply lookup_insert_eq|exact (Hk _ _ Hb)|apply lookup_insert_eq|done|done|]. injection E as _ <-. clear E1.
  split.
  - split; [done| |].
    + split; [done|]. intros y z H. change (<[q := running_qcb b0 q0]> (qheap w) !! y = Some z) in H.
      apply lookup_insert_Some in H as [[<- <-]|[_ H]]; [by split|by eapply Ho].
    + intros y z H. change (<[x := on_wcb (query_id q0) WORKER_STATE_BUSY b0]> (wheap w) !! y = Some z) in H.
      apply lookup_insert_Some in H as [[<- <-]|[_ H]]; [exact (Hk _ _ Hb)|by eapply Hk].
  - exists [query_id q0], []. split.
    { etransitivity; [exact (started_send (w_socket_fd b0) (start_message (running_qcb b0 q0)) w)|]. by rewrite start_id_message. }
    split; [|repeat split; (constructor || lia || done)]. rewrite app_nil_r. apply reflexive_eq. unfold ready_ids at 2.
    rewrite Er. cbn. rewrite Hq. cbn. f_equal. exact (ready_ids_block (on_queries (on_ready_queue (fun _ => qs)) w) q q0 (running_qcb b0 q0) Hq eq_refl).
Qed.

Lemma turn_dispatch_locked : turning dispatch_locked.
Proof.
  intros w rc w' E. unfold dispatch_locked in E. do 2 apply run_bind in E as (? & ? & [= <- <-] & E).
  rewrite !list_is_empty_spec in E. case_bool_decide; [by injection E as _ <-|]. case_bool_decide; [by injection E as _ <-|].
  apply run_bind in E as (r & w1 & E1 & E). destruct r as [p|].
  { injection E as _ <-. revert E1. match goal with |- ?m w = _ -> _ => enough (H1 : turning m) by apply H1 end. turns. }
  assert (E2 : w1 = w).
  { revert E1. match goal with |- ?m w = _ -> _ => enough (H1 : frames eq m) by (intros H2; symmetry; by eapply H1) end.
    apply frames_scan; [exact _|]. intros y. apply frames_bind; [exact _| |intros; apply frames_ret; exact _].
    intros v z v'. unfold get_q. destruct (qheap v !! y); [|done]. by intros [= _ <-]. }
  subst w1. destruct (ready_queue (queries w)) as [|q qs] eqn:Er; [done|]. destruct (idle_list (workers w)) as [|x xs] eqn:Ei; [done|].
  rewrite !list_remove_spec in E. cbn [lookup list_lookup delete list_delete] in E.
  do 2 apply run_bind in E as ([] & ? & [= <-] & E). by eapply turn_assign.
Qed.

Lemma turn_dispatch : turning try_dispatch.
Proof. pose proof turn_dispatch_locked. unfold try_dispatch. turns. Qed.

(** ** The other handlers *)

Lemma turn_worker_handshake b s : 0 < s -> turning (manage_worker_handshake b s).
Proof.
  intros Hs. pose proof turn_dispatch. unfold manage_worker_handshake, create_worker.
  pose proof (fun id => turn_malloc_w (MkWcb id None (-1) s (-1) WORKER_STATE_IDLE) Hs). turns.
Qed.
Lemma turn_read_message b s : turning (manage_read_message_from_worker b s).
Proof.
  pose proof turn_dispatch. unfold manage_read_message_from_worker.
  destruct (buffer_read_uint32 _) as [v1 b1]. destruct (buffer_read_uint32 b1) as [qid b2]. destruct (buffer_read_data b2) as [data b3].
  destruct (buffer_read_string b3) as [file b4]. destruct (buffer_read_string b4) as [tag b5]. destruct qid, file as [f|], tag as [t|]; turns.
Qed.
Lemma turn_end_query b s : turning (manage_worker_end_query b s).
Proof. pose proof turn_dispatch. unfold manage_worker_end_query, end_query_locked, release_worker, notify_end. turns. Qed.
Lemma turn_storage_error p s : turning (handle_error_from_storage p s).
Proof. pose proof turn_dispatch. unfold handle_error_from_storage, storage_error_locked, find_worker_by_socket. turns. Qed.

Lemma turn_freed x b w w' : wheap w' !! x = Some b -> turn w w' -> turn w (freed_worker x b w').
Proof.
  intros Hb Ht. etransitivity; [exact Ht|].
  etransitivity; [apply (turn_wheap (fun k => <[x := on_wcb (-1) WORKER_STATE_IDLE b]> k))|].
  - intros y z [[<- <-]|[_ H]]%lookup_insert_Some; eauto.
  - unfold freed_worker. cbn zeta. by destruct (decide _); [apply turn_tables|].
Qed.

(** The query that an eviction gives back, when it does, is one that was canceled. *)
Definition gives_up (p : t_package) (w : world) : Prop :=
  forall qid x q, fst (package_read_uint32 p) = Some qid -> running_query_u qid w = Some x -> qheap w !! x = Some q ->
  q_state q = QUERY_STATE_CANCELED.

Lemma turn_evict fd p now w w' :
  master_wf w -> gives_up p w -> manage_worker_evict_response fd p now w = Some (tt, w') -> turn w w'.
Proof.
  intros Hwf Hc E. destruct (package_read_uint32 p) as [[qid|] p1] eqn:E1.
  2:{ unfold manage_worker_evict_response in E. rewrite E1 in E. by injection E as <-. }
  destruct (package_read_uint32 p1) as [[pc|] p2] eqn:E2.
  2:{ unfold manage_worker_evict_response in E. rewrite E1, E2 in E. by injection E as <-. }
  destruct (evict_response_splits fd p p1 p2 qid pc now w w' Hwf E1 E2 E) as (v & rc & Hv & _ & Ed).
  apply turn_dispatch in Ed. etransitivity; [|exact Ed].
  enough (Hk : turn w v) by (etransitivity; [exact Hk|by apply turn_same]).
  assert (Hl : turn w (both_locked w)) by by apply turn_same.
  destruct Hv as [_|x b y q Hx Hb Hy Hq Hs|x b y q Hx Hb Hy Hq Hs]; [done|..].
  - apply turn_freed; [done|]. etransitivity; [exact Hl|]. etransitivity; [|apply turn_free].
    apply turn_tables; try reflexivity. cbn. rewrite drop_elem_spec. apply remove_first_sublist.
  - destruct Hs. eapply Hc; [by rewrite E1|exact Hy|exact Hq].
Qed.

(** A new query goes to the end of the queue. *)
Lemma turn_create_query path prio fd now w x w' :
  (forall y, y ∈ ready_queue (queries w) -> is_Some (qheap w !! y)) -> next_query_id (queries w) + 1 < 2 ^ 31 ->
  valid_field (F_string path) ->
  create_query (next_query_id (queries w) + 1) path prio fd now (on_queries (on_next_query_id (fun _ => next_query_id (queries w) + 1)) w)
    = Some (x, w') -> turn w w'.
Proof.
  intros Hal Hid Hv E [Ha [Hx Ho] Hk]. unfold create_query in E. apply run_bind in E as ([] & w1 & E1 & E).
  unfold lock in E1. case_bool_decide; [done|]. injection E1 as <-.
  apply run_bind in E as (p & w1 & E1 & E). injection E1 as <- <-. apply run_bind in E as ([] & w1 & [= <-] & E).
  apply run_bind in E as (b & w1 & [= <- <-] & E). match type of E with context [is_priority ?v] => change (is_priority v) with (is_priority w) in E end.
  rewrite Ha in E. do 2 apply run_bind in E as ([] & ? & [= <-] & E). apply run_bind in E as ([] & w1 & E1 & [= _ <-]).
  unfold unlock in E1. case_bool_decide; [|done]. injection E1 as <-.
  pose proof (is_fresh (dom (qheap w))) as Hf.
  apply not_elem_of_dom in Hf. match goal with |- _ /\ in_turn _ ?v =>
    refine (turn_arrives w v (fresh (dom (qheap w))) (new_qcb (next_query_id (queries w) + 1) path prio fd now) eq_refl eq_refl eq_refl
      eq_refl eq_refl _ Hf Hal eq_refl Hid Hv _) end.
  - cbn. apply list_add_spec.
  - by split.
Qed.

(** A new query goes to the end of the queue. *)
Lemma turn_file_path p fd now w rc w' : master_wf w -> manage_query_file_path p fd now w = Some (rc, w') -> turn w w'.
Proof.
  intros Hwf E. unfold manage_query_file_path in E. destruct (package_read_string p) as [path p1] eqn:Ep.
  destruct (package_read_uint8 p1) as [prio p2]. apply run_bind in E as (id & w1 & E1 & E).
  unfold generate_query_id, mbind, st_bind, st_gets in E1. destruct (Z.ltb_spec (next_query_id (queries w) + 1) (2 ^ 31)) as [Hid|]; [|done].
  injection E1 as <- <-. apply run_bind in E as (r & w1 & E1 & E). 
  destruct path as [path|], prio as [prio|]; try done.
  apply run_bind in E as (x & w2 & E2 & E). apply run_bind in E as (r2 & w3 & E3 & [= _ <-]). apply turn_dispatch in E3.
  etransitivity; [|exact E3]. clear E3. apply read_string_valid in Ep. destruct Hwf as [Hq _ _].
  set (ob := outbox w1). assert (Ew : w1 = on_queries (on_next_query_id (fun _ => next_query_id (queries w) + 1)) (on_outbox ob w)).
  { unfold ob. revert E1. unfold send_package. destruct (package_send _ _ _). by intros [= _ <-]. }
  assert (Hs : turn w (on_outbox ob w)).
  { assert (E4 : send_package (package_create_empty (master_op QC_OP_MASTER_CONNECTION_OK)) fd w = Some (r, on_outbox ob w)).
    { revert E1. unfold ob, send_package. cbn [outbox on_queries on_master]. destruct (package_send _ _ _). by intros [= <- <-]. }
    revert E4. apply turn_send. other_op. }
  etransitivity; [exact Hs|]. rewrite Ew in E2. refine (turn_create_query path prio fd now (on_outbox ob w) x w2 _ Hid Ep E2).
  intros y Hy. eapply qwf_allocated; [exact Hq|]. by right; left.
Qed.

(** ** Runs *)

(** What happens to a Master without the thread that ages the queries: the
    evictions that workers answer are those of canceled queries, the only ones it
    asks for. *)
Definition fifo_event (e : event) (w : world) : Prop :=
  match e with
  | PackageArrived fd _ _ p => 0 < fd /\ (operation_code p = master_op OP_WORKER_EVICT_RES -> gives_up p w)
  | AgingRound _ => False
  | _ => True
  end.

Lemma serve_turn e w w' : master_wf w -> fifo_event e w -> serve e w = Some (tt, w') -> turn w w'.
Proof.
  intros Hwf He E. destruct e as [fd now c p|fd c|fd|now]; cbn [serve] in E; [|..|done].
  - destruct He as [Hfd He]. apply run_bind in E as (c' & w1 & E & [= <-]). unfold handle_package in E. cbn zeta in E.
    pose proof (turn_worker_handshake (buffer p) fd Hfd). pose proof turn_read_message. pose proof turn_end_query.
    pose proof turn_storage_error.
    destruct (Z.eqb_spec (operation_code p) (master_op OP_QUERY_FILE_PATH)) as [Hop|_].
    { rewrite Hop in E. apply run_bind in E as (r & w2 & E & [= _ <-]). by eapply turn_file_path. }
    destruct (Z.eqb_spec (operation_code p) (master_op OP_WORKER_EVICT_RES)) as [Hop|_].
    { rewrite Hop in E. apply run_bind in E as ([] & w2 & E & [= _ <-]). apply (turn_evict fd p now); auto. }
    revert E. match goal with |- ?m w = _ -> _ => enough (Hk : turning m) by apply Hk end. turns.
  - revert E. match goal with |- ?m w = _ -> _ => enough (Hk : turning m) by apply Hk end. unfold handle_gone. turns.
  - by apply (turn_close fd) in E.
Qed.

Inductive fifo_run (interval : Z) (algorithm : string) : world -> Prop :=
| fifo_init : fifo_run interval algorithm (init_master interval algorithm)
| fifo_next e w w' :
    fifo_run interval algorithm w -> valid_event e w -> fifo_event e w -> serve e w = Some (tt, w') -> fifo_run interval algorithm w'.

(** The queries started and those that wait, in this order, are in the order of
    their identifiers, which are given out as they come. *)
Definition in_order (w : world) : Prop :=
  StronglySorted Z.lt (started w ++ ready_ids w) /\ Forall (fun i => i <= next_query_id (queries w)) (started w ++ ready_ids w).

Lemma sublist_forall {A} (P : A -> Prop) l k : sublist l k -> Forall P k -> Forall P l.
Proof. rewrite !Forall_forall. intros Hs H y Hy. apply H. by eapply elem_of_sublist. Qed.

Lemma turn_in_order w w' : in_turn w w' -> in_order w -> in_order w'.
Proof.
  intros (new & fresh & Es & Hs & Hf & Hb & Hn) [Ho Hle]. unfold in_order. rewrite Es, <- app_assoc.
  assert (Hsub : sublist (started w ++ new ++ ready_ids w') ((started w ++ ready_ids w) ++ fresh)).
  { rewrite <- app_assoc. by apply sublist_app. }
  split.
  - eapply sorted_sublist; [exact Hsub|]. apply StronglySorted_app. split; [|by split]. intros a b Ha Hc.
    eapply Forall_forall in Ha; [|exact Hle]. eapply Forall_forall in Hc; [|exact Hb]. cbn in Ha, Hc. lia.
  - eapply sublist_forall; [exact Hsub|]. apply Forall_app. split; (eapply Forall_impl; [eassumption|]); cbn; lia.
Qed.

Lemma fifo_run_reachable interval algorithm w : fifo_run interval algorithm w -> reachable interval algorithm w.
Proof. induction 1; [constructor|by eapply reach_event]. Qed.

Lemma fifo_run_order interval algorithm w : String.eqb algorithm "PRIORITY" = false -> fifo_run interval algorithm w -> fifo w /\ in_order w.
Proof.
  intros Ha. induction 1 as [|e w w' Hr [Hf Ho] Hv He E].
  - split; [|split; constructor]. split; [done| |intros x b; cbn; by rewrite lookup_empty]. split; [done|].
    intros p q. cbn. by rewrite lookup_empty.
  - apply serve_turn in E; [|by eapply reachable_wf, fifo_run_reachable|done]. destruct (E Hf) as [Hf' Ht].
    split; [done|]. by eapply turn_in_order.
Qed.

End Dispatch.

(** ** The theorem *)


Section Sample.
Local Existing Instance kernel_ok.

Lemma fifo_after e w :
  fifo_run 1000 "FIFO" w -> valid_event e w -> fifo_event e w -> some (serve e w) = true -> fifo_run 1000 "FIFO" (after e w).
Proof.
  intros Hr He Hf. unfold after. destruct (serve e w) as [[[] w1]|] eqn:Es; [|done]. intros _.
  eapply fifo_next; [exact Hr|exact He|exact Hf|exact Es].
Qed.

(** Two queries come, the second one with a better priority; then a worker. *)
Definition fifo_waiting : world := after (sample_query_event 10 2 20) (after (sample_query_event 9 5 10) (init_master 1000 "FIFO")).
Definition fifo_started : world := after (sample_query_event 11 4 30) (after sample_worker_event fifo_waiting).

Lemma fifo_query fd prio now w :
  fifo_run 1000 "FIFO" w -> next_query_id (queries w) + 1 < 2 ^ 31 -> prio = 5 \/ prio = 4 \/ prio = 2 -> 0 < fd ->
  some (serve (sample_query_event fd prio now) w) = true -> fifo_run 1000 "FIFO" (after (sample_query_event fd prio now) w).
Proof.
  intros Hr Hn Hp Hfd. apply fifo_after; [exact Hr|by apply sample_query_valid|]. split; [exact Hfd|].
  intros E. exfalso. destruct Hp as [->|[->| ->]]; vm_compute in E; discriminate.
Qed.

Lemma fifo_started_run : fifo_run 1000 "FIFO" fifo_started.
Proof.
  assert (H1 : fifo_run 1000 "FIFO" fifo_waiting).
  { unfold fifo_waiting. apply fifo_query; [apply fifo_query; [apply fifo_init|..]|..]; solve [auto|lia|vm_compute; reflexivity]. }
  unfold fifo_started. apply fifo_query; [|vm_compute; reflexivity|auto|lia|vm_compute; reflexivity].
  apply fifo_after; [exact H1| | |vm_compute; reflexivity].
  - unfold valid_event, sample_worker_event. package_ok. apply id_field. vm_compute. reflexivity.
  - split; [lia|]. intros E. exfalso. vm_compute in E. discriminate.
Qed.


End Sample.

(** A socket that does not take the messages that start queries, until [n] messages
    were sent. *)
Definition kernel_late (n : nat) : Kernel := fun ob _ block =>
  match start_id block with
  | Some _ => if (length ob <? n)%nat then -1 else Z.of_nat (length block)
  | None => Z.of_nat (length block)
  end.

Section Refused.
Local Instance kernel_refuses : Kernel := kernel_late 5.

Definition serve_next (w : world) (e : event) : world := match serve e w with Some (_, w') => w' | None => w end.
Definition refused_once : world :=
  fold_left serve_next [sample_worker_event; sample_query_event 9 5 10; sample_query_event 10 5 20] (init_master 1000 "FIFO").
Definition refused_twice : world := serve_next refused_once (sample_query_event 11 5 30).

(** A query whose message the socket of the worker does not take goes to the back
    of the queue: the query that came after it is started first. *)
Lemma refused_goes_last : ready_ids refused_once = [1; 0] /\ started refused_twice = [1] /\ ready_ids refused_twice = [0; 2].
Proof. by vm_compute. Qed.

End Refused.
