(* ===== verification/MasterServerSpec.v ===== *)
(** * The Master serves many clients at once

    What the runs of the server do to the tables, to the descriptors and to the
    workers that are registered. *)

From S2P Require Import Prelude Commons Serialization Protocol MasterState MasterInvariant MasterMain.
From S2P Require Import Scheduler SchedulerSpec Cleanup Aging CleanupSpec AgingSpec Disconnection WorkerManager HandlersSpec.
From S2P Require Import MasterServer MasterFrames.

Section Server.
Context `{CLS : CommonsListSpec} `{KN : Kernel}.

(** ** One step *)

(** What serving the client of [fd] does to the open descriptors. *)
Definition shrinks (fd : Z) (o o' : gset Z) : Prop := o' = o \/ o' = o ∖ {[fd]}.

Lemma list_to_set_replicate k (fd : Z) : k <> 0%nat -> list_to_set (C := gset Z) (replicate k fd) = {[fd]}.
Proof. intros Hk. destruct k as [|k]; [done|]. clear Hk. induction k as [|k IH]; [set_solver|]. cbn in *. set_solver. Qed.

Lemma in_world_run {A} (m : M A) a sv sv' :
  in_world m sv = Some (a, sv') ->
  m (sv_world sv) = Some (a, sv_world sv') /\ sv_threads sv' = sv_threads sv /\
  forall fd, closes fd (sv_world sv) (sv_world sv') -> shrinks fd (sv_open sv) (sv_open sv').
Proof.
  unfold in_world. destruct (m (sv_world sv)) as [[b w]|] eqn:E; [|done]. intros [= <- <-]. cbn.
  split; [done|]. split; [done|]. intros fd [k Ek]. unfold newly_closed. rewrite Ek, length_app, length_replicate, Nat.add_sub.
  rewrite take_app_length' by (by rewrite length_replicate).
  destruct k; [left; set_solver|right]. f_equal. by apply list_to_set_replicate.
Qed.

Lemma closes_quiet {A} fd (m : M A) : frames (quiet fd) m -> frames (closes fd) m.
Proof. apply frames_impl. by intros ? ? []. Qed.

Lemma closes_package fd now c p : frames (closes fd) (handle_package fd now c p).
Proof.
  unfold handle_package. cbn zeta.
  repeat match goal with |- context [?a =? ?b] => destruct (a =? b); [apply frames_bind; [exact _| |intros; apply frames_ret; exact _]|] end;
    lazymatch goal with
    | |- frames _ (manage_worker_handshake _ _) => apply closes_handshake
    | |- frames _ (handle_worker_disconnection _) => apply closes_worker_gone
    | |- frames _ (mret _) => apply frames_ret; exact _
    | _ => apply closes_quiet; eauto with quiet nocore
    end.
Qed.

Lemma closes_gone fd c : frames (closes fd) (handle_gone fd c).
Proof.
  unfold handle_gone. destruct (is_query_control c); [|destruct (is_worker c)].
  - apply frames_bind; [exact _| |intros; apply frames_ret; exact _]. apply closes_quiet. eauto with quiet nocore.
  - apply frames_bind; [exact _|apply closes_worker_gone|intros; apply frames_ret; exact _].
  - apply closes_quiet. eauto with quiet nocore.
Qed.

(** The step of an event that is possible. *)
Inductive moves (sv : server) : server_event -> server -> Prop :=
| moves_refused fd r : fd < 0 -> moves sv (Accepted fd r) sv
| moves_dropped fd :
    0 <= fd -> fd ∉ sv_open sv -> moves sv (Accepted fd false) (on_open (fun o => ({[fd]} ∪ o) ∖ {[fd]}) sv)
| moves_accepted fd :
    0 <= fd -> fd ∉ sv_open sv ->
    moves sv (Accepted fd true)
      (on_threads (fun l => l ++ [MkThread fd (MkClient false false) false]) (on_open (fun o => {[fd]} ∪ o) sv))
| moves_package i t now p c w o :
    sv_threads sv !! i = Some t -> leaving t = false -> client_socket t ∈ sv_open sv ->
    well_formed_package (client_socket t) p (sv_world sv) ->
    handle_package (client_socket t) now (t_client t) p (sv_world sv) = Some (c, w) ->
    (forall fd, closes fd (sv_world sv) w -> shrinks fd (sv_open sv) o) ->
    moves sv (Received i now p) (MkServer w o (<[i := MkThread (client_socket t) c false]> (sv_threads sv)))
| moves_last i t w o :
    sv_threads sv !! i = Some t -> leaving t = false ->
    handle_gone (client_socket t) (t_client t) (sv_world sv) = Some (tt, w) ->
    shrinks (client_socket t) (sv_open sv) o ->
    moves sv (Hung_up i) (MkServer w o (<[i := MkThread (client_socket t) (t_client t) true]> (sv_threads sv)))
| moves_left i t w :
    sv_threads sv !! i = Some t -> leaving t = true -> close_fd (client_socket t) (sv_world sv) = Some (tt, w) ->
    moves sv (Left i) (MkServer w (sv_open sv ∖ {[client_socket t]}) (delete i (sv_threads sv)))
| moves_aged now w :
    aging_round now (sv_world sv) = Some (tt, w) -> moves sv (Aged now) (MkServer w (sv_open sv) (sv_threads sv)).

Lemma server_ext sv w o l : sv_world sv = w -> sv_open sv = o -> sv_threads sv = l -> sv = MkServer w o l.
Proof. destruct sv. by intros <- <- <-. Qed.

Lemma server_step_moves e sv sv' : possible e sv -> server_step e sv = Some (tt, sv') -> moves sv e sv'.
Proof.
  destruct e as [fd r|i now p|i|i|now]; cbn [possible server_step].
  - intros Hp. unfold accept_client. destruct (Z.ltb_spec fd 0) as [H|H]; [intros [= <-]; by apply moves_refused|].
    destruct r; intros E; apply run_bind in E as ([] & sv1 & [= <-] & [= <-]); [by apply moves_accepted|].
    apply (moves_dropped sv fd H Hp).
  - intros (t & Ht & Hl & Ho & Hwf) (l & sv1 & [= <- <-] & E)%run_bind. rewrite Ht in E. unfold receive_round in E.
    apply run_bind in E as (c & sv2 & E & [= <-]). apply in_world_run in E as (Ew & Et & Eo).
    unfold on_threads. rewrite Et. by apply (moves_package sv i t now p c).
  - intros (t & Ht & Hl) (l & sv1 & [= <- <-] & E)%run_bind. rewrite Ht in E. unfold last_round in E.
    apply run_bind in E as ([] & sv2 & E & [= <-]). apply in_world_run in E as (Ew & Et & Eo).
    unfold on_threads. rewrite Et. apply (moves_last sv i t); [done|done|done|]. by eapply Eo, closes_gone.
  - intros (t & Ht & Hl) (l & sv1 & [= <- <-] & E)%run_bind. rewrite Ht in E. unfold leave in E.
    apply run_bind in E as ([] & sv2 & E & [= <-]). unfold in_world in E. cbn [close_fd] in E. injection E as <-.
    set (w := on_closed (client_socket t :: closed_fds (sv_world sv)) (sv_world sv)).
    assert (Hn : newly_closed (sv_world sv) w = [client_socket t])
      by (unfold newly_closed, w; cbn [closed_fds on_closed length]; by rewrite Nat.sub_succ_l, Nat.sub_diag by done).
    unfold on_threads. cbn [sv_world sv_open sv_threads]. rewrite Hn.
    replace (list_to_set [client_socket t]) with ({[client_socket t]} : gset Z) by set_solver. by apply (moves_left sv i t).
  - intros _ E. destruct (exist_fresh (sv_open sv)) as [fd Hf].
    pose proof (in_world_run _ _ _ _ E) as (Ew & Et & Eo). specialize (Eo fd (closes_quiet fd _ (calm_aging_round fd now) _ _ _ Ew)).
    rewrite (server_ext sv' (sv_world sv') (sv_open sv) (sv_threads sv)); [by apply moves_aged|done| |done].
    destruct Eo as [->| ->]; [done|set_solver].
Qed.

(** ** The tables *)

Lemma world_moves interval algorithm e sv sv' :
  reachable interval algorithm (sv_world sv) -> moves sv e sv' -> reachable interval algorithm (sv_world sv').
Proof.
  intros Hr Hm. destruct Hm as [| | |i t now p c w o _ _ _ Hp E _|i t w o _ _ E _|i t w _ _ E|now w E]; try exact Hr; cbn [sv_world].
  - eapply (reach_event _ _ (PackageArrived (client_socket t) now (t_client t) p)); [exact Hr|exact Hp|].
    cbn [serve]. unfold mbind, st_bind. by rewrite E.
  - by eapply (reach_event _ _ (ConnectionClosed (client_socket t) (t_client t))).
  - by eapply (reach_event _ _ (SocketClosed (client_socket t))).
  - by eapply (reach_event _ _ (AgingRound now)).
Qed.

Lemma server_run_reachable interval algorithm listener ok sv :
  server_run ok (init_server interval algorithm listener) sv -> reachable interval algorithm (sv_world sv).
Proof.
  induction 1 as [|e sv1 sv2 Hr IH Hp _ E]; [apply reach_init|]. eapply world_moves; [exact IH|by apply server_step_moves].
Qed.

Lemma in_world_total {A} (m : M A) (Q : A -> world -> Prop) sv : wp m Q (sv_world sv) -> exists a sv', in_world m sv = Some (a, sv').
Proof. intros (a & w & E & _)%wp_run. unfold in_world. rewrite E. eauto. Qed.

Lemma step_total interval algorithm e sv :
  reachable interval algorithm (sv_world sv) -> possible e sv -> exists sv', server_step e sv = Some (tt, sv').
Proof.
  intros Hr%reachable_wf. destruct e as [fd r|i now p|i|i|now]; cbn [possible server_step].
  - intros _. unfold accept_client. destruct (fd <? 0), r; cbn; eauto.
  - intros (t & Ht & _ & _ & Hp). unfold with_thread, mbind at 1, st_bind at 1. cbn [st_gets]. rewrite Ht.
    edestruct (in_world_total _ _ sv (handle_package_run (client_socket t) now (t_client t) p _ Hr Hp)) as (c & sv1 & E).
    unfold receive_round, mbind, st_bind. rewrite E. cbn. eauto.
  - intros (t & Ht & _). unfold with_thread, mbind at 1, st_bind at 1. cbn [st_gets]. rewrite Ht.
    edestruct (in_world_total _ _ sv (handle_gone_run (client_socket t) (t_client t) _ Hr)) as ([] & sv1 & E).
    unfold last_round, mbind, st_bind. rewrite E. cbn. eauto.
  - intros (t & Ht & _). unfold with_thread, mbind at 1, st_bind at 1. cbn [st_gets]. rewrite Ht. cbn. eauto.
  - intros _. edestruct (in_world_total _ _ sv (aging_round_wf now _ Hr)) as ([] & sv1 & E). eauto.
Qed.


(** ** The descriptors *)

(** The kernel does not give the number of a descriptor that a thread still means
    to close, and no peer announces that it goes, as none of the repository does. *)
Definition orderly (e : server_event) (sv : server) : Prop :=
  match e with
  | Accepted fd _ => forall t, t ∈ sv_threads sv -> client_socket t <> fd
  | Received _ _ p => operation_code p <> master_op QC_OP_DISCONNECTION /\ operation_code p <> master_op WORKER_OP_DISCONNECTION
  | _ => True
  end.

Record accounted (listener : Z) (sv : server) : Prop := {
  ac_listener : listener ∈ sv_open sv;
  ac_served fd : fd ∈ sv_open sv -> fd = listener \/ exists t, t ∈ sv_threads sv /\ client_socket t = fd;
  ac_apart t : t ∈ sv_threads sv -> client_socket t <> listener
}.

Lemma shrinks_sub fd o o' x : shrinks fd o o' -> x ∈ o' -> x ∈ o.
Proof. intros [->| ->]; set_solver. Qed.
Lemma shrinks_other fd o o' x : shrinks fd o o' -> x <> fd -> x ∈ o -> x ∈ o'.
Proof. intros [->| ->]; set_solver. Qed.

(** A thread of the list, after one of them has changed but for its socket. *)
Lemma elem_of_replaced (l : list thread) i t t' x :
  l !! i = Some t -> client_socket t' = client_socket t -> x ∈ <[i := t']> l ->
  exists y, y ∈ l /\ client_socket x = client_socket y.
Proof.
  intros Hi Hs [j Hj]%list_elem_of_lookup_1. destruct (decide (j = i)) as [->|Hne].
  - rewrite list_lookup_insert_eq in Hj by (by apply lookup_lt_Some in Hi). injection Hj as <-.
    exists t. split; [by eapply list_elem_of_lookup_2|done].
  - rewrite list_lookup_insert_ne in Hj by done. exists x. split; [by eapply list_elem_of_lookup_2|done].
Qed.

Lemma replaced_elem_of (l : list thread) i t t' y :
  l !! i = Some t -> client_socket t' = client_socket t -> y ∈ l ->
  exists x, x ∈ <[i := t']> l /\ client_socket x = client_socket y.
Proof.
  intros Hi Hs [j Hj]%list_elem_of_lookup_1. destruct (decide (j = i)) as [->|Hne].
  - exists t'. split; [|congruence]. apply (list_elem_of_lookup_2 _ i), list_lookup_insert_eq. by apply lookup_lt_Some in Hi.
  - exists y. split; [|done]. apply (list_elem_of_lookup_2 _ j). by rewrite list_lookup_insert_ne.
Qed.

Lemma accounted_replaced listener sv i t t' w o :
  accounted listener sv -> sv_threads sv !! i = Some t -> client_socket t' = client_socket t ->
  shrinks (client_socket t) (sv_open sv) o -> accounted listener (MkServer w o (<[i := t']> (sv_threads sv))).
Proof.
  intros [Hl Hs Ha] Hi Et Ho. assert (Hin : t ∈ sv_threads sv) by by eapply list_elem_of_lookup_2. split; cbn [sv_open sv_threads].
  - eapply shrinks_other; [exact Ho| |done]. intros E. by apply (Ha t).
  - intros fd Hfd. destruct (Hs fd) as [->|(y & Hy & <-)]; [by eapply shrinks_sub|by left|right]. by eapply replaced_elem_of.
  - intros x Hx. destruct (elem_of_replaced _ _ _ _ _ Hi Et Hx) as (y & Hy & ->). by apply Ha.
Qed.

Lemma elem_of_deleted (l : list thread) i t x : l !! i = Some t -> x ∈ l -> x = t \/ x ∈ delete i l.
Proof.
  intros Hi Hx. rewrite <- (take_drop_middle l i t Hi) in Hx. rewrite delete_take_drop.
  rewrite !elem_of_app, elem_of_cons in *. naive_solver.
Qed.

Lemma accounted_moves listener e sv sv' : accounted listener sv -> moves sv e sv' -> accounted listener sv'.
Proof.
  intros Hac Hm. pose proof Hac as [Hl Hs Ha].
  destruct Hm as [|fd _ Hfd|fd _ Hfd|i t now p c w o Hi _ _ _ E Ho|i t w o Hi _ _ Ho|i t w Hi _ _|].
  - done.
  - unfold on_open. split; cbn [sv_open sv_threads]; [set_solver| |done]. intros x Hx. apply Hs. set_solver.
  - unfold on_threads, on_open. split; cbn [sv_open sv_threads].
    + set_solver.
    + intros x [->%elem_of_singleton|Hx]%elem_of_union; [right|].
      * eexists. split; [apply elem_of_app; right; by apply list_elem_of_singleton|done].
      * destruct (Hs x Hx) as [->|(t & Ht & <-)]; [by left|right]. exists t. split; [|done]. apply elem_of_app. by left.
    + intros t [Ht| ->%list_elem_of_singleton]%elem_of_app; [by apply Ha|]. cbn. by intros ->.
  - apply (accounted_replaced listener sv i t); [done|done|done|]. by eapply Ho, closes_package.
  - by apply (accounted_replaced listener sv i t).
  - assert (Hin : t ∈ sv_threads sv) by by eapply list_elem_of_lookup_2. split; cbn [sv_open sv_threads].
    + apply elem_of_difference. split; [done|]. intros E%elem_of_singleton. by apply (Ha t).
    + intros x [Hx Hne]%elem_of_difference. destruct (Hs x Hx) as [->|(y & Hy & <-)]; [by left|right].
      exists y. split; [|done]. destruct (elem_of_deleted _ _ _ _ Hi Hy) as [->|]; [set_solver|done].
    + intros x Hx%list_elem_of_delete_inv. by apply Ha.
  - by split.
Qed.

(** *** When the kernel leaves their numbers to the threads *)

Record own_sockets (sv : server) : Prop := {
  own_apart : NoDup (map client_socket (sv_threads sv));
  own_open t : t ∈ sv_threads sv -> leaving t = false -> client_socket t ∈ sv_open sv
}.

Lemma map_socket_replaced (l : list thread) i t t' :
  l !! i = Some t -> client_socket t' = client_socket t -> map client_socket (<[i := t']> l) = map client_socket l.
Proof.
  intros Hi Hs. apply list_eq. intros j. rewrite !list_lookup_fmap. destruct (decide (j = i)) as [->|Hne].
  - rewrite list_lookup_insert_eq by (by apply lookup_lt_Some in Hi). rewrite Hi. cbn. by rewrite Hs.
  - by rewrite list_lookup_insert_ne.
Qed.

(** Another thread than the [i]-th has another socket. *)
Lemma own_other sv i t x j :
  own_sockets sv -> sv_threads sv !! i = Some t -> sv_threads sv !! j = Some x -> j <> i -> client_socket x <> client_socket t.
Proof.
  intros [Hnd _] Hi Hj Hne E. apply Hne. eapply (NoDup_lookup _ _ _ (client_socket t) Hnd).
  - by rewrite list_lookup_fmap, Hj, <- E.
  - by rewrite list_lookup_fmap, Hi.
Qed.

(** Without an announcement nothing is closed by a package. *)
Lemma quiet_package fd fd' now c p c' w w' :
  operation_code p <> master_op QC_OP_DISCONNECTION -> operation_code p <> master_op WORKER_OP_DISCONNECTION ->
  handle_package fd now c p w = Some (c', w') -> closes fd' w w'.
Proof.
  intros H1 H2. enough (H : frames (closes fd') (handle_package fd now c p)) by apply H.
  unfold handle_package. cbn zeta. apply Z.eqb_neq in H1, H2. rewrite H1, H2.
  repeat match goal with |- context [?a =? ?b] => destruct (a =? b); [apply frames_bind; [exact _| |intros; apply frames_ret; exact _]|] end;
    lazymatch goal with
    | |- frames _ (manage_worker_handshake _ _) => apply closes_handshake
    | |- frames _ (mret _) => apply frames_ret; exact _
    | _ => apply closes_quiet; eauto with quiet nocore
    end.
Qed.


Lemma own_sockets_replaced sv i t t' w o :
  own_sockets sv -> sv_threads sv !! i = Some t -> client_socket t' = client_socket t ->
  shrinks (client_socket t) (sv_open sv) o -> (leaving t' = false -> client_socket t ∈ o) ->
  own_sockets (MkServer w o (<[i := t']> (sv_threads sv))).
Proof.
  intros Hown Hi Et Ho Hopen. pose proof Hown as [Hnd Hop]. split; cbn [sv_open sv_threads].
  - by erewrite map_socket_replaced.
  - intros x [j Hj]%list_elem_of_lookup_1 Hl. destruct (decide (j = i)) as [->|Hne].
    + rewrite list_lookup_insert_eq in Hj by (by apply lookup_lt_Some in Hi). injection Hj as <-. rewrite Et. auto.
    + rewrite list_lookup_insert_ne in Hj by done. eapply shrinks_other; [exact Ho|by eapply own_other|].
      apply Hop; [by eapply list_elem_of_lookup_2|done].
Qed.

Lemma own_sockets_moves e sv sv' : own_sockets sv -> orderly e sv -> moves sv e sv' -> own_sockets sv'.
Proof.
  intros Hown Hok Hm. pose proof Hown as [Hnd Hop].
  destruct Hm as [|fd _ Hfd|fd _ Hfd|i t now p c w o Hi Hl Hin _ E Ho|i t w o Hi _ _ Ho|i t w Hi _ _|]; cbn [orderly] in Hok.
  - done.
  - unfold on_open. split; cbn [sv_open sv_threads]; [done|]. intros t Ht Hl. specialize (Hop t Ht Hl). set_solver.
  - unfold on_threads, on_open. split; cbn [sv_open sv_threads].
    + rewrite map_app. apply NoDup_app. split; [done|]. split; [|by apply NoDup_singleton].
      intros x (t & -> & Ht)%list_elem_of_fmap Ex%list_elem_of_singleton. by apply (Hok t).
    + intros t [Ht| ->%list_elem_of_singleton]%elem_of_app Hl; [specialize (Hop t Ht Hl); set_solver|set_solver].
  - assert (E' : o = sv_open sv).
    { destruct (exist_fresh (sv_open sv)) as [fd Hf]. destruct Hok as [H1 H2].
      destruct (Ho fd) as [->| ->]; [by eapply quiet_package|done|set_solver]. }
    subst o. eapply own_sockets_replaced; [done|done|done|by left|done].
  - by eapply own_sockets_replaced.
  - split; cbn [sv_open sv_threads].
    + assert (Es : map client_socket (delete i (sv_threads sv)) = delete i (map client_socket (sv_threads sv))) by apply list_fmap_delete.
      rewrite Es. eapply sublist_NoDup; [exact Hnd|apply sublist_delete].
    + intros x Hx Hl. assert (Hx' := Hx). apply list_elem_of_delete_inv in Hx'. apply elem_of_difference. split; [by apply Hop|].
      intros Ex%elem_of_singleton. rewrite delete_take_drop in Hx. rewrite <- (take_drop_middle _ i t Hi), map_app, map_cons in Hnd.
      apply NoDup_app in Hnd as (_ & Hd & [Hd2 _]%NoDup_cons). rewrite <- Ex in Hd, Hd2.
      apply elem_of_app in Hx as [Hx|Hx].
      * eapply Hd; [by apply list_elem_of_fmap_2|]. by left.
      * by apply Hd2, list_elem_of_fmap_2.
  - done.
Qed.

(** C19: The descriptors of the Master.  The socket it listens on stays open, no
    descriptor stays open without a thread that will close it, and no thread ever
    touches the listening one.  When the kernel never gives a new connection the
    number of one whose thread has not ended, no two threads share a socket and
    each has its own open until its connection is over.  (handle_client closes its
    socket again after the handler of the disconnection has closed it, so without
    that it may close the socket of another client: [socket_stolen].) *)
Theorem descriptors_accounted interval algorithm listener sv :
  (server_run anything (init_server interval algorithm listener) sv -> accounted listener sv) /\
  (server_run orderly (init_server interval algorithm listener) sv -> own_sockets sv).
Proof.
  split; induction 1 as [|e sv1 sv2 Hr IH Hp Hok E].
  - split; cbn; [set_solver|set_solver|by intros t ?%not_elem_of_nil].
  - eapply accounted_moves; [exact IH|by apply server_step_moves].
  - split; cbn; [apply NoDup_nil_2|by intros t ?%not_elem_of_nil].
  - eapply own_sockets_moves; [exact IH|exact Hok|by apply server_step_moves].
Qed.

(** ** The workers *)

(** How many blocks have the socket [fd], and how many threads would notice that a
    worker on [fd] goes away. *)
Definition registered (fd : Z) (m : gmap ptr Z) : nat := base.size (filter (fun kv => kv.2 = fd) m).
Definition serves (fd : Z) (t : thread) : nat :=
  if (client_socket t =? fd) && is_worker (t_client t) && negb (leaving t) then 1 else 0.
Definition serving (fd : Z) (l : list thread) : nat := sum_list_with (serves fd) l.

Lemma registered_insert fd fd' m x :
  m !! x = None -> registered fd' (<[x := fd]> m) = ((if decide (fd = fd') then 1 else 0) + registered fd' m)%nat.
Proof.
  intros Hx. unfold registered. destruct (decide (fd = fd')) as [->|Hne].
  - rewrite map_filter_insert_True by done. by rewrite map_size_insert_None by (rewrite map_lookup_filter_None; by left).
  - rewrite map_filter_insert_False by done. by rewrite delete_id.
Qed.

Lemma registered_delete fd fd' m x :
  m !! x = Some fd -> registered fd' m = ((if decide (fd = fd') then 1 else 0) + registered fd' (delete x m))%nat.
Proof.
  intros Hx. rewrite <- (insert_delete_id m x fd Hx) at 1. by rewrite registered_insert by apply lookup_delete_eq.
Qed.

Lemma registered_none fd m : (forall x, m !! x <> Some fd) -> registered fd m = 0%nat.
Proof.
  intros Hno. unfold registered. apply map_size_empty_iff, map_empty. intros x. apply map_lookup_filter_None. right.
  intros v Hv E. cbn in E. subst v. by apply (Hno x).
Qed.

Lemma serving_replaced fd l i t t' :
  l !! i = Some t -> (serving fd (<[i := t']> l) + serves fd t = serving fd l + serves fd t')%nat.
Proof.
  intros Hi. rewrite insert_take_drop by (by apply lookup_lt_Some in Hi). unfold serving.
  rewrite <- (take_drop_middle l i t Hi) at 3. rewrite !sum_list_with_app. cbn. lia.
Qed.

Lemma serving_deleted fd l i t :
  l !! i = Some t -> (serving fd (delete i l) + serves fd t = serving fd l)%nat.
Proof.
  intros Hi. rewrite delete_take_drop. unfold serving. rewrite <- (take_drop_middle l i t Hi) at 3.
  rewrite !sum_list_with_app. cbn. lia.
Qed.

(** What a peer of the repository does: a worker introduces itself once, its
    socket takes the answer, and a Query Control is no worker. *)
Definition introduced (e : server_event) (sv : server) : Prop :=
  match e with
  | Received i _ p => forall t, sv_threads sv !! i = Some t ->
      (operation_code p = master_op OP_WORKER_HANDSHAKE_REQ ->
         t_client t = MkClient false false /\ acknowledged (client_socket t) p) /\
      (operation_code p = master_op OP_QUERY_HANDSHAKE -> is_worker (t_client t) = false)
  | _ => True
  end.

Record remembered (sv : server) : Prop := {
  rm_served fd : (registered fd (sockets (sv_world sv)) <= serving fd (sv_threads sv))%nat;
  rm_one_kind t : t ∈ sv_threads sv -> is_query_control (t_client t) = true -> is_worker (t_client t) = false
}.

Lemma one_kind_replaced (l : list thread) i t' x :
  (forall t, t ∈ l -> is_query_control (t_client t) = true -> is_worker (t_client t) = false) ->
  (is_query_control (t_client t') = true -> is_worker (t_client t') = false) ->
  x ∈ <[i := t']> l -> is_query_control (t_client x) = true -> is_worker (t_client x) = false.
Proof.
  intros Hl Ht' [j Hj]%list_elem_of_lookup_1. apply list_lookup_insert_Some in Hj as [(_ & -> & _)|[_ Hj]]; [done|].
  apply Hl. by eapply list_elem_of_lookup_2.
Qed.

(** What a package does to the blocks of the workers and to the flags. *)
Lemma package_sockets fd now c p c' w w' :
  master_wf w -> (operation_code p = master_op OP_WORKER_HANDSHAKE_REQ -> acknowledged fd p) ->
  handle_package fd now c p w = Some (c', w') ->
  (operation_code p = master_op OP_WORKER_HANDSHAKE_REQ /\ c' = MkClient (is_query_control c) true /\
     exists x, sockets w !! x = None /\ sockets w' = <[x := fd]> (sockets w)) \/
  (operation_code p = master_op OP_QUERY_HANDSHAKE /\ c' = MkClient true (is_worker c) /\ sockets w' = sockets w) \/
  (c' = c /\ forall fd', (registered fd' (sockets w') <= registered fd' (sockets w))%nat).
Proof.
  intros Hwf Hack. unfold handle_package. cbn zeta.
  assert (Hcalm : forall A (m : M A), (forall fd', frames (quiet fd') m) -> (_ ← m; mret c) w = Some (c', w') -> 
            c' = c /\ forall fd', (registered fd' (sockets w') <= registered fd' (sockets w))%nat).
  { intros A m Hm (rc & w1 & E & [= <- <-])%run_bind. split; [done|]. apply (Hm fd) in E as [_ E]. intros fd'. by rewrite E. }
  destruct (Z.eqb_spec (operation_code p) (master_op OP_QUERY_HANDSHAKE)) as [Eop|_].
  { intros (rc & w1 & E & [= <- <-])%run_bind. apply (calm_query_handshake fd) in E as [_ E].
    destruct (rc =? 0); [right; left; done|right; right]. split; [done|]. intros fd'. by rewrite E. }
  destruct (Z.eqb_spec (operation_code p) (master_op OP_QUERY_FILE_PATH)) as [_|_].
  { intros E. right; right. eapply Hcalm; [|exact E]. intros. apply calm_file_path. }
  destruct (Z.eqb_spec (operation_code p) (master_op QC_OP_DISCONNECTION)) as [_|_].
  { intros (rc & w1 & E & [= <- <-])%run_bind. right; right. split; [done|]. apply (calm_query_gone fd) in E as [_ E].
    intros fd'. by rewrite E. }
  destruct (Z.eqb_spec (operation_code p) (master_op OP_WORKER_HANDSHAKE_REQ)) as [Eop|_].
  { intros (rc & w1 & E & [= <- <-])%run_bind. apply handshake_sockets in E; [|done|by apply Hack].
    destruct E as [[Hrc E]|[-> Hx]]; [right; right|by left]. apply Z.eqb_neq in Hrc. rewrite Hrc. split; [done|].
    intros fd'. by rewrite E. }
  destruct (Z.eqb_spec (operation_code p) (master_op OP_WORKER_READ_MESSAGE_REQ)) as [_|_].
  { intros E. right; right. eapply Hcalm; [|exact E]. intros. apply calm_read_message. }
  destruct (Z.eqb_spec (operation_code p) (master_op OP_WORKER_END_QUERY)) as [_|_].
  { intros E. right; right. eapply Hcalm; [|exact E]. intros. apply calm_end_query. }
  destruct (Z.eqb_spec (operation_code p) (master_op OP_WORKER_EVICT_RES)) as [_|_].
  { intros E. right; right. eapply Hcalm; [|exact E]. intros. apply calm_evict_response. }
  destruct (Z.eqb_spec (operation_code p) (master_op WORKER_OP_DISCONNECTION)) as [_|_].
  { intros (rc & w1 & E & [= <- <-])%run_bind. right; right. split; [done|].
    apply worker_gone_sockets in E as [[E _]|(x & Hx & E)]; [|intros fd'|done]; [intros fd'; by rewrite E|].
    rewrite E, (registered_delete _ fd' _ _ Hx). lia. }
  destruct (Z.eqb_spec (operation_code p) (storage_op STORAGE_OP_ERROR)) as [_|_].
  { intros E. right; right. eapply Hcalm; [|exact E]. intros. apply calm_storage_error. }
  intros [= <- <-]. by right; right.
Qed.

Lemma remembered_replaced sv i t t' w o :
  remembered sv -> sv_threads sv !! i = Some t ->
  (is_query_control (t_client t') = true -> is_worker (t_client t') = false) ->
  (forall fd, registered fd (sockets w) = 0 \/
     registered fd (sockets w) + serves fd t <= registered fd (sockets (sv_world sv)) + serves fd t')%nat ->
  remembered (MkServer w o (<[i := t']> (sv_threads sv))).
Proof.
  intros [Hs Hk] Hi Ht' Hle. split; cbn [sv_world sv_threads].
  - intros fd. specialize (Hs fd). specialize (Hle fd). pose proof (serving_replaced fd _ i t t' Hi). lia.
  - intros x. by apply one_kind_replaced.
Qed.

Lemma remembered_moves e sv sv' :
  master_wf (sv_world sv) -> remembered sv -> introduced e sv -> moves sv e sv' -> remembered sv'.
Proof.
  intros Hwf Hrm Hok Hm. pose proof Hrm as [Hs Hk].
  destruct Hm as [|fd _ _|fd _ _|i t now p c w o Hi Hl _ _ E _|i t w o Hi Hl E _|i t w Hi Hl E|now w E]; cbn [introduced] in Hok.
  - done.
  - done.
  - split; cbn [sv_world sv_threads on_threads on_open].
    + intros fd'. unfold serving. rewrite sum_list_with_app. specialize (Hs fd'). unfold serving in Hs. lia.
    + intros t [Ht| ->%list_elem_of_singleton]%elem_of_app; [by apply Hk|done].
  - destruct (Hok t Hi) as [Hh Hq]. assert (Hin : t ∈ sv_threads sv) by by eapply list_elem_of_lookup_2.
    apply package_sockets in E; [|done|by intros Eop; apply Hh].
    destruct E as [(Eop & -> & x & Hx & Es)|[(Eop & -> & Es)|[-> Hle]]]; eapply remembered_replaced; try done.
    + by destruct (Hh Eop) as [-> _].
    + intros fd. right. destruct (Hh Eop) as [Et _]. rewrite Es, (registered_insert _ fd _ _ Hx). unfold serves. rewrite Et. cbn.
      destruct (decide (client_socket t = fd)) as [->|Hne]; [rewrite Z.eqb_refl|rewrite (proj2 (Z.eqb_neq _ _) Hne)]; cbn; lia.
    + intros _. by apply Hq.
    + intros fd. right. rewrite Es. unfold serves. cbn. rewrite (Hq Eop), !andb_false_r. cbn. lia.
    + exact (Hk t Hin).
    + intros fd. right. specialize (Hle fd). unfold serves. rewrite Hl. cbn. lia.
  - assert (Hin : t ∈ sv_threads sv) by by eapply list_elem_of_lookup_2.
    eapply remembered_replaced; [done|done|exact (Hk t Hin)|]. intros fd. replace (serves fd (MkThread _ _ true)) with 0%nat
      by (unfold serves; cbn; by rewrite andb_false_r).
    unfold handle_gone in E. unfold serves. destruct (is_query_control (t_client t)) eqn:Eq; [|destruct (is_worker (t_client t)) eqn:Ew].
    + right. apply run_bind in E as (rc & w1 & E & [= <-]). apply (calm_query_gone (client_socket t)) in E as [_ E]. rewrite E.
      rewrite (Hk t Hin Eq), andb_false_r. cbn. lia.
    + apply run_bind in E as (rc & w1 & E & [= <-]). apply worker_gone_sockets in E; [|done]. rewrite Hl. cbn.
      destruct E as [[E Hno]|(x & Hx & E)].
      * rewrite E. destruct (Z.eqb_spec (client_socket t) fd) as [Efd|Hne]; [left|right; cbn; lia].
        subst fd. by apply registered_none.
      * right. rewrite E. rewrite (registered_delete _ fd _ _ Hx).
        destruct (Z.eqb_spec (client_socket t) fd) as [Efd|Hne]; [rewrite decide_True by done|rewrite decide_False by done]; cbn; lia.
    + right. injection E as <-. change (sockets (on_closed _ _)) with (sockets (sv_world sv)). rewrite andb_false_r. cbn. lia.
  - split; cbn [sv_world sv_threads].
    + injection E as <-. intros fd. specialize (Hs fd). pose proof (serving_deleted fd _ _ _ Hi) as Hd.
      unfold serves in Hd. rewrite Hl, andb_false_r in Hd. change (sockets (on_closed _ _)) with (sockets (sv_world sv)). lia.
    + intros x Hx%list_elem_of_delete_inv. by apply Hk.
  - split; [|done]. cbn [sv_world sv_threads]. apply (calm_aging_round 0) in E as [_ ->]. exact Hs.
Qed.

Lemma remembered_run interval algorithm listener sv :
  server_run introduced (init_server interval algorithm listener) sv -> remembered sv.
Proof.
  induction 1 as [|e sv1 sv2 Hr IH Hp Hok E].
  - split; [|by intros t ?%not_elem_of_nil]. intros fd. rewrite registered_none; [lia|].
    intros x. unfold sockets. cbn. by rewrite fmap_empty, lookup_empty.
  - eapply remembered_moves; [by eapply reachable_wf, server_run_reachable|exact IH|exact Hok|by apply server_step_moves].
Qed.

(** C20: Nobody is forgotten.  Among peers that introduce themselves once and get their
    answer, the blocks of workers with a socket are never more than the threads
    that wait for packages on it as from a worker: every worker that is registered
    has a thread that will notice that it is gone, and when no such thread is left
    no query is given to that socket any more.  (A worker that does not get the
    answer is registered all the same, and for ever: [unanswered_worker_stays].) *)
Theorem nobody_forgotten interval algorithm listener sv :
  server_run introduced (init_server interval algorithm listener) sv ->
  (forall fd, (registered fd (sockets (sv_world sv)) <= serving fd (sv_threads sv))%nat) /\
  (forall x b, wheap (sv_world sv) !! x = Some b ->
     exists t, t ∈ sv_threads sv /\ client_socket t = w_socket_fd b /\ is_worker (t_client t) = true /\ leaving t = false).
Proof.
  intros Hr%remembered_run. pose proof Hr as [Hs _]. split; [done|]. intros x b Hx.
  assert (Hx' : sockets (sv_world sv) !! x = Some (w_socket_fd b)) by (unfold sockets; by rewrite lookup_fmap, Hx).
  specialize (Hs (w_socket_fd b)). rewrite (registered_delete _ _ _ _ Hx'), decide_True in Hs by done.
  clear Hr. induction (sv_threads sv) as [|t l IH]; [cbn in Hs; lia|]. cbn in Hs.
  destruct (serves (w_socket_fd b) t) eqn:Et.
  - destruct IH as (t' & Ht' & ?); [unfold serving; lia|]. exists t'. split; [by right|done].
  - exists t. split; [by left|]. unfold serves in Et.
    destruct (Z.eqb_spec (client_socket t) (w_socket_fd b)), (is_worker (t_client t)), (leaving t); done.
Qed.

End Server.
