(* ===== verification/MasterServerRuns.v ===== *)
(** * Runs of the server of the Master

    Concrete clients: the theorems of MasterServerSpec.v applied to them, and what
    happens when their hypotheses do not hold. *)

From S2P Require Import Prelude Commons Serialization Protocol MasterState MasterInvariant MasterMain HandlersSpec MasterProps.
From S2P Require Import MasterServer MasterFrames MasterServerSpec.

Definition then_step `{CommonsList} `{Kernel} (sv : server) (e : server_event) : server :=
  match server_step e sv with Some (_, sv') => sv' | None => sv end.

Lemma run_then `{CommonsList} `{Kernel} ok sv0 sv e :
  server_run ok sv0 sv -> possible e sv -> ok e sv -> some (server_step e sv) = true -> server_run ok sv0 (then_step sv e).
Proof.
  intros Hr Hp Hok. unfold then_step. destruct (server_step e sv) as [[[] sv']|] eqn:E; [|done]. intros _.
  by eapply run_event.
Defined.

(** The packages of the clients. *)
Definition worker_hello (id : Z) : t_package := sample_package (master_op OP_WORKER_HANDSHAKE_REQ) [F_uint32 id].
Definition query_hello : t_package := sample_package (master_op OP_QUERY_HANDSHAKE) [].
Definition query_request : t_package := sample_package (master_op OP_QUERY_FILE_PATH) [F_string "A"; F_uint8 5].

Lemma worker_hello_ok fd w : well_formed_package fd (worker_hello 7) w.
Proof. package_ok. apply id_field. vm_compute. reflexivity. Defined.
Lemma query_hello_ok fd w : well_formed_package fd query_hello w.
Proof. package_ok. Defined.
Lemma query_request_ok fd w : next_query_id (queries w) + 1 < 2 ^ 31 -> well_formed_package fd query_request w.
Proof. intros Hn. package_ok. split; [exact Hn|]. apply path_fields. vm_compute. reflexivity. Defined.

(** What [possible] asks, from what can be computed. *)
Definition ready_thread (i : nat) (sv : server) : bool :=
  match sv_threads sv !! i with
  | Some t => negb (leaving t) && bool_decide (client_socket t ∈ sv_open sv)
  | None => false
  end.

Lemma possible_received i now p sv :
  ready_thread i sv = true -> (forall fd, well_formed_package fd p (sv_world sv)) -> possible (Received i now p) sv.
Proof.
  unfold ready_thread. intros H Hp. cbn [possible]. destruct (sv_threads sv !! i) as [t|]; [|done].
  apply andb_prop in H as [H1 H2]. apply negb_true_iff in H1. apply bool_decide_eq_true_1 in H2. by exists t.
Qed.

Lemma possible_hung_up i sv t : sv_threads sv !! i = Some t -> leaving t = false -> possible (Hung_up i) sv.
Proof. by exists t. Qed.
Lemma possible_left i sv t : sv_threads sv !! i = Some t -> leaving t = true -> possible (Left i) sv.
Proof. by exists t. Qed.

Ltac received_now :=
  apply possible_received; [vm_compute; reflexivity|intros fd; (apply worker_hello_ok || apply query_hello_ok || apply query_request_ok)];
    try (vm_compute; reflexivity).
Ltac accepted_now := apply (bool_decide_unpack _); vm_compute; exact I.

Section Served.
Local Existing Instance kernel_ok.

(** ** A worker and a Query Control, as the repository has them *)

Definition served_events : list server_event :=
  [Accepted 4 true; Received 0 0 (worker_hello 7); Accepted 9 true; Received 1 5 query_hello; Received 1 10 query_request;
   Hung_up 0; Left 0].

Definition served (n : nat) : server := foldl then_step (init_server 1000 "FIFO" 3) (take n served_events).

(** The worker has gone, its query with it, and the thread of the Query Control is left. *)
Example served_end :
  map client_socket (sv_threads (served 7)) = [9] /\ worker_list (workers (sv_world (served 7))) = [] /\
  query_list (queries (sv_world (served 7))) = [] /\ sv_open (served 7) = {[3; 9]}.
Proof. vm_compute. auto. Qed.

Definition courteous (e : server_event) (sv : server) : Prop := orderly e sv /\ introduced e sv.

Lemma served_run : server_run courteous (init_server 1000 "FIFO" 3) (served 7).
Proof.
  change (served 7) with (foldl then_step (init_server 1000 "FIFO" 3) served_events). cbn [served_events foldl].
  repeat (apply run_then; [| | |vm_compute; reflexivity]); [apply run_start|..].
  - accepted_now.
  - split; [intros t Ht; by apply not_elem_of_nil in Ht|done].
  - received_now.
  - split; [split; vm_compute; discriminate|]. intros t Ht. assert (Et : t = MkThread 4 (MkClient false false) false) by (vm_compute in Ht; congruence).
    subst t. split; [|intros E; vm_compute in E; discriminate]. intros _. split; [done|]. intros ob. vm_compute. reflexivity.
  - accepted_now.
  - split; [|done]. intros t Ht. vm_compute in Ht. apply list_elem_of_singleton in Ht. subst t. done.
  - received_now.
  - split; [split; vm_compute; discriminate|]. intros t Ht. assert (Et : t = MkThread 9 (MkClient false false) false) by (vm_compute in Ht; congruence).
    subst t. split; [intros E; vm_compute in E; discriminate|done].
  - received_now.
  - split; [split; vm_compute; discriminate|]. intros t Ht. split; intros E; vm_compute in E; discriminate.
  - eapply possible_hung_up; vm_compute; reflexivity.
  - done.
  - eapply possible_left; vm_compute; reflexivity.
  - done.
Defined.

Lemma run_weaken (ok ok' : server_event -> server -> Prop) sv0 sv :
  (forall e s, ok e s -> ok' e s) -> server_run ok sv0 sv -> server_run ok' sv0 sv.
Proof. intros H. induction 1 as [|e sv1 sv2 Hr IH Hp Hok E]; [apply run_start|]. eapply run_event; eauto. Defined.


Lemma descriptors_accounted_witness : accounted 3 (served 7) /\ own_sockets (served 7).
Proof.
  destruct (descriptors_accounted 1000 "FIFO" 3 (served 7)) as [H1 H2]. split.
  - apply H1. eapply run_weaken; [|apply served_run]. done.
  - apply H2. eapply run_weaken; [|apply served_run]. by intros e s [].
Defined.

Lemma nobody_forgotten_witness : registered 4 (sockets (sv_world (served 7))) = 0%nat.
Proof.
  destruct (nobody_forgotten 1000 "FIFO" 3 (served 7)) as [H _].
  - eapply run_weaken; [|apply served_run]. by intros e s [].
  - specialize (H 4). assert (E : serving 4 (sv_threads (served 7)) = 0%nat) by (vm_compute; reflexivity). rewrite E in H. lia.
Defined.

(** ** A socket closed under its client *)

(** A Query Control goes away; between the two times its thread closes descriptor 5
    a worker connects, gets the number 5 and introduces itself.  The second close
    takes the worker's connection from it.  The next client to connect gets the
    number again: when it submits a query, the query is sent to "the worker on 5",
    which is that client. *)
Definition stolen_events : list server_event :=
  [Accepted 5 true; Received 0 0 query_hello; Hung_up 0; Accepted 5 true; Received 1 10 (worker_hello 7); Left 0].
Definition stolen : server := foldl then_step (init_server 1000 "FIFO" 3) stolen_events.
Definition misdelivered : server :=
  foldl then_step stolen [Accepted 5 true; Received 1 20 query_hello; Received 1 30 query_request].

Lemma stolen_run : server_run anything (init_server 1000 "FIFO" 3) misdelivered.
Proof.
  unfold misdelivered, stolen. cbn [stolen_events foldl].
  repeat (apply run_then; [| |done|vm_compute; reflexivity]); [apply run_start|..];
    first [accepted_now|received_now|eapply possible_hung_up; vm_compute; reflexivity|eapply possible_left; vm_compute; reflexivity].
Qed.

(** What was sent to a socket, with the operation first. *)
Definition operations_sent (fd : Z) (w : world) : list byte :=
  omap (fun m => if m.1 =? fd then head m.2 else None) (reverse (outbox w)).

Theorem socket_stolen :
  server_run anything (init_server 1000 "FIFO" 3) misdelivered /\
  (exists t, t ∈ sv_threads stolen /\ client_socket t = 5 /\ is_worker (t_client t) = true /\ leaving t = false) /\
  (5 ∉ sv_open stolen) /\ registered 5 (sockets (sv_world stolen)) = 1%nat /\
  map (fun t => (client_socket t, t_client t)) (sv_threads misdelivered) = [(5, MkClient false true); (5, MkClient true false)] /\
  master_op OP_WORKER_START_QUERY ∈ map Z_of_byte (operations_sent 5 (sv_world misdelivered)).
Proof.
  split; [exact stolen_run|]. split.
  - exists (MkThread 5 (MkClient false true) false). split; [apply (bool_decide_unpack _); vm_compute; exact I|done].
  - split; [apply (bool_decide_unpack _); vm_compute; exact I|]. split; [vm_compute; reflexivity|]. split; [vm_compute; reflexivity|].
    apply (bool_decide_unpack _). vm_compute. exact I.
Qed.

End Served.

Section Unanswered.
Local Existing Instance kernel_down.

(** ** A worker that is not answered *)

(** The answer to the introduction cannot be sent: handle_client does not take the
    client for a worker, so nothing takes the block out of the tables when the
    connection ends. *)
Definition unanswered : server :=
  foldl then_step (init_server 1000 "FIFO" 3) [Accepted 4 true; Received 0 0 (worker_hello 7); Hung_up 0; Left 0].

Theorem unanswered_worker_stays :
  server_run anything (init_server 1000 "FIFO" 3) unanswered /\
  sv_threads unanswered = [] /\ idle_list (workers (sv_world unanswered)) = [1%positive] /\
  registered 4 (sockets (sv_world unanswered)) = 1%nat.
Proof.
  split.
  - unfold unanswered. cbn [foldl]. repeat (apply run_then; [| |done|vm_compute; reflexivity]); [apply run_start|..];
      first [accepted_now|received_now|eapply possible_hung_up; vm_compute; reflexivity|eapply possible_left; vm_compute; reflexivity].
  - vm_compute. auto.
Qed.

End Unanswered.
