(* ===== verification/PageTable.v ===== *)
(** * Page tables (worker/src/memory/page_table.c)

    A page table is the array of its entries and the number of them that the code
    keeps beside it.  Every function takes the table it is given and returns the
    table it leaves; [None] and [-1] are the code's NULL and -1. *)

From S2P Require Import Prelude.

Record pt_entry_t := MkEntry {
  page_number : Z;
  frame : Z;
  dirty : bool;
  present : bool;
  last_access_time : Z;
  use_bit : bool
}.

Record page_table_t := MkPageTable {
  pt_entries : list pt_entry_t;
  page_count : Z;
  page_size : Z
}.

(** ** Updates of an entry *)

Definition on_mapped (f : Z) (e : pt_entry_t) : pt_entry_t :=
  MkEntry (page_number e) f false true (last_access_time e) (use_bit e).
Definition on_unmapped (e : pt_entry_t) : pt_entry_t :=
  MkEntry (page_number e) 0 false false (last_access_time e) (use_bit e).
Definition on_dirty (b : bool) (e : pt_entry_t) : pt_entry_t :=
  MkEntry (page_number e) (frame e) b (present e) (last_access_time e) (use_bit e).
Definition on_present (b : bool) (e : pt_entry_t) : pt_entry_t :=
  MkEntry (page_number e) (frame e) (dirty e) b (last_access_time e) (use_bit e).
Definition on_access_time (t : Z) (e : pt_entry_t) : pt_entry_t :=
  MkEntry (page_number e) (frame e) (dirty e) (present e) t (use_bit e).
Definition on_use_bit (b : bool) (e : pt_entry_t) : pt_entry_t :=
  MkEntry (page_number e) (frame e) (dirty e) (present e) (last_access_time e) b.

(** ** Operations *)

Definition pt_get_entry (pt : page_table_t) (n : Z) : option pt_entry_t :=
  if page_count pt <=? n then None else pt_entries pt !! Z.to_nat n.

(** An assignment through the pointer [pt_get_entry] returned. *)
Definition pt_set_entry (pt : page_table_t) (n : Z) (f : pt_entry_t -> pt_entry_t) : page_table_t :=
  MkPageTable (alter f (Z.to_nat n) (pt_entries pt)) (page_count pt) (page_size pt).

Definition new_entry (i : nat) : pt_entry_t := MkEntry (Z.of_nat i) 0 false false 0 false.

Definition pt_create (count size : Z) : option page_table_t :=
  if (count =? 0) || (size =? 0) then None else
  Some (MkPageTable (map new_entry (seq 0 (Z.to_nat count))) count size).

Definition pt_resize (pt : page_table_t) (new_page_count : Z) : Z * page_table_t :=
  if new_page_count =? 0 then (-1, pt) else
  if new_page_count =? page_count pt then (0, pt) else
  let kept := take (Z.to_nat new_page_count) (pt_entries pt) in
  let fresh := map new_entry
    (seq (Z.to_nat (page_count pt)) (Z.to_nat new_page_count - Z.to_nat (page_count pt))) in
  (0, MkPageTable (kept ++ fresh) new_page_count (page_size pt)).

Definition pt_map (pt : page_table_t) (n f : Z) : Z * page_table_t :=
  match pt_get_entry pt n with
  | None => (-1, pt)
  | Some _ => (0, pt_set_entry pt n (on_mapped f))
  end.

Definition pt_unmap (pt : page_table_t) (n : Z) : Z * page_table_t :=
  match pt_get_entry pt n with
  | None => (-1, pt)
  | Some _ => (0, pt_set_entry pt n on_unmapped)
  end.

Definition pt_set_dirty (pt : page_table_t) (n : Z) (b : bool) : page_table_t :=
  match pt_get_entry pt n with
  | None => pt
  | Some _ => pt_set_entry pt n (on_dirty b)
  end.

Definition pt_set_present (pt : page_table_t) (n : Z) (b : bool) : page_table_t :=
  match pt_get_entry pt n with
  | None => pt
  | Some _ => pt_set_entry pt n (on_present b)
  end.

Definition pt_update_access_time (pt : page_table_t) (n t : Z) : page_table_t :=
  match pt_get_entry pt n with
  | None => pt
  | Some _ => pt_set_entry pt n (on_access_time t)
  end.

(** The array it allocates; the empty list is NULL with a count of 0. *)
Definition pt_get_dirty_entries (pt : page_table_t) : list pt_entry_t :=
  List.filter dirty (pt_entries pt).

(** ** Well-formed tables *)

(** As many entries as the count says, each with its own number. *)
Record pt_wf (pt : page_table_t) : Prop := {
  ptw_count : Z.of_nat (length (pt_entries pt)) = page_count pt;
  ptw_range : 0 < page_count pt < 2 ^ 32;
  ptw_number i e : pt_entries pt !! i = Some e -> page_number e = Z.of_nat i
}.

Lemma pt_get_entry_lookup pt n e :
  pt_get_entry pt n = Some e -> n < page_count pt /\ pt_entries pt !! Z.to_nat n = Some e.
Proof. unfold pt_get_entry. destruct (Z.leb_spec (page_count pt) n); [done|]. auto. Qed.

Lemma pt_get_entry_some pt n :
  pt_wf pt -> 0 <= n < page_count pt ->
  exists e, pt_get_entry pt n = Some e /\ pt_entries pt !! Z.to_nat n = Some e.
Proof.
  intros [Hl Hr _] Hn. unfold pt_get_entry. destruct (Z.leb_spec (page_count pt) n); [lia|].
  destruct (lookup_lt_is_Some_2 (pt_entries pt) (Z.to_nat n)) as [e He]; [lia|]. eauto.
Qed.

Lemma pt_set_entry_wf pt n f :
  pt_wf pt -> (forall e, page_number (f e) = page_number e) -> pt_wf (pt_set_entry pt n f).
Proof.
  intros [Hl Hr Hn] Hf. split; cbn [pt_set_entry pt_entries page_count]; [by rewrite length_alter|done|].
  intros i e He. destruct (decide (i = Z.to_nat n)) as [->|Hne].
  - rewrite list_lookup_alter_eq in He. destruct (pt_entries pt !! Z.to_nat n) eqn:E; [|done].
    injection He as <-. rewrite Hf. by apply Hn.
  - rewrite list_lookup_alter_ne in He by done. by apply Hn.
Qed.

Lemma lookup_new_entries a k i e :
  map new_entry (seq a k) !! i = Some e -> e = new_entry (a + i) /\ (i < k)%nat.
Proof.
  intros H. rewrite list_lookup_fmap in H. destruct (seq a k !! i) as [j|] eqn:E; [|done].
  apply lookup_seq in E as [-> Hlt]. by injection H as <-.
Qed.

Lemma pt_create_wf count size pt :
  0 <= count < 2 ^ 32 -> pt_create count size = Some pt -> pt_wf pt /\ page_count pt = count.
Proof.
  intros Hc. unfold pt_create. destruct (Z.eqb_spec count 0); [done|].
  destruct (size =? 0); [done|]. intros [= <-]. split; [|done].
  split; cbn [pt_entries page_count]; [rewrite length_map, length_seq; lia|lia|].
  intros i e He. by apply lookup_new_entries in He as [-> _].
Qed.

Lemma pt_resize_wf pt n :
  pt_wf pt -> 0 < n < 2 ^ 32 ->
  fst (pt_resize pt n) = 0 /\ pt_wf (snd (pt_resize pt n)) /\ page_count (snd (pt_resize pt n)) = n.
Proof.
  intros Hwf Hn. pose proof Hwf as [Hl Hr Hnum]. unfold pt_resize.
  destruct (Z.eqb_spec n 0); [lia|]. destruct (Z.eqb_spec n (page_count pt)) as [->|Hne]; [done|].
  cbn [fst snd page_count]. split; [done|]. split; [|done].
  split; cbn [pt_entries page_count].
  - rewrite length_app, length_take, length_map, length_seq. lia.
  - done.
  - intros i e [He|[Hlen He]]%lookup_app_Some.
    + apply lookup_take_Some in He as [He _]. by apply Hnum.
    + apply lookup_new_entries in He as [-> Hlt]. cbn [new_entry page_number].
      rewrite length_take in Hlt, Hlen |- *. lia.
Qed.

(** Resizing keeps the entries both tables have; the new ones are not present. *)
Lemma pt_resize_lookup pt n i :
  pt_wf pt -> 0 < n < 2 ^ 32 ->
  pt_entries (snd (pt_resize pt n)) !! i =
    if decide (Z.of_nat i < n)
    then if decide (Z.of_nat i < page_count pt) then pt_entries pt !! i else Some (new_entry i)
    else None.
Proof.
  intros [Hl Hr Hnum] Hn. unfold pt_resize. destruct (Z.eqb_spec n 0); [lia|].
  destruct (Z.eqb_spec n (page_count pt)) as [->|Hne]; cbn [snd pt_entries].
  { destruct (decide (Z.of_nat i < page_count pt)); [done|]. apply lookup_ge_None_2. lia. }
  destruct (decide (Z.of_nat i < page_count pt)) as [Hi|Hi].
  - destruct (decide (Z.of_nat i < n)).
    + rewrite lookup_app_l by (rewrite length_take; lia). rewrite lookup_take_lt by lia. done.
    + apply lookup_ge_None_2. rewrite length_app, length_take, length_map, length_seq. lia.
  - rewrite lookup_app_r by (rewrite length_take; lia). rewrite length_take, list_lookup_fmap.
    destruct (decide (Z.of_nat i < n)).
    + rewrite lookup_seq_lt by lia. cbn [fmap option_fmap option_map]. do 2 f_equal. lia.
    + rewrite lookup_seq_ge by lia. done.
Qed.

(** The dirty entries are copies of the dirty pages, in the order of the table. *)
Lemma pt_dirty_lookup pt e :
  pt_wf pt -> In e (pt_get_dirty_entries pt) ->
  pt_entries pt !! Z.to_nat (page_number e) = Some e /\ dirty e = true.
Proof.
  intros [_ _ Hnum] [Hin Hd]%List.filter_In. split; [|done].
  apply list_elem_of_In, list_elem_of_lookup_1 in Hin as [i Hi].
  rewrite (Hnum i e Hi), Nat2Z.id. done.
Qed.

(** ** Properties *)

(** A page table keeps its shape under every operation: [pt_resize] to any
    size leaves as many entries as the count says, numbered by their position,
    keeps those both sizes have and adds pages that are absent and clean. *)
Theorem pt_resize_keeps pt n :
  pt_wf pt -> 0 < n < 2 ^ 32 ->
  fst (pt_resize pt n) = 0 /\ pt_wf (snd (pt_resize pt n)) /\
  forall i, 0 <= i < n -> exists e, pt_get_entry (snd (pt_resize pt n)) i = Some e /\
    (i < page_count pt -> pt_get_entry pt i = Some e) /\
    (page_count pt <= i -> e = new_entry (Z.to_nat i)).
Proof.
  intros Hwf Hn. destruct (pt_resize_wf pt n Hwf Hn) as (H0 & Hwf' & Hc). split; [done|]. split; [done|].
  intros i Hi. destruct (pt_get_entry_some (snd (pt_resize pt n)) i) as (e & Hg & Hl); [done|lia|].
  exists e. split; [done|]. rewrite pt_resize_lookup in Hl by done. rewrite Z2Nat.id in Hl by lia.
  rewrite decide_True in Hl by lia. split; intros Hlt.
  - rewrite decide_True in Hl by lia. unfold pt_get_entry. destruct (Z.leb_spec (page_count pt) i); [lia|done].
  - rewrite decide_False in Hl by lia. by injection Hl.
Qed.

Example pt_resize_keeps_witness :
  exists pt, pt_create 2 64 = Some pt /\ fst (pt_resize pt 5) = 0 /\ pt_wf (snd (pt_resize pt 5)).
Proof.
  eexists. split; [reflexivity|].
  destruct (pt_create_wf 2 64 (MkPageTable (map new_entry (seq 0 2)) 2 64)) as [Hwf _]; [lia|done|].
  destruct (pt_resize_keeps (MkPageTable (map new_entry (seq 0 2)) 2 64) 5 Hwf) as (H0 & H1 & _); [lia|].
  split; [exact H0|exact H1].
Defined.
