(* ===== verification/MemoryManager.v ===== *)
(** * The memory manager of the worker (worker/src/memory/memory_manager.c)

    Demand paging of the files a query uses: one page table per file and tag, a
    table of frames over the physical memory, and the replacement of pages by LRU
    or by the modified clock.  The blocks come from and go to the Storage, which
    this component knows through the class [BlockStorage]. *)

From S2P Require Import Prelude Commons PageTable.

(** ** What the memory manager asks of the Storage

    [read_block_from_storage] and [write_block_to_storage] of connections/storage.c:
    the code they return and the data of a read ([None] is NULL), in a state that
    stands for all that is beyond the sockets; no result is a call that never
    returns.  Every call passes the two sockets and the number of the query. *)

Record conn_t := MkConn { to_storage : Z; to_master : Z; of_query : Z }.

Class BlockStorage : Type := {
  store : Type;
  read_block_from_storage : conn_t -> string -> string -> Z -> ST store (Z * option (list byte));
  write_block_to_storage : conn_t -> string -> string -> Z -> list byte -> ST store Z
}.

(** ** Data *)

Inductive pt_replacement_t := CLOCK_M | LRU.

Record file_tag_entry_t := MkFileTag { file : string; tag : string; page_table : ptr }.

#[global] Instance file_tag_entry_eq_dec : EqDecision file_tag_entry_t.
Proof. solve_decision. Defined.

Section State.
Context `{BS : BlockStorage}.

(** [frames] are the [used] flags; the strings of a last victim are those of the
    entry whose page table is named, and are freed with it.  [next_ptr] numbers the
    allocations of page tables. *)
Record memory_manager_t := MkMM {
  entries : list file_tag_entry_t;
  capacity : Z;
  mm_page_size : Z;
  policy : pt_replacement_t;
  physical_memory : list byte;
  storage_socket : Z;
  worker_id : Z;
  query_id : Z;
  master_socket : Z;
  frames : list bool;
  clock_pointer : Z;
  last_victim : option (ptr * Z);
  pts : gmap ptr page_table_t;
  next_ptr : ptr;
  global_timestamp : Z;
  the_store : store
}.

Definition frame_count (mm : memory_manager_t) : Z := Z.of_nat (length (frames mm)).

Definition on_entries f mm := MkMM (f (entries mm)) (capacity mm) (mm_page_size mm) (policy mm)
  (physical_memory mm) (storage_socket mm) (worker_id mm) (query_id mm) (master_socket mm)
  (frames mm) (clock_pointer mm) (last_victim mm) (pts mm) (next_ptr mm) (global_timestamp mm)
  (the_store mm).
Definition on_capacity n mm := MkMM (entries mm) n (mm_page_size mm) (policy mm)
  (physical_memory mm) (storage_socket mm) (worker_id mm) (query_id mm) (master_socket mm)
  (frames mm) (clock_pointer mm) (last_victim mm) (pts mm) (next_ptr mm) (global_timestamp mm)
  (the_store mm).
Definition on_memory f mm := MkMM (entries mm) (capacity mm) (mm_page_size mm) (policy mm)
  (f (physical_memory mm)) (storage_socket mm) (worker_id mm) (query_id mm) (master_socket mm)
  (frames mm) (clock_pointer mm) (last_victim mm) (pts mm) (next_ptr mm) (global_timestamp mm)
  (the_store mm).
Definition on_connections ss wid qid ms mm := MkMM (entries mm) (capacity mm) (mm_page_size mm)
  (policy mm) (physical_memory mm) ss wid qid ms
  (frames mm) (clock_pointer mm) (last_victim mm) (pts mm) (next_ptr mm) (global_timestamp mm)
  (the_store mm).
Definition on_frames f mm := MkMM (entries mm) (capacity mm) (mm_page_size mm) (policy mm)
  (physical_memory mm) (storage_socket mm) (worker_id mm) (query_id mm) (master_socket mm)
  (f (frames mm)) (clock_pointer mm) (last_victim mm) (pts mm) (next_ptr mm) (global_timestamp mm)
  (the_store mm).
Definition on_clock n mm := MkMM (entries mm) (capacity mm) (mm_page_size mm) (policy mm)
  (physical_memory mm) (storage_socket mm) (worker_id mm) (query_id mm) (master_socket mm)
  (frames mm) n (last_victim mm) (pts mm) (next_ptr mm) (global_timestamp mm)
  (the_store mm).
Definition on_victim v mm := MkMM (entries mm) (capacity mm) (mm_page_size mm) (policy mm)
  (physical_memory mm) (storage_socket mm) (worker_id mm) (query_id mm) (master_socket mm)
  (frames mm) (clock_pointer mm) v (pts mm) (next_ptr mm) (global_timestamp mm)
  (the_store mm).
Definition on_pts f mm := MkMM (entries mm) (capacity mm) (mm_page_size mm) (policy mm)
  (physical_memory mm) (storage_socket mm) (worker_id mm) (query_id mm) (master_socket mm)
  (frames mm) (clock_pointer mm) (last_victim mm) (f (pts mm)) (next_ptr mm) (global_timestamp mm)
  (the_store mm).
Definition on_next_ptr p mm := MkMM (entries mm) (capacity mm) (mm_page_size mm) (policy mm)
  (physical_memory mm) (storage_socket mm) (worker_id mm) (query_id mm) (master_socket mm)
  (frames mm) (clock_pointer mm) (last_victim mm) (pts mm) p (global_timestamp mm)
  (the_store mm).
Definition on_timestamp t mm := MkMM (entries mm) (capacity mm) (mm_page_size mm) (policy mm)
  (physical_memory mm) (storage_socket mm) (worker_id mm) (query_id mm) (master_socket mm)
  (frames mm) (clock_pointer mm) (last_victim mm) (pts mm) (next_ptr mm) t
  (the_store mm).
Definition on_store s mm := MkMM (entries mm) (capacity mm) (mm_page_size mm) (policy mm)
  (physical_memory mm) (storage_socket mm) (worker_id mm) (query_id mm) (master_socket mm)
  (frames mm) (clock_pointer mm) (last_victim mm) (pts mm) (next_ptr mm) (global_timestamp mm)
  s.

End State.

Abbreviation MM := (ST memory_manager_t).

Section MemoryManager.
Context `{BS : BlockStorage}.

(** ** Memory *)

(** A dereference of a page table: undefined once it is freed. *)
Definition get_pt (p : ptr) : MM page_table_t := fun mm =>
  match pts mm !! p with Some pt => Some (pt, mm) | None => None end.
Definition set_pt (p : ptr) (pt : page_table_t) : MM unit :=
  st_modify (on_pts (fun h => <[p := pt]> h)).

(** The bytes of a frame; [None] is the NULL of [mm_get_frame_address]. *)
Definition mm_get_frame_address (mm : memory_manager_t) (f : Z) : option Z :=
  if frame_count mm <=? f then None else Some (f * mm_page_size mm).

(** [memcpy] from and to the physical memory, which must hold the range. *)
Definition load (addr len : Z) : MM (list byte) := fun mm =>
  if (0 <=? addr) && (addr + len <=? Z.of_nat (length (physical_memory mm)))
  then Some (mem_read (physical_memory mm) (Z.to_nat addr) (Z.to_nat len), mm) else None.
Definition store_bytes (addr : Z) (bs : list byte) : MM unit := fun mm =>
  if (0 <=? addr) && (addr + Z.of_nat (length bs) <=? Z.of_nat (length (physical_memory mm)))
  then Some (tt, on_memory (fun m => mem_write m (Z.to_nat addr) bs) mm) else None.

(** The calls to the Storage on the state. *)
Definition conn_of (mm : memory_manager_t) : conn_t :=
  MkConn (storage_socket mm) (master_socket mm) (query_id mm).
Definition storage_read (f t : string) (n : Z) : MM (Z * option (list byte)) := fun mm =>
  match read_block_from_storage (conn_of mm) f t n (the_store mm) with
  | Some (rd, s) => Some (rd, on_store s mm)
  | None => None
  end.
Definition storage_write (f t : string) (n : Z) (bs : list byte) : MM Z := fun mm =>
  match write_block_to_storage (conn_of mm) f t n bs (the_store mm) with
  | Some (r, s) => Some (r, on_store s mm)
  | None => None
  end.

(** ** Creation *)

(** [memory] is what [malloc] returned, of [memory_size] bytes. *)
Definition mm_create (memory_size size : Z) (pol : pt_replacement_t) (memory : list byte)
    (s : store) (timestamp : Z) : option memory_manager_t :=
  if (memory_size =? 0) || (size =? 0) then None else
  Some (MkMM [] 0 size pol memory (-1) (-1) (-1) (-1)
          (replicate (Z.to_nat (u32 (memory_size / size))) false) 0 None ∅ 1%positive timestamp s).

Definition mm_set_storage_connection (socket wid : Z) (mm : memory_manager_t) : memory_manager_t :=
  on_connections socket wid (query_id mm) (master_socket mm) mm.
Definition mm_set_master_connection (socket : Z) (mm : memory_manager_t) : memory_manager_t :=
  on_connections (storage_socket mm) (worker_id mm) (query_id mm) socket mm.
Definition mm_set_query_id (qid : Z) (mm : memory_manager_t) : memory_manager_t :=
  on_connections (storage_socket mm) (worker_id mm) qid (master_socket mm) mm.

(** [pt_destroy] of a table that is not there is undefined; what is left is freed
    with the memory manager. *)
Definition pt_destroy (p : ptr) : MM unit := fun mm =>
  match pts mm !! p with None => None | Some _ => Some (tt, on_pts (delete p) mm) end.

Fixpoint destroy_tables (es : list file_tag_entry_t) : MM unit :=
  match es with
  | [] => mret tt
  | e :: es => pt_destroy (page_table e);; destroy_tables es
  end.

Definition mm_destroy : MM unit :=
  mm ← st_get;
  destroy_tables (entries mm).

(** ** The tables of files *)

Definition same_file (f t : string) (e : file_tag_entry_t) : bool :=
  String.eqb (file e) f && String.eqb (tag e) t.

Definition mm_find_page_table (mm : memory_manager_t) (f t : string) : option ptr :=
  page_table <$> List.find (same_file f t) (entries mm).

Definition mm_has_page_table (mm : memory_manager_t) (f t : string) : bool :=
  match mm_find_page_table mm f t with Some _ => true | None => false end.

(** The capacity doubles when the array is full. *)
Definition mm_resize_entries (mm : memory_manager_t) : memory_manager_t :=
  if Z.of_nat (length (entries mm)) <? capacity mm then mm else
  on_capacity (if capacity mm =? 0 then 4 else u32 (capacity mm * 2)) mm.

Definition mm_create_page_table (f t : string) : MM (option ptr) :=
  mm ← st_get;
  match mm_find_page_table mm f t with
  | Some p => mret (Some p)
  | None =>
      st_modify mm_resize_entries;;
      match pt_create 1 (mm_page_size mm) with
      | None => mret None
      | Some pt =>
          let p := next_ptr mm in
          st_modify (on_next_ptr (Pos.succ p));;
          set_pt p pt;;
          st_modify (on_entries (fun l => l ++ [MkFileTag f t p]));;
          mret (Some p)
      end
  end.

(** The last entry takes the place of the removed one. *)
Definition remove_entry (i : nat) (l : list file_tag_entry_t) : list file_tag_entry_t :=
  match last l with
  | Some e => take (length l - 1) (<[i := e]> l)
  | None => l
  end.

(** The position of the first entry that satisfies [f]. *)
Fixpoint find_index {A} (f : A -> bool) (l : list A) : option nat :=
  match l with
  | [] => None
  | x :: l => if f x then Some 0%nat else S <$> find_index f l
  end.

Definition mm_remove_page_table (f t : string) : MM unit :=
  mm ← st_get;
  match find_index (same_file f t) (entries mm) with
  | None => mret tt
  | Some i =>
      match entries mm !! i with
      | None => st_ub
      | Some e =>
          st_modify (on_pts (delete (page_table e)));;
          st_modify (on_entries (remove_entry i))
      end
  end.

Definition mm_resize_page_table (f t : string) (new_page_count : Z) : MM Z :=
  mm ← st_get;
  match mm_find_page_table mm f t with
  | None => mret (-1)
  | Some p =>
      pt ← get_pt p;
      set_pt p (snd (pt_resize pt new_page_count));;
      mret (fst (pt_resize pt new_page_count))
  end.

(** ** Page accesses *)

Definition mm_update_page_access (p : ptr) (n : Z) : MM unit :=
  pt ← get_pt p;
  if page_count pt <=? n then mret tt else
  mm ← st_get;
  match policy mm with
  | LRU =>
      let t := u64 (global_timestamp mm + 1) in
      st_modify (on_timestamp t);;
      set_pt p (pt_update_access_time pt n t)
  | CLOCK_M => set_pt p (pt_set_entry pt n (on_use_bit true))
  end.

(** ** Victims *)

(** The loop over the pages of a table: the first present page of frame [f]. *)
Fixpoint page_of_frame (pages : list pt_entry_t) (f : Z) (j : nat) : option nat :=
  match pages with
  | [] => None
  | e :: pages => if present e && (frame e =? f) then Some j else page_of_frame pages f (S j)
  end.

Fixpoint find_page_for_frame (es : list file_tag_entry_t) (f : Z)
    : MM (option (file_tag_entry_t * nat)) :=
  match es with
  | [] => mret None
  | e :: es =>
      pt ← get_pt (page_table e);
      match page_of_frame (pt_entries pt) f 0 with
      | Some j => mret (Some (e, j))
      | None => find_page_for_frame es f
      end
  end.

Definition mm_find_page_for_frame (f : Z) : MM (option (file_tag_entry_t * nat)) :=
  mm ← st_get; find_page_for_frame (entries mm) f.

(** The oldest present page so far: its time, its frame, its entry and number. *)
Record lru_victim := MkVictim {
  oldest_time : Z;
  victim : option (Z * file_tag_entry_t * nat)
}.

Fixpoint lru_pages (e : file_tag_entry_t) (pages : list pt_entry_t) (j : nat) (v : lru_victim)
    : lru_victim :=
  match pages with
  | [] => v
  | pg :: pages =>
      lru_pages e pages (S j)
        (if present pg && (last_access_time pg <? oldest_time v)
         then MkVictim (last_access_time pg) (Some (frame pg, e, j)) else v)
  end.

Fixpoint lru_tables (es : list file_tag_entry_t) (v : lru_victim) : MM lru_victim :=
  match es with
  | [] => mret v
  | e :: es => pt ← get_pt (page_table e); lru_tables es (lru_pages e (pt_entries pt) 0 v)
  end.

(** A dirty page is written to the Storage before its frame is given away. *)
Definition write_back (e : file_tag_entry_t) (j f : Z) : MM Z :=
  mm ← st_get;
  match mm_get_frame_address mm f with
  | None => st_ub
  | Some addr =>
      bs ← load addr (mm_page_size mm);
      storage_write (file e) (tag e) j bs
  end.

(** [frames[f].used = b]. *)
Definition set_used (f : Z) (b : bool) : MM unit :=
  mm ← st_get;
  if (0 <=? f) && (f <? frame_count mm)
  then st_modify (on_frames (fun l => <[Z.to_nat f := b]> l)) else st_ub.

(** The page leaves the frame, which is marked free. *)
Definition release_victim (e : file_tag_entry_t) (j f : Z) : MM unit :=
  pt ← get_pt (page_table e);
  set_pt (page_table e) (snd (pt_unmap pt j));;
  set_used f false;;
  st_modify (on_victim (Some (page_table e, j))).

Definition UINT64_MAX : Z := 2 ^ 64 - 1.
Definition UINT32_MAX : Z := 2 ^ 32 - 1.

Definition mm_find_lru_victim : MM Z :=
  mm ← st_get;
  v ← lru_tables (entries mm) (MkVictim UINT64_MAX None);
  match victim v with
  | None => mret (-1)
  | Some (f, e, j) =>
      if f =? UINT32_MAX then mret (-1) else
      pt ← get_pt (page_table e);
      match pt_entries pt !! j with
      | None => st_ub
      | Some pg =>
          r ← (if dirty pg then write_back e (Z.of_nat j) f else mret 0);
          if negb (r =? 0) then mret (-1) else
          release_victim e (Z.of_nat j) f;;
          mret (i32 f)
      end
  end.

Definition advance_clock : MM unit :=
  mm ← st_get; st_modify (on_clock ((clock_pointer mm + 1) mod frame_count mm)).

(** What the clock hand points at: the frame, and the page in it when there is one. *)
Definition at_hand : MM (Z * option (file_tag_entry_t * nat * pt_entry_t)) :=
  mm ← st_get;
  let idx := clock_pointer mm in
  match frames mm !! Z.to_nat idx with
  | None => st_ub
  | Some used =>
      if negb used then mret (idx, None) else
      found ← mm_find_page_for_frame idx;
      match found with
      | None => mret (idx, None)
      | Some (e, j) =>
          pt ← get_pt (page_table e);
          match pt_entries pt !! j with
          | None => st_ub
          | Some pg => mret (idx, Some (e, j, pg))
          end
      end
  end.

(** First pass: the first page with neither bit set is the victim. *)
Fixpoint clock_pass1 (k : nat) : MM (option Z) :=
  match k with
  | O => mret None
  | S k =>
      h ← at_hand;
      match h with
      | (idx, Some (e, j, pg)) =>
          if negb (use_bit pg) && negb (dirty pg)
          then release_victim e (Z.of_nat j) idx;; advance_clock;; mret (Some (i32 idx))
          else advance_clock;; clock_pass1 k
      | (_, None) => advance_clock;; clock_pass1 k
      end
  end.

(** Second pass: remembers the first dirty page not in use and clears the use bits. *)
Fixpoint clock_pass2 (k : nat) (candidate : option (Z * file_tag_entry_t * nat))
    : MM (option (Z * file_tag_entry_t * nat)) :=
  match k with
  | O => mret candidate
  | S k =>
      h ← at_hand;
      match h with
      | (idx, Some (e, j, pg)) =>
          let candidate :=
            if negb (use_bit pg) && dirty pg && (match candidate with None => true | Some _ => false end)
            then Some (idx, e, j) else candidate in
          (if use_bit pg
           then pt ← get_pt (page_table e);
                set_pt (page_table e) (pt_set_entry pt (Z.of_nat j) (on_use_bit false))
           else mret tt);;
          advance_clock;;
          clock_pass2 k candidate
      | (_, None) => advance_clock;; clock_pass2 k candidate
      end
  end.

(** The [while (1)] of [mm_find_clockm_victim]: [None] when [rounds] were not enough. *)
Fixpoint clock_rounds (rounds : nat) : MM (option Z) :=
  match rounds with
  | O => mret None
  | S rounds =>
      mm ← st_get;
      first ← clock_pass1 (length (frames mm));
      match first with
      | Some idx => mret (Some idx)
      | None =>
          candidate ← clock_pass2 (length (frames mm)) None;
          match candidate with
          | None => clock_rounds rounds
          | Some (idx, e, j) =>
              r ← write_back e (Z.of_nat j) idx;
              if negb (r =? 0) then mret (Some (-1)) else
              release_victim e (Z.of_nat j) idx;;
              st_modify (on_clock ((i32 idx + 1) mod frame_count mm));;
              mret (Some (i32 idx))
          end
      end
  end.

(** Two rounds are enough when a frame in use holds a page, and when none does no
    number of them is; a search that never ends has no result. *)
Definition mm_find_clockm_victim : MM Z :=
  mm ← st_get;
  match policy mm with
  | LRU => mret (-1)
  | CLOCK_M =>
      if frame_count mm =? 0 then mret (-1) else
      r ← clock_rounds 2;
      match r with Some idx => mret idx | None => st_ub end
  end.

(** ** Frames *)

Definition mm_free_frame (f : Z) : MM Z :=
  mm ← st_get;
  if frame_count mm <=? f then mret (-1) else set_used f false;; mret 0.

Definition mm_allocate_frame : MM Z :=
  mm ← st_get;
  match find_index negb (frames mm) with
  | Some i => set_used (Z.of_nat i) true;; mret (i32 (Z.of_nat i))
  | None =>
      v ← (match policy mm with
           | LRU => mm_find_lru_victim
           | CLOCK_M => mm_find_clockm_victim
           end);
      if v =? -1 then mret (-1) else set_used v true;; mret v
  end.

(** ** Page faults *)

(** What a fault puts in the frame when the read has not failed. *)
Definition fault_page (size r : Z) (data : option (list byte)) : list byte :=
  let zeros n := replicate n x00 in
  match data with
  | Some bs =>
      if (r =? 0) && (0 <? Z.of_nat (length bs))
      then let kept := take (Z.to_nat size) bs in kept ++ zeros (Z.to_nat size - length kept)%nat
      else zeros (Z.to_nat size)
  | None => zeros (Z.to_nat size)
  end.

(** The log message about the last victim reads the strings of its entry. *)
Definition log_replacement : MM unit :=
  mm ← st_get;
  match last_victim mm with
  | None => mret tt
  | Some (p, _) => _ ← get_pt p; st_modify (on_victim None)
  end.

Definition mm_handle_page_fault (p : ptr) (f t : string) (n : Z) : MM Z :=
  pt ← get_pt p;
  let '(grown, pt) :=
    if page_count pt <=? n then pt_resize pt (u32 (n + 1)) else (0, pt) in
  set_pt p pt;;
  if negb (grown =? 0) then mret (-1) else
  mm ← st_get;
  if (storage_socket mm =? -1) || (worker_id mm =? -1) then mret (-1) else
  fr ← mm_allocate_frame;
  if fr =? -1 then mret (-1) else
  mm ← st_get;
  match mm_get_frame_address mm (u32 fr) with
  | None => _ ← mm_free_frame (u32 fr); mret (-1)
  | Some addr =>
      r ← storage_read f t n;
      if negb (fst r =? 0) && negb (fst r =? -2) then _ ← mm_free_frame (u32 fr); mret (-1) else
      store_bytes addr (fault_page (mm_page_size mm) (fst r) (snd r));;
      pt ← get_pt p;
      set_pt p (snd (pt_map pt n (u32 fr)));;
      if negb (fst (pt_map pt n (u32 fr)) =? 0) then _ ← mm_free_frame (u32 fr); mret (-1) else
      mm_update_page_access p n;;
      log_replacement;;
      mret 0
  end.

(** ** Accesses *)

(** The loop of [mm_access_memory]: [data] is what is left to write, [None] for a
    read; the bytes read are gathered in [out]. *)
Fixpoint access_loop (fuel : nat) (p : ptr) (f t : string) (page offset remaining : Z)
    (data : option (list byte)) (out : list byte) : MM (Z * list byte) :=
  match fuel with
  | O => st_ub
  | S fuel =>
      if remaining <=? 0 then mret (0, out) else
      pt ← get_pt p;
      let '(grown, pt) :=
        if page_count pt <=? page then pt_resize pt (u32 (page + 1)) else (0, pt) in
      set_pt p pt;;
      if negb (grown =? 0) then mret (-1, out) else
      match pt_entries pt !! Z.to_nat page with
      | None => st_ub
      | Some entry =>
          rc ← (if present entry then mret 0 else mm_handle_page_fault p f t page);
          if negb (rc =? 0) then mret (-1, out) else
          mm_update_page_access p page;;
          pt ← get_pt p;
          mm ← st_get;
          match pt_entries pt !! Z.to_nat page with
          | None => st_ub
          | Some entry =>
              match mm_get_frame_address mm (frame entry) with
              | None => st_ub
              | Some addr =>
                  let room := u32 (mm_page_size mm) - offset in
                  let bytes_to_copy := if remaining <? room then remaining else room in
                  match data with
                  | Some bs =>
                      store_bytes (addr + offset) (take (Z.to_nat bytes_to_copy) bs);;
                      set_pt p (pt_set_dirty pt page true);;
                      access_loop fuel p f t (u32 (page + 1)) 0 (remaining - bytes_to_copy)
                        (Some (drop (Z.to_nat bytes_to_copy) bs)) out
                  | None =>
                      bs ← load (addr + offset) bytes_to_copy;
                      access_loop fuel p f t (u32 (page + 1)) 0 (remaining - bytes_to_copy)
                        None (out ++ bs)
                  end
              end
          end
      end
  end.

(** A round copies at least one byte: [size] rounds and the last test are enough. *)
Definition mm_access_memory (p : ptr) (f t : string) (base_address size : Z)
    (data : option (list byte)) : MM (Z * list byte) :=
  if size =? 0 then mret (-1, []) else
  mm ← st_get;
  let ps := u32 (mm_page_size mm) in
  if ps =? 0 then st_ub else
  access_loop (S (Z.to_nat size)) p f t (base_address / ps) (base_address mod ps) size data [].

Definition mm_write_to_memory (p : ptr) (f t : string) (base_address : Z) (data : list byte) : MM Z :=
  r ← mm_access_memory p f t base_address (Z.of_nat (length data)) (Some data); mret (fst r).

Definition mm_read_from_memory (p : ptr) (f t : string) (base_address size : Z) : MM (Z * list byte) :=
  mm_access_memory p f t base_address size None.

(** ** Flushing *)

Definition mm_get_dirty_pages (f t : string) : MM (list pt_entry_t) :=
  mm ← st_get;
  match mm_find_page_table mm f t with
  | None => mret []
  | Some p => pt ← get_pt p; mret (pt_get_dirty_entries pt)
  end.

Definition mm_mark_all_clean (f t : string) : MM unit :=
  mm ← st_get;
  match mm_find_page_table mm f t with
  | None => mret tt
  | Some p => pt ← get_pt p;
      set_pt p (fold_left (fun pt i => pt_set_dirty pt (Z.of_nat i) false)
                  (seq 0 (Z.to_nat (page_count pt))) pt)
  end.

(** The loop over the copies of the dirty entries. *)
Fixpoint flush_pages (p : ptr) (f t : string) (ds : list pt_entry_t) : MM Z :=
  match ds with
  | [] => mret 0
  | d :: ds =>
      if negb (present d) then flush_pages p f t ds else
      mm ← st_get;
      match mm_get_frame_address mm (frame d) with
      | None => mret (-1)
      | Some addr =>
          bs ← load addr (mm_page_size mm);
          r ← storage_write f t (page_number d) bs;
          if negb (r =? 0) then mret (-1) else
          pt ← get_pt p;
          set_pt p (pt_set_dirty pt (page_number d) false);;
          flush_pages p f t ds
      end
  end.

Definition mm_flush_query (f t : string) : MM Z :=
  mm ← st_get;
  if (storage_socket mm =? -1) || (worker_id mm =? -1) then mret (-1) else
  ds ← mm_get_dirty_pages f t;
  match ds with
  | [] => mret 0
  | _ =>
      match mm_find_page_table mm f t with
      | None => mret (-1)
      | Some p => flush_pages p f t ds
      end
  end.

Fixpoint flush_entries (es : list file_tag_entry_t) : MM Z :=
  match es with
  | [] => mret 0
  | e :: es =>
      ds ← mm_get_dirty_pages (file e) (tag e);
      r ← flush_pages (page_table e) (file e) (tag e) ds;
      if negb (r =? 0) then mret (-1) else flush_entries es
  end.

Definition mm_flush_all_dirty : MM Z :=
  mm ← st_get;
  if (storage_socket mm =? -1) || (worker_id mm =? -1) then mret (-1) else
  flush_entries (entries mm).

End MemoryManager.
