(* ===== verification/MemoryInvariant.v ===== *)
(** * The invariant of the memory manager, and what its pages contain

    [mapping] is the page tables seen as one partial function from pages to
    frames.  [view] is the contents the memory manager stands for: those of the
    frame of a present page, those of the Storage's block otherwise.  The lemmas
    of this file are the moves of a page (unmapped, mapped, written) on these. *)

From S2P Require Import Prelude Commons PageTable MemoryManager.

(** ** The contract of the Storage

    [block_of] is the contents of a block, as a page.  On a good connection every
    call returns; a read changes no block and, unless it fails, gives the page of
    the block; a write changes no other block and, when it succeeds, makes the
    block what was written.  The Storage may promise this for some names only
    ([name_ok]); the number of a block is a [uint32_t]. *)
Class BlockStorageSpec (BS : BlockStorage) (ps : Z) : Type := {
  conn_ok : conn_t -> Prop;
  conn_ok_none : conn_ok (MkConn (-1) (-1) (-1));
  name_ok : string -> Prop;
  block_of : store -> string -> string -> Z -> list byte;
  block_of_length s f t n : length (block_of s f t n) = Z.to_nat ps;
  read_block_run c f t n s :
    conn_ok c -> name_ok f -> name_ok t -> 0 <= n < 2 ^ 32 ->
    wp (read_block_from_storage c f t n) (fun rd s' =>
      (forall f' t' n', block_of s' f' t' n' = block_of s f' t' n') /\
      (fst rd = 0 \/ fst rd = -2 -> fault_page ps (fst rd) (snd rd) = block_of s f t n)) s;
  write_block_run c f t n bs s :
    conn_ok c -> name_ok f -> name_ok t -> 0 <= n < 2 ^ 32 -> length bs = Z.to_nat ps ->
    wp (write_block_to_storage c f t n bs) (fun r s' =>
      (forall f' t' n', (f', t', n') <> (f, t, n) -> block_of s' f' t' n' = block_of s f' t' n') /\
      (r = 0 -> block_of s' f t n = bs)) s
}.

Definition Mapping := ptr -> nat -> option (Z * bool).

Definition page_map (o : option pt_entry_t) : option (Z * bool) :=
  match o with
  | Some pg => if present pg then Some (frame pg, dirty pg) else None
  | None => None
  end.

Section Invariant.
Context {BS : BlockStorage} {ps : Z} {BSS : BlockStorageSpec BS ps}.

Definition mapping (mm : memory_manager_t) : Mapping := fun p j =>
  match pts mm !! p with Some pt => page_map (pt_entries pt !! j) | None => None end.

Definition frame_bytes (mem : list byte) (f : Z) : list byte :=
  mem_read mem (Z.to_nat (f * ps)) (Z.to_nat ps).

Definition contents (m : Mapping) mem st (e : file_tag_entry_t) (j : nat) : list byte :=
  match m (page_table e) j with
  | Some (f, _) => frame_bytes mem f
  | None => block_of st (file e) (tag e) (Z.of_nat j)
  end.

Definition view (mm : memory_manager_t) : file_tag_entry_t -> nat -> list byte :=
  contents (mapping mm) (physical_memory mm) (the_store mm).

(** ** The two halves of the invariant *)

Record struct_wf (mm : memory_manager_t) : Prop := {
  s_ps : mm_page_size mm = ps /\ 0 < ps < 2 ^ 32;
  s_count : frame_count mm < 2 ^ 31;
  s_mem : frame_count mm * ps <= Z.of_nat (length (physical_memory mm));
  s_clock : 0 <= clock_pointer mm /\ (clock_pointer mm < frame_count mm \/ frame_count mm = 0);
  s_keys : NoDup (map (fun e => (file e, tag e)) (entries mm));
  s_ptrs : NoDup (map page_table (entries mm));
  s_dom p : is_Some (pts mm !! p) <-> p ∈ map page_table (entries mm);
  s_fresh p : is_Some (pts mm !! p) -> (p < next_ptr mm)%positive;
  s_pt p pt : pts mm !! p = Some pt -> pt_wf pt;
  s_victim p j : last_victim mm = Some (p, j) -> is_Some (pts mm !! p);
  s_conn : conn_ok (conn_of mm);
  s_names e : e ∈ entries mm -> name_ok (file e) /\ name_ok (tag e)
}.

Record map_wf (es : list file_tag_entry_t) (m : Mapping) (fr : list bool) mem st : Prop := {
  m_used p j f d : m p j = Some (f, d) -> 0 <= f /\ fr !! Z.to_nat f = Some true;
  m_inj p j f d p' j' d' : m p j = Some (f, d) -> m p' j' = Some (f, d') -> p = p' /\ j = j';
  m_coherent e j f : e ∈ es -> m (page_table e) j = Some (f, false) ->
    frame_bytes mem f = block_of st (file e) (tag e) (Z.of_nat j)
}.

Definition mm_wf (mm : memory_manager_t) : Prop :=
  struct_wf mm /\
  map_wf (entries mm) (mapping mm) (frames mm) (physical_memory mm) (the_store mm).

(** ** Moves of a page *)

Definition set_map (m : Mapping) (p : ptr) (j : nat) (v : option (Z * bool)) : Mapping := fun p' j' =>
  if decide (p' = p /\ j' = j) then v else m p' j'.

Lemma map_wf_ext es m m' fr mem st st' :
  map_wf es m fr mem st -> (forall p j, m' p j = m p j) ->
  (forall f t n, block_of st' f t n = block_of st f t n) -> map_wf es m' fr mem st'.
Proof.
  intros [Hu Hi Hc] E Eb. split.
  - intros p j f d. rewrite E. apply Hu.
  - intros p j f d p' j' d'. rewrite !E. apply Hi.
  - intros e j f He. rewrite E, Eb. by apply Hc.
Qed.

Lemma contents_ext m m' mem st st' e j :
  (forall p j, m' p j = m p j) -> (forall f t n, block_of st' f t n = block_of st f t n) ->
  contents m' mem st' e j = contents m mem st e j.
Proof. intros E Eb. unfold contents. by rewrite E, Eb. Qed.

(** Pages and tables taken away. *)
Lemma map_wf_sub es es' m m' fr mem st :
  map_wf es m fr mem st -> (forall e, e ∈ es' -> e ∈ es) ->
  (forall p j v, m' p j = Some v -> m p j = Some v) -> map_wf es' m' fr mem st.
Proof. intros [Hu Hi Hc] He Hm. split; eauto. Qed.

(** Two entries of the same file are one, and so are two of the same table. *)
Lemma entry_key (es : list file_tag_entry_t) e e' :
  NoDup (map (fun e => (file e, tag e)) es) -> e ∈ es -> e' ∈ es ->
  file e = file e' -> tag e = tag e' -> e = e'.
Proof.
  intros Hnd He He' Ef Et. apply list_elem_of_lookup_1 in He as [i Hi], He' as [i' Hi'].
  assert (i = i') as ->; [|congruence].
  eapply (NoDup_lookup _ i i' (file e, tag e) Hnd); rewrite list_lookup_fmap; [by rewrite Hi|].
  rewrite Hi'. simpl. by rewrite Ef, Et.
Qed.

Lemma entry_ptr (es : list file_tag_entry_t) e e' :
  NoDup (map page_table es) -> e ∈ es -> e' ∈ es -> page_table e = page_table e' -> e = e'.
Proof.
  intros Hnd He He' Ep. apply list_elem_of_lookup_1 in He as [i Hi], He' as [i' Hi'].
  assert (i = i') as ->; [|congruence].
  eapply (NoDup_lookup _ i i' (page_table e) Hnd); rewrite list_lookup_fmap; [by rewrite Hi|].
  rewrite Hi'. simpl. by rewrite Ep.
Qed.

(** The victim of a replacement: its contents are in the Storage, and stay the
    contents of the page once it is unmapped. *)
Lemma evict_page es m fr mem st st' e j f d :
  NoDup (map (fun e => (file e, tag e)) es) -> NoDup (map page_table es) -> e ∈ es ->
  map_wf es m fr mem st -> m (page_table e) j = Some (f, d) ->
  (forall f' t' n', (f', t', n') <> (file e, tag e, Z.of_nat j) -> block_of st' f' t' n' = block_of st f' t' n') ->
  block_of st' (file e) (tag e) (Z.of_nat j) = frame_bytes mem f ->
  map_wf es (set_map m (page_table e) j None) fr mem st' /\
  forall e' j', e' ∈ es ->
    contents (set_map m (page_table e) j None) mem st' e' j' = contents m mem st e' j'.
Proof.
  intros Hk Hp He [Hu Hi Hc] Hm Hsame Hdone.
  assert (Hother : forall e' j', e' ∈ es -> ~ (page_table e' = page_table e /\ j' = j) ->
    block_of st' (file e') (tag e') (Z.of_nat j') = block_of st (file e') (tag e') (Z.of_nat j')).
  { intros e' j' He' Hne. apply Hsame. intros [= Ef Et Ej]. apply Hne.
    split; [|lia]. f_equal. by apply (entry_key es). }
  split; [split|].
  - intros p j' f' d'. unfold set_map. destruct (decide _); [done|]. apply Hu.
  - intros p j1 f' d1 p' j2 d2. unfold set_map. destruct (decide _), (decide _); try done. apply Hi.
  - intros e' j' f' He'. unfold set_map. destruct (decide _) as [|Hne]; [done|]. intros Hm'.
    rewrite Hother by done. by apply Hc.
  - intros e' j' He'. unfold contents, set_map. destruct (decide _) as [[E ->]|Hne].
    + assert (e' = e) as -> by (by apply (entry_ptr es)). rewrite Hm. done.
    + destruct (m (page_table e') j') as [[f' d']|]; [done|]. by apply Hother.
Qed.

(** A frame no page is in. *)
Definition unmapped (m : Mapping) (f : Z) : Prop := forall p j d, m p j <> Some (f, d).

Lemma evicted_unmapped es m fr mem st p j f d :
  map_wf es m fr mem st -> m p j = Some (f, d) -> unmapped (set_map m p j None) f.
Proof.
  intros Hwf Hm p' j' d'. unfold set_map. destruct (decide _) as [|Hne]; [done|]. intros Hm'.
  apply Hne. split; by eapply m_inj.
Qed.

Lemma frame_used es m fr mem st f b :
  map_wf es m fr mem st -> b = true \/ unmapped m f -> 0 <= f ->
  map_wf es m (<[Z.to_nat f := b]> fr) mem st.
Proof.
  intros [Hu Hi Hc] Hb Hf. split; [|done|done]. intros p j f' d Hm.
  destruct (Hu p j f' d Hm) as [H0 Hl]. split; [done|].
  destruct (decide (f' = f)) as [->|Hne].
  - destruct Hb as [->|Hb]; [|by destruct (Hb p j d)].
    apply list_lookup_insert_eq. by apply lookup_lt_Some in Hl.
  - rewrite list_lookup_insert_ne; [done|]. intros E. apply Hne. lia.
Qed.

(** Frames do not overlap. *)
Lemma frame_bytes_other mem f f' off bs :
  0 < ps -> 0 <= f -> 0 <= f' -> f <> f' -> 0 <= off -> off + Z.of_nat (length bs) <= ps ->
  (f + 1) * ps <= Z.of_nat (length mem) ->
  frame_bytes (mem_write mem (Z.to_nat (f * ps + off)) bs) f' = frame_bytes mem f'.
Proof.
  intros Hps Hf Hf' Hne Hoff Hlen Hmem. unfold frame_bytes. destruct (decide (f' < f)).
  - apply mem_read_write_before; nia.
  - apply mem_read_write_after; nia.
Qed.

(** The page of a fault: its frame holds the Storage's block. *)
Lemma map_page es m fr mem mem' st e j f :
  NoDup (map page_table es) -> e ∈ es ->
  map_wf es m fr mem st -> m (page_table e) j = None -> 0 <= f -> fr !! Z.to_nat f = Some true ->
  unmapped m f -> (forall f', 0 <= f' -> f' <> f -> frame_bytes mem' f' = frame_bytes mem f') ->
  frame_bytes mem' f = block_of st (file e) (tag e) (Z.of_nat j) ->
  map_wf es (set_map m (page_table e) j (Some (f, false))) fr mem' st /\
  forall e' j', e' ∈ es ->
    contents (set_map m (page_table e) j (Some (f, false))) mem' st e' j' = contents m mem st e' j'.
Proof.
  intros Hp He [Hu Hi Hc] Hm Hf Hfr Hun Hsame Hnew.
  assert (Hkeep : forall p' j' f' d', m p' j' = Some (f', d') -> frame_bytes mem' f' = frame_bytes mem f').
  { intros p' j' f' d' Hm'. destruct (Hu _ _ _ _ Hm') as [H0 _]. apply Hsame; [done|].
    intros ->. by apply (Hun p' j' d'). }
  split; [split|].
  - intros p' j' f' d'. unfold set_map. destruct (decide _); [|apply Hu]. by intros [= <- <-].
  - intros p1 j1 f' d1 p2 j2 d2. unfold set_map.
    destruct (decide (p1 = _ /\ _)) as [[-> ->]|], (decide (p2 = _ /\ _)) as [[-> ->]|]; try done.
    + intros [= <- <-] H2. by destruct (Hun p2 j2 d2).
    + intros H1 [= <- <-]. by destruct (Hun p1 j1 d1).
    + apply Hi.
  - intros e' j' f' He'. unfold set_map. destruct (decide _) as [[E ->]|].
    + intros [= <-]. assert (e' = e) as -> by (by apply (entry_ptr es)). done.
    + intros Hm'. rewrite (Hkeep _ _ _ _ Hm'). by apply Hc.
  - intros e' j' He'. unfold contents, set_map. destruct (decide _) as [[E ->]|].
    + assert (e' = e) as -> by (by apply (entry_ptr es)). by rewrite Hm.
    + destruct (m (page_table e') j') as [[f' d']|] eqn:Hm'; [|done]. by eapply Hkeep.
Qed.

(** A page that is written to the Storage and stays in its frame. *)
Lemma clean_page es m fr mem st st' e j f d :
  NoDup (map (fun e => (file e, tag e)) es) -> NoDup (map page_table es) -> e ∈ es ->
  map_wf es m fr mem st -> m (page_table e) j = Some (f, d) ->
  (forall f' t' n', (f', t', n') <> (file e, tag e, Z.of_nat j) -> block_of st' f' t' n' = block_of st f' t' n') ->
  block_of st' (file e) (tag e) (Z.of_nat j) = frame_bytes mem f ->
  map_wf es (set_map m (page_table e) j (Some (f, false))) fr mem st' /\
  forall e' j', e' ∈ es ->
    contents (set_map m (page_table e) j (Some (f, false))) mem st' e' j' = contents m mem st e' j'.
Proof.
  intros Hk Hp He [Hu Hi Hc] Hm Hsame Hdone.
  assert (Hother : forall e' j', e' ∈ es -> ~ (page_table e' = page_table e /\ j' = j) ->
    block_of st' (file e') (tag e') (Z.of_nat j') = block_of st (file e') (tag e') (Z.of_nat j')).
  { intros e' j' He' Hne. apply Hsame. intros [= Ef Et Ej]. apply Hne.
    split; [|lia]. f_equal. by apply (entry_key es). }
  split; [split|].
  - intros p j' f' d'. unfold set_map. destruct (decide _); [|apply Hu]. intros [= <- <-]. by eapply Hu.
  - intros p1 j1 f' d1 p2 j2 d2. unfold set_map.
    destruct (decide (p1 = _ /\ _)) as [[-> ->]|], (decide (p2 = _ /\ _)) as [[-> ->]|]; try done.
    + intros [= <- <-] H2. by eapply Hi.
    + intros H1 [= <- <-]. by eapply Hi.
    + apply Hi.
  - intros e' j' f' He'. unfold set_map. destruct (decide _) as [[E ->]|Hne].
    + intros [= <-]. assert (e' = e) as -> by (by apply (entry_ptr es)). by rewrite Hdone.
    + intros Hm'. rewrite Hother by done. by apply Hc.
  - intros e' j' He'. unfold contents, set_map. destruct (decide _) as [[E ->]|Hne].
    + assert (e' = e) as -> by (by apply (entry_ptr es)). by rewrite Hm.
    + destruct (m (page_table e') j') as [[f' d']|]; [done|]. by apply Hother.
Qed.

(** A write in the frame of a page, which becomes dirty. *)
Lemma write_page es m fr mem mem' st e j f d :
  NoDup (map page_table es) -> e ∈ es ->
  map_wf es m fr mem st -> m (page_table e) j = Some (f, d) ->
  (forall f', 0 <= f' -> f' <> f -> frame_bytes mem' f' = frame_bytes mem f') ->
  map_wf es (set_map m (page_table e) j (Some (f, true))) fr mem' st /\
  (forall e' j', e' ∈ es -> (e', j') <> (e, j) ->
     contents (set_map m (page_table e) j (Some (f, true))) mem' st e' j' = contents m mem st e' j') /\
  contents (set_map m (page_table e) j (Some (f, true))) mem' st e j = frame_bytes mem' f.
Proof.
  intros Hp He [Hu Hi Hc] Hm Hsame.
  assert (Hkeep : forall p' j' f' d', m p' j' = Some (f', d') -> ~ (p' = page_table e /\ j' = j) ->
    frame_bytes mem' f' = frame_bytes mem f').
  { intros p' j' f' d' Hm' Hne. destruct (Hu _ _ _ _ Hm') as [H0 _]. apply Hsame; [done|].
    intros ->. apply Hne. by eapply Hi. }
  split; [split|split].
  - intros p' j' f' d'. unfold set_map. destruct (decide _); [|apply Hu]. intros [= <- <-]. by eapply Hu.
  - intros p1 j1 f' d1 p2 j2 d2. unfold set_map.
    destruct (decide (p1 = _ /\ _)) as [[-> ->]|], (decide (p2 = _ /\ _)) as [[-> ->]|]; try done.
    + intros [= <- <-] H2. by eapply Hi.
    + intros H1 [= <- <-]. by eapply Hi.
    + apply Hi.
  - intros e' j' f' He'. unfold set_map. destruct (decide _) as [|Hne]; [done|]. intros Hm'.
    rewrite (Hkeep _ _ _ _ Hm' Hne). by apply Hc.
  - intros e' j' He' Hne. unfold contents, set_map. destruct (decide _) as [[E ->]|Hne'].
    + exfalso. apply Hne. f_equal. by apply (entry_ptr es).
    + destruct (m (page_table e') j') as [[f' d']|] eqn:Hm'; [|done]. by eapply Hkeep.
  - unfold contents, set_map. by rewrite decide_True.
Qed.

End Invariant.
