(* ===== verification/MemorySpec.v ===== *)
(** * What the memory manager does (theorems about MemoryManager.v)

    Each operation on the invariant: which page it moves, and that the contents
    the memory manager stands for change only where a write changes them. *)

From S2P Require Import Prelude Commons PageTable MemoryManager MemoryInvariant.

Section Spec.
Context {BS : BlockStorage} {ps : Z} {BSS : BlockStorageSpec BS ps}.
Implicit Types (mm : memory_manager_t) (Q : Z -> memory_manager_t -> Prop).

Abbreviation mapping := (@mapping BS).

(** The same sockets, query and worker. *)
Definition same_conn mm mm' : Prop := conn_of mm' = conn_of mm /\ worker_id mm' = worker_id mm.

(** No table is that of the file. *)
Definition other_file (es : list file_tag_entry_t) (f t : string) : Prop :=
  forall e, e ∈ es -> ~ (file e = f /\ tag e = t).

(** The state an operation may leave: sound, with the same files, and standing for
    the same contents. *)
Record keeps mm mm' : Prop := {
  k_wf : mm_wf (ps := ps) mm';
  k_entries : entries mm' = entries mm;
  k_conn : same_conn mm mm';
  k_policy : policy mm' = policy mm;
  k_frames : frame_count mm' = frame_count mm;
  k_view e j : e ∈ entries mm -> view (ps := ps) mm' e j = view (ps := ps) mm e j;
  k_rest f t n : other_file (entries mm) f t -> block_of (the_store mm') f t n = block_of (the_store mm) f t n
}.

Definition same_counts mm mm' : Prop :=
  forall p, page_count <$> pts mm' !! p = page_count <$> pts mm !! p.

Lemma keeps_refl mm : mm_wf (ps := ps) mm -> keeps mm mm.
Proof. by split. Qed.

Lemma keeps_trans mm1 mm2 mm3 : keeps mm1 mm2 -> keeps mm2 mm3 -> keeps mm1 mm3.
Proof.
  intros [W1 E1 C1 P1 F1 V1 R1] [W2 E2 C2 P2 F2 V2 R2].
  split; [done|congruence| |congruence|congruence| |].
  - destruct C1, C2. split; congruence.
  - intros e j He. rewrite V2 by (by rewrite E1). by apply V1.
  - intros f t n Hf. rewrite R2 by (by rewrite E1). by apply R1.
Qed.

Lemma same_counts_trans mm1 mm2 mm3 :
  same_counts mm1 mm2 -> same_counts mm2 mm3 -> same_counts mm1 mm3.
Proof. intros H1 H2 p. by rewrite H2, H1. Qed.

(** ** Rules for the primitives *)

Lemma wp_get_pt p pt (R : _ -> memory_manager_t -> Prop) mm :
  pts mm !! p = Some pt -> R pt mm -> wp (get_pt p) R mm.
Proof. intros H HR. unfold wp, get_pt. by rewrite H. Qed.

Lemma struct_set_pt p pt mm :
  struct_wf (ps := ps) mm -> is_Some (pts mm !! p) -> pt_wf pt ->
  struct_wf (ps := ps) (on_pts (fun h => <[p := pt]> h) mm).
Proof.
  intros [] Hp Hpt.
  assert (Hdom : forall q, is_Some (<[p := pt]> (pts mm) !! q) <-> is_Some (pts mm !! q)).
  { intros q. rewrite lookup_insert_is_Some'. naive_solver. }
  split; try done; cbn [pts on_pts entries next_ptr last_victim].
  - intros q. by rewrite Hdom.
  - intros q. rewrite Hdom. auto.
  - intros q pt' [[<- <-]|[_ Hq]]%lookup_insert_Some; [done|eauto].
  - intros q j Hv. rewrite Hdom. eauto.
Qed.

Lemma mapping_set_pt p pt mm q j :
  mapping (on_pts (fun h => <[p := pt]> h) mm) q j =
    if decide (q = p) then page_map (pt_entries pt !! j) else mapping mm q j.
Proof.
  unfold MemoryInvariant.mapping. cbn [pts on_pts]. destruct (decide (q = p)) as [->|].
  - by rewrite lookup_insert_eq.
  - by rewrite lookup_insert_ne.
Qed.

Lemma mapping_get p pt mm j : pts mm !! p = Some pt -> mapping mm p j = page_map (pt_entries pt !! j).
Proof. intros H. unfold MemoryInvariant.mapping. by rewrite H. Qed.

Lemma mapping_some mm p j f d :
  mapping mm p j = Some (f, d) ->
  exists pt pg, pts mm !! p = Some pt /\ pt_entries pt !! j = Some pg /\
    present pg = true /\ frame pg = f /\ dirty pg = d.
Proof.
  unfold MemoryInvariant.mapping, page_map. destruct (pts mm !! p) as [pt|]; [|done].
  destruct (pt_entries pt !! j) as [pg|] eqn:E; [|done].
  destruct (present pg) eqn:Ep; [|done]. intros [= <- <-]. by exists pt, pg.
Qed.

Lemma mapped_frame mm p j f d :
  mm_wf (ps := ps) mm -> mapping mm p j = Some (f, d) -> 0 <= f < frame_count mm.
Proof.
  intros [_ Hm] E. destruct (m_used _ _ _ _ _ Hm _ _ _ _ E) as [H0 Hl]. apply lookup_lt_Some in Hl.
  unfold frame_count. lia.
Qed.

(** An entry of a table changed in one place. *)
Lemma mapping_set_entry p pt n g mm q j :
  pts mm !! p = Some pt ->
  mapping (on_pts (fun h => <[p := pt_set_entry pt n g]> h) mm) q j =
    set_map (mapping mm) p (Z.to_nat n) (page_map (g <$> pt_entries pt !! Z.to_nat n)) q j.
Proof.
  intros Hp. rewrite mapping_set_pt. unfold set_map. cbn [pt_set_entry pt_entries].
  destruct (decide (q = p)) as [->|Hne].
  - destruct (decide (p = p /\ j = Z.to_nat n)) as [[_ ->]|Hj].
    + by rewrite list_lookup_alter_eq.
    + rewrite list_lookup_alter_ne by naive_solver. by rewrite (mapping_get p pt).
  - rewrite decide_False; [done|]. naive_solver.
Qed.

(** A change of a table that moves no page. *)
Lemma set_pt_keeps p pt mm :
  mm_wf (ps := ps) mm -> is_Some (pts mm !! p) -> pt_wf pt ->
  (forall j, page_map (pt_entries pt !! j) = mapping mm p j) ->
  keeps mm (on_pts (fun h => <[p := pt]> h) mm) /\
  (forall q j, mapping (on_pts (fun h => <[p := pt]> h) mm) q j = mapping mm q j).
Proof.
  intros [Hs Hm] Hp Hpt Hj.
  assert (E : forall q j, mapping (on_pts (fun h => <[p := pt]> h) mm) q j = mapping mm q j).
  { intros q j. rewrite mapping_set_pt. destruct (decide (q = p)) as [->|]; [apply Hj|done]. }
  split; [|exact E]. split; try done.
  - split; [by apply struct_set_pt|]. by eapply map_wf_ext.
  - intros e j He. by apply contents_ext.
Qed.

Lemma same_counts_set_entry p pt n g mm :
  pts mm !! p = Some pt -> same_counts mm (on_pts (fun h => <[p := pt_set_entry pt n g]> h) mm).
Proof.
  intros Hp q. cbn [pts on_pts]. destruct (decide (p = q)) as [<-|].
  - by rewrite lookup_insert_eq, Hp.
  - by rewrite lookup_insert_ne.
Qed.

(** An update of the fields of a page that say nothing of where it is. *)
Lemma touch_keeps p pt n g mm :
  mm_wf (ps := ps) mm -> pts mm !! p = Some pt ->
  (forall e, page_number (g e) = page_number e /\ frame (g e) = frame e /\
     dirty (g e) = dirty e /\ present (g e) = present e) ->
  let mm' := on_pts (fun h => <[p := pt_set_entry pt n g]> h) mm in
  keeps mm mm' /\ (forall q j, mapping mm' q j = mapping mm q j) /\ same_counts mm mm'.
Proof.
  intros Hwf Hp Hg mm'. pose proof Hwf as [Hs Hm].
  destruct (set_pt_keeps p (pt_set_entry pt n g) mm) as [H1 H2].
  - done.
  - eauto.
  - apply pt_set_entry_wf; [by eapply s_pt|]. intros e. apply Hg.
  - intros j. rewrite (mapping_get p pt) by done. cbn [pt_set_entry pt_entries].
    destruct (decide (j = Z.to_nat n)) as [->|].
    + rewrite list_lookup_alter_eq. destruct (pt_entries pt !! Z.to_nat n) as [pg|]; [|done].
      simpl. destruct (Hg pg) as (_ & -> & -> & ->). done.
    + by rewrite list_lookup_alter_ne.
  - split; [exact H1|]. split; [exact H2|]. by apply same_counts_set_entry.
Qed.

(** Fields that no property mentions. *)
Lemma timestamp_keeps t mm : mm_wf (ps := ps) mm -> keeps mm (on_timestamp t mm).
Proof. intros [[] []]. by split. Qed.

Lemma clock_keeps n mm :
  mm_wf (ps := ps) mm -> 0 <= n -> n < frame_count mm -> keeps mm (on_clock n mm).
Proof. intros [[] []] Hn Hl. split; try done. split; [|done]. split; try done. auto. Qed.

Lemma wp_update_access p pt n (R : unit -> memory_manager_t -> Prop) mm :
  mm_wf (ps := ps) mm -> pts mm !! p = Some pt ->
  (forall mm', keeps mm mm' -> (forall q j, mapping mm' q j = mapping mm q j) ->
     same_counts mm mm' -> frames mm' = frames mm -> R tt mm') ->
  wp (mm_update_page_access p n) R mm.
Proof.
  intros Hwf Hp HR. unfold mm_update_page_access. apply wp_bind. eapply wp_get_pt; [exact Hp|].
  destruct (Z.leb_spec (page_count pt) n) as [Hle|Hlt].
  { apply wp_ret, HR; [by apply keeps_refl|done|done|done]. }
  apply wp_bind, wp_get. destruct (policy mm).
  - apply wp_modify. destruct (touch_keeps p pt n (on_use_bit true) mm) as (H1 & H2 & H3); [done..|].
    by apply HR.
  - apply wp_bind, wp_modify, wp_modify. unfold pt_update_access_time.
    destruct (pt_get_entry pt n) as [e|].
    + destruct (touch_keeps p pt n (on_access_time (u64 (global_timestamp mm + 1)))
        (on_timestamp (u64 (global_timestamp mm + 1)) mm)) as (H1 & H2 & H3);
        [by apply timestamp_keeps|done|done|].
      apply HR; [|exact H2|exact H3|done].
      eapply keeps_trans; [by apply timestamp_keeps|exact H1].
    + destruct (set_pt_keeps p pt (on_timestamp (u64 (global_timestamp mm + 1)) mm)) as [H1 H2];
        [by apply timestamp_keeps|eauto|destruct Hwf; by eapply s_pt| |].
      { intros j. by rewrite (mapping_get p pt). }
      apply HR; [|exact H2| |done].
      * eapply keeps_trans; [by apply timestamp_keeps|exact H1].
      * intros q. cbn [pts on_pts on_timestamp]. destruct (decide (p = q)) as [<-|];
          [by rewrite lookup_insert_eq, Hp|by rewrite lookup_insert_ne].
Qed.

(** ** Evictions *)

(** Frame [f] was taken from a page and is free. *)
Record evicts mm mm' (f : Z) : Prop := {
  e_keeps : keeps mm mm';
  e_counts : same_counts mm mm';
  e_range : 0 <= f < frame_count mm;
  e_frames : frames mm' = <[Z.to_nat f := false]> (frames mm);
  e_free : unmapped (mapping mm') f;
  e_mapping p j : mapping mm' p j = mapping mm p j \/ exists d, mapping mm p j = Some (f, d)
}.

Lemma wp_set_used f b (R : unit -> memory_manager_t -> Prop) mm :
  0 <= f < frame_count mm -> R tt (on_frames (fun l => <[Z.to_nat f := b]> l) mm) ->
  wp (set_used f b) R mm.
Proof.
  intros Hf HR. unfold set_used. apply wp_bind, wp_get.
  destruct (Z.leb_spec 0 f); [|lia]. destruct (Z.ltb_spec f (frame_count mm)); [|lia].
  by apply wp_modify.
Qed.

Lemma struct_frames f b mm :
  struct_wf (ps := ps) mm -> struct_wf (ps := ps) (on_frames (fun l => <[Z.to_nat f := b]> l) mm).
Proof.
  intros []. split; try done; unfold frame_count in *; cbn [frames on_frames clock_pointer physical_memory];
    by rewrite length_insert.
Qed.

(** A block of one page in the Storage, all the others as they were. *)
Definition stores (s s' : store) (e : file_tag_entry_t) (j : nat) (bs : list byte) : Prop :=
  block_of s' (file e) (tag e) (Z.of_nat j) = bs /\
  forall f t n, (f, t, n) <> (file e, tag e, Z.of_nat j) -> block_of s' f t n = block_of s f t n.

Lemma release_run e j f d st mm :
  mm_wf (ps := ps) mm -> e ∈ entries mm -> mapping mm (page_table e) j = Some (f, d) ->
  stores (the_store mm) st e j (frame_bytes (ps := ps) (physical_memory mm) f) ->
  wp (release_victim e (Z.of_nat j) f) (fun _ mm' => evicts mm mm' f) (on_store st mm).
Proof.
  intros [Hs Hm] He Hj [Hdone Hsame].
  destruct (mapping_some mm (page_table e) j f d Hj) as (pt & pg & Hp & Hpg & Hpr & Hfr & Hd).
  destruct (m_used _ _ _ _ _ Hm _ _ _ _ Hj) as [H0 Hused].
  assert (Hrange : 0 <= f < frame_count mm).
  { apply lookup_lt_Some in Hused. unfold frame_count. lia. }
  assert (Hpt : pt_wf pt) by (by eapply s_pt).
  assert (Hun : pt_unmap pt (Z.of_nat j) = (0, pt_set_entry pt (Z.of_nat j) on_unmapped)).
  { unfold pt_unmap. destruct (pt_get_entry_some pt (Z.of_nat j) Hpt) as (e' & -> & _); [|done].
    pose proof (ptw_count pt Hpt). apply lookup_lt_Some in Hpg. lia. }
  unfold release_victim. apply wp_bind. eapply wp_get_pt; [exact Hp|].
  apply wp_bind, wp_modify, wp_bind, wp_set_used; [exact Hrange|]. apply wp_modify. rewrite Hun. cbn [snd].
  set (mm1 := on_pts _ (on_store st mm)).
  assert (Emap : forall q i, mapping mm1 q i = set_map (mapping mm) (page_table e) j None q i).
  { intros q i. unfold mm1. rewrite (mapping_set_entry _ _ _ _ (on_store st mm)) by exact Hp.
    rewrite Nat2Z.id, Hpg. done. }
  destruct (evict_page (entries mm) (mapping mm) (frames mm) (physical_memory mm) (the_store mm) st
              e j f d (s_keys _ Hs) (s_ptrs _ Hs) He Hm Hj Hsame Hdone) as [Hm' Hv].
  assert (Hfree : unmapped (set_map (mapping mm) (page_table e) j None) f) by (by eapply evicted_unmapped).
  assert (Hs1 : struct_wf (ps := ps) mm1).
  { apply struct_set_pt; [by destruct Hs|by exists pt|by apply pt_set_entry_wf]. }
  split.
  - split; try done.
    + split.
      * destruct (struct_frames f false mm1 Hs1). split; try done.
        cbn [last_victim on_victim on_frames pts mm1 on_pts]. intros p i [= <- <-].
        rewrite lookup_insert_eq. eauto.
      * eapply (map_wf_ext _ (set_map (mapping mm) (page_table e) j None)); [|exact Emap|done].
        eapply frame_used; [exact Hm'|by right|lia].
    + unfold frame_count. cbn. by rewrite length_insert.
    + intros e' j' He'. etransitivity; [|by apply Hv]. by apply contents_ext.
    + intros f' t n Hf'. apply Hsame. intros [= -> -> _]. by apply (Hf' e).
  - intros q. exact (same_counts_set_entry _ _ (Z.of_nat j) on_unmapped (on_store st mm) Hp q).
  - exact Hrange.
  - done.
  - intros p i d' Hmp. apply (Hfree p i d'). by rewrite <- Emap.
  - intros p i. change (mapping _ p i) with (mapping mm1 p i) at 1. rewrite Emap. unfold set_map.
    destruct (decide _) as [[-> ->]|]; [right; eauto|by left].
Qed.

(** A clean page is already in the Storage. *)
Lemma release_clean e j f mm :
  mm_wf (ps := ps) mm -> e ∈ entries mm -> mapping mm (page_table e) j = Some (f, false) ->
  wp (release_victim e (Z.of_nat j) f) (fun _ mm' => evicts mm mm' f) mm.
Proof.
  intros Hwf He Hj. pose proof Hwf as [Hs Hm].
  assert (E : on_store (the_store mm) mm = mm) by (by destruct mm).
  pose proof (release_run e j f false (the_store mm) mm Hwf He Hj) as H. rewrite E in H.
  apply H. split; [|done]. symmetry. by eapply m_coherent.
Qed.

Lemma load_frame f (R : _ -> memory_manager_t -> Prop) mm :
  mm_wf (ps := ps) mm -> 0 <= f < frame_count mm ->
  R (frame_bytes (ps := ps) (physical_memory mm) f) mm -> wp (load (f * mm_page_size mm) (mm_page_size mm)) R mm.
Proof.
  intros [Hs _] Hf HR. destruct (s_ps _ Hs) as [-> Hps]. pose proof (s_mem _ Hs) as Hmem.
  unfold wp, load. destruct (Z.leb_spec 0 (f * ps)); [|nia].
  destruct (Z.leb_spec (f * ps + ps) (Z.of_nat (length (physical_memory mm)))); [done|nia].
Qed.

Lemma frame_bytes_length f mm :
  mm_wf (ps := ps) mm -> 0 <= f < frame_count mm ->
  length (frame_bytes (ps := ps) (physical_memory mm) f) = Z.to_nat ps.
Proof.
  intros [Hs _] Hf. destruct (s_ps _ Hs) as [_ Hps]. pose proof (s_mem _ Hs) as Hmem.
  apply length_mem_read. nia.
Qed.

Lemma mapped_number mm p j f d :
  mm_wf (ps := ps) mm -> mapping mm p j = Some (f, d) -> 0 <= Z.of_nat j < 2 ^ 32.
Proof.
  intros [Hs _] (pt & pg & Hp & Hpg & _)%mapping_some. destruct (s_pt _ Hs _ _ Hp) as [Hc Hr _].
  apply lookup_lt_Some in Hpg. lia.
Qed.

(** A Storage that never refuses a write, or a read. *)
Definition writes_succeed (c : conn_t) : Prop :=
  forall f t n bs s, wp (write_block_to_storage c f t n bs) (fun r _ => r = 0) s.
Definition reads_succeed (c : conn_t) : Prop :=
  forall f t n s, wp (read_block_from_storage c f t n) (fun rd _ => fst rd = 0) s.

(** The frame of a page is written to the Storage: on success the Storage has the
    page; on failure nothing is lost if the page was dirty, since it stays so. *)
Lemma storage_write_run e j f d (R : Z -> memory_manager_t -> Prop) mm :
  mm_wf (ps := ps) mm -> e ∈ entries mm -> mapping mm (page_table e) j = Some (f, d) ->
  (forall r st, (r = 0 -> stores (the_store mm) st e j (frame_bytes (ps := ps) (physical_memory mm) f)) ->
     (d = true -> keeps mm (on_store st mm)) -> (writes_succeed (conn_of mm) -> r = 0) -> R r (on_store st mm)) ->
  wp (storage_write (file e) (tag e) (Z.of_nat j) (frame_bytes (ps := ps) (physical_memory mm) f)) R mm.
Proof.
  intros Hwf He Hj HR. pose proof Hwf as [Hs Hm].
  pose proof (mapped_frame _ _ _ _ _ Hwf Hj) as Hrange.
  destruct (s_names _ Hs e He) as [Hnf Hnt].
  pose proof (write_block_run (conn_of mm) (file e) (tag e) (Z.of_nat j)
    (frame_bytes (ps := ps) (physical_memory mm) f) (the_store mm) (s_conn _ Hs) Hnf Hnt
    (mapped_number _ _ _ _ _ Hwf Hj) (frame_bytes_length f mm Hwf Hrange)) as Hw.
  apply wp_run in Hw as (r & st & Ew & Hsame & Hdone). unfold wp, storage_write. rewrite Ew. apply HR.
  - intros ->. split; [|done]. by apply Hdone.
  - intros ->.
    assert (Hother : forall e' j' f', e' ∈ entries mm -> mapping mm (page_table e') j' = Some (f', false) \/
                       mapping mm (page_table e') j' = None ->
              block_of st (file e') (tag e') (Z.of_nat j') = block_of (the_store mm) (file e') (tag e') (Z.of_nat j')).
    { intros e' j' f' He' Hc. apply Hsame. intros [= Ef Et Ej].
      assert (e' = e) as -> by (by apply (entry_key (entries mm)); [apply Hs|..]).
      assert (j' = j) as -> by lia. destruct Hc; congruence. }
    split; try done.
    + split; [by destruct Hs|]. destruct Hm as [Hu Hi Hc]. split; [done|done|].
      intros e' j' f' He' Hm'. etransitivity; [by apply (Hc e' j')|]. symmetry.
      apply (Hother e' j' f'); auto.
    + intros e' j' He'. unfold view, contents. cbn [the_store on_store physical_memory].
      change (mapping (on_store st mm)) with (mapping mm).
      destruct (mapping mm (page_table e') j') as [[f' d']|] eqn:Hm'; [done|].
      by apply (Hother e' j' 0); [|right].
    + intros f' t n Hf'. apply Hsame. intros [= -> -> _]. by apply (Hf' e).
  - intros Hw. specialize (Hw (file e) (tag e) (Z.of_nat j) (frame_bytes (ps := ps) (physical_memory mm) f) (the_store mm)).
    unfold wp in Hw. by rewrite Ew in Hw.
Qed.

Lemma write_back_run e j f d (R : Z -> memory_manager_t -> Prop) mm :
  mm_wf (ps := ps) mm -> e ∈ entries mm -> mapping mm (page_table e) j = Some (f, d) ->
  (forall r st, (r = 0 -> stores (the_store mm) st e j (frame_bytes (ps := ps) (physical_memory mm) f)) ->
     (d = true -> keeps mm (on_store st mm)) -> (writes_succeed (conn_of mm) -> r = 0) -> R r (on_store st mm)) ->
  wp (write_back e (Z.of_nat j) f) R mm.
Proof.
  intros Hwf He Hj HR. pose proof (mapped_frame _ _ _ _ _ Hwf Hj) as Hrange.
  unfold write_back. apply wp_bind, wp_get. unfold mm_get_frame_address.
  destruct (Z.leb_spec (frame_count mm) f); [lia|].
  apply wp_bind, load_frame; [done|done|]. by eapply storage_write_run.
Qed.

(** ** The entry of a file *)

Lemma same_file_true f t e : same_file f t e = true <-> file e = f /\ tag e = t.
Proof. unfold same_file. by rewrite andb_true_iff, !String.eqb_eq. Qed.

Lemma find_entry (es : list file_tag_entry_t) f t :
  match List.find (same_file f t) es with
  | Some e => e ∈ es /\ file e = f /\ tag e = t
  | None => other_file es f t
  end.
Proof.
  destruct (List.find (same_file f t) es) as [e|] eqn:E.
  - apply find_some in E as [Hin Hf]. split; [by apply list_elem_of_In|]. by apply same_file_true.
  - intros e He Hf. apply same_file_true in Hf. apply list_elem_of_In in He.
    pose proof (find_none _ _ E e He). congruence.
Qed.

Lemma find_own (es : list file_tag_entry_t) e :
  NoDup (map (fun e => (file e, tag e)) es) -> e ∈ es ->
  List.find (same_file (file e) (tag e)) es = Some e.
Proof.
  intros Hk He. pose proof (find_entry es (file e) (tag e)) as H.
  destruct (List.find _ es) as [e'|]; [|by destruct (H e)].
  destruct H as (He' & Hf & Ht). f_equal. by apply (entry_key es).
Qed.

(** ** LRU *)

(** Every page of every table, in the order of the loops. *)
Definition table_pages mm (e : file_tag_entry_t) : list (file_tag_entry_t * nat * pt_entry_t) :=
  match pts mm !! page_table e with
  | Some pt => imap (fun j pg => (e, j, pg)) (pt_entries pt)
  | None => []
  end.

Lemma table_pages_some mm e pt :
  pts mm !! page_table e = Some pt -> table_pages mm e = imap (fun j pg => (e, j, pg)) (pt_entries pt).
Proof. intros H. unfold table_pages. by rewrite H. Qed.

Definition all_pages mm (es : list file_tag_entry_t) := flat_map (table_pages mm) es.

Definition lru_step (v : lru_victim) (x : file_tag_entry_t * nat * pt_entry_t) : lru_victim :=
  let '(e, j, pg) := x in
  if present pg && (last_access_time pg <? oldest_time v)
  then MkVictim (last_access_time pg) (Some (frame pg, e, j)) else v.

Lemma lru_pages_fold e pages j v :
  lru_pages e pages j v = fold_left lru_step (imap (fun i pg => (e, (j + i)%nat, pg)) pages) v.
Proof.
  revert j v. induction pages as [|pg pages IH]; intros j v; [done|].
  cbn [lru_pages imap fold_left]. rewrite IH, Nat.add_0_r. f_equal.
  apply imap_ext. intros i pg' _. simpl. do 2 f_equal. lia.
Qed.

Lemma lru_tables_fold es v mm :
  (forall e, e ∈ es -> is_Some (pts mm !! page_table e)) ->
  lru_tables es v mm = Some (fold_left lru_step (all_pages mm es) v, mm).
Proof.
  revert v. induction es as [|e es IH]; intros v Hes; [done|]. cbn [lru_tables all_pages flat_map].
  destruct (Hes e) as [pt Hp]; [constructor|]. unfold mbind, st_bind, get_pt. rewrite Hp.
  rewrite IH by (intros; apply Hes; by constructor).
  by rewrite (table_pages_some mm e pt Hp), fold_left_app, lru_pages_fold.
Qed.

Lemma lru_fold l v0 :
  let v := fold_left lru_step l v0 in
  (v = v0 /\ forall e j pg, In (e, j, pg) l -> present pg = true -> oldest_time v0 <= last_access_time pg) \/
  (exists e j pg, In (e, j, pg) l /\ present pg = true /\ victim v = Some (frame pg, e, j) /\
     oldest_time v = last_access_time pg /\ last_access_time pg < oldest_time v0 /\
     forall e' j' pg', In (e', j', pg') l -> present pg' = true -> last_access_time pg <= last_access_time pg').
Proof.
  revert v0. induction l as [|[[e j] pg] l IH]; intros v0; cbn [fold_left]; [by left|].
  set (v1 := lru_step v0 (e, j, pg)).
  assert (Hv1 : (v1 = v0 /\ (present pg = true -> oldest_time v0 <= last_access_time pg)) \/
                (present pg = true /\ v1 = MkVictim (last_access_time pg) (Some (frame pg, e, j)) /\
                 last_access_time pg < oldest_time v0)).
  { unfold v1, lru_step. destruct (present pg); simpl; [|by left].
    destruct (Z.ltb_spec (last_access_time pg) (oldest_time v0)); [by right|left; auto]. }
  destruct (IH v1) as [[E Hall]|(e' & j' & pg' & Hin & Hpr & Hvic & Hold & Hlt & Hall)].
  - destruct Hv1 as [[E1 Hpg]|(Hpg & E1 & Hlt)].
    + left. rewrite E, E1. split; [done|]. intros ? ? ? [[= <- <- <-]|Hin] Hp; [auto|].
      rewrite <- E1. by eapply Hall.
    + right. exists e, j, pg. rewrite E, E1. cbn [victim oldest_time].
      split; [by left|]. repeat split; try done. intros ? ? ? [[= <- <- <-]|Hin] Hp; [lia|].
      specialize (Hall _ _ _ Hin Hp). rewrite E1 in Hall. exact Hall.
  - right. exists e', j', pg'. split; [by right|]. repeat split; try done.
    + destruct Hv1 as [[-> _]|(_ & -> & ?)] in Hlt; [done|]. cbn [oldest_time] in Hlt. lia.
    + intros ? ? ? [[= <- <- <-]|Hin'] Hp; [|by eapply Hall].
      destruct Hv1 as [[E1 Hpg]|(_ & E1 & ?)]; rewrite E1 in Hlt; [specialize (Hpg Hp); lia|].
      cbn [oldest_time] in Hlt. lia.
Qed.

Lemma in_all_pages mm es e j pg :
  In (e, j, pg) (all_pages mm es) <->
  e ∈ es /\ exists pt, pts mm !! page_table e = Some pt /\ pt_entries pt !! j = Some pg.
Proof.
  unfold all_pages. rewrite in_flat_map. split.
  - intros (e' & He' & Hin). unfold table_pages in Hin. destruct (pts mm !! page_table e') as [pt|] eqn:Hp; [|done].
    apply list_elem_of_In, elem_of_lookup_imap_1 in Hin as (i & pg' & [= <- <- <-] & Hl).
    split; [by apply list_elem_of_In|]. by exists pt.
  - intros (He & pt & Hp & Hl). exists e. split; [by apply list_elem_of_In|].
    unfold table_pages. rewrite Hp. apply list_elem_of_In.
    by apply (elem_of_lookup_imap_2 (fun j pg => (e, j, pg))).
Qed.

(** The page that is evicted has the oldest access of all the pages in memory. *)
Definition oldest_page mm (f : Z) : Prop :=
  exists e j pt pg, e ∈ entries mm /\ pts mm !! page_table e = Some pt /\ pt_entries pt !! j = Some pg /\
    present pg = true /\ frame pg = f /\
    forall e' j' pt' pg', e' ∈ entries mm -> pts mm !! page_table e' = Some pt' ->
      pt_entries pt' !! j' = Some pg' -> present pg' = true -> last_access_time pg <= last_access_time pg'.

(** There is a page the loops can take: one whose time is not the largest there is. *)
Definition young_page mm : Prop :=
  exists e j pt pg, e ∈ entries mm /\ pts mm !! page_table e = Some pt /\ pt_entries pt !! j = Some pg /\
    present pg = true /\ last_access_time pg < UINT64_MAX.

(** Nothing was evicted and nothing was lost. *)
Record stays mm mm' : Prop := {
  st_keeps : keeps mm mm';
  st_counts : same_counts mm mm';
  st_frames : frames mm' = frames mm;
  st_mapping p j : mapping mm' p j = mapping mm p j
}.

Lemma stays_refl mm : mm_wf (ps := ps) mm -> stays mm mm.
Proof. intros. split; [by apply keeps_refl|done..]. Qed.

Lemma entry_table mm e : mm_wf (ps := ps) mm -> e ∈ entries mm -> is_Some (pts mm !! page_table e).
Proof. intros [Hs _] He. apply (s_dom _ Hs). apply list_elem_of_fmap. eauto. Qed.

Lemma mm_find_lru_victim_run mm :
  mm_wf (ps := ps) mm ->
  wp mm_find_lru_victim (fun r mm' =>
    (r = -1 /\ stays mm mm' /\ (writes_succeed (conn_of mm) -> ~ young_page mm)) \/
    (evicts mm mm' r /\ oldest_page mm r)) mm.
Proof.
  intros Hwf. pose proof Hwf as [Hs Hm]. unfold mm_find_lru_victim. apply wp_bind, wp_get.
  apply wp_bind. eapply wp_intro; [apply lru_tables_fold; intros e He; by apply entry_table|].
  destruct (lru_fold (all_pages mm (entries mm)) (MkVictim UINT64_MAX None))
    as [[-> Hno]|(e & j & pg & Hin & Hpr & Hv & _ & _ & Hall)].
  { apply wp_ret. left. split; [done|]. split; [by apply stays_refl|].
    intros _ (e & j & pt & pg & He & Hp & Hpg & Hpr & Hlt).
    specialize (Hno e j pg). cbn [oldest_time] in Hno. enough (UINT64_MAX <= last_access_time pg) by lia.
    apply Hno; [|done]. apply in_all_pages. eauto. }
  rewrite Hv. apply in_all_pages in Hin as (He & pt & Hp & Hpg).
  assert (Hmap : mapping mm (page_table e) j = Some (frame pg, dirty pg)).
  { rewrite (mapping_get _ pt) by done. unfold page_map. by rewrite Hpg, Hpr. }
  destruct (m_used _ _ _ _ _ Hm _ _ _ _ Hmap) as [H0 Hused].
  assert (Hrange : 0 <= frame pg < frame_count mm).
  { apply lookup_lt_Some in Hused. unfold frame_count. lia. }
  pose proof (s_count _ Hs) as Hcount.
  assert (Hold : oldest_page mm (frame pg)).
  { exists e, j, pt, pg. repeat split; try done. intros e' j' pt' pg' He' Hp' Hpg' Hpr'.
    apply (Hall e' j' pg'); [|done]. apply in_all_pages. eauto. }
  assert (Ei : i32 (frame pg) = frame pg) by (apply to_signed_id; lia).
  destruct (Z.eqb_spec (frame pg) UINT32_MAX) as [E|_]; [unfold UINT32_MAX in E; lia|].
  apply wp_bind. eapply wp_get_pt; [exact Hp|]. rewrite Hpg. apply wp_bind.
  destruct (dirty pg) eqn:Hd.
  - eapply write_back_run; [done|exact He|exact Hmap|]. intros r st Hst Hk Hok.
    destruct (Z.eqb_spec r 0) as [->|Hr]; simpl negb; cbv iota.
    + apply wp_bind. eapply wp_mono; [eapply release_run; [done|done|exact Hmap|by apply Hst]|].
      intros [] mm' Hev. cbv beta in Hev. apply wp_ret. right. rewrite Ei. by split.
    + apply wp_ret. left. split; [done|]. split; [split; [by apply Hk|done..]|].
      intros Hw. by destruct Hr; apply Hok.
  - apply wp_ret. simpl negb. cbv iota. apply wp_bind.
    eapply wp_mono; [by eapply release_clean|]. intros [] mm' Hev. cbv beta in Hev. apply wp_ret. right. rewrite Ei. by split.
Qed.

End Spec.
