(* ===== verification/ClockSpec.v ===== *)
(** * The modified clock (theorems about [mm_find_clockm_victim])

    The search ends within two rounds when some frame holds a page, and the page
    it takes is of the best class there is: not in use before in use, clean before
    dirty. *)

From S2P Require Import Prelude Commons PageTable MemoryManager MemoryInvariant MemorySpec.

Section Clock.
Context {BS : BlockStorage} {ps : Z} {BSS : BlockStorageSpec BS ps}.
Implicit Types (mm : memory_manager_t).

Abbreviation mapping := (@mapping BS).
Abbreviation wf := (@mm_wf BS ps BSS).

(** Page [j] of [e] is in frame [f], with the bits of [pg]. *)
Definition in_frame mm (f : Z) (e : file_tag_entry_t) (j : nat) (pg : pt_entry_t) : Prop :=
  e ∈ entries mm /\ exists pt, pts mm !! page_table e = Some pt /\ pt_entries pt !! j = Some pg /\
    present pg = true /\ frame pg = f.

Lemma in_frame_mapping mm f e j pg :
  in_frame mm f e j pg -> mapping mm (page_table e) j = Some (f, dirty pg).
Proof.
  intros (He & pt & Hp & Hpg & Hpr & <-). unfold MemoryInvariant.mapping, page_map.
  by rewrite Hp, Hpg, Hpr.
Qed.

Lemma in_frame_unique mm f e j pg e' j' pg' :
  wf mm -> in_frame mm f e j pg -> in_frame mm f e' j' pg' -> e = e' /\ j = j' /\ pg = pg'.
Proof.
  intros [Hs Hm] H H'. pose proof (in_frame_mapping _ _ _ _ _ H) as E.
  pose proof (in_frame_mapping _ _ _ _ _ H') as E'.
  destruct (m_inj _ _ _ _ _ Hm _ _ _ _ _ _ _ E E') as [Ep ->].
  destruct H as (He & pt & Hp & Hpg & _), H' as (He' & pt' & Hp' & Hpg' & _).
  assert (e = e') as -> by (by apply (entry_ptr (entries mm)); [apply Hs|..]).
  rewrite Hp in Hp'. injection Hp' as <-. rewrite Hpg in Hpg'. by injection Hpg' as <-.
Qed.

Lemma in_frame_range mm f e j pg : wf mm -> in_frame mm f e j pg -> 0 <= f < frame_count mm.
Proof.
  intros [Hs Hm] H. destruct (m_used _ _ _ _ _ Hm _ _ _ _ (in_frame_mapping _ _ _ _ _ H)) as [H0 Hl].
  apply lookup_lt_Some in Hl. unfold frame_count. lia.
Qed.

(** ** The page in a frame *)

Lemma page_of_frame_spec pages f j :
  match page_of_frame pages f j with
  | Some i => exists pg, (j <= i)%nat /\ pages !! (i - j)%nat = Some pg /\ present pg = true /\ frame pg = f
  | None => forall i pg, pages !! i = Some pg -> ~ (present pg = true /\ frame pg = f)
  end.
Proof.
  revert j. induction pages as [|pg pages IH]; intros j; simpl; [done|].
  destruct (present pg && (frame pg =? f)) eqn:E.
  - apply andb_true_iff in E as [Ep Ef%Z.eqb_eq]. exists pg. by rewrite Nat.sub_diag.
  - specialize (IH (S j)). destruct (page_of_frame pages f (S j)) as [i|].
    + destruct IH as (pg' & Hle & Hl & Hp & Hf). exists pg'. split; [lia|].
      replace (i - j)%nat with (S (i - S j)) by lia. done.
    + intros [|i] pg' Hl; [|by apply IH in Hl]. injection Hl as <-. intros [Ep Ef].
      rewrite Ep, Ef, Z.eqb_refl in E. done.
Qed.

Lemma find_page_for_frame_run mm es f :
  (forall e, e ∈ es -> is_Some (pts mm !! page_table e)) ->
  wp (find_page_for_frame es f) (fun r mm' => mm' = mm /\
    match r with
    | Some (e, j) => e ∈ es /\ exists pt pg, pts mm !! page_table e = Some pt /\
        pt_entries pt !! j = Some pg /\ present pg = true /\ frame pg = f
    | None => forall e j pt pg, e ∈ es -> pts mm !! page_table e = Some pt ->
        pt_entries pt !! j = Some pg -> ~ (present pg = true /\ frame pg = f)
    end) mm.
Proof.
  induction es as [|e es IH]; intros Hes; cbn [find_page_for_frame].
  { apply wp_ret. split; [done|]. by intros ? ? ? ? ?%not_elem_of_nil. }
  destruct (Hes e) as [pt Hp]; [constructor|]. apply wp_bind. eapply wp_get_pt; [exact Hp|].
  pose proof (page_of_frame_spec (pt_entries pt) f 0) as Hspec.
  destruct (page_of_frame (pt_entries pt) f 0) as [j|].
  - destruct Hspec as (pg & _ & Hl & Hpr & Hf). rewrite Nat.sub_0_r in Hl.
    apply wp_ret. split; [done|]. split; [constructor|]. by exists pt, pg.
  - eapply wp_mono; [apply IH; intros; apply Hes; by constructor|].
    intros r mm' [-> Hr]. split; [done|]. destruct r as [[e' j']|].
    + destruct Hr as [He' Hr]. split; [by constructor|done].
    + intros e' j' pt' pg' [->|He']%elem_of_cons Hp' Hl; [|by eapply Hr].
      rewrite Hp in Hp'. injection Hp' as <-. by eapply Hspec.
Qed.

Lemma at_hand_run mm :
  wf mm -> 0 < frame_count mm ->
  wp at_hand (fun h mm' => mm' = mm /\ fst h = clock_pointer mm /\
    match snd h with
    | Some (e, j, pg) => in_frame mm (clock_pointer mm) e j pg
    | None => forall e j pg, ~ in_frame mm (clock_pointer mm) e j pg
    end) mm.
Proof.
  intros Hwf Hn. pose proof Hwf as [Hs Hm]. unfold at_hand. apply wp_bind, wp_get.
  destruct (s_clock _ Hs) as [Hc0 Hc1].
  destruct (lookup_lt_is_Some_2 (frames mm) (Z.to_nat (clock_pointer mm))) as [used Hu].
  { unfold frame_count in *. lia. }
  rewrite Hu. destruct used; simpl negb; cbv iota.
  - apply wp_bind. unfold mm_find_page_for_frame. apply wp_bind, wp_get.
    eapply wp_mono; [apply find_page_for_frame_run; intros e He; by apply (entry_table (ps := ps))|].
    intros r mm' [-> Hr]. destruct r as [[e j]|].
    + destruct Hr as (He & pt & pg & Hp & Hl & Hpr & Hf).
      apply wp_bind. eapply wp_get_pt; [exact Hp|]. rewrite Hl. apply wp_ret.
      split; [done|]. split; [done|]. split; [done|]. by exists pt.
    + apply wp_ret. split; [done|]. split; [done|].
      intros e j pg (He & pt & Hp & Hl & Hpr & Hf). by eapply Hr.
  - apply wp_ret. split; [done|]. split; [done|]. intros e j pg H.
    destruct (m_used _ _ _ _ _ Hm _ _ _ _ (in_frame_mapping _ _ _ _ _ H)) as [_ Hl]. congruence.
Qed.

Definition next_hand mm : Z := (clock_pointer mm + 1) mod frame_count mm.

Lemma wp_advance (R : unit -> memory_manager_t -> Prop) mm :
  R tt (on_clock (next_hand mm) mm) -> wp advance_clock R mm.
Proof. intros HR. unfold advance_clock. apply wp_bind, wp_get, wp_modify. exact HR. Qed.

Lemma next_hand_range mm : 0 < frame_count mm -> 0 <= next_hand mm < frame_count mm.
Proof. intros. by apply Z.mod_pos_bound. Qed.

Lemma clock_wf n mm : wf mm -> 0 <= n < frame_count mm -> wf (on_clock n mm).
Proof. intros Hwf [H0 H1]. by apply (clock_keeps n mm Hwf H0 H1). Qed.

(** The position of the hand says nothing about pages. *)
Lemma evicts_clock mm mm' n f :
  evicts (ps := ps) (on_clock n mm) mm' f -> evicts (ps := ps) mm mm' f.
Proof. intros [[] ? ? ? ? ?]. by split. Qed.

Lemma evicts_advance mm mm' n f :
  evicts (ps := ps) mm mm' f -> 0 <= n < frame_count mm -> evicts (ps := ps) mm (on_clock n mm') f.
Proof.
  intros [[W E C P F V R] Hc Hr Hf Hu Hm] Hn. split; try done. split; try done.
  apply clock_wf; [done|]. by rewrite F.
Qed.

Lemma keeps_clock mm mm' n :
  keeps (ps := ps) (on_clock n mm) mm' -> keeps (ps := ps) mm mm'.
Proof. intros []. by split. Qed.

(** ** First pass *)

Definition position mm (i : Z) : Z := (clock_pointer mm + i) mod frame_count mm.

Lemma position_next mm i :
  0 < frame_count mm -> position (on_clock (next_hand mm) mm) i = position mm (i + 1).
Proof.
  intros Hn. unfold position, next_hand. cbn [clock_pointer on_clock].
  change (frame_count (on_clock _ mm)) with (frame_count mm).
  rewrite Z.add_mod_idemp_l by lia. f_equal. lia.
Qed.

Lemma position_0 mm : wf mm -> 0 < frame_count mm -> position mm 0 = clock_pointer mm.
Proof.
  intros [Hs _] Hn. destruct (s_clock _ Hs). unfold position. rewrite Z.add_0_r. apply Z.mod_small. lia.
Qed.

Lemma position_all mm f :
  0 <= f < frame_count mm -> exists i, 0 <= i < frame_count mm /\ position mm i = f.
Proof.
  intros Hf. exists ((f - clock_pointer mm) mod frame_count mm).
  split; [apply Z.mod_pos_bound; lia|]. unfold position.
  rewrite Z.add_mod_idemp_r by lia.
  replace (clock_pointer mm + (f - clock_pointer mm)) with f by lia. apply Z.mod_small. lia.
Qed.

Lemma position_inj mm i j :
  0 <= i < frame_count mm -> 0 <= j < frame_count mm -> position mm i = position mm j -> i = j.
Proof.
  intros Hi Hj H. unfold position in H.
  assert (E : ((clock_pointer mm + i) - (clock_pointer mm + j)) mod frame_count mm = 0).
  { rewrite Zminus_mod, H, Z.sub_diag. apply Z.mod_0_l. lia. }
  replace (clock_pointer mm + i - (clock_pointer mm + j)) with (i - j) in E by lia.
  apply Z.mod_divide in E; [|lia]. destruct E as [q E].
  destruct (Z.lt_trichotomy q 0) as [Hq|[->|Hq]]; [nia|lia|nia].
Qed.

Lemma clock_pass1_run k mm :
  wf mm -> 0 < frame_count mm ->
  wp (clock_pass1 k) (fun r mm' =>
    match r with
    | None => mm' = on_clock (position mm (Z.of_nat k)) mm /\
        forall i e j pg, 0 <= i < Z.of_nat k -> in_frame mm (position mm i) e j pg ->
          use_bit pg = true \/ dirty pg = true
    | Some f => evicts (ps := ps) mm mm' f /\
        exists e j pg, in_frame mm f e j pg /\ use_bit pg = false /\ dirty pg = false
    end) mm.
Proof.
  revert mm. induction k as [|k IH]; intros mm Hwf Hn; cbn [clock_pass1].
  { apply wp_ret. rewrite position_0 by done. split; [by destruct mm|lia]. }
  pose proof (clock_wf (next_hand mm) mm Hwf (next_hand_range mm Hn)) as Hwf1.
  assert (Hgo : (forall e j pg, in_frame mm (clock_pointer mm) e j pg -> use_bit pg = true \/ dirty pg = true) ->
    wp (advance_clock;; clock_pass1 k) (fun r mm' =>
    match r with
    | None => mm' = on_clock (position mm (Z.of_nat (S k))) mm /\
        forall i e j pg, 0 <= i < Z.of_nat (S k) -> in_frame mm (position mm i) e j pg ->
          use_bit pg = true \/ dirty pg = true
    | Some f => evicts (ps := ps) mm mm' f /\
        exists e j pg, in_frame mm f e j pg /\ use_bit pg = false /\ dirty pg = false
    end) mm).
  { intros Hhere. apply wp_bind, wp_advance. eapply wp_mono; [by apply IH|].
    intros [f|] mm'; [intros [He Hf]; split; [by eapply evicts_clock|exact Hf]|].
    intros [-> Hall]. rewrite position_next by done. split; [by rewrite Nat2Z.inj_succ|].
    intros i e j pg Hi Hin. destruct (decide (i = 0)) as [->|Hi0].
    - rewrite position_0 in Hin by done. by eapply Hhere.
    - apply (Hall (i - 1) e j pg); [lia|]. rewrite position_next by done.
      by replace (i - 1 + 1) with i by lia. }
  apply wp_bind. eapply wp_mono; [by apply at_hand_run|].
  intros [idx [[[e j] pg]|]] mm' (-> & E & Hin); cbn [fst snd] in E, Hin; subst idx.
  - destruct (use_bit pg) eqn:Eu; simpl negb; cbn [andb]; cbv iota.
    { apply Hgo. intros e' j' pg' H'. destruct (in_frame_unique _ _ _ _ _ _ _ _ Hwf Hin H') as (_ & _ & ->). by left. }
    destruct (dirty pg) eqn:Ed; simpl negb; cbv iota.
    { apply Hgo. intros e' j' pg' H'. destruct (in_frame_unique _ _ _ _ _ _ _ _ Hwf Hin H') as (_ & _ & ->). by right. }
    pose proof (in_frame_mapping _ _ _ _ _ Hin) as Hmap. rewrite Ed in Hmap.
    pose proof (in_frame_range _ _ _ _ _ Hwf Hin) as Hrange.
    destruct Hwf as [Hs Hm]. pose proof (s_count _ Hs).
    apply wp_bind. eapply wp_mono; [eapply release_clean; [by split|apply Hin|exact Hmap]|].
    intros [] mm' Hev. cbv beta in Hev. apply wp_bind, wp_advance, wp_ret.
    replace (i32 (clock_pointer mm)) with (clock_pointer mm) by (symmetry; apply to_signed_id; lia).
    split; [|by exists e, j, pg]. apply evicts_advance; [done|].
    rewrite <- (k_frames _ _ (e_keeps _ _ _ Hev)). apply next_hand_range.
    by rewrite (k_frames _ _ (e_keeps _ _ _ Hev)).
  - apply Hgo. intros e j pg H'. by destruct (Hin e j pg).
Qed.

(** ** Second pass *)

(** The state after the hand has passed frame [f]: its use bit is clear, and
    nothing else about the pages has changed. *)
Record passed mm mm' (f : Z) : Prop := {
  p_stays : stays (ps := ps) mm mm';
  p_other f' e j pg : f' <> f -> in_frame mm' f' e j pg <-> in_frame mm f' e j pg;
  p_back e j pg : in_frame mm' f e j pg ->
    use_bit pg = false /\ exists pg0, in_frame mm f e j pg0 /\ dirty pg = dirty pg0;
  p_forth e j pg0 : in_frame mm f e j pg0 ->
    exists pg, in_frame mm' f e j pg /\ dirty pg = dirty pg0
}.

Lemma passed_unchanged mm f :
  wf mm -> (forall e j pg, in_frame mm f e j pg -> use_bit pg = false) -> passed mm mm f.
Proof.
  intros Hwf Hu. split; [by apply stays_refl|done| |by eauto].
  intros e j pg H. split; [by eapply Hu|by eauto].
Qed.

(** An entry of a table after the change of one, as it was or with the change. *)
Lemma lookup_changed mm (p : ptr) pt j g q j' pg' :
  pts mm !! p = Some pt ->
  (exists pt', pts (on_pts (fun h => <[p := pt_set_entry pt (Z.of_nat j) g]> h) mm) !! q = Some pt' /\ pt_entries pt' !! j' = Some pg') <->
  (exists pt' pg0, pts mm !! q = Some pt' /\ pt_entries pt' !! j' = Some pg0 /\
     pg' = (if decide (q = p /\ j' = j) then g pg0 else pg0)).
Proof.
  intros Hp. cbn [pts on_pts]. destruct (decide (q = p)) as [->|Hne].
  2:{ rewrite lookup_insert_ne by done. split.
      - intros (pt' & H1 & H2). exists pt', pg'. by rewrite decide_False by naive_solver.
      - intros (pt' & pg0 & H1 & H2 & ->). rewrite decide_False by naive_solver. eauto. }
  rewrite lookup_insert_eq. destruct (decide (j' = j)) as [->|Hj]; split.
  - intros (pt' & [= <-] & Hl). cbn [pt_set_entry pt_entries] in Hl. rewrite Nat2Z.id, list_lookup_alter_eq in Hl.
    destruct (pt_entries pt !! j) as [pg|] eqn:Hpg; [|done]. injection Hl as <-. exists pt, pg. by rewrite decide_True.
  - intros (pt' & pg0 & Hp0 & Hl & ->). rewrite Hp in Hp0. injection Hp0 as <-. eexists. split; [reflexivity|].
    cbn [pt_set_entry pt_entries]. by rewrite Nat2Z.id, list_lookup_alter_eq, Hl, decide_True.
  - intros (pt' & [= <-] & Hl). cbn [pt_set_entry pt_entries] in Hl. rewrite Nat2Z.id, list_lookup_alter_ne in Hl by done.
    exists pt, pg'. rewrite decide_False by naive_solver. done.
  - intros (pt' & pg0 & Hp0 & Hl & ->). rewrite Hp in Hp0. injection Hp0 as <-. eexists. split; [reflexivity|].
    cbn [pt_set_entry pt_entries]. rewrite decide_False by naive_solver. by rewrite Nat2Z.id, list_lookup_alter_ne.
Qed.

(** A use bit cleared: the pages in the frames are as they were but for it. *)
Lemma in_frame_cleared mm e pt j f' e' j' pg' :
  pts mm !! page_table e = Some pt ->
  in_frame (on_pts (fun h => <[page_table e := pt_set_entry pt (Z.of_nat j) (on_use_bit false)]> h) mm) f' e' j' pg' <->
  exists pg0, in_frame mm f' e' j' pg0 /\
    pg' = (if decide (page_table e' = page_table e /\ j' = j) then on_use_bit false pg0 else pg0).
Proof.
  intros Hp. pose proof (lookup_changed mm (page_table e) pt j (on_use_bit false) (page_table e') j') as Hlook.
  set (mm' := on_pts _ mm) in *. unfold in_frame. change (entries mm') with (entries mm). split.
  - intros (He' & pt1 & Hp1 & Hl1 & Hpr1 & Hf1).
    destruct (proj1 (Hlook pg' Hp)) as (pt2 & pg0 & Hp2 & Hl2 & ->); [eauto|].
    exists pg0. split; [|done]. split; [done|]. exists pt2. repeat split; try done; by destruct (decide _).
  - intros (pg0 & (He' & pt2 & Hp2 & Hl2 & Hpr2 & Hf2) & ->). split; [done|].
    destruct (proj2 (Hlook (if decide (page_table e' = page_table e /\ j' = j) then on_use_bit false pg0 else pg0) Hp))
      as (pt1 & Hp1 & Hl1); [eauto|].
    exists pt1. split; [done|]. split; [done|]. by destruct (decide _).
Qed.

Lemma clear_use mm f e j pg pt :
  wf mm -> in_frame mm f e j pg -> pts mm !! page_table e = Some pt ->
  passed mm (on_pts (fun h => <[page_table e := pt_set_entry pt (Z.of_nat j) (on_use_bit false)]> h) mm) f.
Proof.
  intros Hwf Hin Hp.
  destruct (touch_keeps (ps := ps) (page_table e) pt (Z.of_nat j) (on_use_bit false) mm Hwf Hp) as (Hk & Hmap & Hc); [done|].
  pose proof (in_frame_cleared mm e pt j) as Hfr. set (mm' := on_pts _ mm) in *.
  assert (Hother : forall f' e' j' pg0, in_frame mm f' e' j' pg0 -> f' <> f -> ~ (page_table e' = page_table e /\ j' = j)).
  { intros f' e' j' pg0 Hin0 Hne [Ee ->]. apply Hne. pose proof (in_frame_mapping _ _ _ _ _ Hin0) as E1. rewrite Ee in E1.
    pose proof (in_frame_mapping _ _ _ _ _ Hin) as E2. congruence. }
  split.
  - by split.
  - intros f' e' j' pg' Hne. rewrite (Hfr f' e' j' pg' Hp). split.
    + intros (pg0 & Hin0 & ->). by rewrite decide_False by (by eapply Hother).
    + intros Hin0. exists pg'. split; [done|]. by rewrite decide_False by (by eapply Hother).
  - intros e' j' pg'. rewrite (Hfr f e' j' pg' Hp). intros (pg0 & Hin0 & ->).
    destruct (in_frame_unique _ _ _ _ _ _ _ _ Hwf Hin Hin0) as (<- & <- & <-).
    rewrite decide_True by done. split; [done|]. by exists pg.
  - intros e' j' pg0 Hin0. destruct (in_frame_unique _ _ _ _ _ _ _ _ Hwf Hin Hin0) as (<- & <- & <-).
    exists (on_use_bit false pg). split; [|done]. rewrite (Hfr f e j _ Hp). exists pg. by rewrite decide_True.
Qed.

Lemma stays_trans mm1 mm2 mm3 :
  stays (ps := ps) mm1 mm2 -> stays (ps := ps) mm2 mm3 -> stays (ps := ps) mm1 mm3.
Proof.
  intros [K1 C1 F1 M1] [K2 C2 F2 M2].
  split; [by eapply keeps_trans|by eapply same_counts_trans|congruence|].
  intros p j. by rewrite M2, M1.
Qed.

Lemma stays_clock mm mm' n :
  stays (ps := ps) mm mm' -> 0 <= n < frame_count mm -> stays (ps := ps) mm (on_clock n mm').
Proof.
  intros [[W E C P F V R] Hc Hf Hm] Hn. split; try done. split; try done.
  apply clock_wf; [done|]. by rewrite F.
Qed.

(** A page of the second pass that may be the candidate. *)
Definition dirty_unused (pg : pt_entry_t) : Prop := use_bit pg = false /\ dirty pg = true.

(** What [k] steps of the second pass leave, for a candidate [c] found before. *)
Record swept (k : Z) mm mm' (c r : option (Z * file_tag_entry_t * nat)) : Prop := {
  sw_stays : stays (ps := ps) mm mm';
  sw_clock : clock_pointer mm' = position mm k;
  sw_other f e j pg : (forall i, 0 <= i < k -> position mm i <> f) ->
    in_frame mm' f e j pg <-> in_frame mm f e j pg;
  sw_back i e j pg : 0 <= i < k -> in_frame mm' (position mm i) e j pg ->
    use_bit pg = false /\ exists pg0, in_frame mm (position mm i) e j pg0 /\ dirty pg = dirty pg0;
  sw_forth i e j pg0 : 0 <= i < k -> in_frame mm (position mm i) e j pg0 ->
    exists pg, in_frame mm' (position mm i) e j pg /\ dirty pg = dirty pg0;
  sw_none : r = None -> c = None /\
    forall i e j pg, 0 <= i < k -> in_frame mm (position mm i) e j pg -> ~ dirty_unused pg;
  sw_some f e j : r = Some (f, e, j) -> c = None ->
    exists i pg, 0 <= i < k /\ position mm i = f /\ in_frame mm f e j pg /\ dirty_unused pg;
  sw_keep : c <> None -> r = c
}.

Lemma swept_0 mm c : wf mm -> 0 < frame_count mm -> swept 0 mm mm c c.
Proof.
  intros Hwf Hn. split; [by apply stays_refl|by rewrite position_0|done|intros; lia|intros; lia| | |done].
  - intros ->. split; [done|intros; lia].
  - intros f e j -> [=].
Qed.

(** One step, then the rest. *)
Lemma swept_step k mm mm1 mm' c r :
  wf mm -> 0 < frame_count mm -> 0 <= k < frame_count mm -> passed mm mm1 (clock_pointer mm) ->
  clock_pointer mm1 = next_hand mm ->
  forall c1, swept k mm1 mm' c1 r ->
  (forall f e j, c1 = Some (f, e, j) -> c = None ->
     f = clock_pointer mm /\ exists pg, in_frame mm f e j pg /\ dirty_unused pg) ->
  (c1 = None -> c = None /\ forall e j pg, in_frame mm (clock_pointer mm) e j pg -> ~ dirty_unused pg) ->
  (c <> None -> c1 = c) ->
  swept (k + 1) mm mm' c r.
Proof.
  intros Hwf Hn Hk [Pst Poth Pback Pforth] Hclk c1 [Sst Sclk Soth Sback Sforth Snone Ssome Skeep] Hc Hc' Hkeep.
  pose proof (k_frames _ _ (st_keeps _ _ Pst)) as Hfc.
  assert (Epos : forall i, position mm1 i = position mm (i + 1)).
  { intros i. unfold position. rewrite Hclk, Hfc. unfold next_hand. rewrite Z.add_mod_idemp_l by lia.
    f_equal. lia. }
  assert (Hne : forall i, 0 <= i < k -> position mm1 i <> clock_pointer mm).
  { intros i Hi E. rewrite Epos, <- (position_0 mm) in E by done. apply position_inj in E; lia. }
  assert (Hhere : forall i, 0 <= i < k -> clock_pointer mm <> position mm1 i) by (intros i Hi E; by apply (Hne i)).
  split.
  - by eapply stays_trans.
  - by rewrite Sclk, Epos.
  - intros f e j pg Hf. rewrite Soth; [apply Poth|].
    + intros ->. apply (Hf 0); [lia|]. by rewrite position_0.
    + intros i Hi. rewrite Epos. apply Hf. lia.
  - intros i e j pg Hi Hin. destruct (decide (i = 0)) as [->|Hi0].
    + rewrite position_0 in Hin |- * by done. apply Pback. apply Soth; [|done].
      intros i Hi' E. by apply (Hne i).
    + replace i with (i - 1 + 1) in Hin |- * by lia. rewrite <- Epos in Hin |- *.
      destruct (Sback (i - 1) e j pg) as (Hu & pg0 & Hin0 & Hd); [lia|done|].
      split; [done|]. exists pg0. split; [|done]. apply Poth; [apply Hne; lia|done].
  - intros i e j pg0 Hi Hin. destruct (decide (i = 0)) as [->|Hi0].
    + rewrite position_0 in Hin |- * by done. destruct (Pforth e j pg0 Hin) as (pg & Hin1 & Hd).
      exists pg. split; [|done]. apply Soth; [|done]. intros i Hi' E. by apply (Hne i).
    + replace i with (i - 1 + 1) in Hin |- * by lia. rewrite <- Epos in Hin |- *.
      apply Sforth; [lia|]. apply Poth; [apply Hne; lia|done].
  - intros Hr. destruct (Snone Hr) as [E1 Hall]. destruct (Hc' E1) as [Ec Hfst]. split; [done|].
    intros i e j pg Hi Hin. destruct (decide (i = 0)) as [->|Hi0].
    + rewrite position_0 in Hin by done. by eapply Hfst.
    + replace i with (i - 1 + 1) in Hin by lia. rewrite <- Epos in Hin.
      apply (Hall (i - 1) e j pg); [lia|]. apply Poth; [apply Hne; lia|done].
  - intros f e j Hr Ec. destruct c1 as [[[f1 e1] j1]|] eqn:E1.
    + specialize (Skeep ltac:(done)). rewrite Hr in Skeep. injection Skeep as <- <- <-.
      destruct (Hc f e j eq_refl Ec) as (-> & pg & Hin & Hd). exists 0, pg.
      rewrite position_0 by done. repeat split; try done; try lia; try apply Hin; apply Hd.
    + destruct (Ssome f e j Hr eq_refl) as (i & pg & Hi & <- & Hin & Hd).
      exists (i + 1), pg. rewrite <- Epos. split; [lia|]. split; [done|]. split; [|done].
      apply Poth; [apply Hne; lia|done].
  - intros Hcn. rewrite <- (Hkeep Hcn). apply Skeep. by rewrite Hkeep.
Qed.

Lemma passed_clock mm mm' f n :
  passed mm mm' f -> 0 <= n < frame_count mm -> passed mm (on_clock n mm') f.
Proof. intros [] Hn. split; try done. by apply stays_clock. Qed.

Lemma clock_pass2_run k c mm :
  wf mm -> 0 < frame_count mm -> Z.of_nat k <= frame_count mm ->
  wp (clock_pass2 k c) (fun r mm' => swept (Z.of_nat k) mm mm' c r) mm.
Proof.
  revert c mm. induction k as [|k IH]; intros c mm Hwf Hn Hk; cbn [clock_pass2].
  { apply wp_ret. by apply swept_0. }
  assert (Hgo : forall mm1 c1, passed mm mm1 (clock_pointer mm) -> clock_pointer mm1 = clock_pointer mm ->
    (forall f e j, c1 = Some (f, e, j) -> c = None ->
       f = clock_pointer mm /\ exists pg, in_frame mm f e j pg /\ dirty_unused pg) ->
    (c1 = None -> c = None /\ forall e j pg, in_frame mm (clock_pointer mm) e j pg -> ~ dirty_unused pg) ->
    (c <> None -> c1 = c) ->
    wp (advance_clock;; clock_pass2 k c1) (fun r mm' => swept (Z.of_nat (S k)) mm mm' c r) mm1).
  { intros mm1 c1 Hp Hclk H1 H2 H3. pose proof (k_frames _ _ (st_keeps _ _ (p_stays _ _ _ Hp))) as Hfc.
    assert (En : next_hand mm1 = next_hand mm) by (unfold next_hand; by rewrite Hclk, Hfc).
    pose proof (next_hand_range mm Hn) as Hr.
    apply wp_bind, wp_advance. rewrite En. eapply wp_mono; [apply IH|].
    - apply clock_wf; [apply Hp|by rewrite Hfc].
    - change (0 < frame_count mm1). lia.
    - change (Z.of_nat k <= frame_count mm1). lia.
    - intros r mm' Hs. cbv beta in Hs. rewrite Nat2Z.inj_succ.
      eapply (swept_step _ _ (on_clock (next_hand mm) mm1)); [done|done|lia|by apply passed_clock|done|exact Hs|done..]. }
  apply wp_bind. eapply wp_mono; [by apply at_hand_run|].
  intros [idx [[[e j] pg]|]] mm' (-> & E & Hin); cbn [fst snd] in E, Hin; subst idx.
  2:{ apply Hgo; [|done|congruence| |done].
      - apply passed_unchanged; [done|]. intros e j pg H. by destruct (Hin e j pg).
      - intros ->. split; [done|]. intros e j pg H. by destruct (Hin e j pg). }
  assert (Huniq : forall e' j' pg', in_frame mm (clock_pointer mm) e' j' pg' -> pg' = pg).
  { intros e' j' pg' H. by destruct (in_frame_unique _ _ _ _ _ _ _ _ Hwf Hin H) as (_ & _ & ->). }
  destruct (use_bit pg) eqn:Eu; simpl negb; cbn [andb]; cbv iota.
  - pose proof Hin as (_ & pt & Hp & _). apply wp_bind, wp_bind. eapply wp_get_pt; [exact Hp|].
    apply wp_modify. apply Hgo; [by eapply clear_use|done|congruence| |done].
    intros ->. split; [done|]. intros e' j' pg' H [Hu _]. rewrite (Huniq _ _ _ H) in Hu. congruence.
  - apply wp_bind, wp_ret. apply Hgo; try done.
    + apply passed_unchanged; [done|]. intros e' j' pg' H. by rewrite (Huniq _ _ _ H).
    + intros f e' j' Ec ->. rewrite andb_true_r in Ec. destruct (dirty pg) eqn:Ed; [|done].
      injection Ec as <- <- <-. split; [done|]. by exists pg.
    + destruct c; [by rewrite andb_false_r|]. rewrite andb_true_r. destruct (dirty pg) eqn:Ed; [done|].
      intros _. split; [done|]. intros e' j' pg' H [_ Hd]. rewrite (Huniq _ _ _ H) in Hd. congruence.
    + destruct c; [by rewrite andb_false_r|done].
Qed.

(** ** The search *)

(** The classes of the algorithm: not in use before in use, clean before dirty. *)
Definition clock_class (pg : pt_entry_t) : Z :=
  2 * (if use_bit pg then 1 else 0) + (if dirty pg then 1 else 0).

(** The page in frame [f] is of the best class there is. *)
Definition best_victim mm (f : Z) : Prop :=
  exists e j pg, in_frame mm f e j pg /\
    forall f' e' j' pg', in_frame mm f' e' j' pg' -> clock_class pg <= clock_class pg'.

(** A whole round over pages all of which are in use. *)
Definition rewound mm mm' : Prop :=
  swept (frame_count mm) mm mm' None None /\
  forall f e j pg, in_frame mm f e j pg -> use_bit pg = true.

Lemma clock_class_range pg : 0 <= clock_class pg <= 3.
Proof. unfold clock_class. destruct (use_bit pg), (dirty pg); lia. Qed.

Lemma evicts_stays mm mm1 mm2 f :
  stays (ps := ps) mm mm1 -> evicts (ps := ps) mm1 mm2 f -> evicts (ps := ps) mm mm2 f.
Proof.
  intros [K1 C1 F1 M1] [K2 C2 R2 F2 U2 M2]. split.
  - by eapply keeps_trans.
  - by eapply same_counts_trans.
  - by rewrite <- (k_frames _ _ K1).
  - by rewrite F2, F1.
  - done.
  - intros p j. rewrite <- M1. apply M2.
Qed.

Lemma full_turn mm : wf mm -> on_clock (position mm (frame_count mm)) mm = mm.
Proof.
  intros [Hs _]. destruct (s_clock _ Hs) as [H0 H1].
  assert (position mm (frame_count mm) = clock_pointer mm) as ->; [|by destruct mm].
  unfold position. destruct (decide (frame_count mm = 0)) as [->|Hn].
  - rewrite Zmod_0_r. lia.
  - rewrite <- Z.add_mod_idemp_r, Z.mod_same, Z.add_0_r by done.
    apply Z.mod_small. unfold frame_count in *. lia.
Qed.

Lemma in_frame_position mm f e j pg :
  wf mm -> in_frame mm f e j pg -> exists i, 0 <= i < frame_count mm /\ position mm i = f.
Proof. intros Hwf H. by eapply position_all, in_frame_range. Qed.

Lemma clock_round n (Q : option Z -> memory_manager_t -> Prop) mm :
  wf mm -> 0 < frame_count mm ->
  (forall mm', rewound mm mm' -> wp (clock_rounds n) Q mm') ->
  (forall mm', stays (ps := ps) mm mm' -> ~ writes_succeed (conn_of mm) -> Q (Some (-1)) mm') ->
  (forall f mm', evicts (ps := ps) mm mm' f -> best_victim mm f -> Q (Some f) mm') ->
  wp (clock_rounds (S n)) Q mm.
Proof.
  intros Hwf Hn Hagain Hfail Hdone. cbn [clock_rounds]. apply wp_bind, wp_get, wp_bind.
  eapply wp_mono; [by apply clock_pass1_run|]. intros [f|] mm1.
  { intros [Hev (e & j & pg & Hin & Hu & Hd)]. apply wp_ret, Hdone; [done|].
    exists e, j, pg. split; [done|]. intros f' e' j' pg' _.
    pose proof (clock_class_range pg'). unfold clock_class at 1. rewrite Hu, Hd. lia. }
  change (Z.of_nat (length (frames mm))) with (frame_count mm). rewrite full_turn by done. intros [-> Hno0].
  assert (Hno : forall f e j pg, in_frame mm f e j pg -> use_bit pg = true \/ dirty pg = true).
  { intros f e j pg Hin. destruct (in_frame_position _ _ _ _ _ Hwf Hin) as (i & Hi & <-). by eapply Hno0. }
  apply wp_bind. eapply wp_mono; [by apply clock_pass2_run; [..|unfold frame_count]|].
  change (Z.of_nat (length (frames mm))) with (frame_count mm).
  intros [[[f e] j]|] mm2 Hsw; cbv beta in Hsw; pose proof Hsw as [Sst _ _ _ _ Snone Ssome _].
  2:{ apply Hagain. split; [done|]. intros f e j pg Hin.
      destruct (in_frame_position _ _ _ _ _ Hwf Hin) as (i & Hi & <-).
      destruct (Snone eq_refl) as [_ Hnd]. specialize (Hnd i e j pg Hi Hin). unfold dirty_unused in Hnd.
      destruct (Hno _ _ _ _ Hin), (use_bit pg); naive_solver. }
  destruct (Ssome f e j eq_refl eq_refl) as (i & pg & Hi & _ & Hin & Hu & Hd).
  pose proof (in_frame_mapping _ _ _ _ _ Hin) as Hmap. rewrite Hd, <- (st_mapping _ _ Sst) in Hmap.
  pose proof Sst as [[Hwf2 Een _ _ Efc _] _ Efr _].
  assert (Hbest : best_victim mm f).
  { exists e, j, pg. split; [done|]. intros f' e' j' pg' Hin'. unfold clock_class. rewrite Hu, Hd.
    destruct (Hno _ _ _ _ Hin') as [-> | ->]; [|destruct (use_bit pg')]; destruct (dirty pg'); lia. }
  assert (He2 : e ∈ entries mm2) by (rewrite Een; apply Hin).
  pose proof (in_frame_range _ _ _ _ _ Hwf Hin) as Hrange.
  assert (Hi32 : i32 f = f).
  { destruct Hwf as [Hs _]. pose proof (s_count _ Hs). apply to_signed_id; lia. }
  apply wp_bind. eapply write_back_run; [done|exact He2|exact Hmap|]. intros r st Hst Hk Hok.
  destruct (Z.eqb_spec r 0) as [->|Hr]; simpl negb; cbv iota.
  - apply wp_bind. eapply wp_mono; [eapply release_run; [done|done|exact Hmap|by apply Hst]|].
    intros [] mm3 Hev. cbv beta in Hev. apply wp_bind, wp_modify, wp_ret. rewrite Hi32. apply Hdone; [|done].
    apply evicts_advance; [by eapply evicts_stays|]. by apply Z.mod_pos_bound.
  - apply wp_ret, Hfail; [eapply stays_trans; [done|]; split; [by apply Hk|done..]|].
    intros Hw. destruct Hr. apply Hok. by rewrite (proj1 (k_conn _ _ (st_keeps _ _ Sst))).
Qed.

(** The pages a whole round rewinds: the same ones, no longer in use. *)
Lemma rewound_back mm mm' f e j pg :
  wf mm -> rewound mm mm' -> in_frame mm' f e j pg ->
  use_bit pg = false /\ exists pg0, in_frame mm f e j pg0 /\ use_bit pg0 = true /\ dirty pg = dirty pg0.
Proof.
  intros Hwf [Hsw Hall] Hin. pose proof (sw_stays _ _ _ _ _ Hsw) as [[Hwf' _ _ _ Hfc _] _ _ _].
  pose proof (in_frame_range _ _ _ _ _ Hwf' Hin) as Hr. rewrite Hfc in Hr.
  destruct (position_all mm f Hr) as (i & Hi & <-).
  destruct (sw_back _ _ _ _ _ Hsw i e j pg Hi Hin) as (Hu & pg0 & Hin0 & Hd).
  split; [done|]. exists pg0. eauto.
Qed.

Lemma rewound_forth mm mm' f e j pg0 :
  wf mm -> rewound mm mm' -> in_frame mm f e j pg0 ->
  exists pg, in_frame mm' f e j pg /\ dirty pg = dirty pg0.
Proof.
  intros Hwf [Hsw _] Hin. destruct (in_frame_position _ _ _ _ _ Hwf Hin) as (i & Hi & <-).
  by eapply (sw_forth _ _ _ _ _ Hsw).
Qed.

Lemma rewound_best mm mm' f : wf mm -> rewound mm mm' -> best_victim mm' f -> best_victim mm f.
Proof.
  intros Hwf Hrw (e & j & pg & Hin & Hmin).
  destruct (rewound_back mm mm' f e j pg Hwf Hrw Hin) as (Hu & pg0 & Hin0 & Hu0 & Hd).
  exists e, j, pg0. split; [done|]. intros f' e' j' pg' Hin'.
  destruct (rewound_forth mm mm' f' e' j' pg' Hwf Hrw Hin') as (pg1 & Hin1 & Hd1).
  specialize (Hmin _ _ _ _ Hin1). destruct (rewound_back mm mm' _ _ _ _ Hwf Hrw Hin1) as (Hu1 & _).
  destruct Hrw as [_ Hall]. revert Hmin. unfold clock_class.
  rewrite Hu, Hu0, Hu1, (Hall _ _ _ _ Hin'), Hd, Hd1. lia.
Qed.

(** Two rounds find a victim when there is a page in some frame... *)
Lemma clock_rounds_run mm :
  wf mm -> (exists f e j pg, in_frame mm f e j pg) ->
  wp (clock_rounds 2) (fun r mm' =>
    (r = Some (-1) /\ stays (ps := ps) mm mm' /\ ~ writes_succeed (conn_of mm)) \/
    (exists f, r = Some f /\ evicts (ps := ps) mm mm' f /\ best_victim mm f)) mm.
Proof.
  intros Hwf (f0 & e0 & j0 & pg0 & Hin0). pose proof (in_frame_range _ _ _ _ _ Hwf Hin0) as Hr.
  apply clock_round; [done|lia| |by left|by right; eauto].
  intros mm1 Hrw. pose proof (sw_stays _ _ _ _ _ (proj1 Hrw)) as Hst. pose proof Hst as [[Hwf1 _ _ _ Hfc _] _ _ _].
  destruct (rewound_forth mm mm1 _ _ _ _ Hwf Hrw Hin0) as (pg1 & Hin1 & _).
  apply clock_round; [done|by lia| | |].
  - intros mm2 [_ Hall]. destruct (rewound_back mm mm1 _ _ _ _ Hwf Hrw Hin1) as (Hu & _).
    rewrite (Hall _ _ _ _ Hin1) in Hu. done.
  - intros mm2 Hst2 Hw. left. split; [done|]. split; [by eapply stays_trans|].
    by rewrite (proj1 (k_conn _ _ (st_keeps _ _ Hst))) in Hw.
  - intros f mm2 Hev Hb. right. exists f. split; [done|]. split; [by eapply evicts_stays|by eapply rewound_best].
Qed.

(** ...and no number of rounds finds one when there is none. *)
Lemma clock_rounds_never n mm :
  wf mm -> 0 < frame_count mm -> (forall f e j pg, ~ in_frame mm f e j pg) ->
  wp (clock_rounds n) (fun r _ => r = None) mm.
Proof.
  revert mm. induction n as [|n IH]; intros mm Hwf Hn Hno; [by apply wp_ret|].
  assert (Hr : forall mm', rewound mm mm' -> wp (clock_rounds n) (fun r _ => r = None) mm').
  { intros mm' Hrw. pose proof (sw_stays _ _ _ _ _ (proj1 Hrw)) as [[Hwf1 _ _ _ Hfc _] _ _ _].
    apply IH; [done|lia|]. intros f e j pg Hin.
    destruct (rewound_back mm mm' _ _ _ _ Hwf Hrw Hin) as (_ & pg1 & Hin1 & _). by eapply Hno. }
  cbn [clock_rounds]. apply wp_bind, wp_get, wp_bind.
  eapply wp_mono; [by apply clock_pass1_run|]. intros [f|] mm1.
  { intros [_ (e & j & pg & Hin & _)]. by destruct (Hno f e j pg). }
  change (Z.of_nat (length (frames mm))) with (frame_count mm). rewrite full_turn by done. intros [-> _].
  apply wp_bind. eapply wp_mono; [by apply clock_pass2_run; [..|unfold frame_count]|].
  change (Z.of_nat (length (frames mm))) with (frame_count mm).
  intros [[[f e] j]|] mm2 Hsw; cbv beta in Hsw.
  - destruct (sw_some _ _ _ _ _ Hsw f e j eq_refl eq_refl) as (i & pg & _ & _ & Hin & _).
    by destruct (Hno f e j pg).
  - apply Hr. split; [done|]. intros f e j pg Hin. by destruct (Hno f e j pg).
Qed.

(** More rounds than the search needs change nothing. *)
Lemma clock_rounds_more n k mm f mm' :
  clock_rounds n mm = Some (Some f, mm') -> clock_rounds (n + k) mm = Some (Some f, mm').
Proof.
  revert mm. induction n as [|n IH]; intros mm; [done|]. cbn [clock_rounds Nat.add].
  unfold mbind, st_bind, st_get. destruct (clock_pass1 _ mm) as [[[g|] mm1]|]; [done| |done].
  destruct (clock_pass2 _ None mm1) as [[[[[g e] j]|] mm2]|]; [done| |done].
  apply IH.
Qed.

Lemma mm_find_clockm_victim_run mm :
  wf mm -> policy mm = CLOCK_M -> 0 < frame_count mm -> (exists f e j pg, in_frame mm f e j pg) ->
  wp mm_find_clockm_victim (fun r mm' =>
    (r = -1 /\ stays (ps := ps) mm mm' /\ ~ writes_succeed (conn_of mm)) \/
    (evicts (ps := ps) mm mm' r /\ best_victim mm r)) mm.
Proof.
  intros Hwf Hpol Hn Hex. unfold mm_find_clockm_victim. apply wp_bind, wp_get. rewrite Hpol.
  destruct (Z.eqb_spec (frame_count mm) 0); [lia|]. apply wp_bind.
  eapply wp_mono; [by apply clock_rounds_run|].
  intros r mm' [[-> Hst]|(f & -> & Hev & Hb)]; apply wp_ret; [by left|by right].
Qed.

End Clock.
