(* ===== verification/PagingSpec.v ===== *)
(** * Frames and page faults (theorems about [mm_allocate_frame] and
    [mm_handle_page_fault])

    A fault brings the page of a file to a frame without changing the contents
    that the memory manager stands for, evicting another page when it has to. *)

From S2P Require Import Prelude Commons PageTable MemoryManager MemoryInvariant MemorySpec ClockSpec.

Section Paging.
Context {BS : BlockStorage} {ps : Z} {BSS : BlockStorageSpec BS ps}.
Implicit Types (mm : memory_manager_t).

Abbreviation mapping := (@mapping BS).
Abbreviation wf := (@mm_wf BS ps BSS).
Abbreviation keeps := (@keeps BS ps BSS).

(** ** Frames that hold a page *)

Definition held mm (f : Z) : Prop := exists p j d, mapping mm p j = Some (f, d).

(** Every frame in use but [f] holds a page. *)
Definition no_leak_but mm (f : Z) : Prop :=
  forall i, frames mm !! i = Some true -> Z.of_nat i <> f -> held mm (Z.of_nat i).
Definition no_leak mm : Prop := no_leak_but mm (-1).

(** The search of the modified clock ends. *)
Definition searchable mm : Prop := policy mm = CLOCK_M -> no_leak mm.

Lemma no_leak_held mm i : no_leak mm -> frames mm !! i = Some true -> held mm (Z.of_nat i).
Proof. intros Hnl Hi. apply Hnl; [done|lia]. Qed.

Lemma held_in_frame mm f : wf mm -> held mm f -> exists e j pg, in_frame mm f e j pg.
Proof.
  intros [Hs _] (p & j & d & H). apply mapping_some in H as (pt & pg & Hp & Hpg & Hpr & Hf & _).
  assert (Hin : is_Some (pts mm !! p)) by eauto. apply (s_dom _ Hs), list_elem_of_fmap in Hin as (e & -> & He).
  exists e, j, pg. split; [done|]. by exists pt.
Qed.

Lemma searchable_keeps mm mm' :
  keeps mm mm' -> searchable mm -> (no_leak mm -> no_leak mm') -> searchable mm'.
Proof. intros [] Hs Hn Hp. apply Hn, Hs. congruence. Qed.

(** ** Allocation *)

(** Frame [f] is in use and no page is in it. *)
Record allocated mm mm' (f : Z) : Prop := {
  a_keeps : keeps mm mm';
  a_counts : same_counts mm mm';
  a_range : 0 <= f < frame_count mm;
  a_used : frames mm' !! Z.to_nat f = Some true;
  a_free : unmapped (mapping mm') f;
  a_leak : no_leak mm -> no_leak_but mm' f;
  a_mapping p j : mapping mm p j = None -> mapping mm' p j = None
}.

Lemma set_used_keeps f b mm :
  wf mm -> unmapped (mapping mm) f -> 0 <= f -> keeps mm (on_frames (fun l => <[Z.to_nat f := b]> l) mm).
Proof.
  intros [Hs Hm] Hu Hf. split; try done.
  - split; [by apply struct_frames|]. eapply frame_used; [exact Hm|by right|done].
  - unfold frame_count. cbn. by rewrite length_insert.
Qed.

Lemma find_index_spec {A} (p : A -> bool) l :
  match find_index p l with
  | Some i => exists x, l !! i = Some x /\ p x = true
  | None => forall i x, l !! i = Some x -> p x = false
  end.
Proof.
  induction l as [|x l IH]; cbn [find_index]; [done|]. destruct (p x) eqn:E; [by exists x|].
  destruct (find_index p l) as [i|]; simpl; [exact IH|]. intros [|i] y; [|apply IH]. by intros [= <-].
Qed.

Lemma evicts_allocated mm mm' f :
  evicts (ps := ps) mm mm' f -> allocated mm (on_frames (fun l => <[Z.to_nat f := true]> l) mm') f.
Proof.
  intros [Hk Hc Hr Hf Hu Hmap]. pose proof (k_frames _ _ Hk) as Hfc.
  assert (Hlen : (Z.to_nat f < length (frames mm'))%nat) by (unfold frame_count in *; lia).
  split.
  - eapply keeps_trans; [done|]. apply set_used_keeps; [apply Hk|done|lia].
  - exact Hc.
  - done.
  - cbn. by apply list_lookup_insert_eq.
  - exact Hu.
  - intros Hnl i. cbn [frames on_frames]. intros Hi Hne. rewrite list_lookup_insert_ne in Hi by lia.
    rewrite Hf, list_lookup_insert_ne in Hi by lia.
    destruct (no_leak_held mm i Hnl Hi) as (p & j & d & Hp). exists p, j, d.
    destruct (Hmap p j) as [E|[d' E]]; [etransitivity; [exact E|done]|].
    rewrite Hp in E. injection E as E _. lia.
  - intros p j Hp. destruct (Hmap p j) as [E|[d' E]]; [etransitivity; [exact E|done]|congruence].
Qed.

Lemma mm_allocate_frame_run mm :
  wf mm -> searchable mm ->
  wp mm_allocate_frame (fun r mm' =>
    (r = -1 /\ stays (ps := ps) mm mm' /\
       (writes_succeed (conn_of mm) -> policy mm = CLOCK_M -> frame_count mm = 0)) \/
    allocated mm mm' r) mm.
Proof.
  intros Hwf Hse. pose proof Hwf as [Hs Hm]. pose proof (s_count _ Hs) as Hcount.
  unfold mm_allocate_frame. apply wp_bind, wp_get. pose proof (find_index_spec negb (frames mm)) as Hfi.
  destruct (find_index negb (frames mm)) as [i|].
  { destruct Hfi as (b & Hi & Hb). destruct b; [done|]. pose proof (lookup_lt_Some _ _ _ Hi) as Hlt.
    assert (Hr : 0 <= Z.of_nat i < frame_count mm) by (unfold frame_count; lia).
    assert (Hu : unmapped (mapping mm) (Z.of_nat i)).
    { intros p j d E. destruct (m_used _ _ _ _ _ Hm _ _ _ _ E) as [_ E']. rewrite Nat2Z.id in E'. congruence. }
    apply wp_bind, wp_set_used; [done|]. apply wp_ret. right.
    replace (i32 (Z.of_nat i)) with (Z.of_nat i) by (symmetry; apply to_signed_id; lia). split; try done.
    - apply set_used_keeps; [done|done|lia].
    - cbn. rewrite Nat2Z.id. by apply list_lookup_insert_eq.
    - intros Hnl k. cbn [frames on_frames]. intros Hk Hne. rewrite list_lookup_insert_ne in Hk by lia.
      by apply (no_leak_held mm). }
  apply wp_bind.
  assert (Hv : wp (match policy mm with LRU => mm_find_lru_victim | CLOCK_M => mm_find_clockm_victim end)
    (fun r mm' => (r = -1 /\ stays (ps := ps) mm mm' /\
       (writes_succeed (conn_of mm) -> policy mm = CLOCK_M -> frame_count mm = 0)) \/ evicts (ps := ps) mm mm' r) mm).
  { destruct (policy mm) eqn:Hpol.
    - destruct (decide (frame_count mm = 0)) as [H0|H0].
      + unfold mm_find_clockm_victim. apply wp_bind, wp_get. rewrite Hpol, H0. apply wp_ret. left.
        split; [done|]. split; [by apply stays_refl|done].
      + assert (Hn : 0 < frame_count mm) by (unfold frame_count in *; lia).
        eapply wp_mono; [apply mm_find_clockm_victim_run; try done|].
        * destruct (lookup_lt_is_Some_2 (frames mm) 0) as [b Hb]; [unfold frame_count in *; lia|].
          pose proof (Hfi _ _ Hb) as E. destruct b; [|done].
          exists (Z.of_nat 0). apply held_in_frame; [done|]. apply no_leak_held; [by apply Hse|done].
        * intros r mm' [(-> & Hst & Hw)|[Hev _]]; [left|by right]. split; [done|]. by split.
    - eapply wp_mono; [by apply mm_find_lru_victim_run|].
      intros r mm' [(-> & Hst & Hw)|[Hev _]]; [left|by right]. split; [done|]. by split. }
  eapply wp_mono; [exact Hv|]. intros r mm' [(-> & Hst)|Hev].
  - apply wp_ret. by left.
  - pose proof (e_range _ _ _ Hev). destruct (Z.eqb_spec r (-1)); [lia|].
    apply wp_bind, wp_set_used; [by rewrite (k_frames _ _ (e_keeps _ _ _ Hev))|].
    apply wp_ret. right. by apply evicts_allocated.
Qed.

(** ** Faults *)

(** What a table is after the code has made sure that page [n] has an entry. *)
Lemma grow_run pt n :
  pt_wf pt -> 0 <= n -> n + 1 < 2 ^ 32 ->
  exists pt', (if page_count pt <=? n then pt_resize pt (u32 (n + 1)) else (0, pt)) = (0, pt') /\
    pt_wf pt' /\ n < page_count pt' /\
    forall j, page_map (pt_entries pt' !! j) = page_map (pt_entries pt !! j).
Proof.
  intros Hwf Hn Hb. destruct (Z.leb_spec (page_count pt) n); [|by exists pt].
  rewrite u32_small by lia. destruct (pt_resize_wf pt (n + 1)) as (H0 & Hwf' & Hc); [done|lia|].
  exists (snd (pt_resize pt (n + 1))). rewrite <- H0, <- surjective_pairing. split; [done|].
  split; [done|]. split; [lia|]. intros j. rewrite pt_resize_lookup by (done || lia).
  pose proof (ptw_count pt Hwf). destruct (decide (Z.of_nat j < n + 1)), (decide (Z.of_nat j < page_count pt)); try done; try lia.
  all: by rewrite lookup_ge_None_2 by lia.
Qed.

Lemma grow_keeps p pt pt' mm :
  wf mm -> pts mm !! p = Some pt -> pt_wf pt' ->
  (forall j, page_map (pt_entries pt' !! j) = page_map (pt_entries pt !! j)) ->
  let mm' := on_pts (fun h => <[p := pt']> h) mm in
  keeps mm mm' /\ (forall q j, mapping mm' q j = mapping mm q j).
Proof.
  intros Hwf Hp Hpt Hj. apply set_pt_keeps; [done|eauto|done|].
  intros j. by rewrite Hj, (mapping_get p pt).
Qed.

(** No leak, seen through a step that moves no page and gives no frame. *)
Lemma no_leak_ext mm mm' f :
  (forall p j, mapping mm' p j = mapping mm p j) -> frames mm' = frames mm ->
  no_leak_but mm f -> no_leak_but mm' f.
Proof.
  intros Em Ef Hnl i Hi Hne. rewrite Ef in Hi. destruct (Hnl i Hi Hne) as (p & j & d & H).
  exists p, j, d. by rewrite Em.
Qed.

(** The frame of a fault that fails is given back. *)
Lemma free_frame_run mm mm1 f (R : Z -> memory_manager_t -> Prop) :
  keeps mm mm1 -> 0 <= f < frame_count mm -> unmapped (mapping mm1) f ->
  (no_leak mm -> no_leak_but mm1 f) ->
  (forall mm', keeps mm mm' -> (no_leak mm -> no_leak mm') -> R 0 mm') ->
  wp (mm_free_frame f) R mm1.
Proof.
  intros Hk Hf Hu Hnl HR. pose proof (k_frames _ _ Hk) as Hfc. unfold mm_free_frame. apply wp_bind, wp_get.
  destruct (Z.leb_spec (frame_count mm1) f); [lia|]. apply wp_bind, wp_set_used; [lia|]. apply wp_ret, HR.
  - eapply keeps_trans; [exact Hk|]. apply set_used_keeps; [apply Hk|done|lia].
  - intros Hn i. cbn [frames on_frames]. intros Hi _. destruct (decide (Z.of_nat i = f)) as [<-|Hne].
    + rewrite Nat2Z.id, list_lookup_insert_eq in Hi; [done|]. unfold frame_count in *. lia.
    + rewrite list_lookup_insert_ne in Hi by lia. by apply (Hnl Hn).
Qed.

Lemma store_keeps mm st :
  wf mm -> (forall f t n, block_of st f t n = block_of (the_store mm) f t n) ->
  keeps mm (on_store st mm).
Proof.
  intros [Hs Hm] E. split; try done.
  - split; [by destruct Hs|]. by eapply map_wf_ext.
  - intros e j _. by apply contents_ext.
Qed.

Lemma victim_keeps mm : wf mm -> keeps mm (on_victim None mm).
Proof. intros [[] []]. by split. Qed.

Lemma log_replacement_run mm (R : unit -> memory_manager_t -> Prop) :
  wf mm ->
  (forall mm', keeps mm mm' -> (forall p j, mapping mm' p j = mapping mm p j) -> frames mm' = frames mm -> R tt mm') ->
  wp log_replacement R mm.
Proof.
  intros Hwf HR. pose proof Hwf as [Hs _]. unfold log_replacement. apply wp_bind, wp_get.
  destruct (last_victim mm) as [[p j]|] eqn:E; [|by apply wp_ret, HR; [apply keeps_refl|..]].
  destruct (s_victim _ Hs p j E) as [pt Hp]. apply wp_bind. eapply wp_get_pt; [exact Hp|].
  apply wp_modify, HR; [by apply victim_keeps|done|done].
Qed.

(** The page read from the Storage is put in its frame. *)
Lemma fill_frame mm e j f pt bs :
  wf mm -> e ∈ entries mm -> pts mm !! page_table e = Some pt -> Z.of_nat j < page_count pt ->
  mapping mm (page_table e) j = None -> 0 <= f < frame_count mm ->
  frames mm !! Z.to_nat f = Some true -> unmapped (mapping mm) f ->
  bs = block_of (the_store mm) (file e) (tag e) (Z.of_nat j) ->
  let mm' := on_pts (fun h => <[page_table e := pt_set_entry pt (Z.of_nat j) (on_mapped f)]> h)
    (on_memory (fun m => mem_write m (Z.to_nat (f * ps)) bs) mm) in
  keeps mm mm' /\ forall q i, mapping mm' q i = set_map (mapping mm) (page_table e) j (Some (f, false)) q i.
Proof.
  intros [Hs Hm] He Hp Hj Hno Hf Hfr Hun Hbs mm'.
  destruct (s_ps _ Hs) as [_ Hps]. pose proof (s_mem _ Hs) as Hmem.
  assert (Hlen : length bs = Z.to_nat ps) by (rewrite Hbs; apply block_of_length).
  assert (Hpt : pt_wf pt) by (by eapply s_pt).
  destruct (pt_get_entry_some pt (Z.of_nat j) Hpt) as (pg & _ & Hpg); [lia|]. rewrite Nat2Z.id in Hpg.
  set (mem' := mem_write (physical_memory mm) (Z.to_nat (f * ps)) bs).
  assert (Emap : forall q i, mapping mm' q i = set_map (mapping mm) (page_table e) j (Some (f, false)) q i).
  { intros q i. unfold mm'. rewrite (mapping_set_entry _ pt) by exact Hp. rewrite Nat2Z.id, Hpg. done. }
  assert (Hfit : (Z.to_nat (f * ps) + length bs <= length (physical_memory mm))%nat) by nia.
  assert (Hother : forall f', 0 <= f' -> f' <> f ->
    frame_bytes (ps := ps) mem' f' = frame_bytes (ps := ps) (physical_memory mm) f').
  { intros f' Hf' Hne. pose proof (frame_bytes_other (ps := ps) (physical_memory mm) f f' 0 bs) as H.
    rewrite Z.add_0_r in H. apply H; (done || nia). }
  assert (Hnew : frame_bytes (ps := ps) mem' f = block_of (the_store mm) (file e) (tag e) (Z.of_nat j)).
  { unfold frame_bytes, mem'. rewrite <- Hlen, mem_read_write_eq by done. exact Hbs. }
  destruct (map_page (entries mm) (mapping mm) (frames mm) (physical_memory mm) mem' (the_store mm) e j f
              (s_ptrs _ Hs) He Hm Hno (proj1 Hf) Hfr Hun Hother Hnew) as [Hm' Hv].
  split; [|exact Emap]. split; try done.
  - split.
    + apply struct_set_pt; [|by exists pt|by apply pt_set_entry_wf]. destruct Hs. split; try done.
      cbn [physical_memory on_memory]. by rewrite length_mem_write.
    + by eapply map_wf_ext.
  - intros e' i He'. etransitivity; [|by apply Hv]. by apply contents_ext.
Qed.

Definition connected mm : Prop := storage_socket mm <> -1 /\ worker_id mm <> -1.

(** Nothing stands in the way of a fault under the modified clock. *)
Record healthy mm : Prop := {
  h_connected : connected mm;
  h_frames : 0 < frame_count mm;
  h_policy : policy mm = CLOCK_M;
  h_reads : reads_succeed (conn_of mm);
  h_writes : writes_succeed (conn_of mm)
}.

Lemma healthy_ext mm mm' :
  same_conn mm mm' -> policy mm' = policy mm -> frame_count mm' = frame_count mm -> healthy mm -> healthy mm'.
Proof.
  intros [Ec Ew] Ep Ef [[H1 H2] ? ? ? ?]. split; [split| | | |]; rewrite ?Ec, ?Ew, ?Ep, ?Ef; try done.
  intros E. apply H1. change (storage_socket mm') with (to_storage (conn_of mm')) in E. by rewrite Ec in E.
Qed.

(** What a fault may leave for page [j] of [e]. *)
Definition faulted mm mm' (e : file_tag_entry_t) (j : nat) (r : Z) : Prop :=
  keeps mm mm' /\ (no_leak mm -> no_leak mm') /\
  ((r = 0 /\ exists f, mapping mm' (page_table e) j = Some (f, false)) \/ (r = -1 /\ ~ healthy mm)).

Lemma fault_failed mm mm' e j :
  keeps mm mm' -> (no_leak mm -> no_leak mm') -> ~ healthy mm -> faulted mm mm' e j (-1).
Proof. intros. split; [done|]. split; [done|]. by right. Qed.

(** From the frame allocated to the end of the fault. *)
Lemma place_page mm mm1 mm2 e j f :
  keeps mm mm1 -> allocated mm1 mm2 f -> (no_leak mm -> no_leak mm1) ->
  e ∈ entries mm -> mapping mm2 (page_table e) j = None ->
  (exists pt, pts mm2 !! page_table e = Some pt /\ Z.of_nat j < page_count pt) ->
  forall mm3 bs, mm3 = on_memory (fun m => mem_write m (Z.to_nat (f * ps)) bs) mm2 ->
  bs = block_of (the_store mm2) (file e) (tag e) (Z.of_nat j) ->
  wp (pt ← get_pt (page_table e);
      set_pt (page_table e) (snd (pt_map pt (Z.of_nat j) f));;
      if negb (fst (pt_map pt (Z.of_nat j) f) =? 0) then _ ← mm_free_frame f; mret (-1) else
      mm_update_page_access (page_table e) (Z.of_nat j);;
      log_replacement;;
      mret 0) (fun r mm' => faulted mm mm' e j r) mm3.
Proof.
  intros Hk1 [Hk2 _ Hr Hu Hfree Hleak _] Hnl He Hno (pt & Hp & Hj) mm3 bs -> Hbs.
  pose proof (k_wf _ _ Hk2) as Hwf2. pose proof Hwf2 as [Hs2 _].
  assert (Hk : keeps mm mm2) by (by eapply keeps_trans).
  assert (He2 : e ∈ entries mm2) by (by rewrite (k_entries _ _ Hk)).
  apply wp_bind. eapply wp_get_pt; [exact Hp|].
  assert (Hmp : pt_map pt (Z.of_nat j) f = (0, pt_set_entry pt (Z.of_nat j) (on_mapped f))).
  { unfold pt_map. destruct (pt_get_entry_some pt (Z.of_nat j)) as (pg & -> & _); [by eapply s_pt|lia|done]. }
  rewrite Hmp. cbn [fst snd]. apply wp_bind, wp_modify. simpl negb. cbv iota.
  rewrite <- (k_frames _ _ Hk2) in Hr.
  destruct (fill_frame mm2 e j f pt bs Hwf2 He2 Hp Hj Hno Hr Hu Hfree Hbs) as [Hk3 Hmap3].
  set (mm3 := on_pts _ _) in *.
  assert (Hnl3 : no_leak mm -> no_leak mm3).
  { intros Hn i Hi _. change (frames mm3) with (frames mm2) in Hi. destruct (decide (Z.of_nat i = f)) as [<-|Hne].
    - exists (page_table e), j, false. rewrite Hmap3. unfold set_map. by rewrite decide_True.
    - destruct (Hleak (Hnl Hn) i Hi Hne) as (p & k & d & Hpk). exists p, k, d. rewrite Hmap3.
      unfold set_map. destruct (decide _) as [[-> ->]|]; [congruence|done]. }
  apply wp_bind. eapply wp_update_access; [apply Hk3|cbn; by rewrite lookup_insert_eq|].
  intros mm4 Hk4 Hmap4 _ Hf4. apply wp_bind, log_replacement_run; [apply Hk4|].
  intros mm5 Hk5 Hmap5 Hf5. apply wp_ret. split; [|split].
  - eapply keeps_trans; [exact Hk|]. eapply keeps_trans; [exact Hk3|]. by eapply keeps_trans.
  - intros Hn. eapply no_leak_ext; [exact Hmap5|exact Hf5|]. eapply no_leak_ext; [exact Hmap4|exact Hf4|]. by apply Hnl3.
  - left. split; [done|]. exists f. rewrite Hmap5, Hmap4, Hmap3. unfold set_map. by rewrite decide_True.
Qed.

(** From the frame allocated: the block is read and put in it. *)
Lemma read_page mm mm1 mm2 e j f addr :
  keeps mm mm1 -> allocated mm1 mm2 f -> (no_leak mm -> no_leak mm1) -> wf mm -> e ∈ entries mm ->
  Z.of_nat j + 1 < 2 ^ 32 -> frame_count mm1 = frame_count mm -> mapping mm2 (page_table e) j = None -> addr = f * ps ->
  (exists pt, pts mm2 !! page_table e = Some pt /\ Z.of_nat j < page_count pt) ->
  wp (r ← storage_read (file e) (tag e) (Z.of_nat j);
      if negb (fst r =? 0) && negb (fst r =? -2) then _ ← mm_free_frame f; mret (-1) else
      store_bytes addr (fault_page (mm_page_size mm2) (fst r) (snd r));;
      pt ← get_pt (page_table e);
      set_pt (page_table e) (snd (pt_map pt (Z.of_nat j) f));;
      if negb (fst (pt_map pt (Z.of_nat j) f) =? 0) then _ ← mm_free_frame f; mret (-1) else
      mm_update_page_access (page_table e) (Z.of_nat j);;
      log_replacement;;
      mret 0) (fun r mm' => faulted mm mm' e j r) mm2.
Proof.
  intros Hk1 Hal Hnl1 Hwf He Hj Hfc1 Hno -> Hpt. pose proof Hal as [Hk2 _ Hr Hu Hfree Hleak _].
  pose proof (k_frames _ _ Hk2) as Hfc2. assert (Hk12 : keeps mm mm2) by (by eapply keeps_trans).
  pose proof (k_wf _ _ Hk12) as [Hs2 _]. destruct (s_names _ (proj1 Hwf) e He) as [Hnf Hnt].
  pose proof (read_block_run (conn_of mm2) (file e) (tag e) (Z.of_nat j) (the_store mm2) (s_conn _ Hs2) Hnf Hnt ltac:(lia)) as Hread.
  apply wp_run in Hread as ([r d] & st & Erd & Hsame2 & Hpage). cbn [fst snd] in Hpage.
  apply wp_bind. eapply wp_intro; [unfold storage_read; by rewrite Erd|]. cbn [fst snd].
  assert (Hk3 : keeps mm2 (on_store st mm2)) by (apply store_keeps; [apply Hk2|done]).
  destruct (negb (r =? 0) && negb (r =? -2)) eqn:Erc.
  { apply wp_bind. eapply (free_frame_run mm); [by eapply keeps_trans|lia|exact Hfree| |].
    - intros Hn. by apply Hleak, Hnl1.
    - intros mm4 Hk4 Hnl4. apply wp_ret, fault_failed; [done|done|]. intros [_ _ _ Hrd _].
      rewrite <- (proj1 (k_conn _ _ Hk12)) in Hrd.
      specialize (Hrd (file e) (tag e) (Z.of_nat j) (the_store mm2)). unfold wp in Hrd. rewrite Erd in Hrd.
      cbn [fst] in Hrd. by rewrite Hrd in Erc. }
  assert (Hpg : fault_page ps r d = block_of st (file e) (tag e) (Z.of_nat j)).
  { rewrite Hsame2. apply Hpage. apply andb_false_iff in Erc as [E|E]; apply negb_false_iff, Z.eqb_eq in E; auto. }
  destruct (s_ps _ Hs2) as [Eps Hps]. pose proof (s_mem _ Hs2) as Hmem. rewrite Eps.
  assert (Hlen : length (fault_page ps r d) = Z.to_nat ps) by (rewrite Hpg; apply block_of_length).
  apply wp_bind. eapply wp_intro.
  { unfold store_bytes. cbn [physical_memory on_store]. destruct (Z.leb_spec 0 (f * ps)); [|nia].
    destruct (Z.leb_spec (f * ps + Z.of_nat (length (fault_page ps r d))) (Z.of_nat (length (physical_memory mm2)))); [done|nia]. }
  eapply (place_page mm mm1 (on_store st mm2)); [done| |done|done|exact Hno|exact Hpt|reflexivity|exact Hpg].
  destruct Hal. split; try done. by eapply keeps_trans.
Qed.

Lemma mm_handle_page_fault_run e j mm :
  wf mm -> searchable mm -> e ∈ entries mm -> Z.of_nat j + 1 < 2 ^ 32 ->
  mapping mm (page_table e) j = None ->
  wp (mm_handle_page_fault (page_table e) (file e) (tag e) (Z.of_nat j))
    (fun r mm' => faulted mm mm' e j r) mm.
Proof.
  intros Hwf Hse He Hj Hno. pose proof Hwf as [Hs _]. pose proof (s_count _ Hs) as Hcount.
  destruct (entry_table mm e Hwf He) as [pt Hp]. unfold mm_handle_page_fault.
  apply wp_bind. eapply wp_get_pt; [exact Hp|].
  destruct (grow_run pt (Z.of_nat j)) as (pt' & -> & Hpt' & Hin & Hsame); [by eapply s_pt|lia|done|].
  apply wp_bind, wp_modify. simpl negb. cbv iota. apply wp_bind, wp_get.
  destruct (grow_keeps (page_table e) pt pt' mm Hwf Hp Hpt' Hsame) as [Hk1 Hmap1].
  set (mm1 := on_pts _ mm) in *.
  assert (Hnl1 : no_leak mm -> no_leak mm1) by (by apply no_leak_ext).
  destruct ((storage_socket mm1 =? -1) || (worker_id mm1 =? -1)) eqn:Hc.
  { apply wp_ret, fault_failed; [done|done|]. intros [[H1 H2] _ _ _ _].
    apply orb_true_iff in Hc as [Hc%Z.eqb_eq|Hc%Z.eqb_eq]; [by apply H1|by apply H2]. }
  apply wp_bind. eapply wp_mono; [apply mm_allocate_frame_run; [apply Hk1|by eapply searchable_keeps]|].
  intros fr mm2 [(-> & Hst & Hwhy)|Hal].
  { apply wp_ret, fault_failed.
    - eapply keeps_trans; [exact Hk1|apply Hst].
    - intros Hn. eapply no_leak_ext; [apply Hst|apply Hst|by apply Hnl1].
    - intros [_ Hf Hpol _ Hw]. specialize (Hwhy Hw Hpol). change (frame_count mm1) with (frame_count mm) in Hwhy. lia. }
  pose proof Hal as [Hk2 Hcnt Hr Hu Hfree Hleak Hmap2]. change (frame_count mm1) with (frame_count mm) in Hr.
  destruct (Z.eqb_spec fr (-1)) as [->|_]; [lia|]. rewrite (u32_small fr) by lia.
  pose proof (k_frames _ _ Hk2) as Hfc2. change (frame_count mm1) with (frame_count mm) in Hfc2.
  apply wp_bind, wp_get. unfold mm_get_frame_address at 1. destruct (Z.leb_spec (frame_count mm2) fr); [lia|].
  eapply read_page; [exact Hk1|exact Hal|done|done|done|done|done| | |].
  - apply Hmap2. by rewrite Hmap1.
  - f_equal. apply (k_wf _ _ Hk2).
  - specialize (Hcnt (page_table e)). cbn in Hcnt. rewrite lookup_insert_eq in Hcnt.
    destruct (pts mm2 !! page_table e) as [pt2|] eqn:Hp2; [|done]. exists pt2. split; [done|].
    cbn in Hcnt. by injection Hcnt as ->.
Qed.

End Paging.
