(* ===== verification/FlushSpec.v ===== *)
(** * Flushing (theorems about [mm_flush_query] and [mm_flush_all_dirty])

    A flush that succeeds leaves the contents of the file in the Storage. *)

From S2P Require Import Prelude Commons PageTable MemoryManager MemoryInvariant MemorySpec PagingSpec.

Section Flush.
Context {BS : BlockStorage} {ps : Z} {BSS : BlockStorageSpec BS ps}.
Implicit Types (mm : memory_manager_t).

Abbreviation mapping := (@mapping BS).
Abbreviation wf := (@mm_wf BS ps BSS).
Abbreviation keeps := (@keeps BS ps BSS).

(** Some dirty pages have become clean, and that is all. *)
Record cleaned mm mm' : Prop := {
  cl_keeps : keeps mm mm';
  cl_frames : frames mm' = frames mm;
  cl_mapping p j : mapping mm' p j = mapping mm p j \/
    exists f, mapping mm p j = Some (f, true) /\ mapping mm' p j = Some (f, false)
}.

Lemma cleaned_refl mm : wf mm -> cleaned mm mm.
Proof. intros Hwf. split; [by apply keeps_refl|done|by left]. Qed.

Lemma cleaned_trans mm1 mm2 mm3 : cleaned mm1 mm2 -> cleaned mm2 mm3 -> cleaned mm1 mm3.
Proof.
  intros [K1 F1 M1] [K2 F2 M2]. split; [by eapply keeps_trans|congruence|].
  intros p j. destruct (M1 p j) as [E1|(f & E1 & E1')], (M2 p j) as [E2|(g & E2 & E2')].
  - left. congruence.
  - right. exists g. split; congruence.
  - right. exists f. split; congruence.
  - congruence.
Qed.

(** A clean page stays clean. *)
Lemma cleaned_clean mm mm' p j f :
  cleaned mm mm' -> mapping mm p j = Some (f, false) -> mapping mm' p j = Some (f, false).
Proof. intros [_ _ M] H. destruct (M p j) as [->|(g & E & _)]; congruence. Qed.

Lemma cleaned_back mm mm' p j f :
  cleaned mm mm' -> mapping mm' p j = Some (f, true) -> mapping mm p j = Some (f, true).
Proof. intros [_ _ M] H. destruct (M p j) as [<-|(g & _ & E)]; congruence. Qed.

Lemma cleaned_no_leak mm mm' : cleaned mm mm' -> no_leak mm -> no_leak mm'.
Proof.
  intros [_ F M] Hn i Hi _. rewrite F in Hi. destruct (no_leak_held mm i Hn Hi) as (p & j & d & H).
  destruct (M p j) as [E|(f & E & E')].
  - exists p, j, d. congruence.
  - exists p, j, false. congruence.
Qed.

(** ** One page *)

Lemma clean_entry st mm e j f d pt :
  wf mm -> e ∈ entries mm -> mapping mm (page_table e) j = Some (f, d) -> pts mm !! page_table e = Some pt ->
  stores (the_store mm) st e j (frame_bytes (ps := ps) (physical_memory mm) f) ->
  let mm' := on_pts (fun h => <[page_table e := pt_set_dirty pt (Z.of_nat j) false]> h) (on_store st mm) in
  keeps mm mm' /\ forall q i, mapping mm' q i = set_map (mapping mm) (page_table e) j (Some (f, false)) q i.
Proof.
  intros [Hs Hm] He Hj Hp [Hdone Hsame] mm'.
  destruct (mapping_some _ _ _ _ _ Hj) as (pt' & pg & Hp' & Hpg & Hpr & Hfr & _).
  rewrite Hp in Hp'. injection Hp' as <-. assert (Hpt : pt_wf pt) by (by eapply s_pt).
  assert (Hd : pt_set_dirty pt (Z.of_nat j) false = pt_set_entry pt (Z.of_nat j) (on_dirty false)).
  { unfold pt_set_dirty. destruct (pt_get_entry_some pt (Z.of_nat j) Hpt) as (pg' & -> & _); [|done].
    pose proof (ptw_count pt Hpt). apply lookup_lt_Some in Hpg. lia. }
  unfold mm'. rewrite Hd. clear mm'. set (mm' := on_pts _ _).
  assert (Emap : forall q i, mapping mm' q i = set_map (mapping mm) (page_table e) j (Some (f, false)) q i).
  { intros q i. unfold mm'. rewrite (mapping_set_entry _ _ _ _ (on_store st mm)) by exact Hp.
    rewrite Nat2Z.id, Hpg. unfold page_map, set_map. cbn. by rewrite Hpr, Hfr. }
  destruct (clean_page (entries mm) (mapping mm) (frames mm) (physical_memory mm) (the_store mm) st e j f d
              (s_keys _ Hs) (s_ptrs _ Hs) He Hm Hj Hsame Hdone) as [Hm' Hv].
  split; [|exact Emap]. split; try done.
  - split; [|by eapply map_wf_ext]. apply struct_set_pt; [by destruct Hs|by exists pt|by apply pt_set_entry_wf].
  - intros e' i He'. etransitivity; [|by apply Hv]. by apply contents_ext.
  - intros f' t n Hf'. apply Hsame. intros [= -> -> _]. by apply (Hf' e).
Qed.

(** ** The dirty pages of a table *)

(** The copies of dirty entries that are still true of the table. *)
Definition dirty_copies mm (p : ptr) (ds : list pt_entry_t) : Prop :=
  NoDup (map page_number ds) /\
  forall d, d ∈ ds -> exists j, page_number d = Z.of_nat j /\
    (present d = true -> mapping mm p j = Some (frame d, true)).

Lemma flush_pages_run e ds mm :
  wf mm -> e ∈ entries mm -> dirty_copies mm (page_table e) ds ->
  wp (flush_pages (page_table e) (file e) (tag e) ds) (fun r mm' => cleaned mm mm' /\
    ((r = 0 /\ forall d j, d ∈ ds -> present d = true -> page_number d = Z.of_nat j ->
        mapping mm' (page_table e) j = Some (frame d, false)) \/
     (r = -1 /\ ~ writes_succeed (conn_of mm)))) mm.
Proof.
  revert mm. induction ds as [|d ds IH]; intros mm Hwf He [Hnd Hds]; cbn [flush_pages].
  { apply wp_ret. split; [by apply cleaned_refl|]. left. split; [done|]. by intros ? ? ?%not_elem_of_nil. }
  apply NoDup_cons in Hnd as [Hd Hnd]. destruct (Hds d) as (j & Ej & Hj); [constructor|].
  destruct (present d) eqn:Hpr; simpl negb; cbv iota.
  2:{ eapply wp_mono; [apply IH; [done|done|split; [done|]; intros; apply Hds; by constructor]|].
      intros r mm' [Hc [[-> Hall]|Hr]]; (split; [done|]); [left|by right]. split; [done|].
      intros d' i [->|Hin]%elem_of_cons Hp' Ei; [congruence|by apply (Hall d' i)]. }
  specialize (Hj eq_refl). pose proof (mapped_frame _ _ _ _ _ Hwf Hj) as Hr.
  apply wp_bind, wp_get. unfold mm_get_frame_address. destruct (Z.leb_spec (frame_count mm) (frame d)); [lia|].
  apply wp_bind, load_frame; [done|done|]. apply wp_bind. rewrite Ej.
  eapply storage_write_run; [done|exact He|exact Hj|]. intros r st Hst Hk Hok.
  destruct (Z.eqb_spec r 0) as [->|Hne]; simpl negb; cbv iota.
  2:{ apply wp_ret. split; [|right; split; [done|by intros Hw; apply Hne, Hok]].
      split; [by apply Hk|done|by left]. }
  destruct (entry_table mm e Hwf He) as [pt Hp]. apply wp_bind. eapply wp_get_pt; [exact Hp|]. apply wp_bind, wp_modify.
  destruct (clean_entry st mm e j (frame d) true pt Hwf He Hj Hp (Hst eq_refl)) as [Hk1 Hm1].
  set (mm1 := on_pts _ _) in *.
  assert (Hc1 : cleaned mm mm1).
  { split; [done|done|]. intros p i. rewrite Hm1. unfold set_map. destruct (decide _) as [[-> ->]|]; [right; eauto|by left]. }
  eapply wp_mono; [apply IH; [apply Hk1|done|]|].
  - split; [done|]. intros d' Hd'. destruct (Hds d') as (i & Ei & Hi); [by constructor|]. exists i. split; [done|].
    intros Hp'. rewrite Hm1. unfold set_map. rewrite decide_False; [by apply Hi|]. intros [_ ->].
    apply Hd, list_elem_of_fmap. exists d'. split; [congruence|done].
  - rewrite (proj1 (k_conn _ _ Hk1)).
    intros r mm' [Hc [[-> Hall]|Hr']]; (split; [by eapply cleaned_trans|]); [left|by right]. split; [done|].
    intros d' i [->|Hin]%elem_of_cons Hp' Ei; [|by apply (Hall d' i)]. assert (i = j) as -> by lia.
    eapply cleaned_clean; [exact Hc|]. rewrite Hm1. unfold set_map. by rewrite decide_True.
Qed.

Definition no_dirty mm (e : file_tag_entry_t) : Prop := forall j f, mapping mm (page_table e) j <> Some (f, true).

Lemma no_dirty_cleaned mm mm' e : cleaned mm mm' -> no_dirty mm e -> no_dirty mm' e.
Proof. intros Hc Hno j f E. by apply (Hno j f), (cleaned_back mm mm'). Qed.

(** What a flush of [e] may leave. *)
Definition flushed mm mm' (P : Prop) (r : Z) : Prop :=
  cleaned mm mm' /\ ((r = 0 /\ P) \/ (r = -1 /\ ~ (connected mm /\ writes_succeed (conn_of mm)))).

Lemma NoDup_map_filter {A B} (g : A -> B) (p : A -> bool) l :
  NoDup (map g l) -> NoDup (map g (List.filter p l)).
Proof.
  induction l as [|x l IH]; [done|]. cbn [map List.filter]. intros [Hx Hnd]%NoDup_cons.
  destruct (p x); [|by apply IH]. apply NoDup_cons. split; [|by apply IH].
  intros (y & E & Hy)%list_elem_of_fmap. apply Hx, list_elem_of_fmap. exists y. split; [done|].
  apply list_elem_of_In, filter_In in Hy as [Hy _]. by apply list_elem_of_In.
Qed.

Lemma dirty_entries_copies mm p pt :
  pt_wf pt -> pts mm !! p = Some pt -> dirty_copies mm p (pt_get_dirty_entries pt).
Proof.
  intros Hpt Hp. split.
  - apply NoDup_map_filter, NoDup_alt. intros i j n. rewrite !list_lookup_fmap.
    destruct (pt_entries pt !! i) as [a|] eqn:Ei; [|done]. destruct (pt_entries pt !! j) as [b|] eqn:Ej; [|done].
    cbn. rewrite (ptw_number pt Hpt i a Ei), (ptw_number pt Hpt j b Ej). intros [= <-] [= E]. lia.
  - intros d Hd. apply list_elem_of_In in Hd. pose proof Hd as [Hin _]%filter_In.
    destruct (pt_dirty_lookup pt d Hpt Hd) as [Hl Hdd].
    apply list_elem_of_In, list_elem_of_lookup_1 in Hin as [i Hi]. pose proof (ptw_number pt Hpt i d Hi) as Ei.
    exists i. split; [done|]. intros Hpr. rewrite (mapping_get _ pt) by done. unfold page_map. by rewrite Hi, Hpr, Hdd.
Qed.

Lemma flush_table_run e mm :
  wf mm -> e ∈ entries mm ->
  wp (ds ← mm_get_dirty_pages (file e) (tag e); flush_pages (page_table e) (file e) (tag e) ds)
    (fun r mm' => flushed mm mm' (no_dirty mm' e) r) mm.
Proof.
  intros Hwf He. pose proof Hwf as [Hs _]. destruct (entry_table mm e Hwf He) as [pt Hp].
  assert (Hpt : pt_wf pt) by (by eapply s_pt). unfold mm_get_dirty_pages, mm_find_page_table.
  apply wp_bind, wp_bind, wp_get. rewrite find_own by (done || apply Hs). cbn.
  apply wp_bind. eapply wp_get_pt; [exact Hp|]. apply wp_ret.
  eapply wp_mono; [apply flush_pages_run; [done|done|by apply dirty_entries_copies]|].
  intros r mm' [Hc [[-> Hall]|[-> Hw]]]; (split; [done|]); [left|right; split; [done|by intros [_ ?]]].
  split; [done|]. intros j f E. pose proof (cleaned_back _ _ _ _ _ Hc E) as E0.
  destruct (mapping_some _ _ _ _ _ E0) as (pt' & pg & Hp' & Hpg & Hpr & _ & Hd). rewrite Hp in Hp'. injection Hp' as <-.
  rewrite (Hall pg j) in E; [done| |done|by apply (ptw_number pt Hpt)].
  apply list_elem_of_In, filter_In. split; [|done]. by eapply list_elem_of_In, list_elem_of_lookup_2.
Qed.

(** The code tests for an empty list, and looks the table up again. *)
Lemma mm_flush_query_run f t mm :
  wf mm ->
  wp (mm_flush_query f t) (fun r mm' =>
    flushed mm mm' (forall e, e ∈ entries mm -> file e = f -> tag e = t -> no_dirty mm' e) r) mm.
Proof.
  intros Hwf. pose proof Hwf as [Hs _]. unfold mm_flush_query. apply wp_bind, wp_get.
  destruct ((storage_socket mm =? -1) || (worker_id mm =? -1)) eqn:Ec.
  { apply wp_ret. split; [by apply cleaned_refl|]. right. split; [done|]. intros [[H1 H2] _].
    apply orb_true_iff in Ec as [Ec%Z.eqb_eq|Ec%Z.eqb_eq]; congruence. }
  pose proof (find_entry (entries mm) f t) as Hfind.
  destruct (List.find (same_file f t) (entries mm)) as [e|] eqn:Ef.
  - destruct Hfind as (He & <- & <-).
    pose proof (flush_table_run e mm Hwf He) as Hrun. unfold mm_get_dirty_pages, mm_find_page_table in Hrun |- *.
    destruct (entry_table mm e Hwf He) as [pt Hp].
    unfold wp, mbind, st_bind, st_get, get_pt in Hrun |- *. rewrite Ef in Hrun |- *. cbn in Hrun |- *.
    rewrite Hp in Hrun |- *. cbn in Hrun |- *.
    assert (Hgoal : forall (r : Z) mm', flushed mm mm' (no_dirty mm' e) r -> flushed mm mm'
      (forall e', e' ∈ entries mm -> file e' = file e -> tag e' = tag e -> no_dirty mm' e') r).
    { intros r mm' [Hc [[-> Hno]|Hr]]; (split; [done|]); [left|by right]. split; [done|].
      intros e' He' Ef' Et'. by rewrite (entry_key (entries mm) e' e) by (done || apply Hs). }
    destruct (pt_get_dirty_entries pt) as [|d ds]; [by apply Hgoal|].
    destruct (flush_pages _ _ _ _ mm) as [[r mm']|]; [by apply Hgoal|done].
  - unfold mm_get_dirty_pages, mm_find_page_table, wp, mbind, st_bind, st_get. rewrite Ef. cbn.
    split; [by apply cleaned_refl|]. left. split; [done|]. intros e He E1 E2. by destruct (Hfind e He).
Qed.

Lemma connected_same mm mm' : same_conn mm mm' -> connected mm -> connected mm'.
Proof.
  intros [Ec Ew] [H1 H2]. unfold connected. rewrite Ew. split; [|done].
  change (storage_socket mm') with (to_storage (conn_of mm')). by rewrite Ec.
Qed.

Lemma flush_entries_run es mm :
  wf mm -> (forall e, e ∈ es -> e ∈ entries mm) ->
  wp (flush_entries es) (fun r mm' => flushed mm mm' (forall e, e ∈ es -> no_dirty mm' e) r) mm.
Proof.
  revert mm. induction es as [|e es IH]; intros mm Hwf Hes; cbn [flush_entries].
  { apply wp_ret. split; [by apply cleaned_refl|]. left. split; [done|]. by intros ? ?%not_elem_of_nil. }
  pose proof (flush_table_run e mm Hwf (Hes e ltac:(constructor))) as Hrun.
  unfold wp, mbind, st_bind in Hrun |- *.
  destruct (mm_get_dirty_pages (file e) (tag e) mm) as [[ds mm0]|]; [|done].
  destruct (flush_pages (page_table e) (file e) (tag e) ds mm0) as [[r mm1]|]; [|done].
  destruct Hrun as [Hc [[-> Hno]|[-> Hw]]]; [|split; [done|by right]].
  change (negb (0 =? 0)) with false. cbv iota.
  pose proof (cl_keeps _ _ Hc) as Hk1.
  specialize (IH mm1 (k_wf _ _ Hk1)). rewrite (k_entries _ _ Hk1) in IH.
  specialize (IH (fun e' He' => Hes e' (list_elem_of_further _ _ _ He'))). unfold wp in IH.
  destruct (flush_entries es mm1) as [[r mm']|]; [|done].
  destruct IH as [Hc' [[-> Hall]|[-> Hw]]]; (split; [by eapply cleaned_trans|]); [left|right]; (split; [done|]).
  - intros e' [->|He']%elem_of_cons; [by eapply no_dirty_cleaned|by apply Hall].
  - intros [Hcn Hw']. apply Hw. rewrite (proj1 (k_conn _ _ Hk1)). split; [|done].
    by eapply connected_same, Hcn; apply Hk1.
Qed.

Lemma mm_flush_all_dirty_run mm :
  wf mm ->
  wp mm_flush_all_dirty (fun r mm' => flushed mm mm' (forall e, e ∈ entries mm -> no_dirty mm' e) r) mm.
Proof.
  intros Hwf. unfold mm_flush_all_dirty. apply wp_bind, wp_get.
  destruct ((storage_socket mm =? -1) || (worker_id mm =? -1)) eqn:Ec; [|by apply flush_entries_run].
  apply wp_ret. split; [by apply cleaned_refl|]. right. split; [done|]. intros [[H1 H2] _].
  apply orb_true_iff in Ec as [Ec%Z.eqb_eq|Ec%Z.eqb_eq]; congruence.
Qed.

End Flush.
