(* ===== verification/AccessSpec.v ===== *)
(** * Reads and writes of a file (theorems about [mm_access_memory])

    A file is seen as one array of bytes, its pages one after the other: a read
    gives the bytes of the range, a write changes them and no other, whatever the
    pages that are brought in and evicted on the way. *)

From S2P Require Import Prelude Commons PageTable MemoryManager MemoryInvariant MemorySpec PagingSpec.

(** ** Slices of byte arrays *)

Lemma mem_read_read m a n b k :
  (b + k <= n)%nat -> mem_read (mem_read m a n) b k = mem_read m (a + b) k.
Proof.
  intros H. unfold mem_read. rewrite skipn_firstn_comm, take_take, drop_drop. f_equal. lia.
Qed.

Lemma lookup_mem_read m a n i : (i < n)%nat -> mem_read m a n !! i = m !! (a + i)%nat.
Proof. intros H. unfold mem_read. by rewrite lookup_take_lt, lookup_drop by lia. Qed.

Lemma lookup_mem_write m a bs i :
  (a + length bs <= length m)%nat ->
  mem_write m a bs !! i =
    if decide (a <= i < a + length bs)%nat then bs !! (i - a)%nat else m !! i.
Proof.
  intros H. unfold mem_write. destruct (decide (i < a)%nat).
  - rewrite lookup_app_l by (rewrite length_take; lia). rewrite lookup_take_lt by lia.
    rewrite decide_False by lia. done.
  - rewrite lookup_app_r by (rewrite length_take; lia). rewrite length_take, Nat.min_l by lia.
    destruct (decide (i < a + length bs)%nat).
    + rewrite lookup_app_l by lia. rewrite decide_True by lia. done.
    + rewrite lookup_app_r by lia. rewrite lookup_drop. rewrite decide_False by lia. f_equal. lia.
Qed.

Section Access.
Context {BS : BlockStorage} {ps : Z} {BSS : BlockStorageSpec BS ps}.
Implicit Types (mm : memory_manager_t).

Abbreviation mapping := (@mapping BS).
Abbreviation wf := (@mm_wf BS ps BSS).
Abbreviation keeps := (@keeps BS ps BSS).
Abbreviation healthy := (@healthy BS).

(** ** The file as an array *)

(** Byte [a] of a file. *)
Definition vbyte mm (e : file_tag_entry_t) (a : Z) : option byte :=
  view (ps := ps) mm e (Z.to_nat (a / ps)) !! Z.to_nat (a mod ps).

(** The bytes [bs] are those of the file from [a] on. *)
Definition holds mm (e : file_tag_entry_t) (a : Z) (bs : list byte) : Prop :=
  forall i, 0 <= i < Z.of_nat (length bs) -> bs !! Z.to_nat i = vbyte mm e (a + i).

(** [keeps] but for the contents. *)
Record sound mm mm' : Prop := {
  so_wf : wf mm';
  so_entries : entries mm' = entries mm;
  so_conn : same_conn mm mm';
  so_policy : policy mm' = policy mm;
  so_frames : frame_count mm' = frame_count mm;
  so_leak : no_leak mm -> no_leak mm';
  so_rest f t n : other_file (entries mm) f t -> block_of (the_store mm') f t n = block_of (the_store mm) f t n
}.

Lemma sound_refl mm : wf mm -> sound mm mm.
Proof. by split. Qed.

Lemma sound_trans mm1 mm2 mm3 : sound mm1 mm2 -> sound mm2 mm3 -> sound mm1 mm3.
Proof.
  intros [W1 E1 [C1 D1] P1 F1 L1 R1] [W2 E2 [C2 D2] P2 F2 L2 R2].
  split; [done|congruence|split; congruence|congruence|congruence|auto|].
  intros f t n Hf. rewrite R2 by (by rewrite E1). by apply R1.
Qed.

Lemma keeps_sound mm mm' : keeps mm mm' -> (no_leak mm -> no_leak mm') -> sound mm mm'.
Proof. by intros [] Hl; split. Qed.

Lemma sound_searchable mm mm' : sound mm mm' -> searchable mm -> searchable mm'.
Proof. intros [] Hs Hp. apply so_leak0, Hs. congruence. Qed.

Lemma sound_healthy mm mm' : sound mm mm' -> healthy mm -> healthy mm'.
Proof. intros []. by apply healthy_ext. Qed.

Lemma keeps_vbyte mm mm' e a : keeps mm mm' -> e ∈ entries mm -> vbyte mm' e a = vbyte mm e a.
Proof. intros Hk He. unfold vbyte. by rewrite (k_view _ _ Hk). Qed.

Lemma view_length mm e j : wf mm -> e ∈ entries mm -> length (view (ps := ps) mm e j) = Z.to_nat ps.
Proof.
  intros Hwf He. pose proof Hwf as [Hs Hm]. unfold view, contents.
  destruct (mapping mm (page_table e) j) as [[f d]|] eqn:E; [|apply block_of_length].
  destruct (m_used _ _ _ _ _ Hm _ _ _ _ E) as [H0 Hl]. apply lookup_lt_Some in Hl.
  apply frame_bytes_length; [done|]. unfold frame_count. lia.
Qed.

(** Addresses of a page. *)
Lemma page_address page off : 0 <= off < ps -> (page * ps + off) / ps = page /\ (page * ps + off) mod ps = off.
Proof.
  intros H. rewrite Z.add_comm, Z.div_add, Z.mod_add by lia.
  by rewrite Z.div_small, Z.mod_small by lia.
Qed.

(** ** Writes *)

(** The file [e] has [bs] from [a] on, and nothing else has changed. *)
Definition wrote mm mm' (e : file_tag_entry_t) (a : Z) (bs : list byte) : Prop :=
  forall e' a', e' ∈ entries mm -> 0 <= a' ->
    vbyte mm' e' a' =
      if decide (e' = e /\ a <= a' < a + Z.of_nat (length bs)) then bs !! Z.to_nat (a' - a)
      else vbyte mm e' a'.

Lemma wrote_nil mm mm' e a : keeps mm mm' -> wrote mm mm' e a [].
Proof.
  intros Hk e' a' He' _. rewrite decide_False by (simpl; lia). by apply keeps_vbyte.
Qed.

Lemma wrote_app mm mm1 mm2 e a bs1 bs2 :
  entries mm1 = entries mm -> wrote mm mm1 e a bs1 ->
  wrote mm1 mm2 e (a + Z.of_nat (length bs1)) bs2 -> wrote mm mm2 e a (bs1 ++ bs2).
Proof.
  intros Een H1 H2 e' a' He' Ha'. rewrite H2 by (by rewrite ?Een). rewrite length_app.
  destruct (decide (e' = e)) as [->|Hne]; [|rewrite !decide_False by naive_solver; rewrite H1 by done;
    by rewrite decide_False by naive_solver].
  destruct (decide (a + Z.of_nat (length bs1) <= a' < a + Z.of_nat (length bs1) + Z.of_nat (length bs2))) as [Hr|Hr].
  - rewrite !decide_True by (split; [done|lia]). rewrite lookup_app_r by lia. f_equal. lia.
  - rewrite (decide_False (P := e = e /\ _)) by naive_solver. rewrite H1 by done.
    destruct (decide (a <= a' < a + Z.of_nat (length bs1))) as [Hr1|Hr1].
    + rewrite !decide_True by (split; [done|lia]). by rewrite lookup_app_l by lia.
    + rewrite !decide_False by (intros [_ ?]; lia). done.
Qed.

(** ** One page of an access *)

Lemma view_mapped mm e j f d :
  mapping mm (page_table e) j = Some (f, d) ->
  view (ps := ps) mm e j = frame_bytes (ps := ps) (physical_memory mm) f.
Proof. intros E. unfold view, contents. by rewrite E. Qed.

Lemma load_chunk {A} (K : list byte -> MM A) e j f d off n (R : A -> memory_manager_t -> Prop) mm :
  wf mm -> e ∈ entries mm -> mapping mm (page_table e) j = Some (f, d) ->
  0 <= off -> 0 <= n -> off + n <= ps ->
  (forall bs, Z.of_nat (length bs) = n -> holds mm e (Z.of_nat j * ps + off) bs -> wp (K bs) R mm) ->
  wp (bs ← load (f * ps + off) n; K bs) R mm.
Proof.
  intros Hwf He Hj H0 Hn Hle HR. pose proof Hwf as [Hs _].
  destruct (s_ps _ Hs) as [_ Hps]. pose proof (s_mem _ Hs) as Hmem.
  pose proof (mapped_frame _ _ _ _ _ Hwf Hj) as Hr. apply wp_bind. unfold wp at 1, load.
  destruct (Z.leb_spec 0 (f * ps + off)); [|nia].
  destruct (Z.leb_spec (f * ps + off + n) (Z.of_nat (length (physical_memory mm)))); [|nia]. cbn [andb].
  assert (Hlen : length (mem_read (physical_memory mm) (Z.to_nat (f * ps + off)) (Z.to_nat n)) = Z.to_nat n)
    by (apply length_mem_read; nia).
  apply HR; [lia|]. intros i Hi. rewrite Hlen in Hi. rewrite lookup_mem_read by lia. unfold vbyte.
  replace (Z.of_nat j * ps + off + i) with (Z.of_nat j * ps + (off + i)) by lia.
  destruct (page_address (Z.of_nat j) (off + i)) as [-> ->]; [lia|].
  rewrite Nat2Z.id, (view_mapped _ _ _ _ _ Hj). unfold frame_bytes. rewrite lookup_mem_read by lia. f_equal. nia.
Qed.

(** The page after the write, as bytes. *)
Lemma frame_written mem f off bs :
  0 < ps -> 0 <= f -> 0 <= off -> off + Z.of_nat (length bs) <= ps -> (f + 1) * ps <= Z.of_nat (length mem) ->
  frame_bytes (ps := ps) (mem_write mem (Z.to_nat (f * ps + off)) bs) f =
    mem_write (frame_bytes (ps := ps) mem f) (Z.to_nat off) bs.
Proof.
  intros Hps Hf Hoff Hlen Hmem. unfold frame_bytes. apply list_eq. intros i.
  destruct (decide (i < Z.to_nat ps)%nat) as [Hi|Hi].
  - rewrite lookup_mem_read by done. rewrite !lookup_mem_write by (rewrite ?length_mem_read; nia).
    rewrite lookup_mem_read by done.
    destruct (decide (Z.to_nat (f * ps + off) <= Z.to_nat (f * ps) + i < Z.to_nat (f * ps + off) + length bs)%nat).
    + rewrite decide_True by nia. f_equal. nia.
    + rewrite decide_False by nia. done.
  - rewrite !lookup_ge_None_2; [done| |].
    + rewrite length_mem_write; rewrite ?length_mem_read; nia.
    + rewrite length_mem_read; [nia|]. rewrite length_mem_write; nia.
Qed.

(** The bytes of a file after a write to one of its pages. *)
Lemma page_written mm mm' e j off bs :
  wf mm -> e ∈ entries mm -> 0 <= off -> off + Z.of_nat (length bs) <= ps ->
  (forall e' i, e' ∈ entries mm -> view (ps := ps) mm' e' i =
     if decide (e' = e /\ i = j) then mem_write (view (ps := ps) mm e j) (Z.to_nat off) bs else view (ps := ps) mm e' i) ->
  wrote mm mm' e (Z.of_nat j * ps + off) bs.
Proof.
  intros Hwf He H0 Hle Hview e' a' He' Ha'. pose proof Hwf as [Hs _]. destruct (s_ps _ Hs) as [_ Hps].
  unfold vbyte. rewrite Hview by done.
  pose proof (Z.div_mod a' ps). pose proof (Z.mod_pos_bound a' ps). pose proof (Z.div_pos a' ps).
  assert (Hin : (a' / ps = Z.of_nat j /\ off <= a' mod ps < off + Z.of_nat (length bs)) <->
                Z.of_nat j * ps + off <= a' < Z.of_nat j * ps + off + Z.of_nat (length bs)).
  { split; [nia|]. intros Ha. assert (a' / ps = Z.of_nat j) by (symmetry; apply (Z.div_unique a' ps _ (a' - Z.of_nat j * ps)); nia). nia. }
  destruct (decide (e' = e /\ Z.to_nat (a' / ps) = j)) as [[-> Ej]|Hne].
  - assert (Ej' : a' / ps = Z.of_nat j) by lia.
    rewrite lookup_mem_write by (rewrite view_length; [nia|done|done]).
    destruct (decide (Z.to_nat off <= Z.to_nat (a' mod ps) < Z.to_nat off + length bs)%nat).
    + rewrite decide_True by (split; [done|]; apply Hin; split; [done|lia]). f_equal. nia.
    + rewrite decide_False by (intros [_ Ha]; apply Hin in Ha as [_ Ha]; lia). by rewrite <- Ej.
  - rewrite decide_False; [done|]. intros [-> Ha]. apply Hne. split; [done|]. apply Hin in Ha as [-> _]. lia.
Qed.

Lemma store_chunk {A} (K : MM A) e j f d pt off bs (R : A -> memory_manager_t -> Prop) mm :
  wf mm -> e ∈ entries mm -> mapping mm (page_table e) j = Some (f, d) ->
  pts mm !! page_table e = Some pt -> 0 <= off -> off + Z.of_nat (length bs) <= ps ->
  (forall mm', sound mm mm' -> wrote mm mm' e (Z.of_nat j * ps + off) bs -> wp K R mm') ->
  wp (store_bytes (f * ps + off) bs;; set_pt (page_table e) (pt_set_dirty pt (Z.of_nat j) true);; K) R mm.
Proof.
  intros Hwf He Hj Hp H0 Hle HR. pose proof Hwf as [Hs Hm].
  destruct (s_ps _ Hs) as [_ Hps]. pose proof (s_mem _ Hs) as Hmem.
  pose proof (mapped_frame _ _ _ _ _ Hwf Hj) as Hr.
  destruct (mapping_some _ _ _ _ _ Hj) as (pt' & pg & Hp' & Hpg & Hpr & Hfr & _).
  rewrite Hp in Hp'. injection Hp' as <-.
  assert (Hpt : pt_wf pt) by (by eapply s_pt).
  assert (Hd : pt_set_dirty pt (Z.of_nat j) true = pt_set_entry pt (Z.of_nat j) (on_dirty true)).
  { unfold pt_set_dirty. destruct (pt_get_entry_some pt (Z.of_nat j) Hpt) as (pg' & -> & _); [|done].
    pose proof (ptw_count pt Hpt). apply lookup_lt_Some in Hpg. lia. }
  apply wp_bind. eapply wp_intro.
  { unfold store_bytes. destruct (Z.leb_spec 0 (f * ps + off)); [|nia].
    destruct (Z.leb_spec (f * ps + off + Z.of_nat (length bs)) (Z.of_nat (length (physical_memory mm)))); [done|nia]. }
  apply wp_bind, wp_modify. rewrite Hd.
  set (mem' := mem_write (physical_memory mm) (Z.to_nat (f * ps + off)) bs).
  set (mm' := on_pts _ _).
  assert (Emap : forall q i, mapping mm' q i = set_map (mapping mm) (page_table e) j (Some (f, true)) q i).
  { intros q i. unfold mm'. rewrite (mapping_set_entry _ _ _ _ (on_memory _ mm)) by exact Hp.
    rewrite Nat2Z.id, Hpg. unfold page_map, set_map. cbn. by rewrite Hpr, Hfr. }
  destruct (write_page (entries mm) (mapping mm) (frames mm) (physical_memory mm) mem' (the_store mm) e j f d
              (s_ptrs _ Hs) He Hm Hj) as (Hm' & Hv & Hve).
  { intros f' Hf' Hne. apply frame_bytes_other; (done || nia). }
  assert (Hview : forall e' i, e' ∈ entries mm -> view (ps := ps) mm' e' i =
    if decide (e' = e /\ i = j) then mem_write (view (ps := ps) mm e j) (Z.to_nat off) bs else view (ps := ps) mm e' i).
  { intros e' i He'. transitivity (contents (ps := ps) (set_map (mapping mm) (page_table e) j (Some (f, true))) mem' (the_store mm) e' i);
      [by apply contents_ext|]. destruct (decide (e' = e /\ i = j)) as [[-> ->]|Hne].
    - rewrite Hve, (view_mapped _ _ _ _ _ Hj). apply frame_written; (done || nia).
    - apply Hv; [done|]. naive_solver. }
  apply HR.
  - split; try done.
    + split; [|by eapply map_wf_ext]. apply struct_set_pt; [|by exists pt|by apply pt_set_entry_wf].
      destruct Hs. split; try done. cbn [physical_memory on_memory]. rewrite length_mem_write; [done|nia].
    + intros Hn i Hi _. destruct (no_leak_held mm i Hn Hi) as (p & k & d' & Hpk).
      destruct (decide (p = page_table e /\ k = j)) as [[-> ->]|Hne].
      * exists (page_table e), j, true. rewrite Emap. unfold set_map. rewrite decide_True by done. congruence.
      * exists p, k, d'. rewrite Emap. unfold set_map. by rewrite decide_False.
  - by apply (page_written mm mm' e j off bs).
Qed.

(** ** The loop *)

(** [k] bytes were read into [out], or written. *)
Definition accessed mm mm' e (a : Z) (data : option (list byte)) (out out' : list byte) (k : nat) : Prop :=
  sound mm mm' /\
  match data with
  | None => keeps mm mm' /\ exists bs, out' = out ++ bs /\ length bs = k /\ holds mm e a bs
  | Some bs => out' = out /\ wrote mm mm' e a (take k bs)
  end.

Definition access_done mm mm' e a size data out (r : Z) out' : Prop :=
  exists k, accessed mm mm' e a data out out' k /\
    ((r = 0 /\ Z.of_nat k = size) \/ (r = -1 /\ Z.of_nat k <= size /\ ~ (healthy mm /\ no_leak mm))).

Lemma accessed_nothing mm mm' e a data out :
  keeps mm mm' -> (no_leak mm -> no_leak mm') -> accessed mm mm' e a data out out 0.
Proof.
  intros Hk Hnl. split; [by apply keeps_sound|]. destruct data as [bs|].
  - split; [done|]. by apply wrote_nil.
  - split; [done|]. exists []. rewrite app_nil_r. split; [done|]. split; [done|]. intros i Hi. simpl in Hi. lia.
Qed.

(** The pages of an access: the first ones, then the rest. *)
Lemma keeps_done mm mm1 mm' e a size data out r out' :
  keeps mm mm1 -> (no_leak mm -> no_leak mm1) -> e ∈ entries mm ->
  access_done mm1 mm' e a size data out r out' -> access_done mm mm' e a size data out r out'.
Proof.
  intros Hk Hnl He (k & [Hs Hd] & Hr). pose proof (keeps_sound _ _ Hk Hnl) as Hs1. exists k. split.
  - split; [by eapply sound_trans|]. destruct data as [bs|].
    + destruct Hd as [-> Hw]. split; [done|]. intros e' a' He' Ha'. rewrite Hw by (by rewrite ?(k_entries _ _ Hk)).
      by rewrite (keeps_vbyte mm mm1).
    + destruct Hd as [Hk2 (bs & -> & Hl & Hh)]. split; [by eapply keeps_trans|]. exists bs. split; [done|].
      split; [done|]. intros i Hi. rewrite (Hh i Hi). by apply keeps_vbyte.
  - destruct Hr as [Hr|(-> & Hle & Hno)]; [by left|right]. split; [done|]. split; [done|].
    intros [Hh Hn]. apply Hno. split; [by eapply sound_healthy|auto].
Qed.

Lemma read_then mm mm' e a n size bs out r out' :
  Z.of_nat (length bs) = n -> n <= size -> holds mm e a bs ->
  access_done mm mm' e (a + n) (size - n) None (out ++ bs) r out' ->
  access_done mm mm' e a size None out r out'.
Proof.
  intros Hn Hle Hh (k & [Hs (Hk & bs' & -> & Hl & Hh')] & Hr). exists (length bs + k)%nat. split.
  - split; [done|]. split; [done|]. exists (bs ++ bs'). rewrite <- app_assoc, length_app, Hl. split; [done|].
    split; [done|]. intros i Hi. rewrite length_app in Hi. destruct (decide (i < n)).
    + rewrite lookup_app_l by lia. apply Hh. lia.
    + rewrite lookup_app_r by lia. replace (Z.to_nat i - length bs)%nat with (Z.to_nat (i - n)) by lia.
      rewrite (Hh' (i - n)) by lia. f_equal. lia.
  - destruct Hr as [[-> Hk']|(-> & Hk' & Hno)]; [left|right]; (split; [done|]); [lia|]. split; [lia|done].
Qed.

Lemma write_then mm mm1 mm' e a n size bs out r out' :
  0 <= n <= size -> Z.of_nat (length bs) = size ->
  sound mm mm1 -> wrote mm mm1 e a (take (Z.to_nat n) bs) ->
  access_done mm1 mm' e (a + n) (size - n) (Some (drop (Z.to_nat n) bs)) out r out' ->
  access_done mm mm' e a size (Some bs) out r out'.
Proof.
  intros Hn Hl Hs1 Hw1 (k & [Hs (-> & Hw)] & Hr). exists (Z.to_nat n + k)%nat. split.
  - split; [by eapply sound_trans|]. split; [done|].
    rewrite <- (take_drop (Z.to_nat n) bs), take_app_add' by (rewrite length_take; lia).
    eapply wrote_app; [apply Hs1|exact Hw1|]. rewrite length_take. by replace (Z.of_nat (Z.to_nat n `min` length bs)) with n by lia.
  - destruct Hr as [[-> Hk']|(-> & Hk' & Hno)]; [left|right]; (split; [done|]); [lia|]. split; [lia|].
    intros [Hh Hnl]. apply Hno. split; [by eapply sound_healthy|by apply Hs1].
Qed.

(** The page of a round is in memory after the first half of the round. *)
Lemma page_in_run {A} (K : Z -> MM A) entry e j (R : A -> memory_manager_t -> Prop) mm pt :
  wf mm -> searchable mm -> e ∈ entries mm -> Z.of_nat j + 1 < 2 ^ 32 ->
  pts mm !! page_table e = Some pt -> pt_entries pt !! j = Some entry ->
  (forall mm', keeps mm mm' -> (no_leak mm -> no_leak mm') ->
     (exists f d, mapping mm' (page_table e) j = Some (f, d)) -> wp (K 0) R mm') ->
  (forall mm', keeps mm mm' -> (no_leak mm -> no_leak mm') -> ~ healthy mm -> wp (K (-1)) R mm') ->
  wp (rc ← (if present entry then mret 0
            else mm_handle_page_fault (page_table e) (file e) (tag e) (Z.of_nat j)); K rc) R mm.
Proof.
  intros Hwf Hse He Hj Hp Hl HR HF. apply wp_bind. destruct (present entry) eqn:Hpr.
  - apply wp_ret, HR; [by apply keeps_refl|done|]. exists (frame entry), (dirty entry).
    rewrite (mapping_get _ pt) by done. unfold page_map. by rewrite Hl, Hpr.
  - eapply wp_mono; [apply mm_handle_page_fault_run; try done|].
    + rewrite (mapping_get _ pt) by done. unfold page_map. by rewrite Hl, Hpr.
    + intros r mm' (Hk & Hnl & [(-> & f & Hf)|(-> & Hh)]); [apply HR|apply HF]; eauto.
Qed.

(** The page of a round is in memory: its bytes are copied, and the rest follows. *)
Lemma copy_run mm e j f d offset remaining n data out (rest : option (list byte) -> list byte -> MM (Z * list byte)) :
  wf mm -> e ∈ entries mm -> mapping mm (page_table e) j = Some (f, d) ->
  0 <= offset -> 0 <= n <= remaining -> offset + n <= ps ->
  (forall bs, data = Some bs -> Z.of_nat (length bs) = remaining) ->
  (forall mm' data' out', sound mm mm' -> (forall bs, data' = Some bs -> Z.of_nat (length bs) = remaining - n) ->
    wp (rest data' out') (fun r mm'' => access_done mm' mm'' e (Z.of_nat j * ps + offset + n) (remaining - n) data' out' (fst r) (snd r)) mm') ->
  forall pt, pts mm !! page_table e = Some pt ->
  wp (match data with
      | Some bs =>
          store_bytes (f * ps + offset) (take (Z.to_nat n) bs);;
          set_pt (page_table e) (pt_set_dirty pt (Z.of_nat j) true);;
          rest (Some (drop (Z.to_nat n) bs)) out
      | None => bs ← load (f * ps + offset) n; rest None (out ++ bs)
      end) (fun r mm' => access_done mm mm' e (Z.of_nat j * ps + offset) remaining data out (fst r) (snd r)) mm.
Proof.
  intros Hwf He Hf Hoff Hn Hend Hdata Hrest pt Hp. destruct data as [bs|].
  - specialize (Hdata bs eq_refl). eapply (store_chunk _ e j f d pt); [done|done|exact Hf|exact Hp|done| |].
    { rewrite length_take. lia. }
    intros mm4 Hs4 Hw4. eapply wp_mono; [apply Hrest; [done|]|].
    { intros bs' [= <-]. rewrite length_drop. lia. }
    intros [r out'] mm' Hd. by eapply (write_then mm mm4 mm').
  - eapply (load_chunk _ e j f d); [done|done|exact Hf|lia|lia|lia|]. intros bs Hlen Hh.
    eapply wp_mono; [apply Hrest; [by apply sound_refl|done]|].
    intros [r out'] mm' Hd. eapply read_then; [exact Hlen| |exact Hh|exact Hd]. lia.
Qed.

Lemma access_loop_run fuel mm e j offset remaining data out :
  wf mm -> searchable mm -> e ∈ entries mm -> 0 <= offset < ps ->
  Z.of_nat j * ps + offset + remaining < 2 ^ 32 -> 0 <= remaining < Z.of_nat fuel ->
  (forall bs, data = Some bs -> Z.of_nat (length bs) = remaining) ->
  wp (access_loop fuel (page_table e) (file e) (tag e) (Z.of_nat j) offset remaining data out)
    (fun r mm' => access_done mm mm' e (Z.of_nat j * ps + offset) remaining data out (fst r) (snd r)) mm.
Proof.
  revert mm j offset remaining data out.
  induction fuel as [|fuel IH]; intros mm j offset remaining data out Hwf Hse He Hoff Hend Hrem Hdata; [lia|].
  cbn [access_loop]. destruct (Z.leb_spec remaining 0) as [Hle|Hgt].
  { apply wp_ret. exists 0%nat. split; [by apply accessed_nothing; [apply keeps_refl|]|]. left. split; [done|lia]. }
  destruct (entry_table mm e Hwf He) as [pt Hp]. apply wp_bind. eapply wp_get_pt; [exact Hp|].
  destruct (grow_run pt (Z.of_nat j)) as (pt' & -> & Hpt' & Hin & Hsame);
    [destruct Hwf as [[] _]; eauto|lia|nia|].
  apply wp_bind, wp_modify. simpl negb. cbv iota.
  destruct (grow_keeps (page_table e) pt pt' mm Hwf Hp Hpt' Hsame) as [Hk1 Hmap1].
  set (mm1 := on_pts _ mm) in *.
  assert (Hnl1 : no_leak mm -> no_leak mm1) by (by apply no_leak_ext).
  destruct (lookup_lt_is_Some_2 (pt_entries pt') j) as [entry Hentry]; [pose proof (ptw_count pt' Hpt'); lia|].
  rewrite Nat2Z.id, Hentry.
  eapply page_in_run; [apply Hk1|by eapply searchable_keeps|exact He|nia|cbn; by rewrite lookup_insert_eq|exact Hentry| |].
  2:{ intros mm2 Hk2 Hnl2 Hh. apply wp_ret. exists 0%nat. split.
      - apply accessed_nothing; [by eapply keeps_trans|auto].
      - right. split; [done|]. split; [cbn; lia|]. intros [Hh' _]. apply Hh. by apply (healthy_ext mm). }
  intros mm2 Hk2 Hnl2 (f & d & Hf). simpl negb. cbv iota.
  assert (Hk12 : keeps mm mm2) by (by eapply keeps_trans).
  destruct (entry_table mm2 e) as [pt2 Hp2]; [apply Hk12|by rewrite (k_entries _ _ Hk12)|].
  apply wp_bind. eapply wp_update_access; [apply Hk12|exact Hp2|]. intros mm3 Hk3 Hmap3 _ Hfr3.
  assert (Hk : keeps mm mm3) by (by eapply keeps_trans).
  assert (Hnl : no_leak mm -> no_leak mm3).
  { intros Hn. eapply no_leak_ext; [exact Hmap3|exact Hfr3|]. by apply Hnl2, Hnl1. }
  rewrite <- Hmap3 in Hf. destruct (mapping_some _ _ _ _ _ Hf) as (pt3 & pg & Hp3 & Hpg & Hpr & Hpf & _).
  apply wp_bind. eapply wp_get_pt; [exact Hp3|]. apply wp_bind, wp_get. rewrite Hpg.
  pose proof (mapped_frame _ _ _ _ _ (k_wf _ _ Hk) Hf) as Hfr. unfold mm_get_frame_address.
  rewrite Hpf. destruct (Z.leb_spec (frame_count mm3) f); [lia|].
  pose proof (k_wf _ _ Hk) as [Hs3 _]. destruct (s_ps _ Hs3) as [-> Hps]. rewrite (u32_small ps) by lia.
  set (n := if remaining <? ps - offset then remaining else ps - offset).
  assert (Hn : 0 < n <= remaining /\ offset + n <= ps /\ (n = remaining \/ offset + n = ps)).
  { unfold n. destruct (Z.ltb_spec remaining (ps - offset)); lia. }
  assert (Hrest : forall mm4 data' out', sound mm3 mm4 ->
    (forall bs, data' = Some bs -> Z.of_nat (length bs) = remaining - n) ->
    wp (access_loop fuel (page_table e) (file e) (tag e) (u32 (Z.of_nat j + 1)) 0 (remaining - n) data' out')
      (fun r mm' => access_done mm4 mm' e (Z.of_nat j * ps + offset + n) (remaining - n) data' out' (fst r) (snd r)) mm4).
  { intros mm4 data' out' Hs4 Hd'. rewrite u32_small by nia.
    replace (Z.of_nat j + 1) with (Z.of_nat (S j)) by lia. destruct (decide (n = remaining)) as [E|Hne].
    - rewrite E, Z.sub_diag. destruct fuel; [lia|]. cbn [access_loop]. apply wp_ret. exists 0%nat.
      split; [apply accessed_nothing; [apply keeps_refl, Hs4|done]|]. by left.
    - replace (Z.of_nat j * ps + offset + n) with (Z.of_nat (S j) * ps + 0) by lia.
      apply IH; [apply Hs4| |by rewrite (so_entries _ _ Hs4), (k_entries _ _ Hk)|lia|nia|lia|exact Hd'].
      eapply sound_searchable; [exact Hs4|]. by eapply searchable_keeps. }
  eapply wp_mono; [eapply (copy_run mm3 e j f d offset remaining n data out
    (access_loop fuel (page_table e) (file e) (tag e) (u32 (Z.of_nat j + 1)) 0 (remaining - n)));
    [apply Hk|by rewrite (k_entries _ _ Hk)|exact Hf|lia|lia|lia|exact Hdata|exact Hrest|exact Hp3]|].
  intros [r out'] mm' Hd. by eapply keeps_done.
Qed.

End Access.
