(* ===== verification/FilesSpec.v ===== *)
(** * The memory manager as a set of files

    [content] is the array of bytes that a file and tag name: the one its pages
    stand for when the manager has a table for it, the Storage's otherwise.  Each
    operation of memory_manager.c is described by what it does to it. *)

From S2P Require Import Prelude Commons PageTable MemoryManager MemoryInvariant MemorySpec PagingSpec.
From S2P Require Import FlushSpec AccessSpec.

Section Files.
Context {BS : BlockStorage} {ps : Z} {BSS : BlockStorageSpec BS ps}.
Implicit Types (mm : memory_manager_t).

Abbreviation mapping := (@mapping BS).
Abbreviation wf := (@mm_wf BS ps BSS).
Abbreviation keeps := (@keeps BS ps BSS).
Abbreviation sound := (@sound BS ps BSS).

Definition block_byte (s : store) (f t : string) (a : Z) : option byte :=
  block_of s f t (a / ps) !! Z.to_nat (a mod ps).

Definition content mm (f t : string) (a : Z) : option byte :=
  match List.find (same_file f t) (entries mm) with
  | Some e => vbyte (ps := ps) mm e a
  | None => block_byte (the_store mm) f t a
  end.

Definition same_content mm mm' : Prop := forall f t a, 0 <= a -> content mm' f t a = content mm f t a.

(** What every operation preserves. *)
Record runs mm mm' : Prop := {
  r_wf : wf mm';
  r_conn : same_conn mm mm';
  r_policy : policy mm' = policy mm;
  r_frames : frame_count mm' = frame_count mm;
  r_leak : no_leak mm -> no_leak mm'
}.

Lemma runs_refl mm : wf mm -> runs mm mm.
Proof. by split. Qed.

Lemma runs_trans mm1 mm2 mm3 : runs mm1 mm2 -> runs mm2 mm3 -> runs mm1 mm3.
Proof.
  intros [W1 [C1 D1] P1 F1 L1] [W2 [C2 D2] P2 F2 L2].
  split; [done|split; congruence|congruence|congruence|auto].
Qed.

Lemma sound_runs mm mm' : sound mm mm' -> runs mm mm'.
Proof. by intros []. Qed.

Lemma content_entry mm e a : wf mm -> e ∈ entries mm -> content mm (file e) (tag e) a = vbyte (ps := ps) mm e a.
Proof. intros [Hs _] He. unfold content. rewrite find_own; [done|apply Hs|done]. Qed.

Lemma content_other mm f t a :
  other_file (entries mm) f t -> content mm f t a = block_byte (the_store mm) f t a.
Proof.
  intros Ho. unfold content. pose proof (find_entry (entries mm) f t) as H.
  destruct (List.find _ _) as [e|]; [|done]. destruct H as (He & Hf & Ht). by destruct (Ho e He).
Qed.

Lemma content_keeps mm mm' : keeps mm mm' -> same_content mm mm'.
Proof.
  intros Hk f t a Ha. unfold content. rewrite (k_entries _ _ Hk).
  pose proof (find_entry (entries mm) f t) as H. destruct (List.find _ _) as [e|].
  - apply keeps_vbyte; [done|apply H].
  - unfold block_byte. by rewrite (k_rest _ _ Hk).
Qed.

(** A write, on the contents. *)
Definition updated mm mm' (f t : string) (a : Z) (bs : list byte) : Prop :=
  forall f' t' a', 0 <= a' -> content mm' f' t' a' =
    if decide (f' = f /\ t' = t /\ a <= a' < a + Z.of_nat (length bs)) then bs !! Z.to_nat (a' - a)
    else content mm f' t' a'.

Lemma content_wrote mm mm' e a bs :
  wf mm -> e ∈ entries mm -> sound mm mm' -> wrote (ps := ps) mm mm' e a bs ->
  updated mm mm' (file e) (tag e) a bs.
Proof.
  intros Hwf He Hs Hw f t a' Ha. unfold content. rewrite (so_entries _ _ Hs).
  pose proof (find_entry (entries mm) f t) as H. destruct (List.find _ _) as [e'|].
  - destruct H as (He' & <- & <-). rewrite Hw by done.
    destruct (decide (e' = e /\ _)) as [[-> Hr]|Hne]; [by rewrite decide_True|].
    rewrite decide_False; [done|]. intros (Ef & Et & Hr). apply Hne. split; [|done].
    destruct Hwf as [Hst _]. by apply (entry_key (entries mm)); [apply Hst|..].
  - rewrite decide_False by (intros (-> & -> & _); by apply (H e)).
    unfold block_byte. by rewrite (so_rest _ _ Hs).
Qed.

(** ** Opening a file *)

(** A table for [f:t], whose pages are all in the Storage if it is new. *)
Definition opened mm mm' f t (e : file_tag_entry_t) : Prop :=
  runs mm mm' /\ same_content mm mm' /\ e ∈ entries mm' /\ file e = f /\ tag e = t /\
  (forall e', e' ∈ entries mm' <-> e' = e \/ e' ∈ entries mm).

(** A table with no page in memory is added. *)
Definition with_table mm f t pt cap : memory_manager_t :=
  on_entries (fun l => l ++ [MkFileTag f t (next_ptr mm)]) (on_pts (fun h => <[next_ptr mm := pt]> h)
    (on_next_ptr (Pos.succ (next_ptr mm)) (on_capacity cap mm))).

Lemma with_table_entries mm f t pt cap e' :
  e' ∈ entries (with_table mm f t pt cap) <-> e' = MkFileTag f t (next_ptr mm) \/ e' ∈ entries mm.
Proof.
  cbn [entries with_table on_entries on_pts on_next_ptr on_capacity]. rewrite elem_of_app, list_elem_of_singleton. tauto.
Qed.

Lemma next_ptr_fresh mm : wf mm -> pts mm !! next_ptr mm = None.
Proof.
  intros [Hs _]. destruct (pts mm !! next_ptr mm) eqn:E; [|done]. pose proof (s_fresh _ Hs (next_ptr mm)) as H.
  rewrite E in H. specialize (H ltac:(eauto)). lia.
Qed.

Lemma with_table_mapping mm f t pt cap p j :
  wf mm -> (forall j, page_map (pt_entries pt !! j) = None) -> mapping (with_table mm f t pt cap) p j = mapping mm p j.
Proof.
  intros Hwf Hno. unfold MemoryInvariant.mapping. cbn [pts with_table on_entries on_pts on_next_ptr on_capacity].
  destruct (decide (p = next_ptr mm)) as [->|Hne]; [by rewrite lookup_insert_eq, next_ptr_fresh, Hno|by rewrite lookup_insert_ne].
Qed.

Lemma with_table_wf mm f t pt cap :
  wf mm -> name_ok f -> name_ok t -> other_file (entries mm) f t -> pt_wf pt ->
  (forall j, page_map (pt_entries pt !! j) = None) -> wf (with_table mm f t pt cap).
Proof.
  intros Hwf Hnf Hnt Ho Hpt Hno. pose proof Hwf as [Hs Hm]. pose proof (next_ptr_fresh mm Hwf) as Hfresh.
  assert (Hnew : next_ptr mm ∉ map page_table (entries mm)).
  { intros H. apply (s_dom _ Hs) in H as [x H]. congruence. }
  pose proof (with_table_mapping mm f t pt cap) as Emap. pose proof (with_table_entries mm f t pt cap) as Hmem.
  split; [split|split]; cbn [entries with_table on_entries on_pts on_next_ptr on_capacity pts next_ptr].
  1-4: apply Hs.
  - rewrite map_app. cbn [map]. apply NoDup_app. split; [apply Hs|]. split; [|by apply NoDup_singleton].
    intros x (e' & -> & He')%list_elem_of_fmap [= E1 E2]%list_elem_of_singleton. by apply (Ho e' He').
  - rewrite map_app. cbn [map]. apply NoDup_app. split; [apply Hs|]. split; [|by apply NoDup_singleton].
    by intros x Hx ->%list_elem_of_singleton.
  - intros p. rewrite lookup_insert_is_Some', map_app, elem_of_app. cbn [map].
    rewrite list_elem_of_singleton, (s_dom _ Hs). naive_solver.
  - intros p [x [[<- _]|[_ H]]%lookup_insert_Some]; [lia|]. pose proof (s_fresh _ Hs p ltac:(eauto)). lia.
  - intros p pt' [[_ <-]|[_ H]]%lookup_insert_Some; [done|]. by eapply s_pt.
  - intros p j Hv. rewrite lookup_insert_is_Some'. right. by eapply s_victim.
  - apply Hs.
  - intros e' [->|He']%Hmem; [done|by apply Hs].
  - intros p j g d. rewrite Emap by done. apply Hm.
  - intros p j g d p' j' d'. rewrite !Emap by done. apply Hm.
  - intros e' j g He'%Hmem E. rewrite Emap in E by done. destruct He' as [->|He']; [|by apply Hm].
    apply mapping_some in E as (? & ? & E & _). cbn in E. congruence.
Qed.

Lemma with_table_content mm f t pt cap :
  wf mm -> wf (with_table mm f t pt cap) -> other_file (entries mm) f t -> (forall j, page_map (pt_entries pt !! j) = None) ->
  same_content mm (with_table mm f t pt cap).
Proof.
  intros Hwf Hwf' Ho Hno f' t' a Ha. pose proof Hwf as [Hs _]. pose proof (next_ptr_fresh mm Hwf) as Hfresh.
  assert (Emap : forall p j, mapping (with_table mm f t pt cap) p j = mapping mm p j) by (intros; by apply with_table_mapping).
  pose proof (with_table_entries mm f t pt cap) as Hmem.
  set (mm' := with_table mm f t pt cap) in *. set (e := MkFileTag f t (next_ptr mm)) in *.
  assert (Hview : forall e' j, view (ps := ps) mm' e' j = view (ps := ps) mm e' j) by (intros; by apply contents_ext).
  pose proof (find_entry (entries mm) f' t') as H. destruct (List.find (same_file f' t') (entries mm)) as [e'|] eqn:Ef.
  - destruct H as (He' & <- & <-). rewrite !content_entry by (done || by apply Hmem; right). unfold vbyte. by rewrite Hview.
  - rewrite (content_other mm) by done. destruct (decide (f' = f /\ t' = t)) as [[-> ->]|Hne].
    + change (content mm' (file e) (tag e) a = block_byte (the_store mm) f t a).
      rewrite content_entry by (done || by apply Hmem; left). unfold vbyte, block_byte. rewrite Hview.
      unfold view, contents. destruct (mapping mm (page_table e) _) as [[g d]|] eqn:E.
      { apply mapping_some in E as (? & ? & E & _). cbn in E. congruence. }
      destruct (s_ps _ Hs) as [_ Hps]. rewrite Z2Nat.id; [done|]. apply Z.div_pos; lia.
    + rewrite content_other; [done|]. intros e' [->|He']%Hmem [E1 E2]; [by apply Hne|by apply (H e')].
Qed.

Lemma add_table mm f t pt cap :
  wf mm -> name_ok f -> name_ok t -> other_file (entries mm) f t -> pt_wf pt -> (forall j, page_map (pt_entries pt !! j) = None) ->
  opened mm (with_table mm f t pt cap) f t (MkFileTag f t (next_ptr mm)).
Proof.
  intros Hwf Hnf Hnt Ho Hpt Hno. assert (Hwf' : wf (with_table mm f t pt cap)) by by apply with_table_wf.
  pose proof (with_table_entries mm f t pt cap) as Hmem.
  split; [|split; [by apply with_table_content|split; [by apply Hmem; left|done]]].
  split; try done. apply no_leak_ext; [|done]. intros p j. by apply with_table_mapping.
Qed.

Lemma new_pages_absent n j : page_map (map new_entry (seq 0 n) !! j) = None.
Proof.
  destruct (map new_entry (seq 0 n) !! j) as [pg|] eqn:E; [|done].
  by apply lookup_new_entries in E as [-> _].
Qed.

Lemma capacity_eta mm : on_capacity (capacity mm) mm = mm.
Proof. by destruct mm. Qed.

Lemma mm_create_page_table_run f t mm :
  wf mm -> name_ok f -> name_ok t ->
  wp (mm_create_page_table f t) (fun r mm' => exists e, opened mm mm' f t e /\ r = Some (page_table e)) mm.
Proof.
  intros Hwf Hnf Hnt. pose proof Hwf as [Hs _]. unfold mm_create_page_table, mm_find_page_table. apply wp_bind, wp_get.
  pose proof (find_entry (entries mm) f t) as H. destruct (List.find _ (entries mm)) as [e|]; cbn [fmap option_fmap option_map].
  { destruct H as (He & Hf & Ht). apply wp_ret. exists e. split; [|done].
    split; [by apply runs_refl|]. repeat (split; [done|]). naive_solver. }
  apply wp_bind, wp_modify. destruct (s_ps _ Hs) as [-> Hps]. unfold pt_create. cbn [Z.eqb orb].
  destruct (Z.eqb_spec ps 0); [lia|]. apply wp_bind, wp_modify, wp_bind, wp_modify, wp_bind, wp_modify, wp_ret.
  exists (MkFileTag f t (next_ptr mm)). split; [|done].
  assert (Hcap : exists cap, mm_resize_entries mm = on_capacity cap mm) by
    (unfold mm_resize_entries; destruct (_ <? _); [exists (capacity mm); by rewrite capacity_eta|eauto]).
  destruct Hcap as [cap ->]. apply add_table; [done|done|done|done| |apply (new_pages_absent 1)].
  by destruct (pt_create_wf 1 ps (MkPageTable (map new_entry (seq 0 1)) 1 ps)) as [Hpt _];
    [lia|unfold pt_create; cbn [Z.eqb orb]; destruct (Z.eqb_spec ps 0); [lia|done]|].
Qed.

(** ** Reading and writing *)

(** What can make an access fail. *)
Definition may_fail mm : Prop := ~ (healthy mm /\ no_leak mm).

Lemma mm_read_run e base size mm :
  wf mm -> searchable mm -> e ∈ entries mm -> 0 <= base -> 0 < size -> base + size < 2 ^ 32 ->
  wp (mm_read_from_memory (page_table e) (file e) (tag e) base size) (fun r mm' =>
    runs mm mm' /\ same_content mm mm' /\
    ((fst r = 0 /\ Z.of_nat (length (snd r)) = size /\
        forall i, 0 <= i < size -> snd r !! Z.to_nat i = content mm (file e) (tag e) (base + i)) \/
     (fst r = -1 /\ may_fail mm))) mm.
Proof.
  intros Hwf Hse He Hb Hsz Hend. pose proof Hwf as [Hs _]. destruct (s_ps _ Hs) as [Eps Hps].
  unfold mm_read_from_memory, mm_access_memory. destruct (Z.eqb_spec size 0); [lia|].
  apply wp_bind, wp_get. rewrite Eps, u32_small by lia. destruct (Z.eqb_spec ps 0); [lia|].
  pose proof (Z.div_mod base ps). pose proof (Z.mod_pos_bound base ps). pose proof (Z.div_pos base ps).
  replace (base / ps) with (Z.of_nat (Z.to_nat (base / ps))) by lia.
  assert (Ea : Z.of_nat (Z.to_nat (base / ps)) * ps + base mod ps = base) by nia.
  eapply wp_mono; [apply access_loop_run; [done|done|done|lia|lia|lia|done]|].
  rewrite Ea. intros [r out] mm' (k & [Hso (Hk & bs & Eo & Hl & Hh)] & Hr). cbn [fst snd] in *. cbn [app] in Eo. subst out.
  split; [by apply sound_runs|]. split; [by apply content_keeps|].
  destruct Hr as [[-> Hkk]|(-> & _ & Hno)]; [left|by right]. split; [done|]. split; [lia|].
  intros i Hi. rewrite content_entry by done. apply Hh. lia.
Qed.

Lemma mm_write_run e base data mm :
  wf mm -> searchable mm -> e ∈ entries mm -> 0 <= base -> data <> [] ->
  base + Z.of_nat (length data) < 2 ^ 32 ->
  wp (mm_write_to_memory (page_table e) (file e) (tag e) base data) (fun r mm' =>
    runs mm mm' /\ exists k, updated mm mm' (file e) (tag e) base (take k data) /\
    ((r = 0 /\ k = length data) \/ (r = -1 /\ (k <= length data)%nat /\ may_fail mm))) mm.
Proof.
  intros Hwf Hse He Hb Hne Hend. pose proof Hwf as [Hs _]. destruct (s_ps _ Hs) as [Eps Hps].
  assert (Hlen : 0 < Z.of_nat (length data)) by (destruct data; [done|cbn; lia]).
  unfold mm_write_to_memory, mm_access_memory. apply wp_bind. destruct (Z.eqb_spec (Z.of_nat (length data)) 0); [lia|].
  apply wp_bind, wp_get. rewrite Eps, u32_small by lia. destruct (Z.eqb_spec ps 0); [lia|].
  pose proof (Z.div_mod base ps). pose proof (Z.mod_pos_bound base ps). pose proof (Z.div_pos base ps).
  replace (base / ps) with (Z.of_nat (Z.to_nat (base / ps))) by lia.
  assert (Ea : Z.of_nat (Z.to_nat (base / ps)) * ps + base mod ps = base) by nia.
  eapply wp_mono; [apply access_loop_run; [done|done|done|lia|lia|lia|by intros bs [= <-]]|].
  rewrite Ea. intros [r out] mm' (k & [Hso (_ & Hw)] & Hr). cbn [fst snd] in *. apply wp_ret.
  split; [by apply sound_runs|]. exists k. split; [by apply content_wrote|].
  destruct Hr as [[-> Hkk]|(-> & Hle & Hno)]; [left|right]; (split; [done|]); [lia|]. split; [lia|done].
Qed.

(** ** Flushing *)

(** A clean file is in the Storage. *)
Lemma no_dirty_stored mm f t :
  wf mm -> (forall e, e ∈ entries mm -> file e = f -> tag e = t -> no_dirty mm e) ->
  forall a, 0 <= a -> content mm f t a = block_byte (the_store mm) f t a.
Proof.
  intros [Hs Hm] Hno a Ha. unfold content. pose proof (find_entry (entries mm) f t) as H.
  destruct (List.find _ _) as [e|]; [|done]. destruct H as (He & <- & <-). unfold vbyte, view, contents, block_byte.
  destruct (s_ps _ Hs) as [_ Hps]. pose proof (Z.div_pos a ps).
  destruct (mapping mm (page_table e) (Z.to_nat (a / ps))) as [[g d]|] eqn:E; [|by rewrite Z2Nat.id by lia].
  destruct d; [by destruct (Hno e He eq_refl eq_refl _ _ E)|].
  rewrite (m_coherent _ _ _ _ _ Hm e _ g He E). by rewrite Z2Nat.id by lia.
Qed.

Lemma cleaned_runs mm mm' : cleaned (ps := ps) mm mm' -> runs mm mm' /\ same_content mm mm'.
Proof.
  intros Hc. pose proof Hc as [Hk _ _]. split; [|by apply content_keeps].
  destruct Hk. split; try done. by apply cleaned_no_leak.
Qed.

(** ** Removing pages *)

(** Frame [f] is in use for a page that is no more. *)
Definition leaked mm (f : Z) : Prop := 0 <= f /\ frames mm !! Z.to_nat f = Some true /\ ~ held mm f.

(** The files keep their contents, but for [f:t] from page [n] on, which is the
    Storage's again; the frames of those pages are lost. *)
Record dropped mm mm' (f t : string) (n : Z) : Prop := {
  d_wf : wf mm';
  d_conn : same_conn mm mm';
  d_policy : policy mm' = policy mm;
  d_store : the_store mm' = the_store mm;
  d_frames : frames mm' = frames mm;
  d_content f' t' a : 0 <= a -> content mm' f' t' a =
    if decide (f' = f /\ t' = t /\ n <= a / ps) then block_byte (the_store mm) f t a else content mm f' t' a;
  d_leak e j g d : e ∈ entries mm -> file e = f -> tag e = t -> n <= Z.of_nat j ->
    mapping mm (page_table e) j = Some (g, d) -> leaked mm' g;
  d_gone e j : e ∈ entries mm -> file e = f -> tag e = t -> n <= Z.of_nat j -> mapping mm' (page_table e) j = None;
  d_entries e : e ∈ entries mm' -> e ∈ entries mm;
  d_mapping p j v : mapping mm' p j = Some v -> mapping mm p j = Some v
}.

Lemma dropped_leak mm mm' e j g d :
  wf mm -> mapping mm (page_table e) j = Some (g, d) -> frames mm' = frames mm ->
  (forall p i v, mapping mm' p i = Some v -> mapping mm p i = Some v) ->
  mapping mm' (page_table e) j = None -> leaked mm' g.
Proof.
  intros [_ Hm] Hj Hf Hsub Hno. destruct (m_used _ _ _ _ _ Hm _ _ _ _ Hj) as [H0 Hl].
  split; [done|]. split; [by rewrite Hf|]. intros (p & i & d' & Hp). pose proof (Hsub _ _ _ Hp) as Hp'.
  destruct (m_inj _ _ _ _ _ Hm _ _ _ _ _ _ _ Hj Hp') as [<- <-]. congruence.
Qed.

Lemma mm_resize_page_table_run e n mm :
  wf mm -> e ∈ entries mm -> 0 < n < 2 ^ 32 ->
  wp (mm_resize_page_table (file e) (tag e) n) (fun r mm' => r = 0 /\ dropped mm mm' (file e) (tag e) n) mm.
Proof.
  intros Hwf He Hn. pose proof Hwf as [Hs Hm]. unfold mm_resize_page_table, mm_find_page_table.
  apply wp_bind, wp_get. rewrite find_own by (done || apply Hs). cbn [fmap option_fmap option_map].
  destruct (entry_table mm e Hwf He) as [pt Hp]. assert (Hpt : pt_wf pt) by (by eapply s_pt).
  apply wp_bind. eapply wp_get_pt; [exact Hp|]. apply wp_bind, wp_modify, wp_ret.
  destruct (pt_resize_wf pt n Hpt Hn) as (H0 & Hpt' & _). split; [done|]. set (mm' := on_pts _ mm).
  assert (Emap : forall p j, mapping mm' p j =
    if decide (p = page_table e /\ n <= Z.of_nat j) then None else mapping mm p j).
  { intros p j. unfold mm'. rewrite mapping_set_pt. destruct (decide (p = page_table e)) as [->|Hne].
    - rewrite pt_resize_lookup by done. rewrite (mapping_get _ pt) by done.
      pose proof (ptw_count pt Hpt). destruct (decide (Z.of_nat j < n)).
      + rewrite (decide_False (P := _ /\ _)) by lia. destruct (decide (Z.of_nat j < page_count pt)); [done|].
        by rewrite (lookup_ge_None_2 (pt_entries pt)) by lia.
      + by rewrite decide_True by (split; [done|lia]).
    - rewrite decide_False; [done|]. by intros [? _]. }
  assert (Hsub : forall p j v, mapping mm' p j = Some v -> mapping mm p j = Some v).
  { intros p j v. rewrite Emap. by destruct (decide _). }
  split; try done.
  - split; [apply struct_set_pt; eauto|]. eapply map_wf_sub; [exact Hm|done|exact Hsub].
  - intros f' t' a Ha. unfold content. change (entries mm') with (entries mm).
    pose proof (find_entry (entries mm) f' t') as H. destruct (List.find _ _) as [e'|].
    + destruct H as (He' & <- & <-). unfold vbyte, view, contents, block_byte. rewrite Emap.
      destruct (s_ps _ Hs) as [_ Hps]. pose proof (Z.div_pos a ps). rewrite !Z2Nat.id by lia.
      destruct (decide (page_table e' = page_table e /\ n <= a / ps)) as [[Ep Hle]|Hne].
      * assert (e' = e) as -> by (by apply (entry_ptr (entries mm)); [apply Hs|..]). by rewrite decide_True.
      * rewrite decide_False; [done|]. intros (Ef & Et & Hle). apply Hne. split; [|done].
        by rewrite (entry_key (entries mm) e' e) by (done || apply Hs).
    + rewrite decide_False; [done|]. intros (-> & -> & _). by apply (H e).
  - intros e' j g d He' Ef Et Hj Hg. rewrite (entry_key (entries mm) e' e) in Hg by (done || apply Hs).
    eapply dropped_leak; [done|exact Hg|done|exact Hsub|]. rewrite Emap. by rewrite decide_True.
  - intros e' j He' Ef Et Hj. rewrite (entry_key (entries mm) e' e) by (done || apply Hs).
    rewrite Emap. by rewrite decide_True.
Qed.

(** Growing a table drops nothing. *)
Lemma dropped_grows mm mm' e n :
  wf mm -> e ∈ entries mm -> dropped mm mm' (file e) (tag e) n ->
  (forall j f d, mapping mm (page_table e) j = Some (f, d) -> Z.of_nat j < n) -> same_content mm mm'.
Proof.
  intros [Hs Hm] He [] Hall f t a Ha. rewrite d_content0 by done.
  destruct (decide _) as [(-> & -> & Hle)|]; [|done]. rewrite content_entry by (done || by split).
  unfold vbyte, view, contents, block_byte. destruct (s_ps _ Hs) as [_ Hps]. pose proof (Z.div_pos a ps).
  destruct (mapping mm (page_table e) (Z.to_nat (a / ps))) as [[g d]|] eqn:E; [|by rewrite Z2Nat.id by lia].
  apply Hall in E. lia.
Qed.

Lemma remove_entry_perm i (l : list file_tag_entry_t) e :
  l !! i = Some e -> Permutation l (e :: remove_entry i l).
Proof.
  intros Hi. pose proof (lookup_lt_Some _ _ _ Hi) as Hlt. unfold remove_entry.
  destruct l as [|x l0 _] using rev_ind; [done|]. rewrite last_snoc. rewrite length_app in Hlt |- *. cbn [length] in Hlt |- *.
  replace (length l0 + 1 - 1)%nat with (length l0) by lia. destruct (decide (i = length l0)) as [->|Hne].
  - rewrite lookup_app_r, Nat.sub_diag in Hi by done. injection Hi as <-.
    rewrite take_insert_ge, take_app_length by done. apply Permutation_app_comm.
  - assert (Hl : (i < length l0)%nat) by lia. rewrite lookup_app_l in Hi by done.
    rewrite insert_app_l, take_app_length' by (done || by rewrite length_insert).
    rewrite insert_take_drop by done. rewrite <- (take_drop_middle l0 i e Hi) at 1.
    rewrite <- app_assoc. cbn [app].
    etransitivity; [symmetry; apply Permutation_middle|]. constructor. apply Permutation_app_head.
    symmetry. apply Permutation_cons_append.
Qed.

(** What is left of a memory manager whose [i]-th entry is removed. *)
Definition without_entry (mm : memory_manager_t) (e : file_tag_entry_t) (i : nat) : memory_manager_t :=
  on_entries (remove_entry i) (on_pts (delete (page_table e)) mm).

Section Removed.
Context (mm : memory_manager_t) (e : file_tag_entry_t) (i : nat).
Context (Hwf : wf mm) (Hi : entries mm !! i = Some e).

#[local] Abbreviation without := (without_entry mm e i).

Lemma removed_entries e' : e' ∈ entries without <-> e' ∈ entries mm /\ e' <> e.
Proof.
  pose proof (remove_entry_perm i _ _ Hi) as Hperm. pose proof Hwf as [Hs _].
  assert (Hp : NoDup (map page_table (e :: remove_entry i (entries mm)))) by (rewrite <- Hperm; apply Hs).
  cbn [map] in Hp. apply NoDup_cons in Hp as [Hp _]. cbn [entries without_entry on_entries on_pts].
  set (es := remove_entry i _) in *. clearbody es. rewrite Hperm, elem_of_cons. split; [|tauto]. intros H. split; [by right|]. intros ->.
  apply Hp, list_elem_of_fmap. eauto.
Qed.

Lemma removed_mapping p j : mapping without p j = if decide (p = page_table e) then None else mapping mm p j.
Proof.
  unfold MemoryInvariant.mapping, without_entry. cbn [pts on_entries on_pts]. destruct (decide (p = page_table e)) as [->|].
  - by rewrite lookup_delete_eq.
  - by rewrite lookup_delete_ne.
Qed.

Lemma removed_mapping_sub p j v : mapping without p j = Some v -> mapping mm p j = Some v.
Proof. rewrite removed_mapping. by destruct (decide _). Qed.

Lemma removed_keys : NoDup (map (fun e => (file e, tag e)) (entries without)) /\ NoDup (map page_table (entries without)).
Proof.
  pose proof (remove_entry_perm i _ _ Hi) as Hperm. pose proof Hwf as [Hs _].
  assert (Hk : NoDup (map (fun e => (file e, tag e)) (e :: remove_entry i (entries mm)))) by (rewrite <- Hperm; apply Hs).
  assert (Hp : NoDup (map page_table (e :: remove_entry i (entries mm)))) by (rewrite <- Hperm; apply Hs).
  cbn [map] in Hk, Hp. by apply NoDup_cons in Hk as [_ Hk], Hp as [_ Hp].
Qed.

Lemma removed_wf : (forall j, last_victim mm <> Some (page_table e, j)) -> wf without.
Proof.
  intros Hvic. pose proof Hwf as [Hs Hm]. pose proof (remove_entry_perm i _ _ Hi) as Hperm. pose proof removed_keys as [Hk Hp].
  split; [|eapply map_wf_sub; [exact Hm|by intros e' [? _]%removed_entries|exact removed_mapping_sub]].
  destruct Hs. split; try done; cbn [pts on_entries on_pts without_entry entries next_ptr last_victim].
  - assert (Hnd : NoDup (map page_table (e :: remove_entry i (entries mm)))) by (by rewrite <- Hperm).
    cbn [map] in Hnd. apply NoDup_cons in Hnd as [Hout _].
    intros p. rewrite lookup_delete_is_Some, s_dom, (Permutation_map page_table Hperm). cbn [map]. rewrite elem_of_cons.
    split; [naive_solver|]. intros H. split; [by intros <-|by right].
  - intros p [_ H]%lookup_delete_is_Some. by apply s_fresh.
  - intros p pt [_ H]%lookup_delete_Some. by eapply s_pt.
  - intros p j Hv. rewrite lookup_delete_is_Some. split; [intros <-; by apply (Hvic j)|by eapply s_victim].
  - intros e' [He' _]%removed_entries. by apply s_names.
Qed.

Lemma removed_content f t a :
  0 <= a -> content without f t a =
    if decide (f = file e /\ t = tag e /\ 0 <= a / ps) then block_byte (the_store mm) (file e) (tag e) a else content mm f t a.
Proof.
  intros Ha. pose proof Hwf as [Hs _]. destruct (s_ps _ Hs) as [_ Hps]. pose proof (Z.div_pos a ps).
  assert (He : e ∈ entries mm) by (by eapply list_elem_of_lookup_2).
  destruct (decide (f = file e /\ t = tag e /\ 0 <= a / ps)) as [(-> & -> & _)|Hne].
  - rewrite (content_other without); [done|]. intros e' [He' Hne]%removed_entries [E1 E2].
    apply Hne. by apply (entry_key (entries mm)); [apply Hs|..].
  - unfold content. pose proof (find_entry (entries mm) f t) as H1. pose proof (find_entry (entries without) f t) as H2.
    destruct (List.find _ (entries mm)) as [e1|].
    + destruct H1 as (He1 & <- & <-). assert (He1' : e1 ∈ entries without).
      { apply removed_entries. split; [done|]. intros ->. apply Hne. split; [done|split; [done|lia]]. }
      rewrite find_own by (done || apply removed_keys). unfold vbyte, view, contents. rewrite removed_mapping.
      rewrite decide_False; [done|]. intros Ep. apply removed_entries in He1' as [_ Hne']. apply Hne'.
      by apply (entry_ptr (entries mm)); [apply Hs|..].
    + destruct (List.find _ (entries without)) as [e1|]; [|done]. destruct H2 as (He1 & Hf & Ht).
      by destruct (H1 e1 (proj1 (proj1 (removed_entries e1) He1))).
Qed.

Lemma removed_dropped : (forall j, last_victim mm <> Some (page_table e, j)) -> dropped mm without (file e) (tag e) 0.
Proof.
  intros Hvic. pose proof Hwf as [Hs Hm]. assert (He : e ∈ entries mm) by (by eapply list_elem_of_lookup_2).
  assert (Hkey : forall e', e' ∈ entries mm -> file e' = file e -> tag e' = tag e -> e' = e)
    by (intros; by apply (entry_key (entries mm)); [apply Hs|..]).
  split; try done; [by apply removed_wf|by apply removed_content| | |by intros e' [He' _]%removed_entries|by apply removed_mapping_sub].
  - intros e' j g d He' Ef' Et' Hj Hg. rewrite (Hkey e') in Hg by done.
    eapply dropped_leak; [done|exact Hg|done|exact removed_mapping_sub|]. rewrite removed_mapping. by rewrite decide_True.
  - intros e' j He' Ef' Et' Hj. rewrite (Hkey e') by done. rewrite removed_mapping. by rewrite decide_True.
Qed.

End Removed.

Lemma mm_remove_page_table_run e mm :
  wf mm -> e ∈ entries mm -> (forall j, last_victim mm <> Some (page_table e, j)) ->
  wp (mm_remove_page_table (file e) (tag e)) (fun _ mm' =>
    dropped mm mm' (file e) (tag e) 0 /\ (forall e', e' ∈ entries mm' <-> e' ∈ entries mm /\ e' <> e)) mm.
Proof.
  intros Hwf He Hvic. pose proof Hwf as [Hs _]. unfold mm_remove_page_table. apply wp_bind, wp_get.
  pose proof (find_index_spec (same_file (file e) (tag e)) (entries mm)) as Hi.
  destruct (find_index _ _) as [i|].
  2:{ apply list_elem_of_lookup_1 in He as [i He]. specialize (Hi i e He).
      assert (same_file (file e) (tag e) e = true) by (by apply same_file_true). congruence. }
  destruct Hi as (e0 & Hi & [Ef Et]%same_file_true). rewrite Hi.
  assert (e0 = e) as -> by (apply (entry_key (entries mm)); try done; [apply Hs|by eapply list_elem_of_lookup_2]).
  apply wp_bind, wp_modify, wp_modify. split; [by apply removed_dropped|]. by apply removed_entries.
Qed.

(** ** The first state *)

Lemma connections_wf ss w q ms mm :
  wf mm -> conn_ok (MkConn ss ms q) -> wf (on_connections ss w q ms mm).
Proof. intros [[] []]. by split. Qed.

Lemma mm_create_wf memory_size pol memory s ts mm :
  0 < ps < 2 ^ 32 -> 0 <= memory_size < 2 ^ 31 -> Z.of_nat (length memory) = memory_size ->
  mm_create memory_size ps pol memory s ts = Some mm -> wf mm /\ no_leak mm /\ entries mm = [].
Proof.
  intros Hps Hsz Hlen. unfold mm_create. destruct ((memory_size =? 0) || (ps =? 0)) eqn:E; [done|].
  apply orb_false_iff in E as [E0%Z.eqb_neq E1%Z.eqb_neq]. intros [= <-].
  assert (Hn : 0 <= memory_size / ps <= memory_size).
  { split; [apply Z.div_pos; lia|]. apply Z.div_le_upper_bound; nia. }
  rewrite u32_small by lia.
  assert (Hmap : forall p j v, mapping (MkMM [] 0 ps pol memory (-1) (-1) (-1) (-1)
    (replicate (Z.to_nat (memory_size / ps)) false) 0 None ∅ 1%positive ts s) p j <> Some v).
  { intros p j v. unfold MemoryInvariant.mapping. cbn [pts]. by rewrite lookup_empty. }
  split; [|split; [|done]].
  - split; [split|split]; unfold frame_count; cbn [frames mm_page_size physical_memory clock_pointer entries pts last_victim map].
    + done.
    + rewrite length_replicate. lia.
    + rewrite length_replicate, Z2Nat.id, Hlen by lia. pose proof (Z.mul_div_le memory_size ps). lia.
    + rewrite length_replicate. lia.
    + constructor.
    + constructor.
    + intros p. rewrite lookup_empty. split; [by intros [? ?]|by intros ?%not_elem_of_nil].
    + intros p. rewrite lookup_empty. by intros [? ?].
    + intros p pt. by rewrite lookup_empty.
    + done.
    + apply conn_ok_none.
    + by intros e ?%not_elem_of_nil.
    + intros p j f d H. by destruct (Hmap _ _ _ H).
    + intros p j f d p' j' d' H. by destruct (Hmap _ _ _ H).
    + intros e j f ?%not_elem_of_nil. done.
  - intros i Hi. cbn [frames] in Hi. apply lookup_replicate in Hi as [? _]. done.
Qed.

End Files.
