(* ===== verification/Interpreter.v ===== *)
(** * The query interpreter of the worker (worker/src/query_interpreter/)

    Fetch, decode and execution of the instructions of a query.  The scripts are
    read from a file system, split by the string functions of the so-commons
    library, and executed against the memory manager, the Storage and the Master:
    the first two are parameters, the calls to the others are those of
    connections/storage.c and connections/master.c. *)

From Stdlib Require Import Ascii.
From S2P Require Import Prelude CStrings Commons Serialization PageTable MemoryManager.

(** ** What the interpreter asks of its surroundings *)

(** The strings of the commons library. *)
Class CommonsString : Type := {
  string_split : string -> string -> list string;
  string_equals_ignore_case : string -> string -> bool
}.

(** The contents of a file, [None] when it cannot be opened. *)
Class FileSystem : Type := file_contents : string -> option (list byte).

(** The other calls of connections/storage.c and connections/master.c. *)
Class WorkerCalls (BS : BlockStorage) : Type := {
  create_file_in_storage : conn_t -> string -> string -> ST store Z;
  truncate_file_in_storage : conn_t -> string -> string -> Z -> ST store Z;
  fork_file_in_storage : conn_t -> string -> string -> string -> string -> ST store Z;
  commit_file_in_storage : conn_t -> string -> string -> ST store Z;
  delete_file_in_storage : conn_t -> string -> string -> ST store Z;
  send_read_content_to_master : conn_t -> list byte -> string -> string -> Z -> ST store Z;
  end_query_in_master : conn_t -> Z -> ST store Z
}.

(** ** Instructions *)

Inductive operation_t := CREATE | TRUNCATE | WRITE | READ | TAG | COMMIT | FLUSH | DELETE | END | UNKNOWN.

(** The tagged union: the operation and the parameters it uses. *)
Inductive instruction_t :=
| I_create (file tag : string)
| I_truncate (file tag : string) (size : Z)
| I_write (file tag : string) (base : Z) (data : string)
| I_read (file tag : string) (base size : Z)
| I_tag (file_src tag_src file_dst tag_dst : string)
| I_commit (file tag : string)
| I_flush (file tag : string)
| I_delete (file tag : string)
| I_end.

Definition operation (i : instruction_t) : operation_t :=
  match i with
  | I_create _ _ => CREATE | I_truncate _ _ _ => TRUNCATE | I_write _ _ _ _ => WRITE
  | I_read _ _ _ _ => READ | I_tag _ _ _ _ => TAG | I_commit _ _ => COMMIT
  | I_flush _ _ => FLUSH | I_delete _ _ => DELETE | I_end => END
  end.

(** ** Fetch *)

(** [fgets] with a buffer of 256: the line it reads and what is left. *)
Fixpoint fgets (n : nat) (bs : list byte) : list byte * list byte :=
  match n, bs with
  | S n, b :: bs =>
      if Byte.eqb b x0a then ([b], bs)
      else let '(line, rest) := fgets n bs in (b :: line, rest)
  | _, _ => ([], bs)
  end.

(** [line[strcspn(line, "\n")] = 0], as the C string that is duplicated. *)
Fixpoint cut_line (line : list byte) : string :=
  match line with
  | [] => EmptyString
  | b :: line =>
      if Byte.eqb b x0a || Byte.eqb b x00 then EmptyString
      else String (Ascii.ascii_of_byte b) (cut_line line)
  end.

(** The loop over the lines; a round of [fgets] takes at least one byte. *)
Fixpoint fetch_loop (fuel : nat) (bs : list byte) (current_line program_counter : Z) : Z * option string :=
  match fuel with
  | O => (-1, None)
  | S fuel =>
      match bs with
      | [] => (-1, None)
      | _ =>
          let '(line, rest) := fgets 255 bs in
          if current_line =? program_counter then (0, Some (cut_line line))
          else fetch_loop fuel rest (u32 (current_line + 1)) program_counter
      end
  end.

Definition fetch_instruction `{FileSystem} (path : string) (program_counter : Z) : Z * option string :=
  match file_contents path with
  | None => (-1, None)
  | Some bs => fetch_loop (S (length bs)) bs 0 program_counter
  end.

(** ** Decode *)

Section Decode.
Context `{CS : CommonsString}.

Definition get_operation_type (s : string) : operation_t :=
  if string_equals_ignore_case s "CREATE" then CREATE
  else if string_equals_ignore_case s "TRUNCATE" then TRUNCATE
  else if string_equals_ignore_case s "WRITE" then WRITE
  else if string_equals_ignore_case s "READ" then READ
  else if string_equals_ignore_case s "TAG" then TAG
  else if string_equals_ignore_case s "COMMIT" then COMMIT
  else if string_equals_ignore_case s "FLUSH" then FLUSH
  else if string_equals_ignore_case s "DELETE" then DELETE
  else if string_equals_ignore_case s "END" then END
  else UNKNOWN.

Definition get_file_tag (s : string) : list string := string_split s ":".

(** The file and the tag of a word, when it has both. *)
Definition file_and_tag (s : string) : option (string * string) :=
  match get_file_tag s with
  | f :: t :: _ => Some (f, t)
  | _ => None
  end.

Definition decode_simple (make : string -> string -> instruction_t) (args : list string) : option instruction_t :=
  match args with
  | ft :: _ => match file_and_tag ft with Some (f, t) => Some (make f t) | None => None end
  | _ => None
  end.

Definition decode_instruction (raw_instruction : string) : Z * option instruction_t :=
  let fail := (-1, None) in
  let ok (i : option instruction_t) := match i with Some i => (0, Some i) | None => fail end in
  match string_split raw_instruction " " with
  | [] => fail
  | op :: args =>
      match get_operation_type op with
      | UNKNOWN => fail
      | CREATE => ok (decode_simple I_create args)
      | COMMIT => ok (decode_simple I_commit args)
      | FLUSH => ok (decode_simple I_flush args)
      | DELETE => ok (decode_simple I_delete args)
      | TRUNCATE =>
          match args with
          | ft :: size :: _ =>
              match file_and_tag ft with
              | Some (f, t) => (0, Some (I_truncate f t (u64 (atoi size))))
              | None => fail
              end
          | _ => fail
          end
      | WRITE =>
          match args with
          | ft :: base :: data :: _ =>
              match file_and_tag ft with
              | Some (f, t) => (0, Some (I_write f t (u32 (atoi base)) data))
              | None => fail
              end
          | _ => fail
          end
      | READ =>
          match args with
          | ft :: base :: size :: _ =>
              match file_and_tag ft with
              | Some (f, t) => (0, Some (I_read f t (u32 (atoi base)) (u64 (atoi size))))
              | None => fail
              end
          | _ => fail
          end
      | TAG =>
          match args with
          | src :: dst :: _ =>
              match file_and_tag src, file_and_tag dst with
              | Some (fs, ts), Some (fd, td) => (0, Some (I_tag fs ts fd td))
              | _, _ => fail
              end
          | _ => fail
          end
      | END => (0, Some I_end)
      end
  end.

End Decode.

(** ** Execute *)

Section Execute.
Context `{BS : BlockStorage} {WC : WorkerCalls BS}.

(** A call beyond the sockets. *)
Definition call (m : ST store Z) : MM Z := fun mm =>
  match m (the_store mm) with Some (r, s) => Some (r, on_store s mm) | None => None end.

(** [malloc] never gives more than PTRDIFF_MAX bytes. *)
Definition malloc_fails (size : Z) : bool := 2 ^ 63 <=? size.

(** [r != 0] ends the instruction with -1. *)
Definition fail_or_ok (r : Z) : MM Z := mret (if r =? 0 then 0 else -1).

Definition execute_read (c : conn_t) (worker_id : Z) (f t : string) (base size : Z) (p : ptr) : MM Z :=
  if malloc_fails size then mret (-1) else
  r ← mm_read_from_memory p f t base size;
  if negb (fst r =? 0) then mret (-1) else
  s ← call (send_read_content_to_master c (snd r) f t worker_id);
  if negb (s =? 0) then mret (-1) else mret 0.

Definition execute_instruction (i : instruction_t) (socket_storage socket_master query_id worker_id : Z) : MM Z :=
  let c := MkConn socket_storage socket_master query_id in
  match i with
  | I_create f t => r ← call (create_file_in_storage c f t); fail_or_ok r
  | I_truncate f t size =>
      mm ← st_get;
      if mm_page_size mm =? 0 then st_ub else
      if negb (size mod mm_page_size mm =? 0) then mret (-1) else
      r ← call (truncate_file_in_storage c f t size);
      if negb (r =? 0) then mret (-1) else
      mm ← st_get;
      match mm_find_page_table mm f t with
      | None => mret 0
      | Some _ =>
          _ ← mm_resize_page_table f t (u32 (size / mm_page_size mm));
          mret 0
      end
  | I_write f t base data =>
      pt ← mm_create_page_table f t;
      match pt with
      | None => mret (-1)
      | Some p =>
          r ← mm_write_to_memory p f t base (string_bytes data);
          fail_or_ok r
      end
  | I_read f t base size =>
      mm ← st_get;
      match mm_find_page_table mm f t with
      | Some p => execute_read c worker_id f t base size p
      | None =>
          pt ← mm_create_page_table f t;
          match pt with
          | None => mret (-1)
          | Some p => execute_read c worker_id f t base size p
          end
      end
  | I_tag fs ts fd td => r ← call (fork_file_in_storage c fs ts fd td); fail_or_ok r
  | I_commit f t =>
      r ← mm_flush_query f t;
      if negb (r =? 0) then mret (-1) else
      r ← call (commit_file_in_storage c f t); fail_or_ok r
  | I_flush f t => r ← mm_flush_query f t; fail_or_ok r
  | I_delete f t =>
      mm ← st_get;
      (if mm_has_page_table mm f t then mm_remove_page_table f t else mret tt);;
      r ← call (delete_file_in_storage c f t); fail_or_ok r
  | I_end => _ ← call (end_query_in_master c worker_id); mret 0
  end.

End Execute.
