(* ===== verification/WorkerConnections.v ===== *)
(** * The connections of the worker (worker/src/connections/)

    The handshakes, the calls to the Storage and the messages to the Master.  What
    is beyond the sockets is a function of everything the worker has done with
    them: the class [Network].  Packages are built, sent and read by the functions
    of Serialization.v. *)

From S2P Require Import Prelude Serialization Protocol Commons PageTable MemoryManager Interpreter.

(** ** The sockets *)

Inductive event :=
| Connected (ip port : string) (fd : Z)
| Sent (fd : Z) (block : list byte)
| Got (fd : Z) (p : option t_package)
| Closed (fd : Z).

(** Most recent first. *)
Definition history := list event.

(** What [client_connect] and [send] answer, and the bytes there are to receive. *)
Class Network : Type := {
  connects : history -> string -> string -> Z;
  send_returns : history -> Z -> list byte -> Z;
  receives : history -> Z -> t_socket
}.

Abbreviation NET := (ST history).

Section Connections.
Context `{N : Network}.

Definition client_connect (ip port : string) : NET Z := fun h =>
  let fd := connects h ip port in Some (fd, Connected ip port fd :: h).

Definition close (fd : Z) : NET unit := fun h => Some (tt, Closed fd :: h).

Definition send (p : t_package) (fd : Z) : NET Z := fun h =>
  let '(rc, block) := package_send p fd (send_returns h fd (serialized_package p)) in
  Some (rc, Sent fd block :: h).

(** No result when nothing ever arrives. *)
Definition receive (fd : Z) : NET (option t_package) := fun h =>
  match package_receive fd (receives h fd) with
  | Package p _ => Some (Some p, Got fd (Some p) :: h)
  | NoPackage _ => Some (None, Got fd None :: h)
  | Blocked => None
  end.

(** A chain of [package_add_...] joined by [&&], on an empty package. *)
Definition build (op : Z) (fields : list field) : bool * t_package :=
  package_add_all (package_create_empty op) fields.

(** ** Handshakes (common.c) *)

Definition handshake_with_server (ip port : string) (request_op expected_response_op worker_id : Z) : NET Z :=
  socket ← client_connect ip port;
  if socket <? 0 then mret (-1) else
  let fail := (close socket;; mret (-1)) in
  let '(ok, request) := build request_op [F_uint32 worker_id] in
  if negb ok then fail else
  rc ← send request socket;
  if rc <? 0 then fail else
  response ← receive socket;
  match response with
  | None => fail
  | Some response =>
      if negb (operation_code response =? expected_response_op) then fail else mret socket
  end.

Definition handshake_with_storage (ip port : string) (worker_id : Z) : NET Z :=
  handshake_with_server ip port (storage_op STORAGE_OP_WORKER_SEND_ID_REQ)
    (storage_op STORAGE_OP_WORKER_SEND_ID_RES) worker_id.

Definition handshake_with_master (ip port : string) (worker_id : Z) : NET Z :=
  handshake_with_server ip port (master_op OP_WORKER_HANDSHAKE_REQ) (master_op OP_WORKER_ACK) worker_id.

(** ** The Storage (storage.c) *)

(** The error of the Storage, sent on to the Master with the query it names. *)
Definition handler_error_from_storage (result : t_package) (master_socket : Z) : NET unit :=
  let result := package_reset_read_offset result in
  match package_read_uint32 result with
  | (None, _) => mret tt
  | (Some query_id, result) =>
      match package_read_string result with
      | (None, _) => mret tt
      | (Some error_message, _) =>
          let '(ok, error_package) :=
            build (storage_op STORAGE_OP_ERROR)
      [F_uint32 query_id; F_string error_message] in
          if negb ok then mret tt else
          _ ← send error_package master_socket; mret tt
      end
  end.

Definition send_request_and_wait_ack_with_error_handling (c : conn_t) (request : t_package)
    (expected_response_code : Z) : NET Z :=
  rc ← send request (to_storage c);
  if negb (rc =? 0) then mret (-1) else
  response ← receive (to_storage c);
  match response with
  | None => mret (-1)
  | Some response =>
      if operation_code response =? expected_response_code then mret 0
      else if operation_code response =? storage_op STORAGE_OP_ERROR
      then handler_error_from_storage response (to_master c);; mret (-1)
      else mret (-1)
  end.

Definition send_request_and_wait_ack (c : conn_t) (request : t_package) (expected_response_code : Z) : NET Z :=
  rc ← send request (to_storage c);
  if negb (rc =? 0) then mret (-1) else
  response ← receive (to_storage c);
  match response with
  | None => mret (-1)
  | Some response => if negb (operation_code response =? expected_response_code) then mret (-1) else mret 0
  end.

Definition get_block_size (storage_socket worker_id : Z) : NET (Z * option Z) :=
  let '(ok, request) :=
    build (storage_op STORAGE_OP_WORKER_GET_BLOCK_SIZE_REQ)
      [F_uint32 worker_id] in
  if negb ok then mret (-1, None) else
  rc ← send request storage_socket;
  if negb (rc =? 0) then mret (-1, None) else
  response ← receive storage_socket;
  match response with
  | None => mret (-1, None)
  | Some response =>
      if negb (operation_code response =? storage_op STORAGE_OP_WORKER_GET_BLOCK_SIZE_RES) then mret (-1, None) else
      match package_read_uint16 response with
      | (None, _) => mret (-1, None)
      | (Some block_size, _) => mret (0, Some block_size)
      end
  end.

(** The data of a block, checked against the size that precedes it. *)
Definition block_data (response : t_package) : Z * option (list byte) :=
  match package_read_uint32 response with
  | (None, _) => (-1, None)
  | (Some data_size, response) =>
      match package_read_data response with
      | (None, _) => (-1, None)
      | (Some data, _) =>
          if negb (Z.of_nat (length data) =? data_size) then (-1, None) else (0, Some data)
      end
  end.

Definition read_block_from_storage (c : conn_t) (file tag : string) (block_number : Z)
    : NET (Z * option (list byte)) :=
  let '(ok, request) :=
    build (storage_op STORAGE_OP_BLOCK_READ_REQ)
      [F_uint32 (of_query c); F_string file; F_string tag; F_uint32 block_number] in
  if negb ok then mret (-1, None) else
  rc ← send request (to_storage c);
  if negb (rc =? 0) then mret (-1, None) else
  response ← receive (to_storage c);
  match response with
  | None => mret (-1, None)
  | Some response =>
      if operation_code response =? storage_op STORAGE_OP_BLOCK_READ_RES then mret (block_data response)
      else if operation_code response =? storage_op STORAGE_OP_ERROR
      then handler_error_from_storage response (to_master c);; mret (-1, None)
      else mret (-1, None)
  end.

Definition write_block_to_storage (c : conn_t) (file tag : string) (block_number : Z) (data : list byte) : NET Z :=
  let '(ok, request) :=
    build (storage_op STORAGE_OP_BLOCK_WRITE_REQ)
      [F_uint32 (of_query c); F_string file; F_string tag; F_uint32 block_number; F_data data] in
  if negb ok then mret (-1) else
  rc ← send request (to_storage c);
  if negb (rc =? 0) then mret (-1) else
  response ← receive (to_storage c);
  match response with
  | None => mret (-1)
  | Some response =>
      if operation_code response =? storage_op STORAGE_OP_ERROR
      then handler_error_from_storage response (to_master c);; mret (-1)
      else if negb (operation_code response =? storage_op STORAGE_OP_BLOCK_WRITE_RES) then mret (-1)
      else mret 0
  end.

Definition create_file_in_storage (c : conn_t) (file tag : string) : NET Z :=
  let '(ok, request) :=
    build (storage_op STORAGE_OP_FILE_CREATE_REQ)
      [F_uint32 (of_query c); F_string file; F_string tag] in
  if ok then send_request_and_wait_ack_with_error_handling c request (storage_op STORAGE_OP_FILE_CREATE_RES)
  else mret (-1).

Definition truncate_file_in_storage (c : conn_t) (file tag : string) (size : Z) : NET Z :=
  let '(ok, request) :=
    build (storage_op STORAGE_OP_FILE_TRUNCATE_REQ)
      [F_uint32 (of_query c); F_string file; F_string tag; F_uint32 (u32 size)] in
  if ok then send_request_and_wait_ack_with_error_handling c request (storage_op STORAGE_OP_FILE_TRUNCATE_RES)
  else mret (-1).

Definition fork_file_in_storage (c : conn_t) (file_src tag_src file_dst tag_dst : string) : NET Z :=
  let '(ok, request) :=
    build (storage_op STORAGE_OP_TAG_CREATE_REQ)
      [F_uint32 (of_query c); F_string file_src; F_string tag_src; F_string file_dst; F_string tag_dst] in
  if ok then send_request_and_wait_ack_with_error_handling c request (storage_op STORAGE_OP_TAG_CREATE_RES)
  else mret (-1).

Definition commit_file_in_storage (c : conn_t) (file tag : string) : NET Z :=
  let '(ok, request) :=
    build (storage_op STORAGE_OP_TAG_COMMIT_REQ)
      [F_uint32 (of_query c); F_string file; F_string tag] in
  if ok then send_request_and_wait_ack_with_error_handling c request (storage_op STORAGE_OP_TAG_COMMIT_RES)
  else mret (-1).

Definition delete_file_in_storage (c : conn_t) (file tag : string) : NET Z :=
  let '(ok, request) :=
    build (storage_op STORAGE_OP_TAG_DELETE_REQ)
      [F_uint32 (of_query c); F_string file; F_string tag] in
  if ok then send_request_and_wait_ack c request (storage_op STORAGE_OP_TAG_DELETE_RES)
  else mret (-1).

(** ** The Master (master.c) *)

Definition end_query_in_master (c : conn_t) (worker_id : Z) : NET Z :=
  if to_master c <? 0 then mret (-1) else
  let '(ok, request) :=
    build (master_op OP_WORKER_END_QUERY)
      [F_uint32 worker_id; F_uint32 (of_query c)] in
  if ok then send request (to_master c) else mret (-1).

Definition send_read_content_to_master (c : conn_t) (data : list byte) (file tag : string) (worker_id : Z) : NET Z :=
  if to_master c <? 0 then mret (-1) else
  if Z.of_nat (length data) =? 0 then mret (-1) else
  let '(ok, request) :=
    build (master_op OP_WORKER_READ_MESSAGE_REQ)
      [F_uint32 worker_id; F_uint32 (of_query c); F_data data; F_string file; F_string tag] in
  if negb ok then mret (-1) else
  rc ← send request (to_master c);
  if rc =? 0 then mret 0 else mret (-1).

(** ** The interfaces of the memory manager and of the interpreter *)

#[export] Instance worker_storage : BlockStorage := {|
  store := history;
  MemoryManager.read_block_from_storage := read_block_from_storage;
  MemoryManager.write_block_to_storage := write_block_to_storage
|}.

#[export] Instance worker_calls : WorkerCalls worker_storage := {|
  Interpreter.create_file_in_storage := create_file_in_storage;
  Interpreter.truncate_file_in_storage := truncate_file_in_storage;
  Interpreter.fork_file_in_storage := fork_file_in_storage;
  Interpreter.commit_file_in_storage := commit_file_in_storage;
  Interpreter.delete_file_in_storage := delete_file_in_storage;
  Interpreter.send_read_content_to_master := send_read_content_to_master;
  Interpreter.end_query_in_master := end_query_in_master
|}.

End Connections.
