(* ===== verification/InterpreterSpec.v ===== *)
(** * What an instruction does to the files (theorems about [execute_instruction])

    The files the worker works on are arrays of bytes ([content]); each instruction
    is described by the arrays it leaves and by the code it returns. *)

From S2P Require Import Prelude Commons Serialization PageTable MemoryManager MemoryInvariant MemorySpec.
From S2P Require Import PagingSpec FlushSpec AccessSpec FilesSpec Interpreter.

(** The calls to the Storage touch no file but theirs, and those to the Master none;
    a call that fails touches nothing, and a truncation nothing below its size. *)
Class WorkerCallsSpec {BS : BlockStorage} (WC : WorkerCalls BS) {ps : Z} (BSS : BlockStorageSpec BS ps) : Prop := {
  create_run c f t s : conn_ok c -> name_ok f -> name_ok t ->
    wp (create_file_in_storage c f t) (fun r s' => forall f' t' n,
      ~ (r = 0 /\ f' = f /\ t' = t) -> block_of s' f' t' n = block_of s f' t' n) s;
  truncate_run c f t size s : conn_ok c -> name_ok f -> name_ok t -> 0 <= size < 2 ^ 32 ->
    wp (truncate_file_in_storage c f t size) (fun r s' => forall f' t' n,
      ~ (r = 0 /\ f' = f /\ t' = t /\ size / ps <= n) -> block_of s' f' t' n = block_of s f' t' n) s;
  fork_run c fs ts fd td s : conn_ok c -> name_ok fs -> name_ok ts -> name_ok fd -> name_ok td ->
    wp (fork_file_in_storage c fs ts fd td) (fun r s' => forall f' t' n,
      ~ (r = 0 /\ f' = fd /\ t' = td) -> block_of s' f' t' n = block_of s f' t' n) s;
  commit_run c f t s : conn_ok c -> name_ok f -> name_ok t ->
    wp (commit_file_in_storage c f t) (fun _ s' => forall f' t' n, block_of s' f' t' n = block_of s f' t' n) s;
  delete_run c f t s : conn_ok c -> name_ok f -> name_ok t ->
    wp (delete_file_in_storage c f t) (fun r s' => forall f' t' n,
      ~ (r = 0 /\ f' = f /\ t' = t) -> block_of s' f' t' n = block_of s f' t' n) s;
  send_read_run c bs f t w s : conn_ok c ->
    wp (send_read_content_to_master c bs f t w) (fun _ s' => forall f' t' n, block_of s' f' t' n = block_of s f' t' n) s;
  end_query_run c w s : conn_ok c ->
    wp (end_query_in_master c w) (fun _ s' => forall f' t' n, block_of s' f' t' n = block_of s f' t' n) s
}.

Section Spec.
Context {BS : BlockStorage} {WC : WorkerCalls BS} {ps : Z} {BSS : BlockStorageSpec BS ps} {WCS : WorkerCallsSpec WC BSS}.
Implicit Types (mm : memory_manager_t).

Abbreviation wf := (@mm_wf BS ps BSS).
Abbreviation content := (@content BS ps BSS).
Abbreviation keeps := (@keeps BS ps BSS).
Abbreviation runs := (@runs BS ps BSS).
Abbreviation same_content := (@same_content BS ps BSS).

(** ** Calls beyond the sockets *)

(** No table is lost and the files but [f:t] are as they were. *)
Definition others_same mm mm' f t : Prop :=
  forall f' t' a, 0 <= a -> ~ (f' = f /\ t' = t) -> content mm' f' t' a = content mm f' t' a.

Lemma wp_call m (P R : Z -> _ -> Prop) mm :
  wp m P (the_store mm) -> (forall r s, m (the_store mm) = Some (r, s) -> P r s -> R r (on_store s mm)) ->
  wp (call m) R mm.
Proof.
  intros Hm HR. apply wp_run in Hm as (r & s & E & Hp). unfold wp, call. rewrite E. by apply HR.
Qed.

Lemma wp_fail_or_ok r (R : Z -> memory_manager_t -> Prop) mm :
  R (if r =? 0 then 0 else -1) mm -> wp (fail_or_ok r) R mm.
Proof. apply wp_ret. Qed.

(** The Storage may change the blocks of pages that are not in memory clean. *)
Lemma moved_call mm s :
  wf mm ->
  (forall e j g, e ∈ entries mm -> mapping mm (page_table e) j = Some (g, false) ->
     block_of s (file e) (tag e) (Z.of_nat j) = block_of (the_store mm) (file e) (tag e) (Z.of_nat j)) ->
  runs mm (on_store s mm) /\
  forall f t a, block_of s f t (a / ps) = block_of (the_store mm) f t (a / ps) -> 0 <= a ->
    content (on_store s mm) f t a = content mm f t a.
Proof.
  intros [Hs Hm] Hclean. split.
  - split; try done. split; [by destruct Hs|]. destruct Hm as [Hu Hi Hc]. split; [done|done|].
    intros e j g He Hg. etransitivity; [by apply (Hc e j)|]. symmetry. by eapply Hclean.
  - intros f t a E Ha. unfold FilesSpec.content. change (entries (on_store s mm)) with (entries mm).
    pose proof (find_entry (entries mm) f t) as H. destruct (List.find _ _) as [e|].
    + destruct H as (He & <- & <-). unfold vbyte, view, contents.
      change (MemoryInvariant.mapping (on_store s mm)) with (mapping mm).
      destruct (mapping mm (page_table e) _) as [[g d]|]; [done|]. cbn [the_store on_store].
      destruct (s_ps _ Hs) as [_ Hps]. pose proof (Z.div_pos a ps). rewrite Z2Nat.id by lia. by rewrite E.
    + unfold block_byte. cbn [the_store on_store]. by rewrite E.
Qed.

Lemma same_call mm s :
  wf mm -> (forall f t n, block_of s f t n = block_of (the_store mm) f t n) ->
  runs mm (on_store s mm) /\ same_content mm (on_store s mm).
Proof. intros Hwf E. destruct (moved_call mm s Hwf) as [Hr Hc]; [done|]. split; [done|]. intros f t a Ha. by apply Hc. Qed.

(** No page of [f:t] is in memory clean. *)
Definition no_clean_page mm f t : Prop :=
  forall e j g, e ∈ entries mm -> file e = f -> tag e = t -> mapping mm (page_table e) j <> Some (g, false).

Lemma other_call mm s f t r :
  wf mm -> no_clean_page mm f t ->
  (forall f' t' n, ~ (r = 0 /\ f' = f /\ t' = t) -> block_of s f' t' n = block_of (the_store mm) f' t' n) ->
  runs mm (on_store s mm) /\ others_same mm (on_store s mm) f t /\ (r <> 0 -> same_content mm (on_store s mm)).
Proof.
  intros Hwf Hno E. destruct (moved_call mm s Hwf) as [Hr Hc].
  { intros e j g He Hg. apply E. intros (_ & Ef & Et). by apply (Hno e j g). }
  split; [done|]. split.
  - intros f' t' a Ha Hne. apply Hc; [|done]. apply E. tauto.
  - intros Hr0 f' t' a Ha. apply Hc; [|done]. apply E. tauto.
Qed.

(** ** The effect of an instruction *)

(** The message of a READ carries the bytes of the file. *)
Definition delivered mm mm' c (f t : string) (base size worker_id : Z) : Prop :=
  exists bs s0, send_read_content_to_master c bs f t worker_id s0 = Some (0, the_store mm') /\
    Z.of_nat (length bs) = size /\ forall i, 0 <= i < size -> bs !! Z.to_nat i = content mm f t (base + i).

(** The contents of the file are in the Storage. *)
Definition stored mm f t : Prop := forall a, 0 <= a -> content mm f t a = block_byte (ps := ps) (the_store mm) f t a.

Definition effect (i : instruction_t) (c : conn_t) (w : Z) mm mm' (r : Z) : Prop :=
  match i with
  | I_create f t | I_tag _ _ f t => others_same mm mm' f t /\ (r <> 0 -> same_content mm mm')
  | I_truncate f t size =>
      others_same mm mm' f t /\ forall a, 0 <= a < size -> content mm' f t a = content mm f t a
  | I_write f t base data =>
      exists k, updated (ps := ps) mm mm' f t base (take k (string_bytes data)) /\
        ((r = 0 /\ k = String.length data) \/ (r = -1 /\ (k <= String.length data)%nat))
  | I_read f t base size => same_content mm mm' /\ (r = 0 -> delivered mm mm' c f t base size w)
  | I_commit f t | I_flush f t => same_content mm mm' /\ (r = 0 -> stored mm' f t)
  | I_delete f t => others_same mm mm' f t /\ stored mm' f t
  | I_end => same_content mm mm'
  end.

(** The names that an instruction hands to the Storage. *)
Definition names_of (i : instruction_t) : list string :=
  match i with
  | I_create f t | I_truncate f t _ | I_write f t _ _ | I_read f t _ _ | I_commit f t | I_delete f t => [f; t]
  | I_tag fs ts fd td => [fs; ts; fd; td]
  | I_flush _ _ | I_end => []
  end.

Definition named (i : instruction_t) : Prop := Forall name_ok (names_of i).

(** What the contract of the Storage and the bounds of the code ask of an
    instruction: names the Storage takes, addresses below 2^32, no clean page of a
    file that the Storage makes anew, and no page dropped that the code still
    refers to. *)
Definition admissible (i : instruction_t) mm : Prop :=
  named i /\
  match i with
  | I_create f t | I_tag _ _ f t => no_clean_page mm f t
  | I_truncate f t size =>
      0 <= size < 2 ^ 32 /\ (mm_has_page_table mm f t = true -> 0 < size)
  | I_write _ _ base data => 0 <= base /\ base + strlen data < 2 ^ 32
  | I_read _ _ base size => 0 <= base /\ 0 <= size /\ base + size < 2 ^ 32
  | I_delete f t => forall e j, e ∈ entries mm -> file e = f -> tag e = t -> last_victim mm <> Some (page_table e, j)
  | _ => True
  end.

(** The instructions that take pages from memory without freeing their frames. *)
Definition drops (i : instruction_t) : bool :=
  match i with I_truncate _ _ _ | I_delete _ _ => true | _ => false end.

Record executed (i : instruction_t) (c : conn_t) (w : Z) mm mm' (r : Z) : Prop := {
  x_code : r = 0 \/ r = -1;
  x_wf : wf mm';
  x_conn : same_conn mm mm';
  x_policy : policy mm' = policy mm;
  x_frames : frame_count mm' = frame_count mm;
  x_leak : drops i = false -> no_leak mm -> no_leak mm';
  x_effect : effect i c w mm mm' r
}.

Lemma runs_executed i c w mm mm' r :
  runs mm mm' -> (r = 0 \/ r = -1) -> effect i c w mm mm' r -> executed i c w mm mm' r.
Proof. intros [] Hr He. split; try done. Qed.

Lemma code_of r : (if r =? 0 then 0 else -1) = 0 \/ (if r =? 0 then 0 else -1) = -1.
Proof. destruct (r =? 0); auto. Qed.

(** Splits the names of an instruction. *)
Ltac split_names H := unfold named, names_of in H; repeat (let H1 := fresh "Hname" in apply Forall_cons in H as [H1 H]); clear H.

Lemma create_executed f t ss sm q w mm :
  wf mm -> conn_ok (MkConn ss sm q) -> admissible (I_create f t) mm ->
  wp (execute_instruction (I_create f t) ss sm q w)
    (fun r mm' => executed (I_create f t) (MkConn ss sm q) w mm mm' r) mm.
Proof.
  intros Hwf Hc [Hn Hadm]. split_names Hn. cbn [execute_instruction]. apply wp_bind. eapply wp_call; [by apply create_run|]. intros r s _ E.
  destruct (other_call mm s f t r Hwf Hadm E) as (Hr & Ho & Hs).
  apply wp_fail_or_ok. apply runs_executed; [done|apply code_of|]. split; [done|].
  intros Hne. apply Hs. intros ->. by apply Hne.
Qed.

Lemma tag_executed fs ts fd td ss sm q w mm :
  wf mm -> conn_ok (MkConn ss sm q) -> admissible (I_tag fs ts fd td) mm ->
  wp (execute_instruction (I_tag fs ts fd td) ss sm q w)
    (fun r mm' => executed (I_tag fs ts fd td) (MkConn ss sm q) w mm mm' r) mm.
Proof.
  intros Hwf Hc [Hn Hadm]. split_names Hn. cbn [execute_instruction]. apply wp_bind. eapply wp_call; [by apply fork_run|]. intros r s _ E.
  destruct (other_call mm s fd td r Hwf Hadm E) as (Hr & Ho & Hs).
  apply wp_fail_or_ok. apply runs_executed; [done|apply code_of|]. split; [done|].
  intros Hne. apply Hs. intros ->. by apply Hne.
Qed.

Lemma flush_stored mm mm' f t :
  wf mm -> cleaned (ps := ps) mm mm' ->
  (forall e, e ∈ entries mm -> file e = f -> tag e = t -> no_dirty mm' e) -> stored mm' f t.
Proof.
  intros Hwf Hc Hno a Ha. pose proof (cl_keeps _ _ Hc) as Hk. apply no_dirty_stored; [apply Hk| |done].
  intros e He. apply Hno. by rewrite <- (k_entries _ _ Hk).
Qed.

Lemma flush_executed f t ss sm q w mm :
  wf mm ->
  wp (execute_instruction (I_flush f t) ss sm q w)
    (fun r mm' => executed (I_flush f t) (MkConn ss sm q) w mm mm' r) mm.
Proof.
  intros Hwf. cbn [execute_instruction]. apply wp_bind. eapply wp_mono; [by apply mm_flush_query_run|].
  intros r mm' [Hc Hr]. destruct (cleaned_runs _ _ Hc) as [Hruns Hsame]. apply wp_fail_or_ok.
  apply runs_executed; [done|apply code_of|]. split; [done|]. intros Hr0.
  destruct Hr as [[-> Hno]|[-> _]]; [|done]. by eapply flush_stored.
Qed.

Lemma commit_executed f t ss sm q w mm :
  wf mm -> conn_ok (MkConn ss sm q) -> named (I_commit f t) ->
  wp (execute_instruction (I_commit f t) ss sm q w)
    (fun r mm' => executed (I_commit f t) (MkConn ss sm q) w mm mm' r) mm.
Proof.
  intros Hwf Hconn Hn. split_names Hn. cbn [execute_instruction]. apply wp_bind. eapply wp_mono; [by apply mm_flush_query_run|].
  intros r mm1 [Hc Hr]. destruct (cleaned_runs _ _ Hc) as [Hruns Hsame].
  destruct Hr as [[-> Hno]|[-> _]].
  2:{ apply wp_ret, runs_executed; [done|by right|]. by split. }
  apply wp_bind. eapply wp_call; [by apply commit_run|]. intros r s _ Es. cbv beta in Es.
  destruct (same_call mm1 s (r_wf _ _ Hruns) Es) as [Hr2 Hs2]. apply wp_fail_or_ok.
  apply runs_executed; [by eapply runs_trans|apply code_of|]. split.
  - intros f' t' a Ha. by rewrite Hs2, Hsame.
  - intros _ a Ha. rewrite Hs2 by done. rewrite (flush_stored mm mm1) by done.
    unfold block_byte. cbn [the_store on_store]. by rewrite Es.
Qed.

Lemma end_executed ss sm q w mm :
  wf mm -> conn_ok (MkConn ss sm q) ->
  wp (execute_instruction I_end ss sm q w) (fun r mm' => executed I_end (MkConn ss sm q) w mm mm' r) mm.
Proof.
  intros Hwf Hc. cbn [execute_instruction]. apply wp_bind. eapply wp_call; [by apply end_query_run|]. intros r s _ E.
  destruct (same_call mm s Hwf E) as [Hr Hs].
  apply wp_ret, runs_executed; [done|by left|done].
Qed.

(** ** WRITE and READ *)

Lemma opened_step mm mm1 f t e : opened (ps := ps) mm mm1 f t e -> searchable mm -> searchable mm1.
Proof. intros [[] _] Hs Hp. apply r_leak, Hs. congruence. Qed.

Lemma updated_nil mm mm' f t a : same_content mm mm' -> updated (ps := ps) mm mm' f t a [].
Proof. intros Hs f' t' a' Ha. rewrite decide_False by (cbn; lia). by apply Hs. Qed.

Lemma string_bytes_length s : length (string_bytes s) = String.length s.
Proof. induction s as [|c s IH]; [done|]. cbn. by f_equal. Qed.

Lemma write_executed f t base data ss sm q w mm :
  wf mm -> searchable mm -> admissible (I_write f t base data) mm ->
  wp (execute_instruction (I_write f t base data) ss sm q w)
    (fun r mm' => executed (I_write f t base data) (MkConn ss sm q) w mm mm' r) mm.
Proof.
  intros Hwf Hse [Hn [Hb Hend]]. split_names Hn. cbn [execute_instruction]. apply wp_bind.
  eapply wp_mono; [by apply mm_create_page_table_run|]. intros pt mm1 (e & Hop & ->).
  pose proof (opened_step _ _ _ _ _ Hop Hse) as Hse1. destruct Hop as (Hr1 & Hs1 & He & Hf & Ht & _).
  apply wp_bind. destruct (string_bytes data) as [|b bs] eqn:Ed.
  - apply wp_bind, wp_ret, wp_ret. cbn [fst]. apply wp_fail_or_ok. apply runs_executed; [done|by right|].
    exists 0%nat. split; [by apply updated_nil|]. right. split; [done|lia].
  - rewrite <- Ed. rewrite <- Hf at 1. rewrite <- Ht at 1.
    eapply wp_mono; [apply mm_write_run; [apply Hr1|done|done|done|by rewrite Ed|by rewrite string_bytes_length]|].
    intros r mm2 (Hr2 & k & Hu & Hk). apply wp_fail_or_ok.
    apply runs_executed; [by eapply runs_trans|apply code_of|]. exists k. split.
    + intros f' t' a Ha. rewrite (Hu f' t' a Ha), Hf, Ht. destruct (decide _); [done|]. by apply Hs1.
    + rewrite string_bytes_length in Hk. destruct Hk as [[-> ->]|(-> & Hle & _)]; [by left|by right].
Qed.

Lemma read_executed e base size ss sm q w mm mm1 :
  searchable mm1 -> conn_ok (MkConn ss sm q) -> runs mm mm1 -> same_content mm mm1 -> e ∈ entries mm1 ->
  0 <= base /\ 0 <= size /\ base + size < 2 ^ 32 ->
  wp (execute_read (MkConn ss sm q) w (file e) (tag e) base size (page_table e))
    (fun r mm' => executed (I_read (file e) (tag e) base size) (MkConn ss sm q) w mm mm' r) mm1.
Proof.
  intros Hse Hconn Hr1 Hs1 He (Hb & Hsz & Hend). unfold execute_read, malloc_fails.
  destruct (Z.leb_spec (2 ^ 63) size); [lia|]. apply wp_bind.
  destruct (decide (size = 0)) as [->|Hne].
  { apply wp_ret, wp_ret, runs_executed; [done|by right|]. by split. }
  eapply wp_mono; [apply mm_read_run; [apply Hr1|done|done|done|lia|done]|].
  intros [r out] mm2 (Hr2 & Hs2 & Hout). cbn [fst snd] in Hout |- *.
  assert (Hsame : same_content mm mm2) by (intros f t a Ha; by rewrite Hs2, Hs1).
  destruct Hout as [(-> & Hl & Hbytes)|(-> & _)]; change (negb (0 =? 0)) with false; change (negb (-1 =? 0)) with true; cbv iota.
  2:{ apply wp_ret, runs_executed; [by eapply runs_trans|by right|]. by split. }
  apply wp_bind. eapply wp_call; [by apply send_read_run|]. intros r s E Es. cbn beta.
  destruct (same_call mm2 s (r_wf _ _ Hr2) Es) as [Hr3 Hs3].
  assert (Hr13 : runs mm (on_store s mm2)) by (eapply runs_trans; [exact Hr1|]; by eapply runs_trans).
  assert (Hs13 : same_content mm (on_store s mm2)) by (intros f t a Ha; by rewrite Hs3, Hsame).
  destruct (Z.eqb_spec r 0) as [->|Hr]; simpl negb; cbv iota; apply wp_ret, runs_executed; [done|by left| |done|by right|by split].
  split; [done|]. intros _. exists out, (the_store mm2). split; [done|]. split; [done|].
  intros i Hi. rewrite Hbytes by done. apply Hs1. lia.
Qed.

Lemma read_run f t base size ss sm q w mm :
  wf mm -> conn_ok (MkConn ss sm q) -> searchable mm -> admissible (I_read f t base size) mm ->
  wp (execute_instruction (I_read f t base size) ss sm q w)
    (fun r mm' => executed (I_read f t base size) (MkConn ss sm q) w mm mm' r) mm.
Proof.
  intros Hwf Hconn Hse [Hn Hadm]. split_names Hn. cbn [execute_instruction]. apply wp_bind, wp_get. unfold mm_find_page_table.
  pose proof (find_entry (entries mm) f t) as H. destruct (List.find _ _) as [e|]; cbn [fmap option_fmap option_map].
  - destruct H as (He & <- & <-). by apply read_executed; [| |apply runs_refl|..].
  - apply wp_bind. eapply wp_mono; [by apply mm_create_page_table_run|]. intros pt mm1 (e & Hop & ->).
    pose proof (opened_step _ _ _ _ _ Hop Hse) as Hse1. destruct Hop as (Hr1 & Hs1 & He & <- & <- & _).
    by apply read_executed.
Qed.

(** ** TRUNCATE and DELETE *)

Lemma resize_on_store f t n s mm r mm' :
  mm_resize_page_table f t n mm = Some (r, mm') ->
  mm_resize_page_table f t n (on_store s mm) = Some (r, on_store s mm').
Proof.
  unfold mm_resize_page_table, mm_find_page_table, mbind, st_bind, st_get. cbn [entries on_store].
  destruct (page_table <$> _) as [p|]; [|by intros [= <- <-]].
  unfold get_pt. cbn [pts on_store]. destruct (pts mm !! p); [|done]. by intros [= <- <-].
Qed.

Lemma no_table_no_clean mm f t : mm_find_page_table mm f t = None -> no_clean_page mm f t.
Proof.
  unfold mm_find_page_table. pose proof (find_entry (entries mm) f t) as H.
  destruct (List.find _ _); [done|]. intros _ e j g He Hf Ht. by destruct (H e He).
Qed.

(** The pages that a truncation leaves are those the Storage has left alone. *)
Lemma truncated_call mm mm1 s e n :
  wf mm -> e ∈ entries mm -> dropped (ps := ps) mm mm1 (file e) (tag e) n ->
  (forall f t k, ~ (f = file e /\ t = tag e /\ n <= k) -> block_of s f t k = block_of (the_store mm) f t k) ->
  wf (on_store s mm1) /\ others_same mm (on_store s mm1) (file e) (tag e) /\
  forall a, 0 <= a -> a / ps < n -> content (on_store s mm1) (file e) (tag e) a = content mm (file e) (tag e) a.
Proof.
  intros Hwf He Hd Hs. pose proof (d_wf _ _ _ _ _ Hd) as Hwf1. pose proof (d_store _ _ _ _ _ Hd) as Est.
  destruct (moved_call mm1 s Hwf1) as [Hr Hc].
  { intros e' j g He' Hg. rewrite Est. apply Hs. intros (Ef & Et & Hle).
    rewrite (d_gone _ _ _ _ _ Hd e' j) in Hg; [done|by apply (d_entries _ _ _ _ _ Hd)|done..]. }
  rewrite Est in Hc. split; [apply Hr|]. split.
  - intros f t a Ha Hne. rewrite Hc; [|apply Hs; tauto|done]. rewrite (d_content _ _ _ _ _ Hd) by done.
    rewrite decide_False; [done|]. tauto.
  - intros a Ha Hlt. rewrite Hc; [|apply Hs; lia|done]. rewrite (d_content _ _ _ _ _ Hd) by done.
    rewrite decide_False; [done|]. lia.
Qed.

Lemma truncate_executed f t size ss sm q w mm :
  wf mm -> conn_ok (MkConn ss sm q) -> admissible (I_truncate f t size) mm ->
  wp (execute_instruction (I_truncate f t size) ss sm q w)
    (fun r mm' => executed (I_truncate f t size) (MkConn ss sm q) w mm mm' r) mm.
Proof.
  intros Hwf Hconn [Hn [Hsz Htab]]. split_names Hn. pose proof Hwf as [Hs _]. destruct (s_ps _ Hs) as [Eps Hps].
  cbn [execute_instruction]. apply wp_bind, wp_get. rewrite Eps. destruct (Z.eqb_spec ps 0); [lia|].
  assert (Hnop : forall r, r = -1 -> wp (mret r) (fun r mm' => executed (I_truncate f t size) (MkConn ss sm q) w mm mm' r) mm).
  { intros r ->. apply wp_ret, runs_executed; [by apply runs_refl|by right|]. by split. }
  destruct (Z.eqb_spec (size mod ps) 0) as [Hmod|]; simpl negb; cbv iota; [|by apply Hnop].
  assert (Esz : size = size / ps * ps) by (pose proof (Z.div_mod size ps); lia).
  apply wp_bind. eapply wp_call; [by apply truncate_run|]. intros r s _ Hblk. cbv beta in Hblk.
  destruct (Z.eqb_spec r 0) as [->|Hr]; simpl negb; cbv iota.
  2:{ destruct (same_call mm s Hwf) as [Hr1 Hs1]; [intros; apply Hblk; tauto|].
      apply wp_ret, runs_executed; [done|by right|]. split; [intros ? ? ? ? ?; by apply Hs1|intros; apply Hs1; lia]. }
  apply wp_bind, wp_get. change (mm_find_page_table (on_store s mm) f t) with (mm_find_page_table mm f t).
  change (mm_page_size (on_store s mm)) with (mm_page_size mm). rewrite Eps.
  unfold mm_has_page_table in Htab. destruct (mm_find_page_table mm f t) as [p|] eqn:Ef.
  - specialize (Htab eq_refl). unfold mm_find_page_table in Ef. pose proof (find_entry (entries mm) f t) as Hfind.
    destruct (List.find _ _) as [e|]; [|done]. destruct Hfind as (He & <- & <-).
    assert (Hn : 0 < size / ps <= size) by nia. rewrite u32_small by lia.
    destruct (wp_run _ _ _ (mm_resize_page_table_run e (size / ps) mm Hwf He ltac:(lia))) as (r & mm1 & Erun & -> & Hd).
    apply wp_bind. eapply wp_intro; [by apply resize_on_store|]. apply wp_ret.
    destruct (truncated_call mm mm1 s e (size / ps) Hwf He Hd) as (Hwf1 & Ho & Hc); [intros; apply Hblk; tauto|].
    destruct Hd. split; try done; [by left|unfold frame_count in *; cbn; congruence|].
    split; [done|]. intros a Ha. apply Hc; [lia|]. apply Z.div_lt_upper_bound; lia.
  - destruct (other_call mm s f t 0 Hwf (no_table_no_clean _ _ _ Ef)) as (Hr1 & Ho & _); [intros; apply Hblk; tauto|].
    apply wp_ret, runs_executed; [done|by left|]. split; [done|]. intros a Ha.
    assert (Hlt : a / ps < size / ps) by (apply Z.div_lt_upper_bound; lia).
    destruct (moved_call mm s Hwf) as [_ Hc]; [|apply Hc; [apply Hblk; lia|lia]].
    intros e j g He Hg. apply Hblk. intros (_ & E1 & E2 & _). by eapply no_table_no_clean.
Qed.

Lemma delete_executed f t ss sm q w mm :
  wf mm -> conn_ok (MkConn ss sm q) -> admissible (I_delete f t) mm ->
  wp (execute_instruction (I_delete f t) ss sm q w)
    (fun r mm' => executed (I_delete f t) (MkConn ss sm q) w mm mm' r) mm.
Proof.
  intros Hwf Hconn [Hn Hadm]. split_names Hn. cbn [execute_instruction]. apply wp_bind, wp_get.
  assert (Hrm : wp (if mm_has_page_table mm f t then mm_remove_page_table f t else mret tt)
    (fun _ mm1 => wf mm1 /\ other_file (entries mm1) f t /\ others_same mm mm1 f t /\
       same_conn mm mm1 /\ policy mm1 = policy mm /\
       frame_count mm1 = frame_count mm) mm).
  { unfold mm_has_page_table, mm_find_page_table. pose proof (find_entry (entries mm) f t) as H.
    destruct (List.find _ _) as [e|]; cbn [fmap option_fmap option_map]; [|by apply wp_ret].
    destruct H as (He & <- & <-). eapply wp_mono; [apply mm_remove_page_table_run; [done|done|intros j; by apply Hadm]|].
    intros [] mm1 [Hd Hes]. cbv beta in *. destruct Hd. repeat (split; [done|]). split.
    - intros e' [He' Hne]%Hes [Ef Et]. apply Hne. destruct Hwf as [Hs _]. by apply (entry_key (entries mm)); [apply Hs|..].
    - split; [|split; [done|split; [done|unfold frame_count; congruence]]].
      intros f' t' a Ha Hne. rewrite d_content by done. rewrite decide_False; [done|]. tauto. }
  apply wp_bind. eapply wp_mono; [exact Hrm|]. intros [] mm1 (Hwf1 & Hof & Hos & Hc & Hp & Hfc).
  apply wp_bind. eapply wp_call; [by apply delete_run|]. intros r s _ E. cbv beta in E. apply wp_fail_or_ok.
  assert (Hno : no_clean_page mm1 f t) by (intros e j g He Hf Ht; by destruct (Hof e He)).
  destruct (other_call mm1 s f t r Hwf1 Hno E) as (Hr & Ho & _).
  destruct Hr as [Hwf2 [Hc1 Hc2] Hp2 Hf2 _], Hc.
  split; try done; [apply code_of|].
  split; [intros f' t' a Ha Hne; by rewrite Ho, Hos|]. intros a Ha. by apply content_other.
Qed.

End Spec.
