(* ===== verification/ConnectionsSpec.v ===== *)
(** * The calls of the worker to the Storage, over the wire

    A call is one request and one answer: what the Storage receives, what the
    caller gets for each answer, and what reaches the Master when the Storage
    reports an error.  A handshake keeps the socket or closes it. *)

From S2P Require Import Prelude Serialization Protocol Commons PageTable MemoryManager.
From S2P Require Import Interpreter WorkerConnections.

(** ** The requests *)

Inductive request :=
| R_read (file tag : string) (n : Z)
| R_write (file tag : string) (n : Z) (bs : list byte)
| R_create (file tag : string)
| R_truncate (file tag : string) (size : Z)
| R_fork (file_src tag_src file_dst tag_dst : string)
| R_commit (file tag : string)
| R_delete (file tag : string).

Definition request_op (r : request) : Z :=
  storage_op match r with
  | R_read _ _ _ => STORAGE_OP_BLOCK_READ_REQ
  | R_write _ _ _ _ => STORAGE_OP_BLOCK_WRITE_REQ
  | R_create _ _ => STORAGE_OP_FILE_CREATE_REQ
  | R_truncate _ _ _ => STORAGE_OP_FILE_TRUNCATE_REQ
  | R_fork _ _ _ _ => STORAGE_OP_TAG_CREATE_REQ
  | R_commit _ _ => STORAGE_OP_TAG_COMMIT_REQ
  | R_delete _ _ => STORAGE_OP_TAG_DELETE_REQ
  end.

Definition accept_op (r : request) : Z :=
  storage_op match r with
  | R_read _ _ _ => STORAGE_OP_BLOCK_READ_RES
  | R_write _ _ _ _ => STORAGE_OP_BLOCK_WRITE_RES
  | R_create _ _ => STORAGE_OP_FILE_CREATE_RES
  | R_truncate _ _ _ => STORAGE_OP_FILE_TRUNCATE_RES
  | R_fork _ _ _ _ => STORAGE_OP_TAG_CREATE_RES
  | R_commit _ _ => STORAGE_OP_TAG_COMMIT_RES
  | R_delete _ _ => STORAGE_OP_TAG_DELETE_RES
  end.

Definition request_fields (q : Z) (r : request) : list field :=
  F_uint32 q ::
  match r with
  | R_read f t n => [F_string f; F_string t; F_uint32 n]
  | R_write f t n bs => [F_string f; F_string t; F_uint32 n; F_data bs]
  | R_truncate f t size => [F_string f; F_string t; F_uint32 size]
  | R_fork fs ts fd td => [F_string fs; F_string ts; F_string fd; F_string td]
  | R_create f t | R_commit f t | R_delete f t => [F_string f; F_string t]
  end.

Definition is_read (r : request) : bool := match r with R_read _ _ _ => true | _ => false end.
Definition is_delete (r : request) : bool := match r with R_delete _ _ => true | _ => false end.

(** The image of a message on the wire. *)
Definition message (op : Z) (fs : list field) : list byte := serialized_package (snd (build op fs)).

Definition valid_message (fs : list field) : Prop := Forall valid_field fs /\ wire_size fs <= 2 ^ 26.

Lemma request_op_byte r : 0 <= request_op r < 256.
Proof. apply storage_op_byte. Qed.

Lemma accept_not_error r : (storage_op STORAGE_OP_ERROR =? accept_op r) = false.
Proof. by destruct r. Qed.

(** Evaluates the comparisons of two operation codes. *)
Ltac code_tests :=
  repeat match goal with
  | |- context [storage_op ?a =? storage_op ?b] =>
      let v := eval vm_compute in (storage_op a =? storage_op b) in
      change (storage_op a =? storage_op b) with v
  end; cbn [negb andb]; cbv beta iota.

Lemma message_carries op fs : 0 <= op < 256 -> valid_message fs -> carries (message op fs) op fs.
Proof.
  intros Hop [Hv Hsz]. destruct (package_built op fs) as (p & E & _ & Hc); [done..|].
  unfold message, build. by rewrite E.
Qed.

(** ** Reading an answer *)

Lemma package_receive_start sock s p s' :
  package_receive sock s = Package p s' -> package_reset_read_offset p = p.
Proof.
  unfold package_receive. destruct (sock <? 0); [done|].
  destruct (recv_all s 1) as [op s1| |]; try done. destruct (recv_all s1 4) as [net s2| |]; try done.
  destruct (MAX_BUFFER_SIZE <? _); [done|]. unfold buffer_create.
  destruct (ntohl (le_val net) =? 0); [done|]. destruct (recv_all s2 _) as [bs s3| |]; try done.
  by intros [= <- _].
Qed.

Lemma package_read_all_cons p k ks v vs :
  package_read_all p (k :: ks) = Some (v :: vs) ->
  exists p', package_read p k = (Some v, p') /\ package_read_all p' ks = Some vs.
Proof.
  simpl. destruct (package_read p k) as [[w|] p']; [|done].
  destruct (package_read_all p' ks) eqn:E; [|done]. simpl. intros [= <- <-]. by exists p'.
Qed.


Lemma read_two_strings p q msg :
  package_read_all p [F_uint32 q; F_string msg] = Some [F_uint32 q; F_string msg] ->
  exists p1 p2, package_read_uint32 p = (Some q, p1) /\ package_read_string p1 = (Some msg, p2).
Proof.
  intros (p1 & E1 & (p2 & E2 & _)%package_read_all_cons)%package_read_all_cons.
  cbn [package_read] in E1, E2. destruct (package_read_uint32 p) as [[v|] p'] eqn:Eu; [|done]. simpl in E1.
  injection E1 as -> ->. destruct (package_read_string p1) as [[s|] p''] eqn:Es; [|done]. simpl in E2.
  injection E2 as -> ->. by exists p1, p2.
Qed.

Lemma read_block_fields p n bs :
  package_read_all p [F_uint32 n; F_data bs] = Some [F_uint32 n; F_data bs] ->
  block_data p = if Z.of_nat (length bs) =? n then (0, Some bs) else (-1, None).
Proof.
  intros (p1 & E1 & (p2 & E2 & _)%package_read_all_cons)%package_read_all_cons.
  cbn [package_read] in E1, E2. unfold block_data.
  destruct (package_read_uint32 p) as [[v|] p'] eqn:Eu; [|done]. simpl in E1. injection E1 as -> ->.
  destruct (package_read_data p1) as [[d|] p''] eqn:Es; [|done]. simpl in E2. injection E2 as -> ->.
  by destruct (_ =? n).
Qed.

(** ** Exchanges *)

Section Exchanges.
Context {N : Network}.

(** The call of storage.c that makes each request. *)
Definition perform (c : conn_t) (r : request) : NET (Z * option (list byte)) :=
  let rc (m : NET Z) : NET (Z * option (list byte)) := (r ← m; mret (r, None)) in
  match r with
  | R_read f t n => read_block_from_storage c f t n
  | R_write f t n bs => rc (write_block_to_storage c f t n bs)
  | R_create f t => rc (create_file_in_storage c f t)
  | R_truncate f t size => rc (truncate_file_in_storage c f t size)
  | R_fork fs ts fd td => rc (fork_file_in_storage c fs ts fd td)
  | R_commit f t => rc (commit_file_in_storage c f t)
  | R_delete f t => rc (delete_file_in_storage c f t)
  end.

(** The network takes [block] whole. *)
Definition taken (h : history) (fd : Z) (block : list byte) : Prop :=
  send_returns h fd block = Z.of_nat (length block).

(** What arrives on [fd] after [h] begins with a message, in any fragments. *)
Definition arrives (h : history) (fd : Z) (op : Z) (fs : list field) : Prop :=
  exists block rest gs, receives h fd = MkSocket (block ++ rest) gs /\
    socket_live (MkSocket (block ++ rest) gs) /\ carries block op fs.

(** The worker and the Storage exchange [r] for the answer [op fs]. *)
Record exchange (c : conn_t) (r : request) (op : Z) (fs : list field) (h : history) : Prop := {
  x_storage : 0 <= to_storage c;
  x_valid : valid_message (request_fields (of_query c) r);
  x_taken : taken h (to_storage c) (message (request_op r) (request_fields (of_query c) r));
  x_answer : arrives (Sent (to_storage c) (message (request_op r) (request_fields (of_query c) r)) :: h)
               (to_storage c) op fs
}.

Lemma send_message op fs fd h :
  0 <= op < 256 -> valid_message fs -> 0 <= fd -> taken h fd (message op fs) ->
  exists p, build op fs = (true, p) /\ send p fd h = Some (0, Sent fd (message op fs) :: h) /\
    carries (message op fs) op fs.
Proof.
  intros Hop [Hv Hsz] Hfd Ht. destruct (package_built op fs) as (p & E & Hwf & Hc); [done..|].
  unfold taken, message, build in *. rewrite E in *. cbn [snd] in *. exists p. split; [done|]. split; [|done].
  unfold send. rewrite package_send_whole by done. by rewrite Ht, Z.eqb_refl, Nat2Z.id, take_ge.
Qed.

Lemma receive_message h fd op fs :
  0 <= fd -> arrives h fd op fs ->
  exists p, receive fd h = Some (Some p, Got fd (Some p) :: h) /\ operation_code p = op /\
    package_reset_read_offset p = p /\ package_read_all p fs = Some fs.
Proof.
  intros Hfd (block & rest & gs & E & Hlive & Hc). destruct (Hc rest gs fd Hfd Hlive) as (p & s & Ep & Hop & _ & Hr).
  exists p. unfold receive. rewrite E, Ep. split; [done|]. split; [done|]. split; [|done].
  by eapply package_receive_start.
Qed.

(** What a call does with the answer. *)
Definition answered (c : conn_t) (r : request) (p : t_package) : NET (Z * option (list byte)) :=
  if operation_code p =? accept_op r then mret (if is_read r then block_data p else (0, None))
  else if (operation_code p =? storage_op STORAGE_OP_ERROR) && negb (is_delete r)
  then handler_error_from_storage p (to_master c);; mret (-1, None)
  else mret (-1, None).

(** A call is its request, the answer, and what it does with it. *)
Lemma perform_exchange c r op fs h :
  exchange c r op fs h ->
  exists p, operation_code p = op /\ package_reset_read_offset p = p /\ package_read_all p fs = Some fs /\
    perform c r h = answered c r p (Got (to_storage c) (Some p) ::
      Sent (to_storage c) (message (request_op r) (request_fields (of_query c) r)) :: h).
Proof.
  intros [Hst Hv Ht Ha].
  destruct (send_message (request_op r) (request_fields (of_query c) r) (to_storage c) h) as (rq & Eb & Es & _);
    [apply request_op_byte|done..|].
  destruct (receive_message _ _ _ _ Hst Ha) as (p & Er & Hop & Hreset & Hread). exists p. split; [done|]. split; [done|].
  split; [done|]. clear Ht Ha Hread Hreset Hop.
  set (blk := message (request_op r) (request_fields (of_query c) r)) in *.
  destruct r; unfold request_op, request_fields in Eb; cbn [perform];
    unfold read_block_from_storage, write_block_to_storage, create_file_in_storage, truncate_file_in_storage,
      fork_file_in_storage, commit_file_in_storage, delete_file_in_storage.
  all: try (rewrite (u32_small size)
         by (destruct Hv as [Hv _]; do 3 apply Forall_inv_tail in Hv; by apply Forall_inv in Hv)).
  all: rewrite Eb; cbv beta iota; cbn [negb];
    unfold send_request_and_wait_ack_with_error_handling, send_request_and_wait_ack, answered, mbind, st_bind.
  all: rewrite Es; cbn [Z.eqb negb]; rewrite Er; cbn [is_read is_delete negb andb].
  all: set (h1 := Got _ _ :: _ :: h).
  all: destruct (Z.eqb_spec (operation_code p) (storage_op STORAGE_OP_ERROR)) as [E|E];
    [rewrite ?E, accept_not_error; clear E; code_tests; by destruct (handler_error_from_storage p (to_master c) h1) as [[]|]|].
  all: unfold accept_op;
    match goal with |- context [operation_code ?p =? storage_op ?x] => by destruct (operation_code p =? storage_op x) end.
Qed.

(** The error of the Storage goes on to the Master with the same fields. *)
Lemma handler_forwards p sock q msg h :
  package_reset_read_offset p = p ->
  package_read_all p [F_uint32 q; F_string msg] = Some [F_uint32 q; F_string msg] ->
  valid_message [F_uint32 q; F_string msg] -> 0 <= sock ->
  taken h sock (message (storage_op STORAGE_OP_ERROR) [F_uint32 q; F_string msg]) ->
  let block := message (storage_op STORAGE_OP_ERROR) [F_uint32 q; F_string msg] in
  handler_error_from_storage p sock h = Some (tt, Sent sock block :: h) /\
  carries block (storage_op STORAGE_OP_ERROR) [F_uint32 q; F_string msg].
Proof.
  intros Hreset (p1 & p2 & E1 & E2)%read_two_strings Hv Hsock Ht block.
  destruct (send_message (storage_op STORAGE_OP_ERROR) [F_uint32 q; F_string msg] sock h) as (ep & Eb & Es & Hc);
    [apply storage_op_byte|done..|].
  split; [|done]. unfold handler_error_from_storage. rewrite Hreset, E1, E2, Eb. cbn [negb].
  unfold mbind, st_bind. cbn [negb]. cbv beta iota. by rewrite Es.
Qed.

(** ** Properties *)

(** Every call to the Storage is understood.  What goes out is one message that
    reads back as the operation and the arguments of the call, under the query that
    is running, and the code the call returns is 0 exactly when the Storage answers
    with the acknowledgement of that operation. *)
Theorem storage_call_understood c r op fs h :
  exchange c r op fs h -> is_read r = false -> op <> storage_op STORAGE_OP_ERROR ->
  exists p, let block := message (request_op r) (request_fields (of_query c) r) in
    carries block (request_op r) (request_fields (of_query c) r) /\
    perform c r h = Some ((if op =? accept_op r then 0 else -1, None),
                          Got (to_storage c) (Some p) :: Sent (to_storage c) block :: h).
Proof.
  intros Hx Hr Hop. destruct (perform_exchange c r op fs h Hx) as (p & Ep & _ & _ & ->).
  destruct Hx as [Hst Hv Ht _]. exists p. split.
  - by destruct (send_message _ _ _ _ (request_op_byte r) Hv Hst Ht) as (? & _ & _ & Hc).
  - unfold answered. rewrite Ep, Hr. destruct (op =? accept_op r); [done|].
    destruct (Z.eqb_spec op (storage_op STORAGE_OP_ERROR)); [done|]. done.
Qed.

(** A block is read as the Storage sent it.  The data of the answer is returned
    when its length is the one announced before it; the answer is refused
    otherwise. *)
Theorem block_read_exact c f t n len bs h :
  exchange c (R_read f t n) (storage_op STORAGE_OP_BLOCK_READ_RES) [F_uint32 len; F_data bs] h ->
  exists h', read_block_from_storage c f t n h =
    Some (if Z.of_nat (length bs) =? len then (0, Some bs) else (-1, None), h').
Proof.
  intros Hx. destruct (perform_exchange _ _ _ _ _ Hx) as (p & Ep & _ & Hread & E).
  eexists. cbn [perform] in E. rewrite E. unfold answered. rewrite Ep.
  change (accept_op _) with (storage_op STORAGE_OP_BLOCK_READ_RES). rewrite Z.eqb_refl. cbn [is_read].
  rewrite (read_block_fields p len bs Hread). reflexivity.
Qed.

(** An error of the Storage stops the call and reaches the Master.  Every call
    but a deletion then fails, and the last thing the worker did is to send the
    Master one message that reads back as that error: the same query, the same
    text. *)
Theorem storage_error_forwarded c r q msg h :
  exchange c r (storage_op STORAGE_OP_ERROR) [F_uint32 q; F_string msg] h ->
  is_delete r = false -> 0 <= to_master c -> valid_message [F_uint32 q; F_string msg] ->
  (forall h', taken h' (to_master c) (message (storage_op STORAGE_OP_ERROR) [F_uint32 q; F_string msg])) ->
  exists block h', perform c r h = Some ((-1, None), Sent (to_master c) block :: h') /\
    carries block (storage_op STORAGE_OP_ERROR) [F_uint32 q; F_string msg].
Proof.
  intros Hx Hd Hm Hv Ht. destruct (perform_exchange _ _ _ _ _ Hx) as (p & Ep & Hreset & Hread & ->).
  set (h1 := Got _ _ :: _ :: h).
  destruct (handler_forwards p (to_master c) q msg h1 Hreset Hread Hv Hm (Ht h1)) as [E Hc].
  eexists _, h1. split; [|exact Hc]. unfold answered. rewrite Ep, accept_not_error, Z.eqb_refl, Hd. cbn [negb andb].
  unfold mbind, st_bind. by rewrite E.
Qed.

(** A deletion does not forward.  When the Storage answers a deletion with an
    error the call fails, and nothing is sent to anyone but the Storage: the Master
    never learns why. *)
Theorem delete_error_kept c f t fs h :
  exchange c (R_delete f t) (storage_op STORAGE_OP_ERROR) fs h ->
  exists p, delete_file_in_storage c f t h =
    Some (-1, Got (to_storage c) (Some p) ::
              Sent (to_storage c) (message (storage_op STORAGE_OP_TAG_DELETE_REQ) (request_fields (of_query c) (R_delete f t))) :: h).
Proof.
  intros Hx. destruct (perform_exchange _ _ _ _ _ Hx) as (p & Ep & _ & _ & E). exists p.
  cbn [perform] in E. unfold answered in E. rewrite Ep, accept_not_error, Z.eqb_refl in E. cbn [is_delete negb andb] in E.
  unfold mbind, st_bind in E. destruct (delete_file_in_storage c f t h) as [[rc h']|]; [|done].
  injection E as -> ->. reflexivity.
Qed.

(** Events that open and close no socket. *)
Definition talk (e : event) : bool := match e with Sent _ _ | Got _ _ => true | _ => false end.

(** How a handshake ends: no connection, the connection closed, or kept. *)
Lemma handshake_cases ip port rq expected id h rc h' :
  handshake_with_server ip port rq expected id h = Some (rc, h') ->
  let fd := connects h ip port in
  exists es, forallb talk es = true /\
  ((fd < 0 /\ rc = -1 /\ h' = Connected ip port fd :: h) \/
   (0 <= fd /\ rc = -1 /\ h' = Closed fd :: es ++ Connected ip port fd :: h) \/
   (0 <= fd /\ rc = fd /\ h' = es ++ Connected ip port fd :: h /\ exists p es', es = Got fd (Some p) :: es' /\ operation_code p = expected)).
Proof.
  cbv zeta. set (fd := connects h ip port). unfold handshake_with_server, mbind, st_bind, client_connect. fold fd.
  destruct (Z.ltb_spec fd 0); [intros [= <- <-]; exists []; split; [done|]; by left|]. intros Hrun.
  assert (Hclose : forall es, forallb talk es = true -> Some (-1, Closed fd :: es ++ Connected ip port fd :: h) = Some (rc, h') ->
            exists es, forallb talk es = true /\ ((fd < 0 /\ rc = -1 /\ h' = Connected ip port fd :: h) \/
              (0 <= fd /\ rc = -1 /\ h' = Closed fd :: es ++ Connected ip port fd :: h) \/
              (0 <= fd /\ rc = fd /\ h' = es ++ Connected ip port fd :: h /\ exists p es', es = Got fd (Some p) :: es' /\ operation_code p = expected))).
  { intros es Hes [= <- <-]. exists es. split; [done|]. right. by left. }
  destruct (build _ _) as [[] request]; cbn [negb] in Hrun; cbv beta iota in Hrun; [|by apply (Hclose [])].
  unfold send in Hrun. destruct (package_send _ _ _) as [rc1 block].
  destruct (rc1 <? 0); [by apply (Hclose [Sent fd block])|].
  unfold receive in Hrun. destruct (package_receive fd _) as [p s|s|]; [| |done].
  - destruct (Z.eqb_spec (operation_code p) expected) as [E|E]; cbn [negb] in Hrun;
      [|by apply (Hclose [Got fd (Some p); Sent fd block])].
    injection Hrun as <- <-. exists [Got fd (Some p); Sent fd block]. split; [done|]. right. right. eauto 8.
  - by apply (Hclose [Got fd None; Sent fd block]).
Qed.

Lemma get_block_size_quiet fd id h r h' :
  get_block_size fd id h = Some (r, h') -> exists es, forallb talk es = true /\ h' = es ++ h.
Proof.
  unfold get_block_size. destruct (build _ _) as [[] request]; cbn [negb]; [|intros [= _ <-]; by exists []].
  intros (rc & h1 & Es & Hr)%run_bind. unfold send in Es. destruct (package_send _ _ _) as [rc1 block]. injection Es as <- <-.
  destruct (rc1 =? 0); cbn [negb] in Hr; [|injection Hr as _ <-; by exists [Sent fd block]].
  apply run_bind in Hr as (resp & h2 & Er & Hr). unfold receive in Er.
  destruct (package_receive fd _) as [p s|s|]; [| |done]; injection Er as <- <-.
  - exists [Got fd (Some p); Sent fd block]. split; [done|]. destruct (negb _); [by injection Hr as _ <-|].
    destruct (package_read_uint16 p) as [[v|] p']; by injection Hr as _ <-.
  - exists [Got fd None; Sent fd block]. split; [done|]. by injection Hr as _ <-.
Qed.

(** A handshake leaks no socket.  Whatever the network does, when the worker
    gets an answer it has the connected socket, alive, after the expected
    operation; or -1, and the socket it opened, if it opened one, was closed. *)
Theorem handshake_keeps_or_closes ip port rq expected id h rc h' :
  handshake_with_server ip port rq expected id h = Some (rc, h') ->
  let fd := connects h ip port in
  (fd < 0 /\ rc = -1 /\ h' = Connected ip port fd :: h) \/
  (0 <= fd /\ rc = -1 /\ exists h1, h' = Closed fd :: h1) \/
  (0 <= fd /\ rc = fd /\ exists p h1, h' = Got fd (Some p) :: h1 /\ operation_code p = expected).
Proof.
  intros (es & _ & [H|[(H1 & H2 & H3)|(H1 & H2 & H3 & p & es' & -> & Hop)]])%handshake_cases; [by left|right; left; eauto|].
  right. right. split; [done|]. split; [done|]. exists p, (es' ++ Connected ip port (connects h ip port) :: h). by rewrite H3.
Qed.

(** ** A peer that sends messages and closes *)

(** The packages that have been received, or waited for, on [fd]. *)
Definition received (fd : Z) (h : history) : nat :=
  length (List.filter (fun e => match e with Got fd' _ => fd' =? fd | _ => false end) h).

(** The peer sends [ms] on [fd] and closes; the network takes what is sent. *)
Record peer (fd : Z) (ms : list (Z * list field)) : Prop := {
  peer_fd : 0 <= fd;
  peer_taken h block : taken h fd block;
  peer_next h op fs : ms !! received fd h = Some (op, fs) -> arrives h fd op fs;
  peer_closed h : ms !! received fd h = None -> exists s, package_receive fd (receives h fd) = NoPackage s
}.

Lemma received_got fd p h : received fd (Got fd p :: h) = S (received fd h).
Proof. unfold received. cbn. by rewrite Z.eqb_refl. Qed.

(** The next message, received. *)
Lemma receive_next fd ms h :
  peer fd ms ->
  match ms !! received fd h with
  | Some (op, fs) => exists p, receive fd h = Some (Some p, Got fd (Some p) :: h) /\ operation_code p = op /\
      package_reset_read_offset p = p /\ package_read_all p fs = Some fs
  | None => receive fd h = Some (None, Got fd None :: h)
  end.
Proof.
  intros Hs. destruct (ms !! received fd h) as [[op fs]|] eqn:E.
  - apply receive_message; [apply Hs|by apply (peer_next _ _ Hs)].
  - destruct (peer_closed _ _ Hs h E) as [s Hn]. unfold receive. by rewrite Hn.
Qed.

End Exchanges.

(** ** The theorems at work *)

Section Witnesses.

(** A network that takes every block whole and answers with one message, a byte at
    a time. *)
Definition answering (op : Z) (fs : list field) : Network := {|
  connects _ _ _ := 3;
  send_returns _ _ block := Z.of_nat (length block);
  receives _ _ := MkSocket (message op fs ++ []) (replicate 300 1)
|}.

Lemma answering_arrives op fs h fd :
  0 <= op < 256 -> valid_message fs -> (length (message op fs) <= 300)%nat ->
  arrives (N := answering op fs) h fd op fs.
Proof.
  intros Hop Hv Hl. exists (message op fs), [], (replicate 300 1). split; [done|]. split.
  - split; [by apply Forall_replicate|]. cbn [inflight grants]. rewrite app_nil_r, length_replicate. done.
  - by apply message_carries.
Qed.

(** A network in which [dial] says who answers and [says] what. *)
Definition speaking (dial : string -> Z) (says : Z -> list (Z * list field)) : Network := {|
  connects _ ip _ := dial ip;
  send_returns _ _ block := Z.of_nat (length block);
  receives h fd :=
    match says fd !! received fd h with
    | Some (op, fs) => let block := message op fs in MkSocket (block ++ []) (replicate (length (block ++ [])) 1)
    | None => MkSocket [] [0]
    end
|}.

Lemma speaking_peer dial says fd :
  0 <= fd -> Forall (fun m => 0 <= m.1 < 256 /\ valid_message m.2) (says fd) -> peer (N := speaking dial says) fd (says fd).
Proof.
  intros Hfd Hv. split; [done|done| |].
  - intros h op fs E. rewrite Forall_lookup in Hv. destruct (Hv _ _ E) as [Hop Hm].
    exists (message op fs), []. eexists. split; [cbn [receives speaking]; by rewrite E|].
    split; [|by apply message_carries].
    split; cbn [grants inflight]; [apply Forall_replicate; lia|by rewrite length_replicate].
  - intros h E. exists (MkSocket [] []). cbn [receives speaking]. rewrite E.
    unfold package_receive. by destruct (Z.ltb_spec fd 0); [lia|].
Qed.

Definition sample_conn : conn_t := MkConn 7 8 3.

Lemma sample_fields_valid r :
  In r [R_create "F" "T"; R_read "F" "T" 2] -> valid_message (request_fields 3 r).
Proof.
  assert (Hs : forall s, In s ["F"; "T"]%string -> valid_field (F_string s)).
  { intros s [<-|[<-|[]]]; (split; [vm_compute; discriminate|]);
      vm_compute; intros H; inversion H as [|? ? ? H']; inversion H'. }
  intros [<-|[<-|[]]]; (split; [|vm_compute; discriminate]).
  - repeat constructor; try apply Hs; simpl; auto; lia.
  - repeat constructor; try apply Hs; simpl; auto; lia.
Qed.

Definition sample_error : list field := [F_uint32 3; F_string "E"].

Lemma sample_error_valid : valid_message sample_error.
Proof.
  split; [|vm_compute; discriminate]. repeat constructor; try (vm_compute; congruence).
  vm_compute. intros H; inversion H as [|? ? ? H']; inversion H'.
Qed.

Lemma sample_exchange r op fs :
  In r [R_create "F" "T"; R_read "F" "T" 2] -> 0 <= op < 256 -> valid_message fs ->
  (length (message op fs) <= 300)%nat -> exchange (N := answering op fs) sample_conn r op fs [].
Proof.
  intros Hr Hop Hv Hl. split; [done|by apply sample_fields_valid|done|by apply answering_arrives].
Qed.

Example storage_call_understood_witness :
  exists p,
    perform (N := answering (storage_op STORAGE_OP_FILE_CREATE_RES) []) sample_conn (R_create "F" "T") [] =
      Some ((0, None), [Got 7 (Some p);
        Sent 7 (message (storage_op STORAGE_OP_FILE_CREATE_REQ) [F_uint32 3; F_string "F"; F_string "T"])]).
Proof.
  destruct (storage_call_understood (N := answering (storage_op STORAGE_OP_FILE_CREATE_RES) []) sample_conn
    (R_create "F" "T") (storage_op STORAGE_OP_FILE_CREATE_RES) [] []) as (p & _ & E).
  - apply sample_exchange; [by left|apply storage_op_byte|by split; [constructor|vm_compute; discriminate]|].
    vm_compute. lia.
  - reflexivity.
  - vm_compute. discriminate.
  - exists p. exact E.
Defined.

Example block_read_exact_witness :
  exists h', WorkerConnections.read_block_from_storage
    (N := answering (storage_op STORAGE_OP_BLOCK_READ_RES) [F_uint32 2; F_data [x41; x42]]) sample_conn "F" "T" 2 [] =
      Some ((0, Some [x41; x42]), h').
Proof.
  apply (block_read_exact (N := answering (storage_op STORAGE_OP_BLOCK_READ_RES) [F_uint32 2; F_data [x41; x42]])
    sample_conn "F" "T" 2 2 [x41; x42] []).
  apply sample_exchange; [by right; left|apply storage_op_byte| |vm_compute; lia].
  split; [|vm_compute; discriminate]. repeat constructor; vm_compute; congruence.
Defined.

Example storage_error_forwarded_witness :
  exists block h',
    perform (N := answering (storage_op STORAGE_OP_ERROR) sample_error) sample_conn (R_create "F" "T") [] =
      Some ((-1, None), Sent 8 block :: h') /\
    carries block (storage_op STORAGE_OP_ERROR) sample_error.
Proof.
  apply (storage_error_forwarded (N := answering (storage_op STORAGE_OP_ERROR) sample_error) sample_conn
    (R_create "F" "T") 3 "E" []).
  - apply sample_exchange; [by left|apply storage_op_byte|apply sample_error_valid|vm_compute; lia].
  - reflexivity.
  - discriminate.
  - apply sample_error_valid.
  - reflexivity.
Defined.

Example handshake_keeps_or_closes_witness :
  let N := answering (storage_op STORAGE_OP_ERROR) sample_error in
  exists h', handshake_with_server "ip" "port" (storage_op STORAGE_OP_WORKER_SEND_ID_REQ)
      (storage_op STORAGE_OP_WORKER_SEND_ID_RES) 1 [] = Some (-1, h') /\
    exists h1, h' = Closed 3 :: h1.
Proof.
  cbv zeta. eexists. split; [vm_compute; reflexivity|].
  destruct (handshake_keeps_or_closes (N := answering (storage_op STORAGE_OP_ERROR) sample_error) "ip" "port"
    (storage_op STORAGE_OP_WORKER_SEND_ID_REQ) (storage_op STORAGE_OP_WORKER_SEND_ID_RES) 1 [] (-1) _
    ltac:(vm_compute; reflexivity)) as [[H _]|[(_ & _ & H)|(_ & H & _)]]; [discriminate H|exact H|discriminate H].
Defined.

End Witnesses.
