(* ===== verification/BlockDisk.v ===== *)
(** * A reference Storage

    An instance of the classes through which the worker knows the Storage and the
    Master, with blocks of four bytes.  It shows that the contracts can be met and
    lets the model of the worker run.  [bad] chooses the blocks it refuses to
    read. *)

From Stdlib Require Import Ascii.
From S2P Require Import Prelude Commons Serialization PageTable MemoryManager MemoryInvariant.
From S2P Require Import MemorySpec PagingSpec FilesSpec Interpreter InterpreterSpec.

Definition block_size : Z := 4.

(** The blocks, what the Master has received, and what it is going to send. *)
Record disk := MkDisk {
  blocks : string -> string -> Z -> list byte;
  to_the_master : list (string * string * list byte);
  from_the_master : list t_package
}.

Definition on_block (P : string -> string -> Z -> bool) (bs : string -> string -> Z -> list byte) (d : disk) : disk :=
  MkDisk (fun f t n => if P f t n then bs f t n else blocks d f t n) (to_the_master d) (from_the_master d).

Definition is_file (f t f' t' : string) : bool := String.eqb f' f && String.eqb t' t.

Definition pad (l : list byte) : list byte :=
  take 4 l ++ replicate (4 - length (take 4 l)) x00.

Lemma length_pad l : length (pad l) = 4%nat.
Proof. unfold pad. rewrite length_app, length_replicate, length_take. lia. Qed.

Lemma pad_id l : length l = 4%nat -> pad l = l.
Proof. intros H. unfold pad. rewrite take_ge, H by lia. by rewrite app_nil_r. Qed.

Definition empty_disk : disk := MkDisk (fun _ _ _ => []) [] [].

Section Disk.
Context (bad : string -> string -> Z -> bool).

#[local] Instance disk_storage : BlockStorage := {|
  store := disk;
  read_block_from_storage c f t n d :=
    Some (if bad f t n then (-1, None) else (0, Some (pad (blocks d f t n))), d);
  write_block_to_storage c f t n bs d :=
    Some (0, on_block (fun f' t' n' => is_file f t f' t' && (n' =? n)) (fun _ _ _ => bs) d)
|}.

Lemma is_file_true f t f' t' : is_file f t f' t' = true <-> f' = f /\ t' = t.
Proof. unfold is_file. by rewrite andb_true_iff, !String.eqb_eq. Qed.

Lemma on_block_other P bs (d : disk) f t n : P f t n = false -> blocks (on_block P bs d) f t n = blocks d f t n.
Proof. intros H. cbn. by rewrite H. Qed.

#[local] Instance disk_spec : BlockStorageSpec disk_storage block_size.
Proof.
  refine {| conn_ok := fun _ => True; name_ok := fun _ => True; block_of := fun (d : @store disk_storage) f t n => pad (blocks d f t n) |}.
  - done.
  - intros. apply length_pad.
  - intros c f t n d _ _ _ _. unfold wp. cbn [read_block_from_storage disk_storage].
    destruct (bad f t n); cbn [fst snd]; (split; [done|]); [by intros [?|?]|]. intros _.
    unfold fault_page. rewrite length_pad. cbn [Z.eqb Z.ltb Z.of_nat Z.compare andb block_size].
    change (Z.to_nat block_size) with 4%nat.
    rewrite take_ge by (by rewrite length_pad). by rewrite length_pad, app_nil_r.
  - intros c f t n bs d _ _ _ _ Hl. unfold wp. cbn [write_block_to_storage disk_storage]. split.
    + intros f' t' n' Hne. rewrite on_block_other; [done|]. apply not_true_iff_false.
      rewrite andb_true_iff, is_file_true, Z.eqb_eq. intros [[-> ->] ->]. done.
    + intros _. cbn. unfold is_file. rewrite !String.eqb_refl, Z.eqb_refl. by apply pad_id.
Defined.

Lemma disk_named i : named (BSS := disk_spec) i.
Proof. by apply Forall_true. Qed.

#[local] Instance disk_calls : WorkerCalls disk_storage := {|
  create_file_in_storage c f t := fun d : @store disk_storage =>
    Some (0, on_block (fun f' t' _ => is_file f t f' t') (fun _ _ _ => []) d);
  truncate_file_in_storage c f t size := fun d : @store disk_storage =>
    Some (0, on_block (fun f' t' n => is_file f t f' t' && (size / block_size <=? n)) (fun _ _ _ => []) d);
  fork_file_in_storage c fs ts fd td := fun d : @store disk_storage =>
    Some (0, on_block (fun f' t' _ => is_file fd td f' t') (fun _ _ n => blocks d fs ts n) d);
  commit_file_in_storage c f t := fun d => Some (0, d);
  delete_file_in_storage c f t := fun d : @store disk_storage =>
    Some (0, on_block (fun f' t' _ => is_file f t f' t') (fun _ _ _ => []) d);
  send_read_content_to_master c bs f t w := fun d : @store disk_storage =>
    Some (0, MkDisk (blocks d) (to_the_master d ++ [(f, t, bs)]) (from_the_master d) : @store disk_storage);
  end_query_in_master c w := fun d => Some (0, d)
|}.

#[local] Instance disk_calls_spec : WorkerCallsSpec disk_calls disk_spec.
Proof.
  split; intros; unfold wp; cbn [create_file_in_storage truncate_file_in_storage fork_file_in_storage
    commit_file_in_storage delete_file_in_storage send_read_content_to_master end_query_in_master disk_calls
    block_of disk_spec]; try done; intros f' t' n Hne; (rewrite on_block_other; [done|]);
    apply not_true_iff_false; rewrite ?andb_true_iff, is_file_true, ?Z.leb_le; tauto.
Qed.

(** A worker with [frames] frames, connected to the disk. *)
Definition worker_on (frames : nat) (pol : pt_replacement_t) : memory_manager_t :=
  match mm_create (Z.of_nat frames * block_size) block_size pol (replicate (frames * 4) x00)
          (empty_disk : @store disk_storage) 0 with
  | Some mm => mm_set_query_id 3 (mm_set_master_connection 8 (mm_set_storage_connection 7 1 mm))
  | None => MkMM [] 0 0 pol [] 0 0 0 0 [] 0 None ∅ 1%positive 0 (empty_disk : @store disk_storage)
  end.

Lemma worker_on_sound n pol :
  (0 < n < 1000)%nat -> mm_wf (BSS := disk_spec) (worker_on n pol) /\ no_leak (worker_on n pol).
Proof.
  intros Hn. unfold worker_on. destruct (mm_create _ _ _ _ _ _) as [mm|] eqn:E.
  - destruct (mm_create_wf (BSS := disk_spec) (Z.of_nat n * block_size) pol (replicate (n * 4) x00) (empty_disk : @store disk_storage) 0 mm)
      as (Hwf & Hnl & _); [done|unfold block_size; lia|rewrite length_replicate; unfold block_size; lia|exact E|].
    split; [|exact Hnl]. do 3 (apply connections_wf; [|exact I]). exact Hwf.
  - unfold mm_create in E. destruct (Z.eqb_spec (Z.of_nat n * block_size) 0); [unfold block_size in *; lia|done].
Qed.

End Disk.
