(* ===== verification/ParseSpec.v ===== *)
(** * Reading a query (theorems about [fetch_instruction] and [decode_instruction])

    The instructions of a script are its lines, and decoding undoes printing. *)

From Stdlib Require Import Ascii.
From S2P Require Import Prelude CStrings Commons Serialization PageTable MemoryManager Interpreter.

(** ** The strings of the commons library *)

Fixpoint has_char (c : ascii) (s : string) : bool :=
  match s with String d s => Ascii.eqb d c || has_char c s | EmptyString => false end.

(** A word that a split at [c] keeps whole. *)
Definition word (c : ascii) (w : string) : Prop := w <> EmptyString /\ has_char c w = false.

Class CommonsStringSpec (CS : CommonsString) : Prop := {
  string_split_join c ws :
    ws <> [] -> Forall (word c) ws -> string_split (String.concat (String c EmptyString) ws) (String c EmptyString) = ws;
  string_equals_lower a b : string_equals_ignore_case a b = String.eqb (lower_string a) (lower_string b)
}.

(** ** Reference implementation *)

Fixpoint split_at (c : ascii) (s : string) : list string :=
  match s with
  | EmptyString => [EmptyString]
  | String d s =>
      if Ascii.eqb d c then EmptyString :: split_at c s
      else match split_at c s with w :: ws => String d w :: ws | [] => [String d EmptyString] end
  end.

#[export] Instance commons_string_ref : CommonsString := {|
  string_split s sep := match sep with String c _ => split_at c s | EmptyString => [s] end;
  string_equals_ignore_case a b := String.eqb (lower_string a) (lower_string b)
|}.

Lemma split_at_word c w : has_char c w = false -> split_at c w = [w].
Proof.
  induction w as [|d w IH]; [done|]. cbn [has_char split_at]. intros [-> Hw]%orb_false_iff. by rewrite IH.
Qed.

Lemma split_at_app c w s : has_char c w = false -> split_at c (w +:+ String c s) = w :: split_at c s.
Proof.
  induction w as [|d w IH]; intros Hw.
  - change (split_at c (String c s) = EmptyString :: split_at c s). cbn [split_at]. by rewrite Ascii.eqb_refl.
  - cbn [has_char] in Hw. apply orb_false_iff in Hw as [Hd Hw].
    change (split_at c (String d (w +:+ String c s)) = String d w :: split_at c s). cbn [split_at].
    by rewrite Hd, IH.
Qed.

#[export] Instance commons_string_ref_spec : CommonsStringSpec commons_string_ref.
Proof.
  split; [|done]. intros c ws Hne Hws. cbn. induction Hws as [|w ws [_ Hw] Hws IH]; [done|].
  destruct ws as [|w' ws]; [by apply split_at_word|].
  change (split_at c (w +:+ String c (String.concat (String c EmptyString) (w' :: ws))) = w :: w' :: ws).
  rewrite (split_at_app c w _ Hw). f_equal. by apply IH.
Qed.

(** ** Decoding *)

Definition name (s : string) : Prop := word " "%char s /\ word ":"%char s.

Definition pair_word (f t : string) : string := f +:+ String ":"%char t.

Definition words_of (i : instruction_t) : list string :=
  match i with
  | I_create f t => ["CREATE"; pair_word f t]
  | I_truncate f t n => ["TRUNCATE"; pair_word f t; print_number n]
  | I_write f t base data => ["WRITE"; pair_word f t; print_number base; data]
  | I_read f t base n => ["READ"; pair_word f t; print_number base; print_number n]
  | I_tag fs ts fd td => ["TAG"; pair_word fs ts; pair_word fd td]
  | I_commit f t => ["COMMIT"; pair_word f t]
  | I_flush f t => ["FLUSH"; pair_word f t]
  | I_delete f t => ["DELETE"; pair_word f t]
  | I_end => ["END"]
  end.

(** The line of a script. *)
Definition print_instruction (i : instruction_t) : string := String.concat " " (words_of i).

(** Names without spaces and colons, data without spaces, numbers of 31 bits. *)
Definition printable (i : instruction_t) : Prop :=
  match i with
  | I_create f t | I_commit f t | I_flush f t | I_delete f t => name f /\ name t
  | I_truncate f t n => name f /\ name t /\ 0 <= n < 2 ^ 31
  | I_write f t base data => name f /\ name t /\ 0 <= base < 2 ^ 31 /\ word " "%char data
  | I_read f t base n => name f /\ name t /\ 0 <= base < 2 ^ 31 /\ 0 <= n < 2 ^ 31
  | I_tag fs ts fd td => name fs /\ name ts /\ name fd /\ name td
  | I_end => True
  end.

Lemma has_char_app c a b : has_char c (a +:+ b) = has_char c a || has_char c b.
Proof. induction a as [|d a IH]; [done|]. cbn [has_char String.append]. change (has_char c (String d (a +:+ b)) = has_char c (String d a) || has_char c b).
  cbn [has_char]. by rewrite IH, orb_assoc. Qed.

Lemma word_pair f t : name f -> name t -> word " "%char (pair_word f t).
Proof.
  intros [[Hf Hf'] _] [[Ht Ht'] _]. split; [by destruct f|].
  unfold pair_word. rewrite has_char_app. cbn [has_char]. by rewrite Hf', Ht'.
Qed.

Lemma word_number n : 0 <= n -> word " "%char (print_number n).
Proof.
  intros Hn. split.
  - destruct (decimal_head 10 n EmptyString) as (d & s & _ & E); [lia|done|]. unfold print_number. by rewrite E.
  - unfold print_number.
    enough (H : forall fuel m acc, 0 <= m -> has_char " " acc = false -> has_char " " (decimal fuel m acc) = false) by (by apply H).
    induction fuel as [|fuel IH]; intros m acc Hm Hacc; cbn [decimal]; [done|].
    assert (Hd : has_char " " (String (digit_char (m mod 10)) acc) = false).
    { cbn [has_char]. rewrite Hacc, orb_false_r. pose proof (Z.mod_pos_bound m 10 eq_refl) as Hb. revert Hb.
      generalize (m mod 10). apply digit_ind. by repeat constructor. }
    destruct (m / 10 =? 0); [done|]. apply IH; [|done]. apply Z.div_pos; lia.
Qed.

Section Decode.
Context {CS : CommonsString} {CSS : CommonsStringSpec CS}.

Lemma file_and_tag_pair f t : name f -> name t -> file_and_tag (pair_word f t) = Some (f, t).
Proof.
  intros [_ Hf] [_ Ht]. unfold file_and_tag, get_file_tag, pair_word.
  change (f +:+ String ":"%char t) with (String.concat (String ":" EmptyString) [f; t]).
  rewrite string_split_join; [done|done|].
  apply List.Forall_cons; [done|]. apply List.Forall_cons; [done|apply List.Forall_nil].
Qed.

Lemma words_are_words i : printable i -> words_of i <> [] /\ Forall (word " "%char) (words_of i).
Proof.
  intros Hp. split; [by destruct i|].
  assert (Hop : forall s, has_char " " s = false -> s <> EmptyString -> word " "%char s) by (by split).
  destruct i; cbn [words_of printable] in *; destruct_and?; repeat (apply List.Forall_cons; [|]); try apply List.Forall_nil;
    try (by apply Hop); try (by apply word_pair); try (by apply word_number; lia); done.
Qed.

Lemma operation_word i : get_operation_type (List.hd EmptyString (words_of i)) = operation i.
Proof. unfold get_operation_type. rewrite !string_equals_lower. by destruct i. Qed.

Lemma print_decoded n : 0 <= n < 2 ^ 31 -> u32 (atoi (print_number n)) = n /\ u64 (atoi (print_number n)) = n.
Proof. intros Hn. rewrite atoi_print_number by done. split; [apply u32_small; lia|apply u64_small; lia]. Qed.

(** C39: Decoding undoes printing: the line of any instruction with well formed
    names and numbers of 31 bits is decoded to that instruction with code 0. *)
Theorem decode_print i : printable i -> decode_instruction (print_instruction i) = (0, Some i).
Proof.
  intros Hp. destruct (words_are_words i Hp) as [Hne Hws]. unfold decode_instruction, print_instruction.
  change (" "%string) with (String " " EmptyString). rewrite string_split_join by done.
  pose proof (operation_word i) as Hop.
  destruct i; cbn [words_of List.hd operation printable decode_simple] in *; rewrite Hop;
    destruct_and?; rewrite ?file_and_tag_pair by done; try done.
  - by destruct (print_decoded size) as [_ ->].
  - by destruct (print_decoded base) as [-> _].
  - destruct (print_decoded base) as [-> _]; [done|]. by destruct (print_decoded size) as [_ ->].
Qed.

End Decode.

Example decode_print_witness :
  decode_instruction (print_instruction (I_write "f" "t" 1024 "abc")) = (0, Some (I_write "f" "t" 1024 "abc")) /\
  print_instruction (I_write "f" "t" 1024 "abc") = "WRITE f:t 1024 abc".
Proof.
  split; [|reflexivity]. apply (decode_print (CS := commons_string_ref)).
  repeat split; try discriminate; lia.
Defined.

(** ** Fetching *)

(** A line that fits the buffer of [fgets], without newlines or NULs. *)
Definition line_ok (l : string) : Prop :=
  (String.length l <= 254)%nat /\ Forall (fun b => b <> x0a /\ b <> x00) (string_bytes l).

Definition text (ls : list string) (tail : string) : list byte :=
  flat_map (fun l => string_bytes l ++ [x0a]) ls ++ string_bytes tail.

Lemma byte_eqb_false a b : a <> b -> Byte.eqb a b = false.
Proof. intros H. destruct (Byte.eqb a b) eqn:E; [|done]. by apply Byte.byte_dec_bl in E. Qed.

Lemma fgets_line n bs rest :
  Forall (fun b => b <> x0a /\ b <> x00) bs -> (length bs < n)%nat ->
  fgets n (bs ++ x0a :: rest) = (bs ++ [x0a], rest) /\ fgets n bs = (bs, []).
Proof.
  intros Hbs. revert n. induction Hbs as [|b bs [Hb _] Hbs IH]; intros [|n] Hn; cbn in Hn; try lia; [done|].
  destruct (IH n) as [E1 E2]; [lia|]. cbn. by rewrite byte_eqb_false, E1, E2.
Qed.

Lemma cut_line_bytes l rest :
  Forall (fun b => b <> x0a /\ b <> x00) (string_bytes l) ->
  cut_line (string_bytes l ++ x0a :: rest) = l /\ cut_line (string_bytes l) = l.
Proof.
  unfold string_bytes, String.list_byte_of_string.
  induction l as [|c l IH]; intros Hl; [done|]. cbn in Hl. apply List.Forall_cons_iff in Hl as [[H1 H2] Hl]. destruct (IH Hl) as [E1 E2].
  cbn. rewrite !byte_eqb_false by done. cbn. by rewrite E1, E2, ascii_of_byte_of_ascii.
Qed.

Lemma string_bytes_len s : length (string_bytes s) = String.length s.
Proof. unfold string_bytes. induction s as [|c s IH]; [done|]. cbn. by f_equal. Qed.

(** The lines of a script: the last one may lack its newline. *)
Definition lines (ls : list string) (tail : string) : list string :=
  ls ++ match tail with EmptyString => [] | _ => [tail] end.

Lemma fetch_tail fuel tail cur pc :
  line_ok tail -> (0 < fuel)%nat -> cur <= pc ->
  fetch_loop (S fuel) (string_bytes tail) cur pc =
    match lines [] tail !! Z.to_nat (pc - cur) with Some l => (0, Some l) | None => (-1, None) end.
Proof.
  intros [Hlen Hb] Hf Hpc. destruct tail as [|c tail]; [by destruct (Z.to_nat (pc - cur))|].
  destruct (fgets_line 255 _ [] Hb) as [_ E]; [rewrite string_bytes_len; lia|].
  destruct (cut_line_bytes _ [] Hb) as [_ E']. set (s := String c tail) in *.
  change (lines [] s) with [s]. cbn [fetch_loop].
  destruct (string_bytes s) as [|b bs] eqn:Eb; [done|]. rewrite E.
  destruct (Z.eqb_spec cur pc) as [->|Hne]; [by rewrite E', Z.sub_diag|].
  destruct (Z.to_nat (pc - cur)) as [|k] eqn:Ek; [lia|]. destruct fuel; [lia|]. done.
Qed.

Lemma fetch_lines_from ls tail fuel cur pc :
  Forall line_ok ls -> line_ok tail -> (length (text ls tail) < fuel)%nat ->
  0 <= cur <= pc -> cur + Z.of_nat (length ls) < 2 ^ 32 ->
  fetch_loop fuel (text ls tail) cur pc =
    match lines ls tail !! Z.to_nat (pc - cur) with Some l => (0, Some l) | None => (-1, None) end.
Proof.
  intros Hls Ht. revert fuel cur. induction Hls as [|l ls [Hlen Hb] Hls IH]; intros fuel cur Hf Hc Hn.
  - destruct fuel as [|[|fuel]]; [cbn in Hf; lia| |apply fetch_tail; [done|lia|lia]].
    cbn in Hf. rewrite string_bytes_len in Hf. destruct tail; [|cbn in Hf; lia]. by destruct (Z.to_nat (pc - cur)).
  - destruct fuel as [|fuel]; [lia|].
    assert (Et : text (l :: ls) tail = string_bytes l ++ x0a :: text ls tail).
    { unfold text. cbn. by rewrite <- !app_assoc. }
    rewrite Et in Hf |- *. rewrite length_app in Hf. cbn [length] in Hf, Hn.
    destruct (fgets_line 255 _ (text ls tail) Hb) as [E _]; [rewrite string_bytes_len; lia|].
    destruct (cut_line_bytes _ [] Hb) as [E' _].
    assert (Hstep : fetch_loop (S fuel) (string_bytes l ++ x0a :: text ls tail) cur pc =
      (if cur =? pc then (0, Some (cut_line (string_bytes l ++ [x0a]))) else fetch_loop fuel (text ls tail) (u32 (cur + 1)) pc)).
    { cbn [fetch_loop]. rewrite E. by destruct (string_bytes l). }
    rewrite Hstep. destruct (Z.eqb_spec cur pc) as [->|Hne].
    + by rewrite E', Z.sub_diag.
    + rewrite u32_small by lia. rewrite IH by lia.
      replace (Z.to_nat (pc - cur)) with (S (Z.to_nat (pc - (cur + 1)))) by lia. done.
Qed.

(** Fetching with program counter [pc] gives line [pc] of the script, whether
    or not the last line ends in a newline, and -1 past the last line or when the
    file cannot be opened, for scripts whose lines have at most 254 characters. *)
Theorem fetch_line `{FS : FileSystem} path ls tail pc :
  file_contents path = Some (text ls tail) -> Forall line_ok ls -> line_ok tail ->
  0 <= pc -> Z.of_nat (length ls) < 2 ^ 32 ->
  fetch_instruction path pc =
    match lines ls tail !! Z.to_nat pc with Some l => (0, Some l) | None => (-1, None) end.
Proof.
  intros Hfile Hls Ht Hpc Hn. unfold fetch_instruction. rewrite Hfile.
  rewrite fetch_lines_from by (done || lia). by rewrite Z.sub_0_r.
Qed.

Example fetch_line_witness :
  @fetch_instruction (fun _ => Some (text ["CREATE f:t"; "END"] "")) "q" 1 = (0, Some "END").
Proof.
  rewrite (fetch_line (FS := fun _ => Some (text ["CREATE f:t"; "END"] "")) "q" ["CREATE f:t"; "END"] "" 1);
    [reflexivity|reflexivity| | |lia|reflexivity].
  - repeat apply List.Forall_cons; try apply List.Forall_nil; (split; [cbn; lia|]);
      repeat apply List.Forall_cons; try apply List.Forall_nil; by split.
  - split; [cbn; lia|apply List.Forall_nil].
Defined.
