(* ===== verification/InstructionMemory.v ===== *)
(** * The memory of an instruction (worker/src/query_interpreter/, query_executor.c)

    What decode_instruction and execute_single_instruction take from [malloc] and
    give back, block by block: arrays of words, copies of names, the raw line.  To
    read a block that is not allocated, or to free it twice, is undefined. *)

From S2P Require Import Prelude CStrings Commons PageTable MemoryManager Interpreter ParseSpec.

(** ** The allocator *)

(** A string, an array that ends in NULL, or bytes nobody looks at. *)
Inductive block := Chars (s : string) | Pointers (ps : list ptr) | Room.

Abbreviation memory := (gmap ptr block).

Abbreviation MEM := (ST memory).

Definition malloc (b : block) : MEM ptr := fun m =>
  let p := fresh (dom m) in Some (p, <[p := b]> m).
Definition free (p : ptr) : MEM unit := fun m =>
  match m !! p with Some _ => Some (tt, delete p m) | None => None end.

Definition chars (p : ptr) : MEM string := fun m =>
  match m !! p with Some (Chars s) => Some (s, m) | _ => None end.
Definition pointers (p : ptr) : MEM (list ptr) := fun m =>
  match m !! p with Some (Pointers ps) => Some (ps, m) | _ => None end.

(** ** The strings of the commons library *)

Definition string_duplicate (p : ptr) : MEM ptr := s ← chars p; malloc (Chars s).

Fixpoint malloc_each (ws : list string) : MEM (list ptr) :=
  match ws with
  | [] => mret []
  | w :: ws => p ← malloc (Chars w); ps ← malloc_each ws; mret (p :: ps)
  end.

Fixpoint free_each (ps : list ptr) : MEM unit :=
  match ps with [] => mret tt | p :: ps => free p;; free_each ps end.

Definition string_array_destroy (a : ptr) : MEM unit := ps ← pointers a; free_each ps;; free a.

(** ** Instructions in memory *)

Inductive instruction_c :=
| C_create (file tag : ptr)
| C_truncate (file tag : ptr) (size : Z)
| C_write (file tag : ptr) (base : Z) (data : ptr)
| C_read (file tag : ptr) (base size : Z)
| C_tag (file_src tag_src file_dst tag_dst : ptr)
| C_commit (file tag : ptr)
| C_flush (file tag : ptr)
| C_delete (file tag : ptr)
| C_end.

Definition free_instruction (i : instruction_c) : MEM unit :=
  match i with
  | C_create file tag | C_commit file tag | C_flush file tag | C_delete file tag => free file;; free tag
  | C_truncate file tag _ => free file;; free tag
  | C_write file tag _ data => free file;; free tag;; free data
  | C_read file tag _ _ => free file;; free tag
  | C_tag file_src tag_src file_dst tag_dst => free file_src;; free tag_src;; free file_dst;; free tag_dst
  | C_end => mret tt
  end.

(** What execute_instruction reads. *)
Definition read_instruction (i : instruction_c) : MEM instruction_t :=
  let names (file tag : ptr) (make : string -> string -> instruction_t) : MEM instruction_t :=
    f ← chars file; t ← chars tag; mret (make f t) in
  match i with
  | C_create file tag => names file tag I_create
  | C_commit file tag => names file tag I_commit
  | C_flush file tag => names file tag I_flush
  | C_delete file tag => names file tag I_delete
  | C_truncate file tag size => names file tag (fun f t => I_truncate f t size)
  | C_write file tag base data => d ← chars data; names file tag (fun f t => I_write f t base d)
  | C_read file tag base size => names file tag (fun f t => I_read f t base size)
  | C_tag file_src tag_src file_dst tag_dst =>
      f ← chars file_dst; t ← chars tag_dst; names file_src tag_src (fun fs ts => I_tag fs ts f t)
  | C_end => mret I_end
  end.

Section Decode.
Context `{CS : CommonsString}.

Definition string_split_c (p : ptr) (separator : string) : MEM ptr :=
  s ← chars p; ps ← malloc_each (string_split s separator); malloc (Pointers ps).

(** The split of a word, the copies of file and tag, [k] for the rest of the
    instruction, and the release of the array. *)
Definition with_file_tag {A} (word : ptr) (k : ptr -> ptr -> MEM A) : MEM (option A) :=
  a ← string_split_c word ":";
  ps ← pointers a;
  match ps with
  | f :: t :: _ =>
      file ← string_duplicate f;
      tag ← string_duplicate t;
      x ← k file tag;
      string_array_destroy a;;
      mret (Some x)
  | _ => string_array_destroy a;; mret None
  end.

Definition number (p : ptr) : MEM Z := s ← chars p; mret (atoi s).

(** TAG splits both words before it looks at either. *)
Definition decode_tag (src dst : ptr) : MEM (option instruction_c) :=
  a ← string_split_c src ":";
  b ← string_split_c dst ":";
  ps ← pointers a;
  qs ← pointers b;
  match ps, qs with
  | fs :: ts :: _, fd :: td :: _ =>
      file_src ← string_duplicate fs;
      tag_src ← string_duplicate ts;
      file_dst ← string_duplicate fd;
      tag_dst ← string_duplicate td;
      string_array_destroy a;;
      string_array_destroy b;;
      mret (Some (C_tag file_src tag_src file_dst tag_dst))
  | _, _ => string_array_destroy a;; string_array_destroy b;; mret None
  end.

(** The [switch]. *)
Definition decode_words (op : operation_t) (args : list ptr) : MEM (option instruction_c) :=
  let simple (make : ptr -> ptr -> instruction_c) :=
    match args with ft :: _ => with_file_tag ft (fun f t => mret (make f t)) | _ => mret None end in
  match op, args with
  | CREATE, _ => simple C_create
  | COMMIT, _ => simple C_commit
  | FLUSH, _ => simple C_flush
  | DELETE, _ => simple C_delete
  | TRUNCATE, ft :: size :: _ => with_file_tag ft (fun f t => n ← number size; mret (C_truncate f t (u64 n)))
  | WRITE, ft :: base :: data :: _ =>
      with_file_tag ft (fun f t => n ← number base; d ← string_duplicate data; mret (C_write f t (u32 n) d))
  | READ, ft :: base :: size :: _ =>
      with_file_tag ft (fun f t => n ← number base; z ← number size; mret (C_read f t (u32 n) (u64 z)))
  | TAG, src :: dst :: _ => decode_tag src dst
  | END, _ => mret (Some C_end)
  | _, _ => mret None
  end.

Definition decode_instruction_c (raw_instruction : ptr) : MEM (Z * option instruction_c) :=
  a ← string_split_c raw_instruction " ";
  ps ← pointers a;
  match ps with
  | [] => string_array_destroy a;; mret (-1, None)
  | op :: args =>
      s ← chars op;
      i ← decode_words (get_operation_type s) args;
      string_array_destroy a;;
      mret (match i with Some i => (0, Some i) | None => (-1, None) end)
  end.

(** ** One instruction (query_executor.c)

    What fetch_instruction reads, whether the two calls of [malloc] fail, and the
    execution are given; no result is QUERY_RESULT_ERROR before the execution. *)
Definition single_instruction (fetched : option string) (no_path no_instruction : bool) (execute : instruction_t -> Z)
    : MEM (option Z) :=
  if no_path then mret None else
  path ← malloc Room;
  match fetched with
  | None => free path;; mret None
  | Some line =>
      raw_instruction ← malloc (Chars line);
      free path;;
      if no_instruction then free raw_instruction;; mret None else
      instruction ← malloc Room;
      r ← decode_instruction_c raw_instruction;
      match snd r with
      | None => free raw_instruction;; free instruction;; mret None
      | Some i =>
          v ← read_instruction i;
          let exec_res := execute v in
          free_instruction i;;
          free instruction;;
          free raw_instruction;;
          mret (Some exec_res)
      end
  end.

End Decode.

(** ** What is owned

    The blocks of [l] have been taken on top of the memory [h]. *)
Record owns (h : memory) (l : list (ptr * block)) (m : memory) : Prop := {
  own_mem : m = list_to_map l ∪ h;
  own_once : NoDup l.*1;
  own_apart p b : (p, b) ∈ l -> h !! p = None
}.

Lemma owns_nothing h m : owns h [] m <-> m = h.
Proof.
  split; [intros [-> _ _]; apply (left_id_L ∅ (∪))|]. intros ->. split; [symmetry; apply (left_id_L ∅ (∪))|apply NoDup_nil_2|].
  by intros p b ?%not_elem_of_nil.
Qed.

Lemma owns_perm h l l' m : l ≡ₚ l' -> owns h l m -> owns h l' m.
Proof.
  intros Hp [Hm Hn Ha]. split.
  - rewrite Hm. f_equal. by apply list_to_map_proper.
  - by rewrite <- Hp.
  - intros p b. rewrite <- Hp. apply Ha.
Qed.

Lemma owns_lookup h l m p b : owns h l m -> (p, b) ∈ l -> m !! p = Some b.
Proof. intros [-> Hn _] Hin. apply lookup_union_Some_l. by apply elem_of_list_to_map_1. Qed.

Lemma owns_frame h l m p b : owns h l m -> h !! p = Some b -> m !! p = Some b.
Proof.
  intros [-> Hn Ha] Hp. rewrite lookup_union_r; [done|]. apply not_elem_of_list_to_map_1. intros (x & -> & Hx)%list_elem_of_fmap.
  destruct x as [p b']. cbn in Hp. by rewrite (Ha p b' Hx) in Hp.
Qed.

Section Rules.
Context (h : memory).

Lemma wp_malloc l m b (Q : ptr -> memory -> Prop) :
  owns h l m -> (forall p m', owns h ((p, b) :: l) m' -> Q p m') -> wp (malloc b) Q m.
Proof.
  intros Ho HQ. unfold wp, malloc. apply HQ. pose proof (is_fresh (dom m)) as Hf. set (p := fresh (dom m)) in *.
  apply not_elem_of_dom in Hf. destruct Ho as [Hm Hn Ha]. rewrite Hm in Hf. apply lookup_union_None in Hf as [Hl Hh].
  split; cbn.
  - rewrite Hm. by rewrite insert_union_l.
  - apply NoDup_cons. split; [by apply not_elem_of_list_to_map|done].
  - intros q c [[= -> ->]|Hin]%elem_of_cons; [done|by eapply Ha].
Qed.

Lemma wp_free l m p b (Q : unit -> memory -> Prop) :
  owns h ((p, b) :: l) m -> (forall m', owns h l m' -> Q tt m') -> wp (free p) Q m.
Proof.
  intros Ho HQ. unfold wp, free. rewrite (owns_lookup h _ m p b Ho) by (by left). apply HQ. destruct Ho as [-> Hn Ha].
  cbn in Hn. apply NoDup_cons in Hn as [Hp Hn]. split; [|done|intros; eapply Ha; by right]. cbn.
  rewrite <- insert_union_l. apply delete_insert_id. apply lookup_union_None.
  split; [by apply not_elem_of_list_to_map_1|]. apply (Ha p b). by left.
Qed.

Lemma wp_free_in l l' m p b (Q : unit -> memory -> Prop) :
  l ≡ₚ (p, b) :: l' -> owns h l m -> (forall m', owns h l' m' -> Q tt m') -> wp (free p) Q m.
Proof. intros Hp Ho HQ. eapply wp_free; [by eapply owns_perm|done]. Qed.

Lemma wp_chars m p s (Q : string -> memory -> Prop) : m !! p = Some (Chars s) -> Q s m -> wp (chars p) Q m.
Proof. intros Hp HQ. unfold wp, chars. by rewrite Hp. Qed.

Lemma wp_pointers m p ps (Q : list ptr -> memory -> Prop) : m !! p = Some (Pointers ps) -> Q ps m -> wp (pointers p) Q m.
Proof. intros Hp HQ. unfold wp, pointers. by rewrite Hp. Qed.

Lemma wp_duplicate l m p s (Q : ptr -> memory -> Prop) :
  owns h l m -> m !! p = Some (Chars s) -> (forall q m', owns h ((q, Chars s) :: l) m' -> Q q m') -> wp (string_duplicate p) Q m.
Proof. intros Ho Hp HQ. unfold string_duplicate. apply wp_bind, (wp_chars m p s); [done|]. by apply (wp_malloc l). Qed.

(** *** Arrays of words *)

Definition words_at (ps : list ptr) (ws : list string) : list (ptr * block) := zip_with (fun p w => (p, Chars w)) ps ws.

(** An array with its words. *)
Definition array_at (a : ptr) (ps : list ptr) (ws : list string) : list (ptr * block) := (a, Pointers ps) :: words_at ps ws.

Lemma wp_malloc_each ws l m (Q : list ptr -> memory -> Prop) :
  owns h l m -> (forall ps m', length ps = length ws -> owns h (words_at ps ws ++ l) m' -> Q ps m') -> wp (malloc_each ws) Q m.
Proof.
  revert l m Q. induction ws as [|w ws IH]; intros l m Q Ho HQ; cbn [malloc_each].
  - apply wp_ret. by apply HQ.
  - apply wp_bind, (wp_malloc l); [done|]. intros p m1 H1. apply wp_bind, (IH ((p, Chars w) :: l)); [done|].
    intros ps m2 Hl H2. apply wp_ret, HQ; [cbn; lia|]. eapply owns_perm; [|exact H2]. cbn. solve_Permutation.
Qed.

Lemma wp_free_each ps ws l m (Q : unit -> memory -> Prop) :
  length ps = length ws -> owns h (words_at ps ws ++ l) m -> (forall m', owns h l m' -> Q tt m') -> wp (free_each ps) Q m.
Proof.
  revert ws m. induction ps as [|p ps IH]; intros [|w ws] m Hl Ho HQ; try done; cbn [free_each].
  - apply wp_ret. by apply HQ.
  - apply wp_bind. eapply wp_free; [exact Ho|]. intros m1 H1. by apply (IH ws); [cbn in Hl; lia|..].
Qed.

Lemma wp_destroy l l' a ps ws m (Q : unit -> memory -> Prop) :
  length ps = length ws -> l ≡ₚ array_at a ps ws ++ l' -> owns h l m -> (forall m', owns h l' m' -> Q tt m') ->
  wp (string_array_destroy a) Q m.
Proof.
  intros Hl Hp Ho HQ. apply (owns_perm _ _ _ _ Hp) in Ho. unfold string_array_destroy, array_at in *. cbn in Ho.
  apply wp_bind, (wp_pointers m a ps); [eapply owns_lookup; [exact Ho|by left]|].
  apply wp_bind. apply (wp_free_each ps ws ((a, Pointers ps) :: l')); [done| |].
  - eapply owns_perm; [|exact Ho]. solve_Permutation.
  - intros m' H'. by eapply wp_free.
Qed.

End Rules.

(** ** The instruction that is decoded *)

(** The blocks of an instruction in memory, when it is the instruction [i]. *)
Definition parts (c : instruction_c) (i : instruction_t) : option (list (ptr * block)) :=
  match c, i with
  | C_create f t, I_create file tag | C_commit f t, I_commit file tag
  | C_flush f t, I_flush file tag | C_delete f t, I_delete file tag => Some [(f, Chars file); (t, Chars tag)]
  | C_truncate f t n, I_truncate file tag size => if n =? size then Some [(f, Chars file); (t, Chars tag)] else None
  | C_write f t n d, I_write file tag base data => if n =? base then Some [(f, Chars file); (t, Chars tag); (d, Chars data)] else None
  | C_read f t n z, I_read file tag base size =>
      if (n =? base) && (z =? size) then Some [(f, Chars file); (t, Chars tag)] else None
  | C_tag a b c d, I_tag fs ts fd td => Some [(a, Chars fs); (b, Chars ts); (c, Chars fd); (d, Chars td)]
  | C_end, I_end => Some []
  | _, _ => None
  end.

Lemma run_free_instruction h c i new l m (Q : unit -> memory -> Prop) :
  parts c i = Some new -> owns h (new ++ l) m -> (forall m', owns h l m' -> Q tt m') -> wp (free_instruction c) Q m.
Proof.
  intros Hp Ho HQ. destruct c, i; cbn in Hp; try discriminate Hp; repeat case_match; try discriminate Hp; injection Hp as <-; cbn in Ho;
    cbn [free_instruction]; repeat (apply wp_bind || (eapply wp_free; [exact Ho|]; clear Ho; intros ? Ho)); try (apply wp_ret); by apply HQ.
Qed.

(** Finds a block in a list, up to its contents. *)
Ltac in_list := apply elem_of_cons; first [left; reflexivity | right; in_list].

Lemma run_read_instruction h c i new l m (Q : instruction_t -> memory -> Prop) :
  parts c i = Some new -> owns h (new ++ l) m -> Q i m -> wp (read_instruction c) Q m.
Proof.
  intros Hp Ho HQ. assert (Hl : forall p b, (p, b) ∈ new -> m !! p = Some b).
  { intros p b Hin. eapply owns_lookup; [exact Ho|]. apply elem_of_app. by left. }
  destruct c, i; cbn in Hp; try discriminate Hp; repeat case_match; try discriminate Hp; injection Hp as <-; cbn [read_instruction];
    repeat match goal with H : (_ && _) = true |- _ => apply andb_prop in H as [? ?] | H : (_ =? _) = true |- _ => apply Z.eqb_eq in H; subst end;
    repeat (apply wp_bind; eapply wp_chars; [apply Hl; in_list|]); by apply wp_ret.
Qed.

Section Decoded.
Context `{CS : CommonsString} (h : memory).

(** A word that the caller owns, or that was there. *)
Definition word_at (l : list (ptr * block)) (p : ptr) (s : string) : Prop := (p, Chars s) ∈ l \/ h !! p = Some (Chars s).

Lemma word_at_lookup l l' p s m : word_at l p s -> l ⊆ l' -> owns h l' m -> m !! p = Some (Chars s).
Proof. intros [Hin|Hh] Hsub Ho; [eapply owns_lookup; [exact Ho|by apply Hsub]|by eapply owns_frame]. Qed.

Lemma wp_string_split l m p s sep (Q : ptr -> memory -> Prop) :
  owns h l m -> word_at l p s ->
  (forall a ps m', length ps = length (string_split s sep) -> owns h (array_at a ps (string_split s sep) ++ l) m' -> Q a m') ->
  wp (string_split_c p sep) Q m.
Proof.
  intros Ho Hw HQ. apply wp_bind, (wp_chars m p s); [by eapply word_at_lookup|].
  apply wp_bind, (wp_malloc_each h _ l); [done|]. intros ps m1 Hl H1. eapply wp_malloc; [exact H1|]. intros a m2 H2. by eapply HQ.
Qed.

Lemma array_lookup a ps ws l m : owns h (array_at a ps ws ++ l) m -> m !! a = Some (Pointers ps).
Proof. intros Ho. eapply owns_lookup; [exact Ho|]. by left. Qed.

Lemma words_at_elem (ps : list ptr) ws j p w : ps !! j = Some p -> ws !! j = Some w -> (p, Chars w) ∈ words_at ps ws.
Proof. intros Hp Hw. apply list_elem_of_lookup. exists j. unfold words_at. by rewrite lookup_zip_with, Hp, Hw. Qed.

(** The file and the tag of a word are copied and the array is released, whatever
    [k] adds. *)
Lemma wp_with_file_tag {A} l m w s (k : ptr -> ptr -> MEM A) (R : string -> string -> A -> list (ptr * block) -> Prop)
    (Q : option A -> memory -> Prop) :
  owns h l m -> word_at l w s ->
  (forall f t pf pt rest m1, file_and_tag s = Some (f, t) -> l ⊆ rest -> owns h ((pt, Chars t) :: (pf, Chars f) :: rest) m1 ->
     wp (k pf pt) (fun x m2 => exists new, owns h (new ++ rest) m2 /\ R f t x new) m1) ->
  (file_and_tag s = None -> forall m', owns h l m' -> Q None m') ->
  (forall f t x new m', file_and_tag s = Some (f, t) -> R f t x new -> owns h (new ++ l) m' -> Q (Some x) m') ->
  wp (with_file_tag w k) Q m.
Proof.
  intros Ho Hw Hk HN HS. unfold with_file_tag. apply wp_bind. eapply wp_string_split; [done..|]. intros a ps m1 Hl H1.
  fold (get_file_tag s) in *. apply wp_bind, (wp_pointers m1 a ps); [by eapply array_lookup|].
  assert (Hd : file_and_tag s = None -> wp (string_array_destroy a;; mret None) Q m1).
  { intros E. apply wp_bind. eapply wp_destroy; [exact Hl|reflexivity|exact H1|]. intros m2 H2. apply wp_ret. by apply HN. }
  unfold file_and_tag in *. destruct (get_file_tag s) as [|f [|t ws]] eqn:Es; destruct ps as [|p1 [|p2 ps]]; try discriminate Hl; auto.
  set (ar := array_at a (p1 :: p2 :: ps) (f :: t :: ws)). change (owns h (ar ++ l) m1) in H1.
  apply wp_bind. eapply wp_duplicate; [exact H1|eapply owns_lookup; [exact H1|in_list]|]. intros pf m2 H2.
  apply wp_bind. eapply wp_duplicate; [exact H2|eapply owns_lookup; [exact H2|in_list]|]. intros pt m3 H3.
  apply wp_bind. eapply wp_mono; [eapply (Hk f t pf pt (ar ++ l)); [done|by intros z Hz; apply elem_of_app; right|exact H3]|].
  intros x m4 (new & H4 & HR). apply wp_bind. eapply wp_destroy; [exact Hl| |exact H4|].
  - fold ar. instantiate (1 := new ++ l). solve_Permutation.
  - intros m5 H5. apply wp_ret. by eapply HS.
Qed.

(** What a piece of the decoder leaves: nothing, or the blocks of the instruction. *)
Definition decoded (l : list (ptr * block)) (i : option instruction_t) (r : option instruction_c) (m : memory) : Prop :=
  match i with
  | None => r = None /\ owns h l m
  | Some i => exists c new, r = Some c /\ parts c i = Some new /\ owns h (new ++ l) m
  end.

Lemma word_at_more l l' p s : word_at l p s -> l ⊆ l' -> word_at l' p s.
Proof. intros [Hin|Hh] Hs; [left; by apply Hs|by right]. Qed.

Lemma more_app (l l' : list (ptr * block)) : l ⊆ l' ++ l.
Proof. intros z Hz. apply elem_of_app. by right. Qed.

Definition tag_of (s1 s2 : string) : option instruction_t :=
  match file_and_tag s1, file_and_tag s2 with Some (fs, ts), Some (fd, td) => Some (I_tag fs ts fd td) | _, _ => None end.

Lemma wp_decode_tag l m src dst s1 s2 :
  owns h l m -> word_at l src s1 -> word_at l dst s2 -> wp (decode_tag src dst) (decoded l (tag_of s1 s2)) m.
Proof.
  intros Ho Hs Hd. unfold decode_tag. apply wp_bind. eapply wp_string_split; [done..|]. intros a ps m1 Hl1 H1.
  apply wp_bind. eapply wp_string_split; [exact H1|eapply word_at_more; [exact Hd|apply more_app]|]. intros b qs m2 Hl2 H2.
  fold (get_file_tag s1) in *. fold (get_file_tag s2) in *. set (A := array_at a ps (get_file_tag s1)) in *. set (B := array_at b qs (get_file_tag s2)) in *.
  apply wp_bind, (wp_pointers m2 a ps); [eapply owns_lookup; [exact H2|]; apply elem_of_app; right; by left|].
  apply wp_bind, (wp_pointers m2 b qs); [eapply owns_lookup; [exact H2|by left]|].
  assert (Hend : forall r l' m' (Q : option instruction_c -> memory -> Prop), owns h (l' ++ B ++ A ++ l) m' ->
    (forall m'', owns h (l' ++ l) m'' -> Q r m'') -> wp (string_array_destroy a;; string_array_destroy b;; mret r) Q m').
  { intros r l' m' Q H' HQ. apply wp_bind. eapply (wp_destroy h _ (l' ++ B ++ l)); [exact Hl1| |exact H'|].
    - fold A. solve_Permutation.
    - intros m3 H3. apply wp_bind. eapply (wp_destroy h _ (l' ++ l)); [exact Hl2| |exact H3|auto]. fold B. solve_Permutation. }
  assert (Hno : tag_of s1 s2 = None -> wp (string_array_destroy a;; string_array_destroy b;; mret None) (decoded l (tag_of s1 s2)) m2).
  { intros ->. apply (Hend None []); [done|]. by split. }
  assert (HA : forall j p w, ps !! j = Some p -> get_file_tag s1 !! j = Some w -> (p, Chars w) ∈ A).
  { intros j p w Hp Hw. right. by eapply words_at_elem. }
  assert (HB : forall j p w, qs !! j = Some p -> get_file_tag s2 !! j = Some w -> (p, Chars w) ∈ B).
  { intros j p w Hp Hw. right. by eapply words_at_elem. }
  clearbody A B. unfold tag_of, file_and_tag in *.
  destruct (get_file_tag s1) as [|fs [|ts ws1]]; destruct ps as [|p1 [|p2 ps]]; try discriminate Hl1; auto.
  destruct (get_file_tag s2) as [|fd [|td ws2]]; destruct qs as [|q1 [|q2 qs]]; try discriminate Hl2; auto. clear Hno.
  assert (Hm : forall l' m' p w, owns h (l' ++ B ++ A ++ l) m' -> (p, Chars w) ∈ A \/ (p, Chars w) ∈ B -> m' !! p = Some (Chars w)).
  { intros l' m' p w H' Hin. eapply owns_lookup; [exact H'|]. rewrite !elem_of_app. tauto. }
  apply wp_bind. eapply wp_duplicate; [exact H2|apply (Hm []); [done|left; by apply (HA 0%nat)]|]. intros c1 m3 H3.
  apply wp_bind. eapply wp_duplicate; [exact H3|apply (Hm [(c1, Chars fs)] _ _ _ H3); left; by apply (HA 1%nat)|]. intros c2 m4 H4.
  apply wp_bind. eapply wp_duplicate; [exact H4|apply (Hm [(c2, Chars ts); (c1, Chars fs)] _ _ _ H4); right; by apply (HB 0%nat)|]. intros c3 m5 H5.
  apply wp_bind. eapply wp_duplicate; [exact H5|apply (Hm [(c3, Chars fd); (c2, Chars ts); (c1, Chars fs)] _ _ _ H5); right; by apply (HB 1%nat)|]. intros c4 m6 H6.
  apply (Hend (Some (C_tag c1 c2 c3 c4)) [(c4, Chars td); (c3, Chars fd); (c2, Chars ts); (c1, Chars fs)]); [exact H6|]. intros m7 H7.
  exists (C_tag c1 c2 c3 c4). eexists. split; [done|]. split; [reflexivity|].
  eapply owns_perm; [|exact H7]. cbn. solve_Permutation.
Qed.

(** The instruction of an operation and its words. *)
Definition args_of (op : operation_t) (ws : list string) : option instruction_t :=
  match op, ws with
  | CREATE, _ => decode_simple I_create ws
  | COMMIT, _ => decode_simple I_commit ws
  | FLUSH, _ => decode_simple I_flush ws
  | DELETE, _ => decode_simple I_delete ws
  | TRUNCATE, ft :: size :: _ => '(f, t) ← file_and_tag ft; Some (I_truncate f t (u64 (atoi size)))
  | WRITE, ft :: base :: data :: _ => '(f, t) ← file_and_tag ft; Some (I_write f t (u32 (atoi base)) data)
  | READ, ft :: base :: size :: _ => '(f, t) ← file_and_tag ft; Some (I_read f t (u32 (atoi base)) (u64 (atoi size)))
  | TAG, src :: dst :: _ => tag_of src dst
  | END, _ => Some I_end
  | _, _ => None
  end.

Lemma decode_instruction_args s :
  decode_instruction s =
    match string_split s " " with
    | [] => (-1, None)
    | op :: ws => match args_of (get_operation_type op) ws with Some i => (0, Some i) | None => (-1, None) end
    end.
Proof.
  unfold decode_instruction, args_of, tag_of. destruct (string_split s " ") as [|op ws]; [done|].
  destruct (get_operation_type op); try done; repeat (case_match; simplify_eq/=; try done).
Qed.

(** [wp_with_file_tag] for the instruction that [make] gives. *)
Lemma wp_named l m p w k (make : string -> string -> instruction_t) :
  owns h l m -> word_at l p w ->
  (forall f t pf pt rest m1, l ⊆ (pt, Chars t) :: (pf, Chars f) :: rest -> owns h ((pt, Chars t) :: (pf, Chars f) :: rest) m1 ->
     wp (k pf pt) (fun x m2 => exists new, owns h (new ++ rest) m2 /\ parts x (make f t) = Some new) m1) ->
  wp (with_file_tag p k) (decoded l ('(f, t) ← file_and_tag w; Some (make f t))) m.
Proof.
  intros Ho Hw Hk. eapply (wp_with_file_tag l m p w _ (fun f t x new => parts x (make f t) = Some new)); [done..| | |].
  - intros f t pf pt rest m1 _ Hs H1. apply Hk; [|done]. intros z Hz. do 2 (apply elem_of_cons; right). by apply Hs.
  - intros -> m' H'. by split.
  - intros f t x new m' -> Hx H'. by exists x, new.
Qed.

(** The two names, which the caller gets in the order of their copies. *)
Lemma names_swapped f file t tag (rest : list (ptr * block)) m1 :
  owns h ((t, Chars tag) :: (f, Chars file) :: rest) m1 -> owns h ([(f, Chars file); (t, Chars tag)] ++ rest) m1.
Proof. apply owns_perm. cbn. solve_Permutation. Qed.

Lemma wp_number rest p w m1 (Q : Z -> memory -> Prop) l :
  word_at l p w -> l ⊆ rest -> owns h rest m1 -> Q (atoi w) m1 -> wp (number p) Q m1.
Proof. intros Hp Hs H1 HQ. apply wp_bind, (wp_chars m1 p w); [by eapply word_at_lookup|]. by apply wp_ret. Qed.

Lemma wp_decode_words l m op ps ws :
  owns h l m -> Forall2 (word_at l) ps ws -> wp (decode_words op ps) (decoded l (args_of op ws)) m.
Proof.
  intros Ho Hw.
  assert (Hsimple : forall make make', (forall f t file tag, parts (make f t) (make' file tag) = Some [(f, Chars file); (t, Chars tag)]) ->
    wp (match ps with ft :: _ => with_file_tag ft (fun f t => mret (make f t)) | _ => mret None end) (decoded l (decode_simple make' ws)) m).
  { intros make make' Hp. destruct Hw as [|p w ps ws Hpw Hw]; [by split|].
    apply (wp_named l m p w (fun f t => mret (make f t)) make'); [done..|]. intros f t pf pt rest m1 _ H1. apply wp_ret.
    eexists. split; [by apply names_swapped|apply Hp]. }
  destruct op; try (apply Hsimple; reflexivity); clear Hsimple.
  1-4: destruct Hw as [|p1 w1 ps ws Hw1 [|p2 w2 ps' ws' Hw2 Hw]]; try by split.
  1: apply (wp_named l m p1 w1 _ (fun f t => I_truncate f t (u64 (atoi w2)))); [done..|]; intros f t pf pt rest m1 Hs H1.
  2-3: destruct Hw as [|p3 w3 ps'' ws'' Hw3 _]; [by split|].
  2: apply (wp_named l m p1 w1 _ (fun f t => I_write f t (u32 (atoi w2)) w3)); [done..|]; intros f t pf pt rest m1 Hs H1.
  3: apply (wp_named l m p1 w1 _ (fun f t => I_read f t (u32 (atoi w2)) (u64 (atoi w3)))); [done..|]; intros f t pf pt rest m1 Hs H1.
  1-3: apply wp_bind; eapply wp_number; [exact Hw2|exact Hs|exact H1|].
  - apply wp_ret. eexists. split; [by apply names_swapped|]. cbn. by rewrite Z.eqb_refl.
  - apply wp_bind. eapply wp_duplicate; [exact H1|by eapply word_at_lookup|]. intros pd m2 H2. apply wp_ret.
    exists [(pf, Chars f); (pt, Chars t); (pd, Chars w3)]. split; [|cbn; by rewrite Z.eqb_refl].
    eapply owns_perm; [|exact H2]. cbn. solve_Permutation.
  - apply wp_bind. eapply wp_number; [exact Hw3|exact Hs|exact H1|]. apply wp_ret. eexists. split; [by apply names_swapped|].
    cbn. by rewrite !Z.eqb_refl.
  - by apply wp_decode_tag.
  - cbn [decode_words args_of]. apply wp_ret. by exists C_end, [].
  - by split.
Qed.

(** The decoder takes nothing that is not in the instruction. *)
Lemma wp_decode_instruction l m raw s :
  owns h l m -> word_at l raw s ->
  wp (decode_instruction_c raw)
     (fun r m' => fst r = fst (decode_instruction s) /\ decoded l (snd (decode_instruction s)) (snd r) m') m.
Proof.
  intros Ho Hw. unfold decode_instruction_c. rewrite decode_instruction_args. apply wp_bind. eapply wp_string_split; [done..|].
  intros a ps m1 Hl H1. apply wp_bind, (wp_pointers m1 a ps); [by eapply array_lookup|].
  set (A := array_at a ps (string_split s " ")) in *.
  assert (Hws : Forall2 (word_at (A ++ l)) ps (string_split s " ")).
  { apply Forall2_same_length_lookup_2; [done|]. intros j p w Hp Hwj. left. apply elem_of_app. left. right. by eapply words_at_elem. }
  assert (Hend : forall r l' m' (Q : Z * option instruction_c -> memory -> Prop), owns h (l' ++ A ++ l) m' ->
    (forall m'', owns h (l' ++ l) m'' -> Q r m'') -> wp (string_array_destroy a;; mret r) Q m').
  { intros r l' m' Q H' HQ. apply wp_bind. eapply (wp_destroy h _ (l' ++ l)); [exact Hl| |exact H'|auto]. fold A. solve_Permutation. }
  clearbody A. destruct Hws as [|op w args ws Hop Hargs].
  - apply (Hend _ []); [done|]. intros m2 H2. by split.
  - apply wp_bind, (wp_chars m1 op w); [by eapply word_at_lookup|]. apply wp_bind.
    eapply wp_mono; [by apply wp_decode_words|]. intros r m2. destruct (args_of (get_operation_type w) ws) as [i|].
    + intros (c & new & -> & Hp & H2). apply (Hend _ new); [done|]. intros m3 H3. split; [done|]. by exists c, new.
    + intros [-> H2]. apply (Hend _ []); [done|]. intros m3 H3. by split.
Qed.

End Decoded.

(** ** The property *)

Section Property.
Context `{CS : CommonsString}.

(** C18: The memory of an instruction.  Whatever the line that was fetched and whatever
    the execution answers, a line that cannot be decoded and memory that cannot be
    had included: nothing is read or freed that is not allocated, nothing is freed
    twice, nothing is left allocated; and what is executed is the instruction that
    the line is. *)
Theorem instruction_memory h fetched no_path no_instruction execute :
  single_instruction fetched no_path no_instruction execute h =
    Some (match fetched with
          | Some line => if no_path || no_instruction then None else execute <$> snd (decode_instruction line)
          | None => None
          end, h).
Proof.
  enough (H : wp (single_instruction fetched no_path no_instruction execute) (fun r m => m = h /\ r =
    match fetched with
    | Some line => if no_path || no_instruction then None else execute <$> snd (decode_instruction line)
    | None => None
    end) h).
  { apply wp_run in H as (r & m & -> & -> & ->). done. }
  unfold single_instruction. destruct no_path; [by destruct fetched|].
  assert (H0 : owns h [] h) by by apply owns_nothing. cbn [orb].
  apply wp_bind. eapply wp_malloc; [exact H0|]. intros path m1 H1. destruct fetched as [line|].
  2:{ apply wp_bind. eapply wp_free; [exact H1|]. intros m2 H2%owns_nothing. by apply wp_ret. }
  apply wp_bind. eapply wp_malloc; [exact H1|]. intros raw m2 H2. apply wp_bind.
  eapply (wp_free_in h _ [(raw, Chars line)]); [|exact H2|]; [solve_Permutation|]. intros m3 H3. destruct no_instruction.
  { apply wp_bind. eapply wp_free; [exact H3|]. intros m4 H4%owns_nothing. by apply wp_ret. }
  apply wp_bind. eapply wp_malloc; [exact H3|]. intros ins m4 H4. apply wp_bind.
  eapply wp_mono; [eapply (wp_decode_instruction h _ m4 raw line); [exact H4|left; in_list]|].
  intros [rc c] m5 [_ H5]. cbn [snd] in *. destruct (snd (decode_instruction line)) as [i|]; cbn [decoded] in H5.
  - destruct H5 as (c' & new & -> & Hp & H5). apply wp_bind. eapply run_read_instruction; [exact Hp|exact H5|].
    apply wp_bind. eapply run_free_instruction; [exact Hp|exact H5|]. intros m6 H6.
    apply wp_bind. eapply wp_free; [exact H6|]. intros m7 H7. apply wp_bind. eapply wp_free; [exact H7|].
    intros m8 H8%owns_nothing. by apply wp_ret.
  - destruct H5 as [-> H5]. apply wp_bind. eapply (wp_free_in h _ [(ins, Room)]); [|exact H5|]; [solve_Permutation|]. intros m6 H6.
    apply wp_bind. eapply wp_free; [exact H6|]. intros m7 H7%owns_nothing. by apply wp_ret.
Qed.

End Property.

Example write_in_memory :
  single_instruction (Some "WRITE f:t 4 abcd") false false (fun i => if i is I_write _ _ base _ then base else -1) ∅ = Some (Some 4, ∅) /\
  single_instruction (Some "WRITE f 4 abcd") false false (fun _ => 0) ∅ = Some (None, ∅).
Proof. split; vm_compute; reflexivity. Qed.
