(* ===== verification/WorkerProps.v ===== *)
(** * Properties of the worker's memory and interpreter *)

From Stdlib Require Import Ascii.
From S2P Require Import Prelude Commons Serialization PageTable MemoryManager MemoryInvariant MemorySpec ClockSpec.
From S2P Require Import PagingSpec FlushSpec AccessSpec FilesSpec Interpreter InterpreterSpec BlockDisk.

Section Props.
Context {BS : BlockStorage} {WC : WorkerCalls BS} {ps : Z} {BSS : BlockStorageSpec BS ps} {WCS : WorkerCallsSpec WC BSS}.
Implicit Types (mm : memory_manager_t).

Abbreviation wf := (@mm_wf BS ps BSS).
Abbreviation content := (@content BS ps BSS).

(** The instructions one after the other until one fails, and the codes they return. *)
Fixpoint run_all (code : list instruction_t) (ss sm q w : Z) : MM (list Z) :=
  match code with
  | [] => mret []
  | i :: code =>
      r ← execute_instruction i ss sm q w;
      if r <? 0 then mret [r] else rs ← run_all code ss sm q w; mret (r :: rs)
  end.

(** An instruction that leaves [n] bytes of [f:t] from [base] on as they are. *)
Definition leaves (f t : string) (base n : Z) (i : instruction_t) : Prop :=
  named (BSS := BSS) i /\
  match i with
  | I_write f' t' b data =>
      0 <= b /\ b + strlen data < 2 ^ 32 /\
      ~ (f' = f /\ t' = t /\ b < base + n /\ base < b + strlen data)
  | I_read _ _ b size => 0 <= b /\ 0 <= size /\ b + size < 2 ^ 32
  | I_commit _ _ | I_flush _ _ | I_end => True
  | _ => False
  end.

Definition range_is mm f t base (bs : list byte) : Prop :=
  forall i, 0 <= i < Z.of_nat (length bs) -> content mm f t (base + i) = bs !! Z.to_nat i.

Lemma leaves_step f t base bs i ss sm q w mm :
  wf mm -> conn_ok (MkConn ss sm q) -> searchable mm -> 0 <= base -> leaves f t base (Z.of_nat (length bs)) i -> range_is mm f t base bs ->
  wp (execute_instruction i ss sm q w) (fun r mm' =>
    wf mm' /\ searchable mm' /\ range_is mm' f t base bs /\ (r = 0 \/ r = -1)) mm.
Proof.
  intros Hwf Hconn Hse Hb [Hn Hl] Hr.
  assert (Hx : wp (execute_instruction i ss sm q w) (fun r mm' => executed i (MkConn ss sm q) w mm mm' r) mm).
  { destruct i; try done.
    - apply write_executed; [done|done|]. split; [done|]. split; apply Hl.
    - by apply read_run.
    - by apply commit_executed.
    - by apply flush_executed.
    - by apply end_executed. }
  eapply wp_mono; [exact Hx|]. intros r mm' [Hc Hwf' _ Hp _ Hnl He]. split; [done|].
  assert (Hd : drops i = false) by (by destruct i).
  split; [intros Hpol; apply Hnl; [done|]; apply Hse; congruence|]. split; [|done].
  intros k Hk. rewrite <- (Hr k Hk). destruct i; try done; cbn [effect] in He.
  - destruct He as (n & Hu & _). rewrite Hu by lia. rewrite decide_False; [done|].
    intros (-> & -> & Hrange). destruct Hl as (_ & _ & Hno). apply Hno. split; [done|]. split; [done|].
    rewrite length_take, string_bytes_length in Hrange. unfold strlen. lia.
  - destruct He as [Hs _]. apply Hs. lia.
  - destruct He as [Hs _]. apply Hs. lia.
  - destruct He as [Hs _]. apply Hs. lia.
  - apply He. lia.
Qed.

Lemma run_all_leaves {A} f t base bs code ss sm q w (K : list Z -> MM A) (R : A -> memory_manager_t -> Prop) mm :
  wf mm -> conn_ok (MkConn ss sm q) -> searchable mm -> 0 <= base -> Forall (leaves f t base (Z.of_nat (length bs))) code -> range_is mm f t base bs ->
  (forall rs mm', wf mm' -> searchable mm' -> range_is mm' f t base bs -> wp (K rs) R mm') ->
  wp (rs ← run_all code ss sm q w; K rs) R mm.
Proof.
  intros Hwf Hconn Hse Hb Hl Hr HK. apply wp_bind.
  enough (Hall : wp (run_all code ss sm q w) (fun rs mm' => wf mm' /\ searchable mm' /\ range_is mm' f t base bs) mm).
  { eapply wp_mono; [exact Hall|]. intros rs mm' (H1 & H2 & H3). by apply HK. }
  clear HK. revert mm Hwf Hse Hr. induction Hl as [|i code Hi Hl IH]; intros mm Hwf Hse Hr; cbn [run_all].
  { by apply wp_ret. }
  apply wp_bind. eapply wp_mono; [by eapply leaves_step|]. intros r mm1 (Hwf1 & Hse1 & Hr1 & _).
  destruct (r <? 0); [by apply wp_ret|]. apply wp_bind. eapply wp_mono; [by apply IH|].
  intros rs mm2 H2. by apply wp_ret.
Qed.

(** ** Files *)

(** A WRITE that succeeds makes the range [data]. *)
Lemma write_range f t base data ss sm q w mm :
  wf mm -> searchable mm -> name_ok f -> name_ok t -> 0 <= base -> base + strlen data < 2 ^ 32 ->
  wp (execute_instruction (I_write f t base data) ss sm q w) (fun r mm' =>
    wf mm' /\ searchable mm' /\ (r = 0 -> range_is mm' f t base (string_bytes data))) mm.
Proof.
  intros Hwf Hse Hf Ht Hb Hend. eapply wp_mono; [apply write_executed; [done|done|split; [by repeat constructor|done]]|].
  intros r mm1 [Hc1 Hwf1 _ Hp1 _ Hnl1 (k & Hu & Hk)]. split; [done|]. split; [intros Hpol; apply Hnl1; [done|]; apply Hse; congruence|].
  intros ->. destruct Hk as [[_ ->]|[? _]]; [|done]. intros i Hi. rewrite Hu by lia.
  rewrite <- string_bytes_length, firstn_all, decide_True by (split; [done|split; [done|lia]]). f_equal. lia.
Qed.

(** A READ of a range that is [data] sends it. *)
Lemma read_range f t base data ss sm q w mm :
  wf mm -> conn_ok (MkConn ss sm q) -> searchable mm -> name_ok f -> name_ok t -> 0 <= base -> base + strlen data < 2 ^ 32 ->
  wp (execute_instruction (I_read f t base (strlen data)) ss sm q w) (fun r mm' => wf mm' /\
    (r = 0 -> range_is mm f t base (string_bytes data) ->
     exists s, send_read_content_to_master (MkConn ss sm q) (string_bytes data) f t w s = Some (0, the_store mm'))) mm.
Proof.
  intros Hwf Hconn Hse Hf Ht Hb Hend.
  assert (Hlen : Z.of_nat (length (string_bytes data)) = strlen data) by (unfold strlen; by rewrite string_bytes_length).
  eapply wp_mono; [apply read_run; [done|done|done|split; [by repeat constructor|unfold strlen in *; lia]]|].
  intros r mm' [_ Hwf' _ _ _ _ [_ Hd]]. split; [done|]. intros -> Hr.
  destruct (Hd eq_refl) as (bs & s & Hs & Hbs & Hbytes). exists s. rewrite <- Hs. f_equal.
  apply list_eq. intros i. destruct (decide (i < length (string_bytes data))%nat) as [Hi|Hi].
  - specialize (Hbytes (Z.of_nat i)). rewrite Nat2Z.id in Hbytes. rewrite Hbytes by lia. rewrite Hr by lia. by rewrite Nat2Z.id.
  - rewrite !lookup_ge_None_2 by lia. done.
Qed.

Lemma leaves_nothing f t base n i : 0 <= n -> leaves f t base n i -> leaves f t base (Z.of_nat (length (@nil byte))) i.
Proof. intros Hn0 [Hn Hl]. split; [exact Hn|]. destruct i; try done. unfold strlen in *. cbn [length]. intuition lia. Qed.

(** A WRITE, then instructions that leave its range alone. *)
Lemma write_and_run {A} f t base data code ss sm q w (K : Z -> MM A) (R : A -> memory_manager_t -> Prop) mm :
  wf mm -> conn_ok (MkConn ss sm q) -> searchable mm -> name_ok f -> name_ok t -> 0 <= base -> base + strlen data < 2 ^ 32 ->
  Forall (leaves f t base (strlen data)) code ->
  (forall r mm', wf mm' -> searchable mm' -> (r = 0 -> range_is mm' f t base (string_bytes data)) -> wp (K r) R mm') ->
  wp (r ← execute_instruction (I_write f t base data) ss sm q w; _ ← run_all code ss sm q w; K r) R mm.
Proof.
  intros Hwf Hconn Hse Hf Ht Hb Hend Hl HK.
  assert (Hlen : Z.of_nat (length (string_bytes data)) = strlen data) by (unfold strlen; by rewrite string_bytes_length).
  apply wp_bind. eapply wp_mono; [by apply write_range|]. intros r mm1 (Hwf1 & Hse1 & Hr).
  destruct (decide (r = 0)) as [->|Hne].
  - eapply (run_all_leaves f t base (string_bytes data)); [done|done|done|done|by rewrite Hlen|by apply Hr|].
    intros rs mm2 Hwf2 Hse2 Hr2. by apply HK.
  - eapply (run_all_leaves f t base []); [done|done|done|done| |by intros i Hi; cbn in Hi; lia|].
    { eapply Forall_impl; [exact Hl|]. intros i. apply leaves_nothing. unfold strlen. lia. }
    intros rs mm2 Hwf2 Hse2 _. by apply HK.
Qed.

(** C5: A query reads what it wrote.  After a WRITE of [data] that succeeds, any
    sequence of READ, FLUSH, COMMIT, END and of WRITE outside the range, on any
    files and with any evictions on the way, and a READ of the range that succeeds,
    the message for the Master carries exactly [data]; the sequence runs to its end
    with no access out of bounds whichever instructions fail. *)
Theorem read_your_writes f t base data code ss sm q w mm :
  wf mm -> conn_ok (MkConn ss sm q) -> searchable mm -> name_ok f -> name_ok t -> 0 <= base -> base + strlen data < 2 ^ 32 ->
  Forall (leaves f t base (strlen data)) code ->
  wp (r1 ← execute_instruction (I_write f t base data) ss sm q w;
      _ ← run_all code ss sm q w;
      r2 ← execute_instruction (I_read f t base (strlen data)) ss sm q w;
      mret (r1, r2)) (fun r mm' => wf mm' /\
        (r = (0, 0) -> exists s, send_read_content_to_master (MkConn ss sm q) (string_bytes data) f t w s =
                                   Some (0, the_store mm'))) mm.
Proof.
  intros Hwf Hconn Hse Hf Ht Hb Hend Hl. eapply write_and_run; [done..|]. intros r1 mm2 Hwf2 Hse2 Hr.
  apply wp_bind. eapply wp_mono; [by apply read_range|]. intros r2 mm3 [Hwf3 Hs]. apply wp_ret. split; [done|].
  intros [= -> ->]. by apply Hs, Hr.
Qed.

(** A WRITE and, later, a FLUSH of its file: the Storage has the range. *)
Lemma write_flushed f t base data code ss sm q w mm :
  wf mm -> conn_ok (MkConn ss sm q) -> searchable mm -> name_ok f -> name_ok t -> 0 <= base -> base + strlen data < 2 ^ 32 ->
  Forall (leaves f t base (strlen data)) code ->
  wp (r1 ← execute_instruction (I_write f t base data) ss sm q w;
      _ ← run_all code ss sm q w;
      r2 ← execute_instruction (I_flush f t) ss sm q w;
      mret (r1, r2)) (fun r mm' => wf mm' /\
        (r = (0, 0) -> forall i, 0 <= i < strlen data ->
           block_byte (ps := ps) (the_store mm') f t (base + i) = string_bytes data !! Z.to_nat i)) mm.
Proof.
  intros Hwf Hconn Hse Hf Ht Hb Hend Hl. eapply write_and_run; [done..|]. intros r1 mm2 Hwf2 Hse2 Hr.
  apply wp_bind. eapply wp_mono; [by apply flush_executed|]. intros r2 mm3 [_ Hwf3 _ _ _ _ [Hsame Hst]]. apply wp_ret. split; [done|].
  intros [= -> ->] i Hi. rewrite <- (Hst eq_refl) by lia. rewrite Hsame by lia. apply (Hr eq_refl).
  rewrite string_bytes_length. unfold strlen in Hi. lia.
Qed.

(** The contents of a file without a table are those of the Storage. *)
Lemma stored_range mm f t base bs :
  mm_find_page_table mm f t = None ->
  (forall i, 0 <= i < Z.of_nat (length bs) -> block_byte (ps := ps) (the_store mm) f t (base + i) = bs !! Z.to_nat i) ->
  range_is mm f t base bs.
Proof.
  unfold mm_find_page_table, range_is, FilesSpec.content. intros Hno H i Hi. destruct (List.find _ _); [done|]. by apply H.
Qed.



(** A page fault brings the page in and changes no contents, whether it
    takes a free frame or evicts a page; a fault that fails gives its frame back
    and, under the modified clock, has a cause: no connection, no frames, or a
    Storage that refuses. *)
Theorem page_fault_sound e j mm :
  wf mm -> searchable mm -> e ∈ entries mm -> Z.of_nat j + 1 < 2 ^ 32 ->
  mapping mm (page_table e) j = None ->
  wp (mm_handle_page_fault (page_table e) (file e) (tag e) (Z.of_nat j)) (fun r mm' =>
    wf mm' /\ same_content mm mm' /\ entries mm' = entries mm /\ (no_leak mm -> no_leak mm') /\
    ((r = 0 /\ exists f, mapping mm' (page_table e) j = Some (f, false)) \/ (r = -1 /\ ~ healthy mm))) mm.
Proof.
  intros Hwf Hse He Hj Hno. eapply wp_mono; [by apply mm_handle_page_fault_run|].
  intros r mm' (Hk & Hnl & Hr). split; [apply Hk|]. split; [by apply content_keeps|].
  split; [apply Hk|]. by split.
Qed.

(** Under LRU a full memory gives the frame of the page whose last access is
    the oldest, written back first when it is dirty; the other pages stay where
    they are. *)
Theorem lru_evicts_oldest mm :
  wf mm -> policy mm = LRU -> (forall i b, frames mm !! i = Some b -> b = true) -> young_page mm -> writes_succeed (conn_of mm) ->
  wp mm_allocate_frame (fun r mm' => oldest_page mm r /\ allocated (ps := ps) mm mm' r /\
    forall p j, mapping mm' p j = mapping mm p j \/ exists d, mapping mm p j = Some (r, d)) mm.
Proof.
  intros Hwf Hpol Hfull Hyoung Hw. unfold mm_allocate_frame. apply wp_bind, wp_get.
  pose proof (find_index_spec negb (frames mm)) as Hfi. destruct (find_index negb (frames mm)) as [i|].
  { destruct Hfi as (b & Hi & Hb). apply Hfull in Hi. by subst b. }
  rewrite Hpol. apply wp_bind. eapply wp_mono; [by apply mm_find_lru_victim_run|].
  intros r mm' [(-> & _ & Hno)|[Hev Hold]]; [by destruct (Hno Hw)|].
  pose proof (e_range _ _ _ Hev). destruct (Z.eqb_spec r (-1)); [lia|].
  apply wp_bind, wp_set_used; [by rewrite (k_frames _ _ (e_keeps _ _ _ Hev))|]. apply wp_ret.
  split; [done|]. split; [by apply evicts_allocated|]. apply Hev.
Qed.

(** C37: The modified clock.  When some frame holds a page its loop ends within
    two rounds, more rounds change nothing, and it takes a page of the best class
    there is (not in use before in use, clean before dirty), or fails because the
    Storage refused a page.  When no frame holds a page the loop never ends. *)
Theorem clock_search mm :
  wf mm -> policy mm = CLOCK_M -> 0 < frame_count mm ->
  ((exists f e j pg, in_frame mm f e j pg) ->
     exists r mm', (forall n, clock_rounds (2 + n) mm = Some (Some r, mm')) /\
       mm_find_clockm_victim mm = Some (r, mm') /\
       ((r = -1 /\ stays (ps := ps) mm mm' /\ ~ writes_succeed (conn_of mm)) \/
        (evicts (ps := ps) mm mm' r /\ best_victim mm r))) /\
  ((forall f e j pg, ~ in_frame mm f e j pg) -> forall n, exists mm', clock_rounds n mm = Some (None, mm')).
Proof.
  intros Hwf Hpol Hn. split.
  - intros Hex. destruct (wp_run _ _ _ (clock_rounds_run mm Hwf Hex)) as (o & mm' & E & Hr).
    assert (Hsome : exists r, o = Some r /\ ((r = -1 /\ stays (ps := ps) mm mm' /\ ~ writes_succeed (conn_of mm)) \/
      (evicts (ps := ps) mm mm' r /\ best_victim mm r))).
    { destruct Hr as [(-> & H)|(f & -> & H)]; eauto 10. }
    destruct Hsome as (r & -> & H). exists r, mm'. split; [intros n; by apply clock_rounds_more|]. split; [|done].
    unfold mm_find_clockm_victim, mbind, st_bind, st_get. rewrite Hpol.
    destruct (Z.eqb_spec (frame_count mm) 0); [lia|]. by rewrite E.
  - intros Hno n. destruct (wp_run _ _ _ (clock_rounds_never n mm Hwf Hn Hno)) as (o & mm' & E & ->). eauto.
Qed.

(** Removing the table of a file (DELETE) frees none of its frames.  If the
    memory is full of that file's pages, under the modified clock the search for
    a frame never ends afterwards: no number of rounds finds a victim. *)
Theorem delete_starves_clock e mm :
  wf mm -> e ∈ entries mm -> (forall j, last_victim mm <> Some (page_table e, j)) ->
  policy mm = CLOCK_M -> 0 < frame_count mm ->
  (forall i b, frames mm !! i = Some b -> b = true) ->
  (forall p j v, mapping mm p j = Some v -> p = page_table e) ->
  wp (mm_remove_page_table (file e) (tag e)) (fun _ mm' =>
    frames mm' = frames mm /\ mm_allocate_frame mm' = None /\
    forall n, exists mm'', clock_rounds n mm' = Some (None, mm'')) mm.
Proof.
  intros Hwf He Hvic Hpol Hn Hfull Hown. eapply wp_mono; [by apply mm_remove_page_table_run|].
  intros [] mm' [Hd Hes]. split; [apply Hd|].
  assert (Hn' : 0 < frame_count mm') by (unfold frame_count; by rewrite (d_frames _ _ _ _ _ Hd)).
  assert (Hnever : forall n, exists mm'', clock_rounds n mm' = Some (None, mm'')).
  { assert (Hno : forall f e' j pg, ~ in_frame mm' f e' j pg).
    { intros f e' j pg Hin. pose proof (in_frame_mapping _ _ _ _ _ Hin) as Hm. destruct Hin as (He' & _).
      apply Hes in He' as [He' Hne]. apply Hne. destruct Hwf as [Hs _].
      apply (entry_ptr (entries mm)); [apply Hs|done|done|]. eapply Hown. by eapply (d_mapping _ _ _ _ _ Hd). }
    intros n. destruct (wp_run _ _ _ (clock_rounds_never n mm' (d_wf _ _ _ _ _ Hd) Hn' Hno)) as (o & mm'' & E & ->). eauto. }
  split; [|done]. unfold mm_allocate_frame, mbind, st_bind, st_get.
  pose proof (find_index_spec negb (frames mm')) as Hfi. destruct (find_index negb (frames mm')) as [i|].
  { destruct Hfi as (b & Hi & Hb). rewrite (d_frames _ _ _ _ _ Hd) in Hi. apply Hfull in Hi. by subst b. }
  assert (Hp' : policy mm' = CLOCK_M) by (by rewrite (d_policy _ _ _ _ _ Hd)). rewrite Hp'.
  unfold mm_find_clockm_victim, mbind, st_bind, st_get. rewrite Hp'.
  destruct (Z.eqb_spec (frame_count mm') 0); [lia|]. destruct (Hnever 2%nat) as [mm'' E]. by rewrite E.
Qed.

(** Under the modified clock, with a worker that is connected, has frames and
    has lost none, and a Storage that answers, every read and every write within
    the 32-bit addresses succeeds: the read returns the bytes of the file, the
    write leaves [data] in its range and nothing else changed. *)
Theorem healthy_access_succeeds e base size data mm :
  wf mm -> no_leak mm -> healthy mm -> e ∈ entries mm -> 0 <= base ->
  0 < size -> base + size < 2 ^ 32 -> data <> [] -> base + Z.of_nat (length data) < 2 ^ 32 ->
  wp (mm_read_from_memory (page_table e) (file e) (tag e) base size) (fun r mm' =>
    fst r = 0 /\ Z.of_nat (length (snd r)) = size /\ same_content mm mm' /\
    forall i, 0 <= i < size -> snd r !! Z.to_nat i = content mm (file e) (tag e) (base + i)) mm /\
  wp (mm_write_to_memory (page_table e) (file e) (tag e) base data) (fun r mm' =>
    r = 0 /\ updated (ps := ps) mm mm' (file e) (tag e) base data) mm.
Proof.
  intros Hwf Hnl Hh He Hb Hsz Hend Hne Hend'. assert (Hse : searchable mm) by (intros ?; exact Hnl). split.
  - eapply wp_mono; [by apply mm_read_run|]. intros r mm' (_ & Hs & [(H0 & Hl & Hbytes)|(_ & Hno)]); [done|].
    by destruct Hno.
  - eapply wp_mono; [by apply mm_write_run|]. intros r mm' (_ & k & Hu & [(-> & ->)|(_ & _ & Hno)]); [|by destruct Hno].
    split; [done|]. by rewrite firstn_all in Hu.
Qed.

End Props.

(** ** Runs on the reference Storage *)

Definition reads_all : string -> string -> Z -> bool := fun _ _ _ => false.
Definition g_unreadable : string -> string -> Z -> bool := fun f _ _ => String.eqb f "g".

(** A query on a worker with [n] frames of four bytes, sockets 7 and 8, query 3. *)
Abbreviation run bad code := (run_all (BS := disk_storage bad) (WC := disk_calls bad) code 7 8 3 1).
Definition master_got {bad} (mm : @memory_manager_t (disk_storage bad)) : list (string * string * list byte) :=
  to_the_master (the_store mm).
Abbreviation exec bad i := (execute_instruction (BS := disk_storage bad) (WC := disk_calls bad) i 7 8 3 1).

(** A fault that evicts a page and then fails to read the block leaves the
    name of the victim behind; if the file of the victim is deleted next, the
    following page fault, of any query, reads the freed name.  With one frame:
    the READ of [f], the READ of [g] that the Storage refuses and the DELETE of
    [f] are defined, and the READ of [h] is not. *)
Theorem freed_victim_is_read :
  (r1 ← run g_unreadable [I_read "f" "t" 0 4];
   r2 ← run g_unreadable [I_read "g" "t" 0 4];
   r3 ← run g_unreadable [I_delete "f" "t"];
   mret (r1, r2, r3)) (worker_on g_unreadable 1 LRU)
    ≫= (fun r => Some (fst r)) = Some ([0], [-1], [0]) /\
  (_ ← run g_unreadable [I_read "f" "t" 0 4];
   _ ← run g_unreadable [I_read "g" "t" 0 4];
   _ ← run g_unreadable [I_delete "f" "t"];
   run g_unreadable [I_read "h" "t" 0 4]) (worker_on g_unreadable 1 LRU) = None.
Proof. split; vm_compute; reflexivity. Qed.

(** TRUNCATE to 0 leaves the pages of the file in memory: the Storage drops
    every block, the resize of the table to 0 pages is refused and its code
    ignored, and a READ still delivers the old bytes; after TRUNCATE to one page
    a READ of the second one delivers what the Storage has. *)
Theorem truncate_to_zero_keeps_pages :
  (run reads_all [I_write "f" "t" 0 "abcd"; I_truncate "f" "t" 0; I_read "f" "t" 0 4]) (worker_on reads_all 2 LRU)
    ≫= (fun r => Some (fst r, master_got (snd r))) =
    Some ([0; 0; 0], [("f", "t", string_bytes "abcd")]) /\
  (run reads_all [I_write "f" "t" 0 "abcdefgh"; I_truncate "f" "t" 4; I_read "f" "t" 4 4]) (worker_on reads_all 2 LRU)
    ≫= (fun r => Some (fst r, master_got (snd r))) =
    Some ([0; 0; 0], [("f", "t", replicate 4 x00)]).
Proof. split; vm_compute; reflexivity. Qed.

(** ** Witnesses *)

#[local] Existing Instance disk_calls.

Abbreviation ok_worker := (worker_on reads_all).
Abbreviation ok_spec := (disk_spec reads_all).

Lemma ok_wf n pol : (0 < n < 1000)%nat -> mm_wf (BSS := ok_spec) (ok_worker n pol).
Proof. intros H. by apply worker_on_sound. Qed.

Lemma ok_searchable n pol : (0 < n < 1000)%nat -> searchable (ok_worker n pol).
Proof. intros H _. by apply worker_on_sound. Qed.

(** States after a run: sound by the properties of the instructions. *)
Definition after {A} (m : ST (@memory_manager_t (disk_storage reads_all)) A) (n : nat) (pol : pt_replacement_t) :=
  match m (ok_worker n pol) with Some (_, mm) => mm | None => ok_worker n pol end.

Definition two_writes : list instruction_t := [I_write "f" "t" 8 "xyz"; I_read "g" "t" 0 4; I_flush "f" "t"].

Example read_your_writes_witness :
  wp (r1 ← exec reads_all (I_write "f" "t" 2 "abcd");
      _ ← run reads_all two_writes;
      r2 ← exec reads_all (I_read "f" "t" 2 4);
      mret (r1, r2)) (fun r mm' => mm_wf (BSS := ok_spec) mm' /\
        (r = (0, 0) -> exists s, send_read_content_to_master (MkConn 7 8 3) (string_bytes "abcd") "f" "t" 1 s =
                                   Some (0, the_store mm'))) (ok_worker 1 CLOCK_M) /\
  (r1 ← exec reads_all (I_write "f" "t" 2 "abcd");
   _ ← run reads_all two_writes;
   r2 ← exec reads_all (I_read "f" "t" 2 4);
   mret (r1, r2)) (ok_worker 1 CLOCK_M) ≫= (fun r => Some (fst r)) = Some (0, 0).
Proof.
  split; [|vm_compute; reflexivity].
  apply (read_your_writes (WCS := disk_calls_spec reads_all) "f" "t" 2 "abcd" two_writes 7 8 3 1);
    [apply ok_wf; lia|exact I|apply ok_searchable; lia|exact I|exact I|lia|reflexivity|].
  repeat apply List.Forall_cons; [..|apply List.Forall_nil]; (split; [apply disk_named|]); [| |exact I].
  - split; [lia|split; [reflexivity|]]. intros (_ & _ & H & _). vm_compute in H. discriminate.
  - split; [lia|split; [lia|reflexivity]].
Defined.


Lemma after_write_wf n pol :
  (0 < n < 1000)%nat ->
  mm_wf (BSS := ok_spec) (after (exec reads_all (I_write "f" "t" 2 "abcd")) n pol) /\
  searchable (after (exec reads_all (I_write "f" "t" 2 "abcd")) n pol).
Proof.
  intros Hn. unfold after.
  assert (H : wp (exec reads_all (I_write "f" "t" 2 "abcd"))
    (fun r mm' => executed (BSS := ok_spec) (I_write "f" "t" 2 "abcd") (MkConn 7 8 3) 1 (ok_worker n pol) mm' r) (ok_worker n pol)).
  { apply (write_executed); [apply ok_wf; lia|apply ok_searchable; lia|split; [apply disk_named|split; [lia|reflexivity]]]. }
  apply wp_run in H as (r & mm' & -> & [_ Hwf _ Hp _ Hl _]). split; [done|].
  intros Hpol. apply Hl; [done|]. by apply worker_on_sound.
Qed.

Abbreviation written n pol := (after (exec reads_all (I_write "f" "t" 2 "abcd")) n pol).


(** The tables after the write: two pages, both in memory when there are two frames. *)
Definition page (n f t : Z) (u : bool) : pt_entry_t := MkEntry n f true true t u.

Lemma written_lru :
  entries (written 2 LRU) = [MkFileTag "f" "t" 1] /\ frames (written 2 LRU) = [true; true] /\
  pts (written 2 LRU) = {[ 1%positive := MkPageTable [page 0 0 2 false; page 1 1 4 false] 2 4 ]}.
Proof. split; [|split]; vm_compute; reflexivity. Qed.

Lemma written_clock :
  entries (written 2 CLOCK_M) = [MkFileTag "f" "t" 1] /\ frames (written 2 CLOCK_M) = [true; true] /\
  pts (written 2 CLOCK_M) = {[ 1%positive := MkPageTable [page 0 0 0 true; page 1 1 0 true] 2 4 ]}.
Proof. split; [|split]; vm_compute; reflexivity. Qed.

Lemma ok_store_accepts c : reads_succeed (BS := disk_storage reads_all) c /\ writes_succeed (BS := disk_storage reads_all) c.
Proof. split; done. Qed.

Example page_fault_sound_witness :
  let mm := written 2 LRU in let e := MkFileTag "f" "t" 1 in
  wp (mm_handle_page_fault (page_table e) (file e) (tag e) (Z.of_nat 5)) (fun r mm' =>
    mm_wf (BSS := ok_spec) mm' /\ same_content (BSS := ok_spec) mm mm' /\ entries mm' = entries mm /\
    (no_leak mm -> no_leak mm') /\
    ((r = 0 /\ exists f, mapping mm' (page_table e) 5%nat = Some (f, false)) \/ (r = -1 /\ ~ healthy mm))) mm.
Proof.
  cbv zeta. destruct written_lru as (He & _ & Hp).
  apply (page_fault_sound (BSS := ok_spec) (MkFileTag "f" "t" 1) 5 (written 2 LRU)).
  - apply after_write_wf. lia.
  - apply after_write_wf. lia.
  - rewrite He. constructor.
  - lia.
  - unfold mapping. rewrite Hp. reflexivity.
Defined.

Example lru_evicts_oldest_witness :
  wp mm_allocate_frame (fun r mm' => oldest_page (written 2 LRU) r /\
    allocated (BSS := ok_spec) (written 2 LRU) mm' r /\
    forall p j, mapping mm' p j = mapping (written 2 LRU) p j \/ exists d, mapping (written 2 LRU) p j = Some (r, d))
    (written 2 LRU) /\
  mm_allocate_frame (written 2 LRU) ≫= (fun r => Some (fst r)) = Some 0.
Proof.
  split; [|vm_compute; reflexivity]. destruct written_lru as (He & Hf & Hp).
  apply (lru_evicts_oldest (BSS := ok_spec) (written 2 LRU)).
  - apply after_write_wf. lia.
  - vm_compute. reflexivity.
  - intros i b. rewrite Hf. destruct i as [|[|[|i]]]; cbn; congruence.
  - exists (MkFileTag "f" "t" 1), 0%nat. rewrite He, Hp. eexists _, _.
    split; [constructor|]. split; [apply lookup_singleton_eq|]. split; [reflexivity|]. split; reflexivity.
  - apply ok_store_accepts.
Defined.

Example clock_search_witness :
  let mm := written 2 CLOCK_M in
  (exists f e j pg, in_frame mm f e j pg) /\
  exists r mm', (forall n, clock_rounds (2 + n) mm = Some (Some r, mm')) /\
    mm_find_clockm_victim mm = Some (r, mm') /\
    ((r = -1 /\ stays (BSS := ok_spec) mm mm' /\ ~ writes_succeed (BS := disk_storage reads_all) (conn_of mm)) \/
     (evicts (BSS := ok_spec) mm mm' r /\ best_victim mm r)).
Proof.
  cbv zeta. destruct written_clock as (He & Hf & Hp).
  assert (Hex : exists f e j pg, in_frame (written 2 CLOCK_M) f e j pg).
  { exists 0, (MkFileTag "f" "t" 1), 0%nat, (page 0 0 0 true). unfold in_frame. rewrite He, Hp.
    split; [constructor|]. eexists. split; [apply lookup_singleton_eq|]. done. }
  split; [exact Hex|].
  destruct (clock_search (BSS := ok_spec) (written 2 CLOCK_M)) as [H _].
  - apply after_write_wf. lia.
  - vm_compute. reflexivity.
  - unfold frame_count. rewrite Hf. reflexivity.
  - exact (H Hex).
Defined.

Example delete_starves_clock_witness :
  wp (mm_remove_page_table "f" "t") (fun _ mm' =>
    frames mm' = frames (written 2 CLOCK_M) /\ mm_allocate_frame mm' = None /\
    forall n, exists mm'', clock_rounds n mm' = Some (None, mm'')) (written 2 CLOCK_M).
Proof.
  destruct written_clock as (He & Hf & Hp).
  apply (delete_starves_clock (BSS := ok_spec) (MkFileTag "f" "t" 1) (written 2 CLOCK_M)).
  - apply after_write_wf. lia.
  - rewrite He. constructor.
  - intros j. vm_compute. discriminate.
  - vm_compute. reflexivity.
  - unfold frame_count. rewrite Hf. reflexivity.
  - intros i b. rewrite Hf. destruct i as [|[|[|i]]]; cbn; congruence.
  - intros p j v. unfold mapping. rewrite Hp. destruct (decide (p = 1%positive)) as [->|Hne]; [done|].
    by rewrite lookup_singleton_ne by congruence.
Defined.

Example healthy_access_succeeds_witness :
  let mm := written 2 CLOCK_M in
  wp (mm_read_from_memory 1 "f" "t" 1 9) (fun r mm' =>
    fst r = 0 /\ Z.of_nat (length (snd r)) = 9 /\ same_content (BSS := ok_spec) mm mm' /\
    forall i, 0 <= i < 9 -> snd r !! Z.to_nat i = content (BSS := ok_spec) mm "f" "t" (1 + i)) mm.
Proof.
  cbv zeta. destruct written_clock as (He & Hf & Hp).
  refine (proj1 (healthy_access_succeeds (BSS := ok_spec) (MkFileTag "f" "t" 1) 1 9 [x00] (written 2 CLOCK_M) _ _ _ _ _ _ _ _ _)).
  - apply after_write_wf. lia.
  - apply after_write_wf; [lia|]. vm_compute. reflexivity.
  - split; [split; vm_compute; discriminate|unfold frame_count; rewrite Hf; reflexivity|vm_compute; reflexivity| |];
      apply ok_store_accepts.
  - rewrite He. constructor.
  - lia.
  - lia.
  - lia.
  - discriminate.
  - cbn. lia.
Defined.
