(* ===== verification/WorkerThreads.v ===== *)
(** * The two threads of the worker (worker/src/worker.h, query_executor.c, worker_listener.c)

    The executor runs the query it has been given, an instruction at a time; the
    listener receives what the Master sends: a query, a request to give the query
    up, the order to stop.  They share [worker_state_t] under one mutex.

    A thread is at a point of its code between two critical sections; a step takes
    it to the next point.  What a thread does with the memory manager between two
    points, an instruction or a flush, is one step: ThreadsSpec.v proves that the
    other thread is then at no point where it would use it too. *)

From S2P Require Import Prelude CStrings Serialization Protocol Commons PageTable MemoryManager Interpreter.

(** ** The socket of the Master *)

Class MasterLink (BS : BlockStorage) : Type := {
  master_send : t_package -> Z -> ST store Z;
  master_receive : Z -> ST store (option t_package)
}.

(** ** Data *)

Record query_context_t := MkContext {
  query_path : string;
  ctx_query_id : Z;
  ctx_program_counter : Z
}.

#[global] Instance query_context_eq_dec : EqDecision query_context_t.
Proof. solve_decision. Defined.

Definition at_pc (pc : Z) (q : query_context_t) : query_context_t :=
  MkContext (query_path q) (ctx_query_id q) pc.

(** The values of [query_result_t] that the code uses. *)
Inductive query_result_t :=
| QUERY_RESULT_OK | QUERY_RESULT_END | QUERY_RESULT_EJECT | QUERY_RESULT_ERROR.

#[global] Instance query_result_eq_dec : EqDecision query_result_t.
Proof. solve_decision. Defined.

Section State.
Context {BS : BlockStorage}.

(** The mutex is free between steps; [config_path_scripts] is the field of
    [config] that the threads read. *)
Record worker_state_t := MkWorkerState {
  has_query : bool;
  should_stop : bool;
  ejection_requested : bool;
  is_executing : bool;
  current_query : query_context_t;
  ws_master_socket : Z;
  ws_storage_socket : Z;
  config_path_scripts : string;
  memory_manager : memory_manager_t;
  ws_worker_id : Z
}.

Definition set_has_query b s := MkWorkerState b (should_stop s) (ejection_requested s) (is_executing s)
  (current_query s) (ws_master_socket s) (ws_storage_socket s) (config_path_scripts s) (memory_manager s) (ws_worker_id s).
Definition set_should_stop b s := MkWorkerState (has_query s) b (ejection_requested s) (is_executing s)
  (current_query s) (ws_master_socket s) (ws_storage_socket s) (config_path_scripts s) (memory_manager s) (ws_worker_id s).
Definition set_ejection_requested b s := MkWorkerState (has_query s) (should_stop s) b (is_executing s)
  (current_query s) (ws_master_socket s) (ws_storage_socket s) (config_path_scripts s) (memory_manager s) (ws_worker_id s).
Definition set_is_executing b s := MkWorkerState (has_query s) (should_stop s) (ejection_requested s) b
  (current_query s) (ws_master_socket s) (ws_storage_socket s) (config_path_scripts s) (memory_manager s) (ws_worker_id s).
Definition set_current_query q s := MkWorkerState (has_query s) (should_stop s) (ejection_requested s) (is_executing s)
  q (ws_master_socket s) (ws_storage_socket s) (config_path_scripts s) (memory_manager s) (ws_worker_id s).
Definition set_memory_manager mm s := MkWorkerState (has_query s) (should_stop s) (ejection_requested s) (is_executing s)
  (current_query s) (ws_master_socket s) (ws_storage_socket s) (config_path_scripts s) mm (ws_worker_id s).

End State.

(** Where the executor is: before the lock of [fetch_next_query]; in
    [pthread_cond_wait]; before the copy of the query; and in the rounds of
    [execute_single_instruction]: before the first look at [ejection_requested],
    at the fetch, before the second look (with [end_detected]), giving the query
    up at [next_pc], before [program_counter] moves on, and after the loop. *)
Inductive executor_point :=
| X_fetch
| X_wait
| X_start
| X_before (ctx : query_context_t)
| X_execute (ctx : query_context_t)
| X_after (ctx : query_context_t) (end_detected : bool)
| X_evict (ctx : query_context_t) (next_pc : Z)
| X_next (ctx : query_context_t)
| X_done (ctx : query_context_t) (result : query_result_t)
| X_exit.

(** Where the listener is: at [package_receive]; with a package; after
    [has_query = false], giving up a query that had not begun; or gone. *)
Inductive listener_point :=
| L_receive
| L_handle (pkg : t_package)
| L_flush (query_id pc : Z)
| L_exit.

(** What the threads do that can be seen from outside. *)
Inductive event :=
| Assigned (q : query_context_t)
| Started (q : query_context_t)
| Executed (q : query_context_t) (raw_instruction : string) (i : instruction_t) (exec_res : Z)
| Failed (q : query_context_t)
| Evicted (query_id pc : Z)
| Evicted_ready (query_id pc : Z)
| Finished (query_id : Z) (result : query_result_t).

Section Threads.
Context {BS : BlockStorage}.

(** [signaled]: [new_query_cond] has been signalled to a waiting executor.
    [events] are in order, the most recent first. *)
Record worker_t := MkWorker {
  state : worker_state_t;
  executor : executor_point;
  listener : listener_point;
  signaled : bool;
  events : list event
}.

Definition on_state (f : worker_state_t -> worker_state_t) (w : worker_t) : worker_t :=
  MkWorker (f (state w)) (executor w) (listener w) (signaled w) (events w).

Abbreviation W := (ST worker_t).

Definition upd (f : worker_state_t -> worker_state_t) : W unit := st_modify (on_state f).
Definition go (x : executor_point) : W unit :=
  st_modify (fun w => MkWorker (state w) x (listener w) (signaled w) (events w)).
Definition listen (l : listener_point) : W unit :=
  st_modify (fun w => MkWorker (state w) (executor w) l (signaled w) (events w)).
Definition emit (e : event) : W unit :=
  st_modify (fun w => MkWorker (state w) (executor w) (listener w) (signaled w) (e :: events w)).

(** [pthread_cond_signal]: nobody but the executor waits, and a signal is lost
    when it does not. *)
Definition cond_signal : W unit :=
  st_modify (fun w => MkWorker (state w) (executor w) (listener w)
    (match executor w with X_wait => true | _ => signaled w end) (events w)).
Definition cond_wait : W unit :=
  st_modify (fun w => MkWorker (state w) X_wait (listener w) false (events w)).

Definition in_memory {A} (m : MM A) : W A := fun w =>
  match m (memory_manager (state w)) with
  | Some (r, mm) => Some (r, on_state (set_memory_manager mm) w)
  | None => None
  end.
Definition in_store {A} (m : ST store A) : W A := in_memory (fun mm =>
  match m (the_store mm) with Some (r, s) => Some (r, on_store s mm) | None => None end).

Context {ML : MasterLink BS} {WC : WorkerCalls BS} {CS : CommonsString} {FS : FileSystem}.

(** ** Messages to the Master *)

(** Two numbers on an empty package; the codes of [package_add_uint32] are ignored. *)
Definition package_of_two (op a b : Z) : t_package :=
  snd (package_add_uint32 (snd (package_add_uint32 (package_create_empty op) (u32 a))) (u32 b)).

Definition send_evict_res (query_id pc : Z) : W unit :=
  s ← st_gets state;
  _ ← in_store (master_send (package_of_two (master_op OP_WORKER_EVICT_RES) query_id pc) (ws_master_socket s));
  mret tt.

Definition notify_master_query_error (query_id : Z) : W unit :=
  s ← st_gets state;
  if ws_master_socket s <? 0 then mret tt else
  _ ← in_store (master_send (package_of_two (master_op OP_WORKER_END_QUERY) (ws_worker_id s) query_id)
                  (ws_master_socket s));
  mret tt.

(** ** The executor (query_executor.c) *)

(** From the lock to the wait, or to the unlock. *)
Definition fetch_next_query : W unit :=
  s ← st_gets state;
  if negb (has_query s) && negb (should_stop s) then cond_wait
  else if should_stop s && negb (has_query s) then go X_exit
  else upd (set_is_executing true);; go X_start.

Definition start_query : W unit :=
  s ← st_gets state;
  upd (set_ejection_requested false);;
  emit (Started (current_query s));;
  go (X_before (current_query s)).

Definition look_before (ctx : query_context_t) : W unit :=
  s ← st_gets state;
  go (if ejection_requested s then X_evict ctx (ctx_program_counter ctx) else X_execute ctx).

Definition evict (ctx : query_context_t) (next_pc : Z) : W unit :=
  _ ← in_memory mm_flush_all_dirty;
  send_evict_res (ctx_query_id ctx) next_pc;;
  emit (Evicted (ctx_query_id ctx) next_pc);;
  go (X_done ctx QUERY_RESULT_EJECT).

(** [strcpy] and [strcat] on the 256 bytes of [path]. *)
Definition script_path (path_scripts query_path : string) : option string :=
  if strlen path_scripts + strlen query_path + 1 <=? 256 then Some (path_scripts +:+ query_path) else None.

(** Fetch, decode and execution, between the two looks at [ejection_requested]. *)
Definition execute_fetched (ctx : query_context_t) : W unit :=
  s ← st_gets state;
  match script_path (config_path_scripts s) (query_path ctx) with
  | None => st_ub
  | Some path =>
      let fail := (emit (Failed ctx);; go (X_done ctx QUERY_RESULT_ERROR)) in
      match fetch_instruction path (u32 (ctx_program_counter ctx)) with
      | (_, None) => fail
      | (_, Some raw_instruction) =>
          match decode_instruction raw_instruction with
          | (_, None) => fail
          | (_, Some i) =>
              exec_res ← in_memory (execute_instruction i (ws_storage_socket s) (ws_master_socket s)
                                      (ctx_query_id ctx) (ws_worker_id s));
              emit (Executed ctx raw_instruction i exec_res);;
              if exec_res <? 0 then go (X_done ctx QUERY_RESULT_ERROR)
              else if ctx_program_counter ctx =? 2 ^ 31 - 1 then st_ub
              else go (X_after ctx (match operation i with END => true | _ => false end))
          end
      end
  end.

Definition look_after (ctx : query_context_t) (end_detected : bool) : W unit :=
  s ← st_gets state;
  go (if ejection_requested s then X_evict ctx (ctx_program_counter ctx + 1)
      else if end_detected then X_done ctx QUERY_RESULT_END
      else X_next ctx).

Definition advance (ctx : query_context_t) : W unit :=
  let next_pc := ctx_program_counter ctx + 1 in
  upd (fun s => set_current_query (at_pc next_pc (current_query s)) s);;
  go (X_before (at_pc next_pc ctx)).

(** The critical section after the loop. *)
Definition finish_query (ctx : query_context_t) (result : query_result_t) : W unit :=
  (match result with
   | QUERY_RESULT_EJECT => upd (set_has_query false);; upd (set_is_executing false)
   | _ =>
       (match result with
        | QUERY_RESULT_ERROR =>
            _ ← in_memory mm_flush_all_dirty; notify_master_query_error (ctx_query_id ctx)
        | _ => mret tt
        end);;
       s ← st_gets state;
       st_when (has_query s && (ctx_query_id (current_query s) =? ctx_query_id ctx)) (upd (set_has_query false));;
       upd (set_is_executing false)
   end);;
  emit (Finished (ctx_query_id ctx) result);;
  go X_fetch.

Definition query_executor_thread : W unit :=
  x ← st_gets executor;
  match x with
  | X_fetch | X_wait => fetch_next_query
  | X_start => start_query
  | X_before ctx => look_before ctx
  | X_execute ctx => execute_fetched ctx
  | X_after ctx end_detected => look_after ctx end_detected
  | X_evict ctx next_pc => evict ctx next_pc
  | X_next ctx => advance ctx
  | X_done ctx result => finish_query ctx result
  | X_exit => mret tt
  end.

(** ** The listener (worker_listener.c) *)

(** The query in a package, when it can be read. *)
Definition read_query (pkg : t_package) : option query_context_t :=
  match package_read_uint32 pkg with
  | (None, _) => None
  | (Some query_id, pkg) =>
      match package_read_uint32 pkg with
      | (None, _) => None
      | (Some program_counter, pkg) =>
          match package_read_string pkg with
          | (None, _) => None
          | (Some path, _) => Some (MkContext path (i32 query_id) (i32 program_counter))
          end
      end
  end.

(** [strcpy] to the [PATH_MAX] bytes of [query_path]. *)
Definition assign_query (pkg : t_package) : W unit :=
  match read_query pkg with
  | None => mret tt
  | Some q =>
      if PATH_MAX <=? strlen (query_path q) then st_ub else
      upd (set_current_query q);;
      upd (set_has_query true);;
      upd (set_should_stop false);;
      upd (fun s => set_memory_manager (mm_set_query_id (ctx_query_id q) (memory_manager s)) s);;
      cond_signal;;
      emit (Assigned q)
  end.

(** The critical section; a query that has not begun is given up after it. *)
Definition eject_query (pkg : t_package) : W unit :=
  match package_read_uint32 pkg with
  | (None, _) => mret tt
  | (Some query_id, _) =>
      s ← st_gets state;
      if has_query s && (u32 (ctx_query_id (current_query s)) =? query_id) then
        if is_executing s then upd (set_ejection_requested true)
        else upd (set_has_query false);; listen (L_flush query_id (ctx_program_counter (current_query s)))
      else mret tt
  end.

Definition eject_ready (query_id pc : Z) : W unit :=
  _ ← in_memory mm_flush_all_dirty;
  send_evict_res query_id pc;;
  emit (Evicted_ready query_id pc);;
  listen L_receive.

Definition end_query : W unit :=
  upd (set_should_stop true);; upd (set_has_query false).

Definition dispatch_package (pkg : t_package) : W unit :=
  listen L_receive;;
  if operation_code pkg =? master_op OP_WORKER_START_QUERY then assign_query pkg
  else if operation_code pkg =? master_op OP_WORKER_PREEMPT_REQ then eject_query pkg
  else if operation_code pkg =? master_op OP_END_QUERY then end_query;; listen L_exit
  else mret tt.

Definition receive_package : W unit :=
  s ← st_gets state;
  pkg ← in_store (master_receive (ws_master_socket s));
  listen (match pkg with None => L_exit | Some pkg => L_handle pkg end).

Definition master_listener_thread : W unit :=
  l ← st_gets listener;
  match l with
  | L_receive => receive_package
  | L_handle pkg => dispatch_package pkg
  | L_flush query_id pc => eject_ready query_id pc
  | L_exit => mret tt
  end.

(** ** Runs *)

(** What the scheduler may do: let a thread take a step, or wake the executor
    up without a signal, as [pthread_cond_wait] allows. *)
Inductive choice := Run_executor | Run_listener | Wake_up.

Definition enabled (c : choice) (w : worker_t) : bool :=
  match c, executor w, listener w with
  | Run_executor, X_exit, _ => false
  | Run_executor, X_wait, _ => signaled w
  | Run_executor, _, _ => true
  | Wake_up, X_wait, _ => true
  | Wake_up, _, _ => false
  | Run_listener, _, L_exit => false
  | Run_listener, _, _ => true
  end.

Definition thread (c : choice) : W unit :=
  match c with Run_executor | Wake_up => query_executor_thread | Run_listener => master_listener_thread end.

(** One step of a run; [None] is undefined behaviour or a call that never returns. *)
Definition step (c : choice) (w : worker_t) : option worker_t :=
  if enabled c w then snd <$> thread c w else None.

Fixpoint run (cs : list choice) (w : worker_t) : option worker_t :=
  match cs with
  | [] => Some w
  | c :: cs => step c w ≫= run cs
  end.

(** The state that main.c gives the threads. *)
Definition initial_worker (master_socket storage_socket : Z) (path_scripts : string)
    (mm : memory_manager_t) (worker_id : Z) : worker_t :=
  MkWorker (MkWorkerState false false false false (MkContext EmptyString 0 0)
              master_socket storage_socket path_scripts mm worker_id)
    X_fetch L_receive false [].

End Threads.
