(* ===== verification/ThreadsSpec.v ===== *)
(** * What the threads of the worker promise (theorems about WorkerThreads.v)

    [moves]: the steps of the two threads as rules, whatever the memory manager and
    the sockets do.  [promise] is the worker as its Master sees it, one query at a
    time, from its assignment to the answer; the runs of the threads are runs of
    it as long as the Master assigns no query to a worker that has not answered. *)

From S2P Require Import Prelude CStrings Serialization Protocol Commons PageTable MemoryManager Interpreter WorkerThreads.

Section Spec.
Context {BS : BlockStorage} {ML : MasterLink BS} {WC : WorkerCalls BS} {CS : CommonsString} {FS : FileSystem}.
Implicit Types (w : worker_t) (s : worker_state_t) (q ctx : query_context_t).

(** ** The steps as rules *)

Definition next q : query_context_t := at_pc (ctx_program_counter q + 1) q.

Definition is_end (i : instruction_t) : bool := match operation i with END => true | _ => false end.

(** The line the executor fetches for [q], and its instruction. *)
Definition fetched (scripts : string) q (raw : string) : Prop :=
  exists path, script_path scripts (query_path q) = Some path /\
    snd (fetch_instruction path (u32 (ctx_program_counter q))) = Some raw.
Definition decoded (raw : string) (i : instruction_t) : Prop := snd (decode_instruction raw) = Some i.

(** [s'] is [s] but for the memory manager. *)
Definition same_state s s' : Prop := exists mm, s' = set_memory_manager mm s.

Inductive executor_moves : worker_t -> worker_t -> Prop :=
| moves_wait s x l b es :
    x = X_fetch \/ x = X_wait -> has_query s = false -> should_stop s = false ->
    executor_moves (MkWorker s x l b es) (MkWorker s X_wait l false es)
| moves_exit s x l b es :
    x = X_fetch \/ x = X_wait -> has_query s = false -> should_stop s = true ->
    executor_moves (MkWorker s x l b es) (MkWorker s X_exit l b es)
| moves_take s x l b es :
    x = X_fetch \/ x = X_wait -> has_query s = true ->
    executor_moves (MkWorker s x l b es) (MkWorker (set_is_executing true s) X_start l b es)
| moves_start s l b es :
    executor_moves (MkWorker s X_start l b es)
      (MkWorker (set_ejection_requested false s) (X_before (current_query s)) l b (Started (current_query s) :: es))
| moves_give_up s ctx l b es :
    ejection_requested s = true ->
    executor_moves (MkWorker s (X_before ctx) l b es) (MkWorker s (X_evict ctx (ctx_program_counter ctx)) l b es)
| moves_go_on s ctx l b es :
    ejection_requested s = false ->
    executor_moves (MkWorker s (X_before ctx) l b es) (MkWorker s (X_execute ctx) l b es)
| moves_fail s ctx l b es :
    (forall raw i, fetched (config_path_scripts s) ctx raw -> ~ decoded raw i) ->
    executor_moves (MkWorker s (X_execute ctx) l b es) (MkWorker s (X_done ctx QUERY_RESULT_ERROR) l b (Failed ctx :: es))
| moves_execute s s' ctx raw i r l b es :
    same_state s s' -> fetched (config_path_scripts s) ctx raw -> decoded raw i ->
    executor_moves (MkWorker s (X_execute ctx) l b es)
      (MkWorker s' (if r <? 0 then X_done ctx QUERY_RESULT_ERROR else X_after ctx (is_end i)) l b
         (Executed ctx raw i r :: es))
| moves_give_up_after s ctx e l b es :
    ejection_requested s = true ->
    executor_moves (MkWorker s (X_after ctx e) l b es) (MkWorker s (X_evict ctx (ctx_program_counter (next ctx))) l b es)
| moves_end s ctx l b es :
    ejection_requested s = false ->
    executor_moves (MkWorker s (X_after ctx true) l b es) (MkWorker s (X_done ctx QUERY_RESULT_END) l b es)
| moves_round s ctx l b es :
    ejection_requested s = false ->
    executor_moves (MkWorker s (X_after ctx false) l b es) (MkWorker s (X_next ctx) l b es)
| moves_evict s s' ctx pc l b es :
    same_state s s' ->
    executor_moves (MkWorker s (X_evict ctx pc) l b es)
      (MkWorker s' (X_done ctx QUERY_RESULT_EJECT) l b (Evicted (ctx_query_id ctx) pc :: es))
| moves_next s ctx l b es :
    executor_moves (MkWorker s (X_next ctx) l b es)
      (MkWorker (set_current_query (at_pc (ctx_program_counter ctx + 1) (current_query s)) s) (X_before (next ctx)) l b es)
| moves_done_eject s ctx l b es :
    executor_moves (MkWorker s (X_done ctx QUERY_RESULT_EJECT) l b es)
      (MkWorker (set_is_executing false (set_has_query false s)) X_fetch l b
         (Finished (ctx_query_id ctx) QUERY_RESULT_EJECT :: es))
| moves_done s s' ctx result l b es :
    result <> QUERY_RESULT_EJECT -> same_state s s' ->
    executor_moves (MkWorker s (X_done ctx result) l b es)
      (MkWorker (set_is_executing false
         (if has_query s && (ctx_query_id (current_query s) =? ctx_query_id ctx) then set_has_query false s' else s'))
         X_fetch l b (Finished (ctx_query_id ctx) result :: es)).

Inductive listener_moves : worker_t -> worker_t -> Prop :=
| moves_receive s s' x l b es :
    same_state s s' -> (l = L_exit \/ exists pkg, l = L_handle pkg) ->
    listener_moves (MkWorker s x L_receive b es) (MkWorker s' x l b es)
| moves_ignore s x pkg b es :
    listener_moves (MkWorker s x (L_handle pkg) b es) (MkWorker s x L_receive b es)
| moves_assign s s' q x pkg b es :
    operation_code pkg = master_op OP_WORKER_START_QUERY -> read_query pkg = Some q -> same_state s s' ->
    listener_moves (MkWorker s x (L_handle pkg) b es)
      (MkWorker (set_should_stop false (set_has_query true (set_current_query q s'))) x L_receive
         (match x with X_wait => true | _ => b end) (Assigned q :: es))
| moves_request s x pkg b es :
    has_query s = true -> is_executing s = true ->
    listener_moves (MkWorker s x (L_handle pkg) b es) (MkWorker (set_ejection_requested true s) x L_receive b es)
| moves_eject s x pkg b es :
    has_query s = true -> is_executing s = false ->
    listener_moves (MkWorker s x (L_handle pkg) b es)
      (MkWorker (set_has_query false s) x
         (L_flush (u32 (ctx_query_id (current_query s))) (ctx_program_counter (current_query s))) b es)
| moves_stop s x pkg b es :
    listener_moves (MkWorker s x (L_handle pkg) b es)
      (MkWorker (set_has_query false (set_should_stop true s)) x L_exit b es)
| moves_eject_ready s s' x id pc b es :
    same_state s s' ->
    listener_moves (MkWorker s x (L_flush id pc) b es) (MkWorker s' x L_receive b (Evicted_ready id pc :: es)).

(** ** The threads follow the rules *)

Lemma in_memory_run {A} (m : MM A) w a w' :
  in_memory m w = Some (a, w') -> exists mm, w' = on_state (set_memory_manager mm) w.
Proof. unfold in_memory. destruct (m _) as [[? mm]|]; [|done]. intros [= _ <-]. by exists mm. Qed.

Lemma in_store_run {A} (m : ST store A) w a w' :
  in_store m w = Some (a, w') -> exists mm, w' = on_state (set_memory_manager mm) w.
Proof. apply in_memory_run. Qed.

Lemma send_evict_res_run id pc w a w' :
  send_evict_res id pc w = Some (a, w') -> exists mm, w' = on_state (set_memory_manager mm) w.
Proof.
  unfold send_evict_res. intros (s & w1 & [= <- <-] & H)%run_bind. apply run_bind in H as (r & w1 & H & [= _ <-]).
  by apply in_store_run in H.
Qed.

Lemma notify_run id w a w' :
  notify_master_query_error id w = Some (a, w') -> exists mm, w' = on_state (set_memory_manager mm) w.
Proof.
  unfold notify_master_query_error. intros (s & w1 & [= <- <-] & H)%run_bind. destruct (_ <? 0).
  { injection H as _ <-. exists (memory_manager (state w)). by destruct w as [[] ? ? ? ?]. }
  apply run_bind in H as (r & w1 & H & [= _ <-]). by apply in_store_run in H.
Qed.

(** A flush and a message, as the threads send them. *)
Lemma flush_and_send_run id pc w a w' :
  (_ ← in_memory mm_flush_all_dirty; send_evict_res id pc) w = Some (a, w') ->
  exists mm, w' = on_state (set_memory_manager mm) w.
Proof.
  intros (r & w1 & H1 & H2)%run_bind. apply in_memory_run in H1 as (mm1 & ->).
  apply send_evict_res_run in H2 as (mm2 & ->). by exists mm2.
Qed.

Lemma same_state_set mm s : same_state s (set_memory_manager mm s).
Proof. by exists mm. Qed.

Lemma same_state_refl s : same_state s s.
Proof. exists (memory_manager s). by destruct s. Qed.

Lemma fetched_decoded s ctx path raw i :
  script_path (config_path_scripts s) (query_path ctx) = Some path ->
  snd (fetch_instruction path (u32 (ctx_program_counter ctx))) = Some raw ->
  snd (decode_instruction raw) = Some i ->
  fetched (config_path_scripts s) ctx raw /\ decoded raw i.
Proof. intros Hp Hf Hd. split; [by exists path|done]. Qed.

Lemma execute_fetched_moves ctx w w' :
  executor w = X_execute ctx -> execute_fetched ctx w = Some (tt, w') -> executor_moves w w'.
Proof.
  destruct w as [s x l b es]. cbn [executor]. intros ->. unfold execute_fetched.
  intros (s0 & w0 & [= <- <-] & H)%run_bind. cbn [state] in H.
  destruct (script_path _ _) as [path|] eqn:Ep; [|done].
  destruct (fetch_instruction _ _) as [rc [raw|]] eqn:Ef.
  - destruct (decode_instruction raw) as [rc' [i|]] eqn:Ed.
    + apply run_bind in H as (r & w1 & Hm & H). apply in_memory_run in Hm as (mm & ->).
      assert (Hfd := fetched_decoded s ctx path raw i Ep ltac:(by rewrite Ef) ltac:(by rewrite Ed)).
      apply run_bind in H as ([] & w1 & [= <-] & H).
      pose proof (moves_execute s _ ctx raw i r l b es (same_state_set mm s) (proj1 Hfd) (proj2 Hfd)) as Hx.
      destruct (r <? 0).
      * injection H as <-. exact Hx.
      * destruct (_ =? _); [done|]. injection H as <-. unfold is_end in Hx. exact Hx.
    + apply run_bind in H as ([] & w1 & [= <-] & H). injection H as <-. apply moves_fail.
      intros raw' i (path' & E1 & E2) Hd. unfold decoded in Hd. rewrite Ep in E1. injection E1 as <-.
      rewrite Ef in E2. injection E2 as <-. by rewrite Ed in Hd.
  - apply run_bind in H as ([] & w1 & [= <-] & H). injection H as <-. apply moves_fail.
    intros raw' i (path' & E1 & E2) _. rewrite Ep in E1. injection E1 as <-. by rewrite Ef in E2.
Qed.

Lemma finish_query_moves ctx result w w' :
  executor w = X_done ctx result -> finish_query ctx result w = Some (tt, w') -> executor_moves w w'.
Proof.
  destruct w as [s x l b es]. cbn [executor]. intros ->. unfold finish_query.
  intros ([] & w1 & Hr & H)%run_bind. apply run_bind in H as ([] & w2 & [= <-] & H). injection H as <-.
  destruct (decide (result = QUERY_RESULT_EJECT)) as [->|Hne].
  { cbv iota in Hr. apply run_bind in Hr as ([] & w2 & [= <-] & [= <-]). apply moves_done_eject. }
  assert (Hs : exists s', same_state s s' /\ w1 = MkWorker (set_is_executing false
    (if has_query s && (ctx_query_id (current_query s) =? ctx_query_id ctx) then set_has_query false s' else s'))
    (X_done ctx result) l b es); [|destruct Hs as (s' & Hs & ->); by apply moves_done].
  assert (Hk : exists s', same_state s s' /\
    (s0 ← st_gets state;
     st_when (has_query s0 && (ctx_query_id (current_query s0) =? ctx_query_id ctx)) (upd (set_has_query false));;
     upd (set_is_executing false)) (MkWorker s' (X_done ctx result) l b es) = Some (tt, w1)).
  { destruct result; [| |done|]; cbv beta iota in Hr; apply run_bind in Hr as ([] & w2 & Hm & Hr).
    - injection Hm as <-. exists s. split; [apply same_state_refl|done].
    - injection Hm as <-. exists s. split; [apply same_state_refl|done].
    - apply run_bind in Hm as (r & w3 & Hm & Hn). apply in_memory_run in Hm as (mm1 & ->). apply notify_run in Hn as (mm2 & ->).
      exists (set_memory_manager mm2 s). split; [apply same_state_set|exact Hr]. }
  destruct Hk as (s' & [mm ->] & Hk). exists (set_memory_manager mm s). split; [apply same_state_set|].
  apply run_bind in Hk as (s0 & w2 & [= <- <-] & Hk). cbn [state set_memory_manager has_query current_query] in Hk.
  apply run_bind in Hk as ([] & w2 & Hw & [= <-]). unfold st_when in Hw.
  destruct (has_query s && _); injection Hw as <-; done.
Qed.

Lemma fetch_next_query_moves w w' :
  executor w = X_fetch \/ executor w = X_wait -> fetch_next_query w = Some (tt, w') -> executor_moves w w'.
Proof.
  destruct w as [s x l b es]. cbn [executor]. intros Hx. unfold fetch_next_query. intros (s0 & w0 & [= <- <-] & H)%run_bind.
  cbn [state] in H. destruct (has_query s) eqn:Eh, (should_stop s) eqn:Es; cbn [andb negb] in H.
  - apply run_bind in H as ([] & w1 & [= <-] & [= <-]). by apply moves_take.
  - apply run_bind in H as ([] & w1 & [= <-] & [= <-]). by apply moves_take.
  - injection H as <-. by apply moves_exit.
  - injection H as <-. by apply moves_wait.
Qed.

Lemma executor_follows w w' :
  enabled Run_executor w = true \/ enabled Wake_up w = true ->
  query_executor_thread w = Some (tt, w') -> executor_moves w w'.
Proof.
  intros He (x & w0 & [= <- <-] & H)%run_bind.
  destruct (executor w) as [| | |ctx|ctx|ctx e|ctx pc|ctx|ctx r|] eqn:Ex.
  - apply fetch_next_query_moves; [by left|done].
  - apply fetch_next_query_moves; [by right|done].
  - destruct w as [s x l b es]. cbn [executor] in Ex. subst x. apply run_bind in H as (s0 & w1 & [= <- <-] & H).
    apply run_bind in H as ([] & w1 & [= <-] & H). apply run_bind in H as ([] & w1 & [= <-] & [= <-]). apply moves_start.
  - destruct w as [s x l b es]. cbn [executor] in Ex. subst x. apply run_bind in H as (s0 & w1 & [= <- <-] & [= <-]).
    cbn [state]. destruct (ejection_requested s) eqn:E; [by apply moves_give_up|by apply moves_go_on].
  - by apply (execute_fetched_moves ctx).
  - destruct w as [s x l b es]. cbn [executor] in Ex. subst x. apply run_bind in H as (s0 & w1 & [= <- <-] & [= <-]).
    cbn [state]. destruct (ejection_requested s) eqn:E; [by apply moves_give_up_after|].
    destruct e; [by apply moves_end|by apply moves_round].
  - destruct w as [s x l b es]. cbn [executor] in Ex. subst x. unfold evict in H.
    apply run_bind in H as (r & w1 & Hm & H). apply in_memory_run in Hm as (mm1 & ->).
    apply run_bind in H as ([] & w1 & Hm & H). apply send_evict_res_run in Hm as (mm2 & ->).
    apply run_bind in H as ([] & w1 & [= <-] & [= <-]). apply (moves_evict s (set_memory_manager mm2 s)), same_state_set.
  - destruct w as [s x l b es]. cbn [executor] in Ex. subst x. apply run_bind in H as ([] & w1 & [= <-] & [= <-]). apply moves_next.
  - by apply (finish_query_moves ctx r).
  - unfold enabled in He. rewrite Ex in He. by destruct He.
Qed.

Lemma assign_query_moves s x pkg b es w' :
  operation_code pkg = master_op OP_WORKER_START_QUERY ->
  assign_query pkg (MkWorker s x L_receive b es) = Some (tt, w') ->
  listener_moves (MkWorker s x (L_handle pkg) b es) w'.
Proof.
  intros Hop. unfold assign_query. destruct (read_query pkg) as [q|] eqn:Eq; [|intros [= <-]; apply moves_ignore].
  destruct (PATH_MAX <=? _); [done|]. intros H. do 5 apply run_bind in H as ([] & ? & [= <-] & H). injection H as <-.
  apply (moves_assign s (set_memory_manager (mm_set_query_id (ctx_query_id q) (memory_manager s)) s)
           q x pkg b es Hop Eq). apply same_state_set.
Qed.

Lemma eject_query_moves s x pkg0 pkg b es w' :
  eject_query pkg (MkWorker s x L_receive b es) = Some (tt, w') ->
  listener_moves (MkWorker s x (L_handle pkg0) b es) w'.
Proof.
  unfold eject_query. destruct (package_read_uint32 pkg) as [[id|] pkg1]; [|intros [= <-]; apply moves_ignore].
  intros (s0 & w0 & [= <- <-] & H)%run_bind. cbn [state] in H.
  destruct (has_query s) eqn:Eh; cbn [andb] in H; [|injection H as <-; apply moves_ignore].
  destruct (Z.eqb_spec (u32 (ctx_query_id (current_query s))) id) as [<-|_]; [|injection H as <-; apply moves_ignore].
  destruct (is_executing s) eqn:Ee; [injection H as <-; by apply moves_request|].
  apply run_bind in H as ([] & w1 & [= <-] & [= <-]). by apply moves_eject.
Qed.

Lemma listener_follows w w' :
  enabled Run_listener w = true -> master_listener_thread w = Some (tt, w') -> listener_moves w w'.
Proof.
  intros He (l & w0 & [= <- <-] & H)%run_bind. destruct w as [s x l b es]. cbn [listener] in H.
  destruct l as [|pkg|id pc|].
  - unfold receive_package in H. apply run_bind in H as (s0 & w1 & [= <- <-] & H).
    apply run_bind in H as (pkg & w1 & Hm & [= <-]). apply in_store_run in Hm as (mm & ->).
    apply (moves_receive s (set_memory_manager mm s)); [apply same_state_set|]. destruct pkg; eauto.
  - unfold dispatch_package in H. apply run_bind in H as ([] & w1 & [= <-] & H).
    destruct (Z.eqb_spec (operation_code pkg) (master_op OP_WORKER_START_QUERY)) as [E|_]; [by eapply assign_query_moves|].
    destruct (_ =? _); [by eapply eject_query_moves|].
    destruct (_ =? _); [|injection H as <-; apply moves_ignore].
    apply run_bind in H as ([] & w1 & Hm & [= <-]). apply run_bind in Hm as ([] & w2 & [= <-] & [= <-]). apply moves_stop.
  - unfold eject_ready in H. apply run_bind in H as (r & w1 & Hm & H). apply in_memory_run in Hm as (mm1 & ->).
    apply run_bind in H as ([] & w1 & Hm & H). apply send_evict_res_run in Hm as (mm2 & ->).
    apply run_bind in H as ([] & w1 & [= <-] & [= <-]). apply (moves_eject_ready s (set_memory_manager mm2 s)), same_state_set.
  - done.
Qed.

Lemma step_moves c w w' :
  step c w = Some w' -> executor_moves w w' \/ (c = Run_listener /\ listener_moves w w').
Proof.
  unfold step. destruct (enabled c w) eqn:He; [|done]. destruct (thread c w) as [[[] w1]|] eqn:Et; [|done]. intros [= <-].
  destruct c; [left; apply executor_follows; auto|right; split; [done|by apply listener_follows]|left; apply executor_follows; auto].
Qed.

(** ** One user of the memory manager at a time *)

Definition working (x : executor_point) : bool :=
  match x with X_fetch | X_wait | X_exit => false | _ => true end.

(** The points at which the next step of a thread uses the memory manager. *)
Definition executor_in_memory (x : executor_point) : bool :=
  match x with X_execute _ | X_evict _ _ | X_done _ QUERY_RESULT_ERROR => true | _ => false end.
Definition listener_in_memory (l : listener_point) : bool :=
  match l with L_flush _ _ => true | _ => false end.

Record coherent w : Prop := {
  co_executing : is_executing (state w) = working (executor w);
  co_flush : listener_in_memory (listener w) = true -> has_query (state w) = false /\ working (executor w) = false;
  co_awake : executor w = X_wait -> has_query (state w) = true -> signaled w = true
}.

Lemma executor_coherent w w' : executor_moves w w' -> coherent w -> coherent w'.
Proof.
  intros Hm [He Hf Ha].
  destruct Hm; try match goal with H : same_state _ _ |- _ => destruct H as [mm ->] end;
    try match goal with H : _ \/ _ |- _ => destruct H as [->| ->] end; cbn [state executor listener signaled] in He, Hf, Ha;
    (split; cbn [state executor listener signaled working is_executing has_query set_is_executing set_has_query
       set_ejection_requested set_current_query set_memory_manager] in *; try done).
  all: try by (intros Hl; destruct (Hf Hl); split; congruence).
  all: try by (destruct (r <? 0)).
  all: try by intros ?; congruence.
Qed.

Lemma listener_coherent w w' : listener_moves w w' -> coherent w -> coherent w'.
Proof.
  intros Hm [He Hf Ha].
  destruct Hm; try match goal with H : same_state _ _ |- _ => destruct H as [mm ->] end; cbn [state executor listener signaled] in He, Hf, Ha;
    (split; cbn [state executor listener signaled listener_in_memory is_executing has_query set_has_query set_should_stop
       set_ejection_requested set_current_query set_memory_manager] in *; try done).
  - by match goal with H : _ \/ _ |- _ => destruct H as [->|[? ->]] end.
  - by intros ->.
  - intros _. split; [done|congruence].
Qed.

(** ** The worker as its Master sees it

    [pending] is the query that has been assigned and not begun; [current] what
    has become of the one that has. *)

Inductive progress :=
| P_idle
| P_running q
| P_ended q
| P_broken q
| P_answered q.

Record promise := MkPromise { pending : option query_context_t; current : progress }.

(** A query runs the lines of its script in order from its [program_counter]; the
    eviction is answered with the line to go on from; a query that is given up
    before it begins is answered with the line it was to begin from. *)
Inductive keeps_promise (scripts : string) : promise -> event -> promise -> Prop :=
| promise_assigned q p c :
    (forall q', c <> P_running q') ->
    keeps_promise scripts (MkPromise p c) (Assigned q) (MkPromise (Some q) c)
| promise_started q :
    keeps_promise scripts (MkPromise (Some q) P_idle) (Started q) (MkPromise None (P_running q))
| promise_executed q p raw i r :
    fetched scripts q raw -> decoded raw i ->
    keeps_promise scripts (MkPromise p (P_running q)) (Executed q raw i r)
      (MkPromise p (if r <? 0 then P_broken q else if is_end i then P_ended q else P_running (next q)))
| promise_failed q p :
    (forall raw i, fetched scripts q raw -> ~ decoded raw i) ->
    keeps_promise scripts (MkPromise p (P_running q)) (Failed q) (MkPromise p (P_broken q))
| promise_evicted q p :
    keeps_promise scripts (MkPromise p (P_running q)) (Evicted (ctx_query_id q) (ctx_program_counter q))
      (MkPromise p (P_answered q))
| promise_evicted_ended q p :
    keeps_promise scripts (MkPromise p (P_ended q)) (Evicted (ctx_query_id q) (ctx_program_counter (next q)))
      (MkPromise p (P_answered q))
| promise_evicted_ready q :
    keeps_promise scripts (MkPromise (Some q) P_idle) (Evicted_ready (u32 (ctx_query_id q)) (ctx_program_counter q))
      (MkPromise None P_idle)
| promise_finished q p c r :
    (c, r) = (P_answered q, QUERY_RESULT_EJECT) \/ (c, r) = (P_ended q, QUERY_RESULT_END) \/
    (c, r) = (P_broken q, QUERY_RESULT_ERROR) ->
    keeps_promise scripts (MkPromise p c) (Finished (ctx_query_id q) r) (MkPromise p P_idle).

(** The events, the most recent first, that keep the promise from the start. *)
Inductive kept (scripts : string) : list event -> promise -> Prop :=
| kept_nothing : kept scripts [] (MkPromise None P_idle)
| kept_event es e p p' : kept scripts es p -> keeps_promise scripts p e p' -> kept scripts (e :: es) p'.

(** Whether the query that began last has been answered. *)
Fixpoint answered (es : list event) : bool :=
  match es with
  | Executed _ _ i r :: _ => (r <? 0) || is_end i
  | Started _ :: _ => false
  | (Failed _ | Evicted _ _ | Finished _ _) :: _ | [] => true
  | (Assigned _ | Evicted_ready _ _) :: es => answered es
  end.

(** The Master assigns no query to a worker that has yet to answer for one. *)
Definition master_waits (c : choice) w : Prop :=
  forall pkg, c = Run_listener -> listener w = L_handle pkg ->
    operation_code pkg = master_op OP_WORKER_START_QUERY -> answered (events w) = true.

Inductive runs_to (w0 : worker_t) : worker_t -> Prop :=
| runs_nothing : runs_to w0 w0
| runs_step c w w' : runs_to w0 w -> master_waits c w -> step c w = Some w' -> runs_to w0 w'.

Lemma kept_answered scripts es p : kept scripts es p -> answered es = true -> forall q, current p <> P_running q.
Proof.
  induction 1 as [|es e p p' Hk IH He]; [done|]. destruct He; cbn [answered current] in *; try done.
  - intros Ha q'. destruct (r <? 0); [done|]. cbn [orb] in Ha. by rewrite Ha.
Qed.


(** ** The runs of the threads keep the promise *)

(** The query the worker holds is the one that was assigned, or, once [ctx] is
    answered, still [ctx]. *)
Definition holds s p : Prop := has_query s = true -> pending p = Some (current_query s).
Definition holds_or s ctx p : Prop :=
  has_query s = true -> pending p = Some (current_query s) \/ (pending p = None /\ current_query s = ctx).

Definition stands s (x : executor_point) p : Prop :=
  match x with
  | X_fetch | X_wait | X_exit => current p = P_idle /\ holds s p
  | X_start => current p = P_idle /\ pending p = Some (current_query s)
  | X_before ctx | X_execute ctx =>
      p = MkPromise None (P_running ctx) /\ (has_query s = true -> current_query s = ctx)
  | X_next ctx => p = MkPromise None (P_running (next ctx)) /\ (has_query s = true -> current_query s = ctx)
  | X_after ctx false => p = MkPromise None (P_running (next ctx)) /\ (has_query s = true -> current_query s = ctx)
  | X_after ctx true =>
      current p = P_ended ctx /\ holds_or s ctx p
  | X_evict ctx pc =>
      (p = MkPromise None (P_running (at_pc pc ctx)) /\ (has_query s = true -> current_query s = ctx)) \/
      (pc = ctx_program_counter (next ctx) /\ current p = P_ended ctx /\
        holds_or s ctx p)
  | X_done ctx r =>
      match r with
      | QUERY_RESULT_OK => False
      | QUERY_RESULT_END => current p = P_ended ctx
      | QUERY_RESULT_EJECT => exists pc, current p = P_answered (at_pc pc ctx)
      | QUERY_RESULT_ERROR => current p = P_broken ctx
      end /\ holds_or s ctx p
  end.

Definition flushes (l : listener_point) p : Prop :=
  match l with
  | L_flush id pc => exists q, pending p = Some q /\ id = u32 (ctx_query_id q) /\ pc = ctx_program_counter q
  | _ => True
  end.

Record represents w p : Prop := {
  re_kept : kept (config_path_scripts (state w)) (events w) p;
  re_coherent : coherent w;
  re_stands : stands (state w) (executor w) p;
  re_flushes : flushes (listener w) p
}.

Lemma at_pc_pc q : at_pc (ctx_program_counter q) q = q.
Proof. by destruct q. Qed.

Lemma not_flushing s x l b es p : coherent (MkWorker s x l b es) -> working x = true -> flushes l p.
Proof. intros [_ Hf _] Hx. destruct l; try done. destruct (Hf eq_refl) as [_ Hw]. cbn in Hw. congruence. Qed.

Lemma kept_by scripts es e p p' : kept scripts es p -> keeps_promise scripts p e p' -> kept scripts (e :: es) p'.
Proof. apply kept_event. Qed.

(** What the executor leaves behind when it is done with [ctx]. *)
Definition after_query s mm ctx : worker_state_t :=
  set_is_executing false (if has_query s && (ctx_query_id (current_query s) =? ctx_query_id ctx)
    then set_has_query false (set_memory_manager mm s) else set_memory_manager mm s).

Lemma after_query_scripts s mm ctx : config_path_scripts (after_query s mm ctx) = config_path_scripts s.
Proof. unfold after_query. by destruct (_ && _). Qed.

Lemma after_query_holds s mm ctx pd c :
  holds_or s ctx (MkPromise pd c) -> holds (after_query s mm ctx) (MkPromise pd P_idle).
Proof.
  unfold holds_or, holds, after_query. intros Hh Hq. destruct (has_query s) eqn:Eh; cbn [andb] in Hq |- *.
  - destruct (Z.eqb_spec (ctx_query_id (current_query s)) (ctx_query_id ctx)); [done|].
    destruct (Hh eq_refl) as [?|[_ E]]; [done|]. by rewrite E in n.
  - cbn in Hq. congruence.
Qed.

Lemma executor_keeps w w' p : executor_moves w w' -> represents w p -> exists p', represents w' p'.
Proof.
  intros Hm [Hk Hc Hs Hf]. pose proof (executor_coherent w w' Hm Hc) as Hc'.
  destruct Hm; cbn [state executor listener events] in Hk, Hs, Hf;
    try match goal with H : same_state _ _ |- _ => destruct H as [mm ->] end.
  - exists p. split; try done. cbn. by destruct H as [->| ->].
  - exists p. split; try done. cbn. by destruct H as [->| ->].
  - exists p. split; try done. cbn. by destruct H as [->| ->]; destruct Hs as [? Hh]; split; try done; apply Hh.
  - destruct p as [pd c]. destruct Hs as [Hcur Hp]. cbn in Hcur, Hp. subst.
    exists (MkPromise None (P_running (current_query s))). split; try done.
    + eapply kept_by; [exact Hk|constructor].
    + by eapply not_flushing.
  - exists p. split; try done. left. by rewrite at_pc_pc.
  - by exists p.
  - destruct Hs as [-> Hh]. exists (MkPromise None (P_broken ctx)). split; try done.
    + eapply kept_by; [exact Hk|by constructor].
    + split; [done|]. intros Hq. right. split; [done|by apply Hh].
  - destruct Hs as [-> Hh]. eexists. split; [eapply kept_by; [exact Hk|by constructor]|done| |].
    + cbn [state executor]. assert (Ho : holds_or (set_memory_manager mm s) ctx
        (MkPromise None (if r <? 0 then P_broken ctx else if is_end i then P_ended ctx else P_running (next ctx)))).
      { intros Hq. right. split; [done|by apply Hh]. }
      clear Hc'. revert Ho. destruct (r <? 0); [intros Ho; split; [done|exact Ho]|]. destruct (is_end i); intros Ho.
      * split; [done|exact Ho].
      * split; [done|exact Hh].
    + exact Hf.
  - exists p. split; try done. cbn [state executor stands] in *. destruct e; [right; by destruct Hs|by left].
  - exists p. by split.
  - exists p. by split.
  - destruct p as [pd c]. destruct Hs as [[[= -> ->] Hh]|(-> & Hcur & Hh)].
    + exists (MkPromise None (P_answered (at_pc pc ctx))). split; try done.
      * eapply kept_by; [exact Hk|]. exact (promise_evicted _ (at_pc pc ctx) None).
      * split; [by exists pc|]. intros Hq. right. split; [done|by apply Hh].
    + cbn in Hcur. subst c. exists (MkPromise pd (P_answered ctx)). split; try done.
      * eapply kept_by; [exact Hk|constructor].
      * split; [exists (ctx_program_counter ctx); by rewrite at_pc_pc|exact Hh].
  - exists p. split; try done. destruct Hs as [-> Hh]. split; [done|]. intros Hq. cbn in Hq |- *. by rewrite Hh.
  - destruct p as [pd c]. destruct Hs as [[pc Hcur] Hh]. cbn in Hcur. subst c. exists (MkPromise pd P_idle). split; try done.
    eapply kept_by; [exact Hk|]. apply (promise_finished _ (at_pc pc ctx)). by left.
  - destruct p as [pd c]. destruct Hs as [Hcur Hh]. exists (MkPromise pd P_idle).
    fold (after_query s mm ctx) in *. split; try done.
    + cbn [state events]. rewrite after_query_scripts. eapply kept_by; [exact Hk|].
      apply promise_finished. cbn in Hcur. destruct result; subst; try done; auto.
    + split; [done|]. by eapply after_query_holds.
Qed.

Lemma flushing_idle w : coherent w -> listener_in_memory (listener w) = true -> has_query (state w) = false /\ working (executor w) = false.
Proof. intros [_ Hf _]. exact Hf. Qed.

(** What stands does so whatever the listener does but an assignment. *)
Lemma stands_weaken s s' x p :
  stands s x p -> current_query s' = current_query s -> (has_query s' = true -> has_query s = true) -> stands s' x p.
Proof.
  intros Hs Hq Hh. unfold stands, holds, holds_or in *. rewrite Hq. destruct x; intuition.
  destruct end_detected; intuition.
Qed.

Lemma listener_keeps c w w' p :
  master_waits c w -> c = Run_listener -> listener_moves w w' -> represents w p -> exists p', represents w' p'.
Proof.
  intros Hm -> Hl [Hk Hc Hs Hf]. pose proof (listener_coherent w w' Hl Hc) as Hc'.
  destruct Hl; cbn [state executor listener events] in Hk, Hs, Hf;
    try match goal with H : same_state _ _ |- _ => destruct H as [mm ->] end.
  - exists p. split; try done. by destruct H0 as [->|[? ->]].
  - exists p. by split.
  - specialize (Hm pkg eq_refl eq_refl H). pose proof (kept_answered _ _ _ Hk Hm) as Hno.
    destruct p as [pd c]. exists (MkPromise (Some q) c). split; try done.
    + eapply kept_by; [exact Hk|]. by constructor.
    + cbn [state executor] in *. destruct x; cbn [stands] in *; unfold holds, holds_or in *; cbn in *; try naive_solver.
      destruct end_detected; naive_solver.
  - exists p. by split.
  - exists p. assert (Hx : working x = false) by (rewrite <- H0; symmetry; apply Hc). split; try done.
    + by eapply stands_weaken.
    + exists (current_query s). split; [|done]. destruct x; try done; by apply Hs.
  - exists p. split; try done. by eapply stands_weaken.
  - destruct Hf as (q & Hp & -> & ->). destruct p as [pd c]. cbn in Hp. subst pd.
    destruct (flushing_idle _ Hc eq_refl) as [Hh Hx]. cbn in Hh, Hx.
    assert (Hi : c = P_idle) by (destruct x; try done; apply Hs). subst c.
    exists (MkPromise None P_idle). split; try done.
    + eapply kept_by; [exact Hk|constructor].
    + cbn. destruct x; try done; (split; [done|]); unfold holds; cbn; congruence.
Qed.

Lemma initial_represents ms ss scripts mm wid :
  represents (initial_worker ms ss scripts mm wid) (MkPromise None P_idle).
Proof. split; try done. constructor. Qed.

Lemma runs_represent ms ss scripts mm wid w :
  runs_to (initial_worker ms ss scripts mm wid) w -> exists p, represents w p.
Proof.
  induction 1 as [|c w w' _ [p IH] Hm Hst].
  - eexists. apply initial_represents.
  - destruct (step_moves _ _ _ Hst) as [He|[-> Hl]]; [by eapply executor_keeps|by eapply listener_keeps].
Qed.

End Spec.
