(* ===== verification/ThreadsMemory.v ===== *)
(** * The threads of the worker and its memory

    Over a Storage that meets its contract and scripts whose instructions stay
    within its bounds, every step of both threads is defined, keeps the memory
    manager well formed, and changes the files by instructions only; and a query
    that is given up leaves every file in the Storage. *)

From S2P Require Import Prelude CStrings Commons Serialization Protocol PageTable MemoryManager MemoryInvariant MemorySpec.
From S2P Require Import PagingSpec FlushSpec FilesSpec Interpreter InterpreterSpec WorkerThreads ThreadsSpec.

(** Messages to and from the Master touch no file. *)
Class MasterLinkSpec {BS : BlockStorage} (ML : MasterLink BS) {ps : Z} (BSS : BlockStorageSpec BS ps) : Prop := {
  master_send_run p fd s :
    wp (master_send p fd) (fun _ s' => forall f t n, block_of s' f t n = block_of s f t n) s;
  master_receive_same fd s r s' :
    master_receive fd s = Some (r, s') -> forall f t n, block_of s' f t n = block_of s f t n
}.

Section Memory.
Context {BS : BlockStorage} {ML : MasterLink BS} {WC : WorkerCalls BS} {CS : CommonsString} {FS : FileSystem}.
Context {ps : Z} {BSS : BlockStorageSpec BS ps} {WCS : WorkerCallsSpec WC BSS} {MLS : MasterLinkSpec ML BSS}.
Implicit Types (w : worker_t) (mm : memory_manager_t) (q ctx : query_context_t).

Abbreviation wf := (@mm_wf BS ps BSS).
Abbreviation runs := (@runs BS ps BSS).
Abbreviation same_content := (@same_content BS ps BSS).

(** ** The memory manager from a thread *)

Definition memory_of w : memory_manager_t := memory_manager (state w).
Definition with_memory mm w : worker_t := on_state (set_memory_manager mm) w.

Lemma wp_in_memory {A} (m : MM A) (P : A -> memory_manager_t -> Prop) (R : A -> worker_t -> Prop) w :
  wp m P (memory_of w) -> (forall a mm, P a mm -> R a (with_memory mm w)) -> wp (in_memory m) R w.
Proof. intros (a & mm & E & Hp)%wp_run HR. unfold wp, in_memory. fold (memory_of w). rewrite E. by apply HR. Qed.

(** A call that touches no file. *)
Lemma wp_in_store {A} (m : ST store A) (R : A -> worker_t -> Prop) w :
  wf (memory_of w) ->
  wp m (fun _ s' => forall f t n, block_of s' f t n = block_of (the_store (memory_of w)) f t n) (the_store (memory_of w)) ->
  (forall a st, m (the_store (memory_of w)) = Some (a, st) ->
     runs (memory_of w) (on_store st (memory_of w)) -> same_content (memory_of w) (on_store st (memory_of w)) ->
     R a (with_memory (on_store st (memory_of w)) w)) ->
  wp (in_store m) R w.
Proof.
  intros Hwf (a & st & E & Hp)%wp_run HR. unfold wp, in_store, in_memory. fold (memory_of w). rewrite E.
  destruct (same_call _ st Hwf Hp). by apply HR.
Qed.

(** The package of the answer, and what the Master reads from it. *)
Lemma package_of_two_carries op a b :
  0 <= op < 256 ->
  carries (serialized_package (package_of_two op a b)) op [F_uint32 (u32 a); F_uint32 (u32 b)].
Proof.
  intros Hop. destruct (package_built op [F_uint32 (u32 a); F_uint32 (u32 b)]) as (p & E & _ & Hc); [done| | |].
  - repeat constructor; apply u32_bound.
  - unfold wire_size, encode_all, encode, be32. cbn [flat_map]. rewrite !length_app, !length_rev, !length_le_bytes. cbn. lia.
  - assert (Ep : p = package_of_two op a b); [|by rewrite <- Ep].
    unfold package_of_two. cbn [package_add_all package_add] in E.
    destruct (package_add_uint32 _ (u32 a)) as [[|] p1]; [|done]. cbn [snd].
    destruct (package_add_uint32 p1 (u32 b)) as [[|] p2]; [|done]. by injection E.
Qed.

(** Files, connections, policy and frames are as they were. *)
Definition untouched mm mm' : Prop := runs mm mm' /\ same_content mm mm'.

Lemma untouched_trans mm1 mm2 mm3 : untouched mm1 mm2 -> untouched mm2 mm3 -> untouched mm1 mm3.
Proof.
  intros [R1 C1] [R2 C2]. split; [by eapply runs_trans|]. intros f t a Ha. by rewrite C2, C1.
Qed.

(** A flush and then a message: the files are as they were, and in the Storage if
    it takes the pages. *)
Lemma flush_and_send id pc w (R : unit -> worker_t -> Prop) :
  wf (memory_of w) ->
  (forall mm, untouched (memory_of w) mm ->
     (connected (memory_of w) -> writes_succeed (conn_of (memory_of w)) -> forall f t, stored (BSS := BSS) mm f t) ->
     (exists r st, master_send (package_of_two (master_op OP_WORKER_EVICT_RES) id pc) (ws_master_socket (state w)) st =
                     Some (r, the_store mm)) ->
     R tt (with_memory mm w)) ->
  wp (_ ← in_memory mm_flush_all_dirty; send_evict_res id pc) R w.
Proof.
  intros Hwf HR. apply wp_bind. eapply wp_in_memory; [by apply mm_flush_all_dirty_run|].
  intros r mm [Hc Hr]. destruct (cleaned_runs _ _ Hc) as [Hruns Hs].
  unfold send_evict_res. apply wp_bind, wp_gets, wp_bind.
  apply wp_in_store; [apply Hruns|apply master_send_run|]. intros r' st E Hruns' Hs'. apply wp_ret.
  apply (HR (on_store st mm)).
  - eapply untouched_trans; split; [exact Hruns|exact Hs|exact Hruns'|exact Hs'].
  - intros Hcn Hw f t. destruct Hr as [[-> Hno]|[_ Hn]]; [|by destruct Hn].
    assert (Hst : stored (BSS := BSS) mm f t).
    { eapply flush_stored; [exact Hwf|exact Hc|]. intros e He _ _. by apply Hno. }
    intros a Ha. rewrite Hs' by done. rewrite Hst by done. unfold block_byte. cbn [the_store on_store].
    pose proof (wp_run _ _ _ (master_send_run (package_of_two (master_op OP_WORKER_EVICT_RES) id pc)
      (ws_master_socket (state w)) (the_store mm))) as (r2 & st2 & E2 & Hb).
    change (memory_of (with_memory mm w)) with mm in E. change (ws_master_socket (state (with_memory mm w))) with (ws_master_socket (state w)) in E.
    rewrite E in E2. injection E2 as <- <-. by rewrite Hb.
  - by exists r', (the_store mm).
Qed.

(** ** The state of a worker *)

Lemma fgets_rest n bs : (0 < n)%nat -> bs <> [] -> (length (snd (fgets n bs)) < length bs)%nat.
Proof.
  destruct n as [|n]; [lia|]. destruct bs as [|b bs]; [done|]. intros _ _. cbn [fgets].
  destruct (Byte.eqb b x0a); [cbn; lia|].
  assert (H : forall n bs, (length (snd (fgets n bs)) <= length bs)%nat).
  { clear. induction n as [|n IH]; intros [|b bs]; cbn [fgets]; try done. destruct (Byte.eqb b x0a); [cbn; lia|].
    specialize (IH bs). destruct (fgets n bs). cbn in *. lia. }
  specialize (H n bs). destruct (fgets n bs). cbn in *. lia.
Qed.

(** A line that is found has a number below the length of the script. *)
Lemma fetch_loop_within fuel bs cur pc r l :
  fetch_loop fuel bs cur pc = (r, Some l) -> 0 <= cur <= pc -> pc < 2 ^ 32 -> pc - cur < Z.of_nat (length bs).
Proof.
  revert bs cur. induction fuel as [|fuel IH]; intros bs cur; [done|]. cbn [fetch_loop].
  destruct bs as [|b bs]; [done|]. set (bs0 := b :: bs). pose proof (fgets_rest 255 bs0 ltac:(lia) ltac:(done)) as Hlt.
  destruct (fgets 255 bs0) as [line rest] eqn:Ef. cbn [snd] in Hlt.
  destruct (Z.eqb_spec cur pc) as [->|Hne]; [intros _ _ _; cbn; lia|].
  intros H Hc Hp. rewrite u32_small in H by lia. specialize (IH rest (cur + 1) H ltac:(lia) Hp). lia.
Qed.

(** The instructions that no state of the memory manager makes inadmissible. *)
Definition gentle (i : instruction_t) : Prop :=
  named (BSS := BSS) i /\
  match i with
  | I_write _ _ base data => 0 <= base /\ base + strlen data < 2 ^ 32
  | I_read _ _ base size => 0 <= base /\ 0 <= size /\ base + size < 2 ^ 32
  | I_commit _ _ | I_flush _ _ | I_end => True
  | _ => False
  end.

Lemma gentle_run i ss sm id wid mm :
  wf mm -> searchable mm -> conn_ok (MkConn ss sm id) -> gentle i ->
  wp (execute_instruction i ss sm id wid) (fun r mm' =>
    executed (BSS := BSS) i (MkConn ss sm id) wid mm mm' r /\ searchable mm') mm.
Proof.
  intros Hwf Hse Hc [Hn Hg].
  assert (Hx : wp (execute_instruction i ss sm id wid) (fun r mm' => executed (BSS := BSS) i (MkConn ss sm id) wid mm mm' r) mm).
  { destruct i; try done; [by apply write_executed|by apply read_run|by apply commit_executed|by apply flush_executed|by apply end_executed]. }
  eapply wp_mono; [exact Hx|]. intros r mm' He. split; [done|]. destruct He as [_ _ _ Hp _ Hl _].
  intros Hpol. apply Hl; [by destruct i|]. apply Hse. congruence.
Qed.

Context (ss ms wid : Z) (scripts : string).
Context (Hconn : forall id, conn_ok (MkConn ss ms id)).
Context (Hscripts : strlen scripts <= 255).
Context (Hsmall : forall path bs, file_contents path = Some bs -> Z.of_nat (length bs) < 2 ^ 31).
Context (Hgentle : forall path pc raw i,
  snd (fetch_instruction (scripts +:+ path) pc) = Some raw -> snd (decode_instruction raw) = Some i -> gentle i).

(** A path that fits the buffer, and a program counter in the range of [int]. *)
Definition fits q : Prop :=
  strlen scripts + strlen (query_path q) + 1 <= 256 /\ - 2 ^ 31 <= ctx_program_counter q < 2 ^ 31.

Definition fits_at (x : executor_point) : Prop :=
  match x with
  | X_before ctx | X_execute ctx => fits ctx
  | X_after ctx _ | X_next ctx => fits ctx /\ ctx_program_counter ctx < 2 ^ 31 - 1
  | _ => True
  end.

Record sound w : Prop := {
  so_wf : wf (memory_of w);
  so_searchable : searchable (memory_of w);
  so_conn : storage_socket (memory_of w) = ss /\ master_socket (memory_of w) = ms;
  so_setup : ws_storage_socket (state w) = ss /\ ws_master_socket (state w) = ms /\ ws_worker_id (state w) = wid /\
    config_path_scripts (state w) = scripts;
  so_query : fits (current_query (state w));
  so_point : fits_at (executor w)
}.

(** The files change by the instructions that are executed. *)
Definition changed w w' : Prop :=
  same_content (memory_of w) (memory_of w') \/
  exists ctx raw i r, events w' = Executed ctx raw i r :: events w /\
    executed (BSS := BSS) i (MkConn ss ms (ctx_query_id ctx)) wid (memory_of w) (memory_of w') r.

Lemma sound_untouched w mm : sound w -> untouched (memory_of w) mm -> sound (with_memory mm w).
Proof.
  intros [Hwf Hse Hc Hs Hq Hp] [[Hwf' [Hconn' _] Hpol _ Hleak] _]. split; try done.
  - intros E. apply Hleak, Hse. by rewrite <- Hpol.
  - change (memory_of (with_memory mm w)) with mm. unfold conn_of in Hconn'. injection Hconn' as E1 E2 _. by rewrite E1, E2.
Qed.

Lemma same_content_refl mm : same_content mm mm.
Proof. done. Qed.

(** ** The executor *)

Definition good_step w : unit -> worker_t -> Prop := fun _ w' => sound w' /\ changed w w'.

(** A step that leaves the memory manager alone. *)
Lemma control_step w s x l b es :
  sound w -> memory_manager s = memory_of w ->
  (ws_storage_socket s = ss /\ ws_master_socket s = ms /\ ws_worker_id s = wid /\ config_path_scripts s = scripts) ->
  fits (current_query s) -> fits_at x ->
  good_step w tt (MkWorker s x l b es).
Proof.
  intros [Hwf Hse Hc _ _ _] Em Hs Hq Hx. unfold good_step.
  split; [|left; unfold memory_of at 2; cbn [state]; rewrite Em; apply same_content_refl].
  split; unfold memory_of; cbn [state executor]; rewrite ?Em; done.
Qed.

Lemma evict_good w ctx pc :
  sound w -> executor w = X_evict ctx pc ->
  wp (evict ctx pc) (fun _ w' => sound w' /\ changed w w' /\ executor w' = X_done ctx QUERY_RESULT_EJECT /\
    events w' = Evicted (ctx_query_id ctx) pc :: events w /\
    (connected (memory_of w) -> writes_succeed (conn_of (memory_of w)) -> forall f t, stored (BSS := BSS) (memory_of w') f t) /\
    exists r st, master_send (package_of_two (master_op OP_WORKER_EVICT_RES) (ctx_query_id ctx) pc) (ws_master_socket (state w)) st =
                     Some (r, the_store (memory_of w'))) w.
Proof.
  intros Hw Ex. unfold evict.
  assert (Hk : wp (x ← (_ ← in_memory mm_flush_all_dirty; send_evict_res (ctx_query_id ctx) pc);
                   emit (Evicted (ctx_query_id ctx) pc);; go (X_done ctx QUERY_RESULT_EJECT))
    (fun _ w' => sound w' /\ changed w w' /\ executor w' = X_done ctx QUERY_RESULT_EJECT /\
      events w' = Evicted (ctx_query_id ctx) pc :: events w /\
      (connected (memory_of w) -> writes_succeed (conn_of (memory_of w)) -> forall f t, stored (BSS := BSS) (memory_of w') f t) /\
      exists r st, master_send (package_of_two (master_op OP_WORKER_EVICT_RES) (ctx_query_id ctx) pc) (ws_master_socket (state w)) st =
                     Some (r, the_store (memory_of w'))) w).
  { apply wp_bind, flush_and_send; [apply Hw|]. intros mm Hu Hst Hsent. unfold wp. cbn.
    destruct (sound_untouched _ _ Hw Hu) as [Hwf Hse Hc Hs Hq _]. split; [by split|]. split; [left; apply Hu|].
    split; [done|]. split; [done|]. split; [exact Hst|exact Hsent]. }
  revert Hk. unfold wp, mbind, st_bind. destruct (in_memory mm_flush_all_dirty w) as [[r w1]|]; [|done].
  by destruct (send_evict_res _ _ w1) as [[? w2]|].
Qed.

Lemma fetched_within path pc raw :
  snd (fetch_instruction path (u32 pc)) = Some raw -> - 2 ^ 31 <= pc < 2 ^ 31 -> pc < 2 ^ 31 - 1.
Proof.
  unfold fetch_instruction. destruct (file_contents path) as [bs|] eqn:E; [|done]. intros H Hpc.
  pose proof (Hsmall _ _ E) as Hb. destruct (fetch_loop _ _ _ _) as [r [l|]] eqn:Ef; [|done].
  pose proof (u32_bound pc) as Hu. apply fetch_loop_within in Ef; [|lia|lia].
  unfold u32 in *. destruct (decide (0 <= pc)); [rewrite Z.mod_small in Ef by lia; lia|lia].
Qed.

Lemma script_path_fits w ctx :
  sound w -> fits ctx -> script_path (config_path_scripts (state w)) (query_path ctx) = Some (scripts +:+ query_path ctx).
Proof.
  intros Hw [Hf _]. destruct (so_setup _ Hw) as (_ & _ & _ & ->). unfold script_path.
  destruct (Z.leb_spec (strlen scripts + strlen (query_path ctx) + 1) 256); [done|lia].
Qed.

Lemma execute_good w ctx :
  sound w -> executor w = X_execute ctx -> wp (execute_fetched ctx) (good_step w) w.
Proof.
  intros Hw Ex. pose proof (so_point _ Hw) as Hfit. rewrite Ex in Hfit. cbn in Hfit. unfold execute_fetched.
  apply wp_bind, wp_gets. rewrite (script_path_fits w ctx Hw Hfit).
  assert (Hfail : wp (emit (Failed ctx);; go (X_done ctx QUERY_RESULT_ERROR)) (good_step w) w).
  { apply (control_step w (state w)); try done; apply Hw. }
  destruct (fetch_instruction _ _) as [rc [raw|]] eqn:Ef; [|exact Hfail].
  destruct (decode_instruction raw) as [rd [i|]] eqn:Ed; [|exact Hfail].
  pose proof (fetched_within (scripts +:+ query_path ctx) (ctx_program_counter ctx) raw ltac:(by rewrite Ef) (proj2 Hfit)) as Hpc.
  assert (Hg : gentle i) by (eapply Hgentle; [by rewrite Ef|by rewrite Ed]).
  destruct (so_setup _ Hw) as (E1 & E2 & E3 & E4).
  assert (Hx : wp (execute_instruction i ss ms (ctx_query_id ctx) wid) (fun r mm' =>
    executed (BSS := BSS) i (MkConn ss ms (ctx_query_id ctx)) wid (memory_of w) mm' r /\ searchable mm') (memory_of w)).
  { apply gentle_run; [apply Hw|apply Hw|apply Hconn|exact Hg]. }
  apply wp_bind. rewrite E1, E2, E3. eapply wp_in_memory; [exact Hx|]. intros r mm [He Hse].
  assert (Hgo : forall x, fits_at x -> good_step w tt (MkWorker (set_memory_manager mm (state w)) x (listener w) (signaled w)
    (Executed ctx raw i r :: events w))).
  { intros x Hxf. split; [|right; by exists ctx, raw, i, r].
    destruct Hw as [_ _ Hc _ Hq _]. split; try done; [apply He|].
    change (memory_of _) with mm. destruct (x_conn _ _ _ _ _ _ He) as [Ec _]. unfold conn_of in Ec. injection Ec as -> -> _. exact Hc. }
  apply wp_bind. unfold wp. cbn. destruct (r <? 0); [by apply Hgo|].
  destruct (Z.eqb_spec (ctx_program_counter ctx) (2 ^ 31 - 1)); [lia|]. by apply Hgo.
Qed.

Lemma error_good w id (R : unit -> worker_t -> Prop) :
  sound w ->
  (forall mm, untouched (memory_of w) mm -> R tt (with_memory mm w)) ->
  wp (_ ← in_memory mm_flush_all_dirty; notify_master_query_error id) R w.
Proof.
  intros Hw HR. apply wp_bind. eapply wp_in_memory; [by apply mm_flush_all_dirty_run, Hw|].
  intros r mm [Hc _]. destruct (cleaned_runs _ _ Hc) as [Hruns Hs]. unfold notify_master_query_error.
  apply wp_bind, wp_gets. destruct (_ <? 0); [by apply wp_ret, HR|]. apply wp_bind, wp_in_store; [apply Hruns|apply master_send_run|].
  intros r' st _ Hruns' Hs'. apply wp_ret. apply (HR (on_store st mm)). eapply untouched_trans; by split.
Qed.

(** What [finish_query] does after a result that is not an eviction. *)
Lemma finish_good w ctx result :
  sound w -> executor w = X_done ctx result -> wp (finish_query ctx result) (good_step w) w.
Proof.
  intros Hw Ex. unfold finish_query. apply wp_bind.
  assert (Hk : forall mm, untouched (memory_of w) mm ->
    wp (s ← st_gets state;
        st_when (has_query s && (ctx_query_id (current_query s) =? ctx_query_id ctx)) (upd (set_has_query false));;
        upd (set_is_executing false))
     (fun _ w1 => wp (emit (Finished (ctx_query_id ctx) result);; go X_fetch) (good_step w) w1) (with_memory mm w)).
  { intros mm Hu. pose proof (sound_untouched _ _ Hw Hu) as Hw'. destruct Hw' as [Hwf Hse Hc Hs Hq _].
    unfold wp, mbind, st_bind, st_gets, st_when. destruct (has_query (state (with_memory mm w)) && _);
      (split; [by split|left; apply Hu]). }
  destruct result.
  - apply wp_bind, wp_ret. assert (E : with_memory (memory_of w) w = w) by (by destruct w as [[] ? ? ? ?]).
    rewrite <- E. apply Hk. by split; [apply runs_refl, Hw|].
  - apply wp_bind, wp_ret. assert (E : with_memory (memory_of w) w = w) by (by destruct w as [[] ? ? ? ?]).
    rewrite <- E. apply Hk. by split; [apply runs_refl, Hw|].
  - apply wp_bind. unfold wp. cbn. apply (control_step w _); try done; apply Hw.
  - apply wp_bind, error_good; [done|]. intros mm Hu. by apply Hk.
Qed.

Lemma executor_good w :
  sound w -> executor w <> X_exit -> wp query_executor_thread (good_step w) w.
Proof.
  intros Hw Hx. unfold query_executor_thread. apply wp_bind, wp_gets. pose proof (so_point _ Hw) as Hp.
  assert (Hfetch : wp fetch_next_query (good_step w) w).
  { unfold fetch_next_query. apply wp_bind, wp_gets. destruct (negb _ && _); [|destruct (_ && _)].
    - by apply (control_step w (state w)); try done; apply Hw.
    - by apply (control_step w (state w)); try done; apply Hw.
    - by apply (control_step w (set_is_executing true (state w))); try done; apply Hw. }
  destruct (executor w) as [| | |ctx|ctx|ctx e|ctx pc|ctx|ctx r|] eqn:Ex; try done.
  - apply (control_step w (set_ejection_requested false (state w))); try done; apply Hw.
  - apply wp_bind, wp_gets. apply (control_step w (state w)); try done; [apply Hw|apply Hw|].
    by destruct (ejection_requested (state w)).
  - by apply execute_good.
  - apply wp_bind, wp_gets. apply (control_step w (state w)); try done; [apply Hw|apply Hw|].
    destruct (ejection_requested (state w)); [done|]. by destruct e.
  - eapply wp_mono; [by apply evict_good|]. intros [] w' (H1 & H2 & _). by split.
  - assert (Hq : fits (at_pc (ctx_program_counter ctx + 1) (current_query (state w))) /\ fits (next ctx)).
    { destruct Hp as [[Hf1 Hf2] Hf3]. pose proof (so_query _ Hw) as [Hq1 _]. unfold fits. cbn. repeat split; try done; lia. }
    apply (control_step w (set_current_query (at_pc (ctx_program_counter ctx + 1) (current_query (state w))) (state w)));
      [done|done|apply Hw|apply Hq|apply Hq].
  - by apply finish_good.
Qed.

(** ** The listener *)

Definition fitting_paths (c : choice) w : Prop :=
  forall pkg q, c = Run_listener -> listener w = L_handle pkg ->
    operation_code pkg = master_op OP_WORKER_START_QUERY -> read_query pkg = Some q ->
    strlen scripts + strlen (query_path q) + 1 <= 256.

Lemma read_query_pc pkg q : read_query pkg = Some q -> - 2 ^ 31 <= ctx_program_counter q < 2 ^ 31.
Proof.
  unfold read_query. destruct (package_read_uint32 pkg) as [[id|] pkg1]; [|done].
  destruct (package_read_uint32 pkg1) as [[pc|] pkg2]; [|done]. destruct (package_read_string pkg2) as [[path|] pkg3]; [|done].
  intros [= <-]. cbn [ctx_program_counter]. apply i32_range.
Qed.

Lemma assign_good w pkg q :
  sound w -> listener w = L_receive -> read_query pkg = Some q -> strlen scripts + strlen (query_path q) + 1 <= 256 ->
  wp (assign_query pkg) (good_step w) w.
Proof.
  intros Hw Hl Hq Hlen. unfold assign_query. rewrite Hq. pose proof (Nat2Z.is_nonneg (String.length scripts)).
  destruct (Z.leb_spec PATH_MAX (strlen (query_path q))); [unfold PATH_MAX, strlen in *; lia|].
  unfold wp. cbn. destruct Hw as [Hwf Hse Hc Hs Hf Hp].
  assert (Hwf' : wf (mm_set_query_id (ctx_query_id q) (memory_of w))).
  { apply connections_wf; [exact Hwf|]. destruct Hc as [-> ->]. apply Hconn. }
  split; [|left; done]. split; try done. split; [exact Hlen|by eapply read_query_pc].
Qed.

Lemma listener_good w :
  sound w -> fitting_paths Run_listener w -> listener w <> L_receive -> listener w <> L_exit ->
  wp master_listener_thread (good_step w) w.
Proof.
  intros Hw Hfit Hr He. unfold master_listener_thread. apply wp_bind, wp_gets.
  destruct (listener w) as [|pkg|id pc|] eqn:El; try done.
  - unfold dispatch_package. apply wp_bind, wp_modify.
    set (w1 := MkWorker (state w) (executor w) L_receive (signaled w) (events w)).
    assert (Hw1 : sound w1) by (destruct Hw; by split).
    assert (Hnop : wp (mret tt : ST worker_t unit) (good_step w) w1) by (split; [exact Hw1|by left]).
    assert (Hup : forall m, wp m (good_step w1) w1 -> wp m (good_step w) w1) by done.
    destruct (Z.eqb_spec (operation_code pkg) (master_op OP_WORKER_START_QUERY)) as [Eop|_].
    { destruct (read_query pkg) as [q|] eqn:Eq; [|unfold assign_query; by rewrite Eq].
      apply Hup. apply (assign_good w1 pkg q); try done. by apply (Hfit pkg q). }
    destruct (_ =? _).
    { unfold eject_query. destruct (package_read_uint32 pkg) as [[id|] pkg1]; [|exact Hnop].
      apply wp_bind, wp_gets. destruct (_ && _); [|exact Hnop].
      destruct (is_executing _); [by apply (control_step w (set_ejection_requested true (state w))); try done; apply Hw|].
      by apply (control_step w (set_has_query false (state w))); try done; apply Hw. }
    destruct (_ =? _); [|exact Hnop].
    by apply (control_step w (set_has_query false (set_should_stop true (state w)))); try done; apply Hw.
  - unfold eject_ready.
    assert (Hk : wp (x ← (_ ← in_memory mm_flush_all_dirty; send_evict_res id pc);
                     emit (Evicted_ready id pc);; listen L_receive) (good_step w) w).
    { apply wp_bind, flush_and_send; [apply Hw|]. intros mm Hu _ _. unfold wp. cbn.
      destruct (sound_untouched _ _ Hw Hu) as [Hwf Hse Hc Hs Hq Hp]. split; [by split|left; apply Hu]. }
    revert Hk. unfold wp, mbind, st_bind. destruct (in_memory mm_flush_all_dirty w) as [[r w1]|]; [|done].
    by destruct (send_evict_res _ _ w1) as [[? w2]|].
Qed.

(** What arrives from the Master touches no file. *)
Lemma receive_good w w' : sound w -> receive_package w = Some (tt, w') -> good_step w tt w'.
Proof.
  intros Hw H. unfold receive_package in H. apply run_bind in H as (s & w0 & [= <- <-] & H).
  apply run_bind in H as (pkg & w1 & Hm & [= <-]). unfold in_store, in_memory in Hm.
  destruct (master_receive _ _) as [[p st]|] eqn:E; [|done]. injection Hm as <- <-.
  destruct (same_call (memory_of w) st (so_wf _ Hw) (master_receive_same _ _ _ _ E)) as [Hr Hs].
  destruct (sound_untouched w _ Hw (conj Hr Hs)) as [Hwf Hse Hc Hset Hq Hp]. split; [by split|by left].
Qed.

Lemma step_good c w w' : sound w -> fitting_paths c w -> step c w = Some w' -> good_step w tt w'.
Proof.
  intros Hw Hf. unfold step. destruct (enabled c w) eqn:He; [|done].
  assert (Hx : wp query_executor_thread (good_step w) w -> snd <$> query_executor_thread w = Some w' -> good_step w tt w').
  { intros ([] & w1 & -> & Hg)%wp_run [= <-]. exact Hg. }
  unfold enabled in He. destruct c; cbn [thread].
  - apply Hx, executor_good; [done|]. intros E. by rewrite E in He.
  - destruct (listener w) as [|pkg|id pc|] eqn:El.
    + unfold master_listener_thread, mbind, st_bind, st_gets. rewrite El.
      destruct (receive_package w) as [[[] w1]|] eqn:E; [|done]. intros [= <-]. by apply receive_good.
    + intros H. destruct (wp_run _ _ _ (listener_good w Hw Hf ltac:(by rewrite El) ltac:(by rewrite El))) as ([] & w1 & E & Hg).
      rewrite E in H. by injection H as <-.
    + intros H. destruct (wp_run _ _ _ (listener_good w Hw Hf ltac:(by rewrite El) ltac:(by rewrite El))) as ([] & w1 & E & Hg).
      rewrite E in H. by injection H as <-.
    + by destruct (executor w).
  - apply Hx, executor_good; [done|]. intros E. by rewrite E in He.
Qed.

(** A step of a thread that can run is defined, unless it is the wait for the
    Master's next package. *)
Lemma step_defined c w :
  sound w -> fitting_paths c w -> enabled c w = true -> (c = Run_listener -> listener w <> L_receive) ->
  exists w', step c w = Some w'.
Proof.
  intros Hw Hf He Hl. unfold step. rewrite He.
  assert (Hx : executor w <> X_exit -> exists w', snd <$> query_executor_thread w = Some w').
  { intros Hx. destruct (wp_run _ _ _ (executor_good w Hw Hx)) as (u & w1 & -> & _). by eexists. }
  unfold enabled in He. destruct c; cbn [thread].
  - apply Hx. intros E. by rewrite E in He.
  - destruct (wp_run _ _ _ (listener_good w Hw Hf (Hl eq_refl) ltac:(intros E; rewrite E in He; by destruct (executor w)))) as (u & w1 & -> & _).
    by eexists.
  - apply Hx. intros E. by rewrite E in He.
Qed.

(** The runs in which the Master's paths fit the buffer. *)
Inductive reached w0 : worker_t -> Prop :=
| reached_here : reached w0 w0
| reached_step c w w' : reached w0 w -> fitting_paths c w -> step c w = Some w' -> reached w0 w'.

Lemma reached_sound_worker w0 w : sound w0 -> reached w0 w -> sound w.
Proof. intros H0. induction 1 as [|c w w' _ IH Hf Hs]; [done|]. by apply (step_good c w w'). Qed.

Lemma initial_sound mm :
  wf mm -> searchable mm -> storage_socket mm = ss -> master_socket mm = ms ->
  sound (initial_worker ms ss scripts mm wid).
Proof. intros. split; try done. unfold fits, strlen in *. cbn. lia. Qed.

End Memory.
