(* ===== verification/ThreadsProps.v ===== *)
(** * What the threads of the worker guarantee (properties)

    Every run keeps the promise of ThreadsSpec.v; the memory manager has one user
    at a time, stays well formed, and its contents change by instructions only; a
    query that is given up leaves its files in the Storage; and the moments at
    which a request of the Master is lost. *)

From S2P Require Import Prelude CStrings Commons Serialization Protocol PageTable MemoryManager MemoryInvariant MemorySpec.
From S2P Require Import PagingSpec FlushSpec FilesSpec Interpreter InterpreterSpec ParseSpec BlockDisk WorkerProps.
From S2P Require Import WorkerThreads ThreadsSpec ThreadsMemory.

(** ** Runs *)

Section Runs.
Context {BS : BlockStorage} {ML : MasterLink BS} {WC : WorkerCalls BS} {CS : CommonsString} {FS : FileSystem}.
Implicit Types (w : worker_t) (s : worker_state_t).

(** What no step changes. *)
Definition same_setup s s' : Prop :=
  config_path_scripts s' = config_path_scripts s /\ ws_master_socket s' = ws_master_socket s /\
  ws_storage_socket s' = ws_storage_socket s /\ ws_worker_id s' = ws_worker_id s.

Lemma step_setup c w w' : step c w = Some w' -> same_setup (state w) (state w').
Proof.
  intros [He|[_ Hl]]%step_moves; [destruct He|destruct Hl]; try match goal with H : same_state _ _ |- _ => destruct H as [mm ->] end;
    try done. by destruct (_ && _).
Qed.

Lemma step_coherent c w w' : step c w = Some w' -> coherent w -> coherent w'.
Proof. intros [He|[_ Hl]]%step_moves; [by apply executor_coherent|by apply listener_coherent]. Qed.

Lemma initial_coherent ms ss scripts mm wid : coherent (initial_worker ms ss scripts mm wid).
Proof. by split. Qed.

Lemma run_coherent cs w w' : run cs w = Some w' -> coherent w -> coherent w'.
Proof.
  revert w. induction cs as [|c cs IH]; intros w; cbn [run]; [by intros [= <-]|].
  destruct (step c w) as [w1|] eqn:E; [|done]. intros Hr Hc. eapply IH; [exact Hr|]. by eapply step_coherent.
Qed.

(** A run of which every step is one of [runs_to]. *)
Lemma runs_to_setup w0 w : runs_to w0 w -> same_setup (state w0) (state w).
Proof.
  induction 1 as [|c w w' _ IH _ Hs]; [done|]. destruct (step_setup _ _ _ Hs) as (E1 & E2 & E3 & E4).
  destruct IH as (F1 & F2 & F3 & F4). repeat split; congruence.
Qed.

(** ** The promise *)



(** ** Requests to give a query up *)

(** The query the executor is running, and how many steps it is from answering. *)
Definition running_query (x : executor_point) : option (query_context_t * nat) :=
  match x with
  | X_evict ctx _ => Some (ctx, 1%nat)
  | X_before ctx | X_after ctx _ => Some (ctx, 2%nat)
  | X_execute ctx | X_next ctx => Some (ctx, 3%nat)
  | _ => None
  end.

(** The query is over: given up, or an instruction of it failed. *)
Definition over (id : Z) (e : event) : Prop :=
  match e with
  | Evicted id' _ => id' = id
  | Executed q _ _ r => ctx_query_id q = id /\ (r <? 0) = true
  | Failed q => ctx_query_id q = id
  | _ => False
  end.

Lemma executor_approaches w w' ctx n :
  executor_moves w w' -> ejection_requested (state w) = true -> running_query (executor w) = Some (ctx, n) ->
  (exists e, events w' = e :: events w /\ over (ctx_query_id ctx) e) \/
  (ejection_requested (state w') = true /\ (events w' = events w \/ exists e, events w' = e :: events w) /\
   exists ctx' m, running_query (executor w') = Some (ctx', m) /\ (S m = n)%nat /\ ctx_query_id ctx' = ctx_query_id ctx).
Proof.
  intros Hm Hj Hx. destruct Hm; try match goal with H : same_state _ _ |- _ => destruct H as [mm ->] end;
    try match goal with H : _ \/ _ |- _ => destruct H as [->| ->] end; cbn [executor state events] in *;
    try done; cbn in Hx; simplify_eq; try congruence.
  all: try (right; split; [done|split; [by left|by eexists _, _]]).
  - left. by exists (Failed ctx).
  - destruct (r <? 0) eqn:Er.
    + left. by exists (Executed ctx raw i r).
    + right. split; [done|]. split; [eauto|]. by eexists _, _.
  - left. by eexists.
Qed.

Lemma listener_leaves_executor w w' :
  listener_moves w w' -> executor w' = executor w /\
  (ejection_requested (state w) = true -> ejection_requested (state w') = true) /\
  (events w' = events w \/ exists e, events w' = e :: events w).
Proof.
  intros Hl. destruct Hl; try match goal with H : same_state _ _ |- _ => destruct H as [mm ->] end; cbn; eauto.
Qed.

Lemma step_events c w w' : step c w = Some w' -> events w' = events w \/ exists e, events w' = e :: events w.
Proof.
  intros [He|[_ Hl]]%step_moves; [destruct He; cbn; eauto|by apply listener_leaves_executor].
Qed.

Lemma run_events cs w w' : run cs w = Some w' -> exists es, events w' = es ++ events w.
Proof.
  revert w. induction cs as [|c cs IH]; intros w H; [injection H as <-; by exists []|].
  cbn in H. destruct (step c w) as [w1|] eqn:E; [|done]. cbn in H. destruct (IH w1 H) as [es ->].
  destruct (step_events _ _ _ E) as [->|[e ->]]; [by exists es|]. exists (es ++ [e]). by rewrite <- app_assoc.
Qed.

Definition executor_steps (cs : list choice) : nat :=
  length (List.filter (fun c => match c with Run_listener => false | _ => true end) cs).


(** ** What is lost *)

(** A step that is known. *)
Lemma step_is c w w' : enabled c w = true -> thread c w = Some (tt, w') -> step c w = Some w'.
Proof. unfold step. by intros -> ->. Qed.

(** Between [fetch_next_query] and the copy of the query, a request to give it up
    is taken note of and then erased by [ejection_requested = false]: the query
    runs on and the Master gets no answer. *)
Theorem ejection_lost s b es pkg pkg' id :
  operation_code pkg = master_op OP_WORKER_PREEMPT_REQ -> package_read_uint32 pkg = (Some id, pkg') ->
  has_query s = true -> is_executing s = true -> u32 (ctx_query_id (current_query s)) = id ->
  let asked := MkWorker (set_ejection_requested true s) X_start L_receive b es in
  step Run_listener (MkWorker s X_start (L_handle pkg) b es) = Some asked /\
  step Run_executor asked =
    Some (MkWorker (set_ejection_requested false s) (X_before (current_query s)) L_receive b (Started (current_query s) :: es)).
Proof.
  intros Hop Hid Hh He <-. cbv zeta. split; [|done]. apply step_is; [done|]. cbn [thread].
  change (dispatch_package pkg (MkWorker s X_start (L_handle pkg) b es) = Some (tt, MkWorker (set_ejection_requested true s) X_start L_receive b es)).
  unfold dispatch_package. rewrite Hop. change (master_op _ =? master_op OP_WORKER_START_QUERY) with false.
  change (master_op _ =? master_op OP_WORKER_PREEMPT_REQ) with true. cbv iota. unfold eject_query. rewrite Hid.
  unfold mbind, st_bind, listen, st_modify, st_gets. cbn [state executor listener signaled events].
  rewrite Hh, Z.eqb_refl, He. done.
Qed.

Lemma kept_not_running scripts es p : kept scripts es p -> (forall q, current p <> P_running q) -> answered es = true.
Proof.
  induction 1 as [|es e p p' Hk IH He]; [done|]. destruct He; cbn [answered current] in *; intros Hno; try done.
  - by apply IH.
  - by destruct (Hno q).
  - destruct (r <? 0); [done|]. destruct (is_end i); [done|]. by destruct (Hno (next q)).
  - by apply IH.
Qed.

Lemma handle_start s x b es pkg q :
  operation_code pkg = master_op OP_WORKER_START_QUERY -> read_query pkg = Some q -> strlen (query_path q) < PATH_MAX ->
  step Run_listener (MkWorker s x (L_handle pkg) b es) =
    Some (MkWorker (set_memory_manager (mm_set_query_id (ctx_query_id q) (memory_manager s))
                      (set_should_stop false (set_has_query true (set_current_query q s)))) x L_receive
            (match x with X_wait => true | _ => b end) (Assigned q :: es)).
Proof.
  intros Hop Hq Hlen. apply step_is; [by destruct x|]. cbn [thread].
  change (master_listener_thread (MkWorker s x (L_handle pkg) b es)) with (dispatch_package pkg (MkWorker s x (L_handle pkg) b es)).
  unfold dispatch_package. rewrite Hop. rewrite Z.eqb_refl. unfold assign_query. rewrite Hq.
  destruct (Z.leb_spec PATH_MAX (strlen (query_path q))); [lia|]. done.
Qed.

(** When the Master, having the answer to its request, assigns the next query
    before the executor is done with the one it gave up, that query is lost: the
    executor clears [has_query] whatever it stands for, and waits; waking up does
    not help.  The Master keeps its side of the promise all along. *)
Theorem eject_drops_query ms ss scripts mm wid w ctx pkg q :
  runs_to (initial_worker ms ss scripts mm wid) w ->
  executor w = X_done ctx QUERY_RESULT_EJECT -> listener w = L_handle pkg ->
  operation_code pkg = master_op OP_WORKER_START_QUERY -> read_query pkg = Some q -> strlen (query_path q) < PATH_MAX ->
  exists w', runs_to (initial_worker ms ss scripts mm wid) w' /\ executor w' = X_wait /\ has_query (state w') = false /\
    events w' = Finished (ctx_query_id ctx) QUERY_RESULT_EJECT :: Assigned q :: events w /\
    enabled Run_executor w' = false /\ step Wake_up w' = Some w'.
Proof.
  destruct w as [s x l b es]. cbn [executor listener events]. intros Hr -> -> Hop Hq Hlen.
  destruct (runs_represent _ _ _ _ _ _ Hr) as [p [Hk _ Hs _]]. cbn [state executor events stands] in Hk, Hs.
  assert (Ha : answered es = true).
  { eapply kept_not_running; [exact Hk|]. destruct Hs as [[pc ->] _]. done. }
  set (s' := set_is_executing false (set_has_query false (set_memory_manager (mm_set_query_id (ctx_query_id q) (memory_manager s))
    (set_should_stop false (set_has_query true (set_current_query q s)))))).
  set (es' := Finished (ctx_query_id ctx) QUERY_RESULT_EJECT :: Assigned q :: es).
  exists (MkWorker s' X_wait L_receive false es'). split; [|done].
  apply (runs_step _ Run_executor (MkWorker s' X_fetch L_receive b es')); [|by intros ? ?|reflexivity].
  eapply (runs_step _ Run_executor); [|by intros ? ?|].
  - eapply (runs_step _ Run_listener); [exact Hr| |by apply handle_start]. intros pkg' _ [= <-] _. exact Ha.
  - reflexivity.
Qed.

(** The order to stop does not wake an executor that waits, and neither does the
    loss of the connection, which does not even raise [should_stop]: the listener
    is gone, no thread can run, and the process never ends. *)
Theorem stop_hangs s es pkg :
  has_query s = false ->
  (operation_code pkg = master_op OP_END_QUERY -> exists w',
    step Run_listener (MkWorker s X_wait (L_handle pkg) false es) = Some w' /\
    executor w' = X_wait /\ should_stop (state w') = true /\
    enabled Run_executor w' = false /\ enabled Run_listener w' = false) /\
  (should_stop s = false -> forall net, master_receive (ws_master_socket s) (the_store (memory_manager s)) = Some (None, net) ->
   exists w', step Run_listener (MkWorker s X_wait L_receive false es) = Some w' /\ executor w' = X_wait /\
    enabled Run_executor w' = false /\ enabled Run_listener w' = false /\ step Wake_up w' = Some w').
Proof.
  intros Hh. split.
  - intros Hop. exists (MkWorker (set_has_query false (set_should_stop true s)) X_wait L_exit false es). split; [|done].
    apply step_is; [done|].
    change (thread Run_listener ?w) with (dispatch_package pkg w). unfold dispatch_package. rewrite Hop. reflexivity.
  - intros Hs net Hr.
    exists (MkWorker (set_memory_manager (on_store net (memory_manager s)) s) X_wait L_exit false es).
    split; [|repeat split].
    + apply step_is; [done|]. change (thread Run_listener ?w) with (receive_package w).
      unfold receive_package, in_store, in_memory, mbind, st_bind, st_gets. cbn [state]. by rewrite Hr.
    + unfold step, enabled. cbn [executor]. cbn [thread]. unfold query_executor_thread, fetch_next_query, mbind, st_bind, st_gets.
      cbn [executor state has_query should_stop set_memory_manager]. by rewrite Hh, Hs.
Qed.

End Runs.

(** ** The memory of the worker *)

Section Memory.
Context {BS : BlockStorage} {ML : MasterLink BS} {WC : WorkerCalls BS} {CS : CommonsString} {FS : FileSystem}.
Context {ps : Z} {BSS : BlockStorageSpec BS ps} {WCS : WorkerCallsSpec WC BSS} {MLS : MasterLinkSpec ML BSS}.
Implicit Types (w : worker_t) (mm : memory_manager_t).


(** A query that is given up can go on elsewhere.  The step that answers the
    Master changes no file and, with the worker connected and a Storage that takes
    the pages, leaves every file in the Storage: a worker that has no page of a
    file in memory reads there what this one would have.  The message of the
    answer carries the query and the line to go on from. *)
Theorem eviction_saves ss ms wid scripts w ctx pc :
  (forall id, conn_ok (MkConn ss ms id)) ->
  sound (BSS := BSS) ss ms wid scripts w -> executor w = X_evict ctx pc ->
  exists w', step Run_executor w = Some w' /\ executor w' = X_done ctx QUERY_RESULT_EJECT /\
    same_content (BSS := BSS) (memory_of w) (memory_of w') /\
    (connected (memory_of w) -> writes_succeed (conn_of (memory_of w)) -> forall mm2 f t a,
       the_store mm2 = the_store (memory_of w') -> mm_find_page_table mm2 f t = None -> 0 <= a ->
       content (BSS := BSS) mm2 f t a = content (BSS := BSS) (memory_of w) f t a) /\
    exists p r st, master_send p ms st = Some (r, the_store (memory_of w')) /\
      carries (serialized_package p) (master_op OP_WORKER_EVICT_RES) [F_uint32 (u32 (ctx_query_id ctx)); F_uint32 (u32 pc)].
Proof.
  intros Hc Hw Hx. pose proof (evict_good ss ms wid scripts w ctx pc Hw Hx) as H.
  apply wp_run in H as ([] & w' & E & _ & Hch & Ex & Eev & Hst & r & st & Hsent). exists w'.
  assert (Hsame : same_content (BSS := BSS) (memory_of w) (memory_of w')).
  { destruct Hch as [Hs|(ctx' & raw & i & r' & Eev' & _)]; [exact Hs|]. by rewrite Eev in Eev'. }
  split; [|split; [done|split; [exact Hsame|split]]].
  - apply step_is; [unfold enabled; by rewrite Hx|]. cbn [thread]. unfold query_executor_thread, mbind, st_bind, st_gets.
    by rewrite Hx.
  - intros Hcn Hwr mm2 f t a Est Hno Ha. rewrite <- Hsame by done. rewrite (Hst Hcn Hwr f t a Ha).
    unfold content. unfold mm_find_page_table in Hno. destruct (List.find _ _); [done|]. by rewrite Est.
  - exists (package_of_two (master_op OP_WORKER_EVICT_RES) (ctx_query_id ctx) pc), r, st.
    destruct (so_setup _ _ _ _ _ Hw) as (_ & <- & _). split; [exact Hsent|]. by apply package_of_two_carries.
Qed.

End Memory.

(** ** Runs on the reference Storage *)

(** A schedule that the Master keeps to, by computation. *)
Definition waits (c : choice) `{BS : BlockStorage} (w : worker_t) : bool :=
  match c, listener w with
  | Run_listener, L_handle pkg => negb (operation_code pkg =? master_op OP_WORKER_START_QUERY) || answered (events w)
  | _, _ => true
  end.

Section Schedules.
Context {BS : BlockStorage} {ML : MasterLink BS} {WC : WorkerCalls BS} {CS : CommonsString} {FS : FileSystem}.
Implicit Types (w : worker_t).

Fixpoint obeys (cs : list choice) w : bool :=
  match cs with
  | [] => true
  | c :: cs => waits c w && match step c w with Some w' => obeys cs w' | None => false end
  end.

Lemma waits_sound c w : waits c w = true -> master_waits c w.
Proof. unfold waits, master_waits. intros H pkg -> El Eop. rewrite El, Eop in H. exact H. Qed.

Lemma obeys_runs cs w0 w : runs_to w0 w -> obeys cs w = true -> exists w', run cs w = Some w' /\ runs_to w0 w'.
Proof.
  revert w. induction cs as [|c cs IH]; intros w Hr; cbn [obeys run]; [by exists w|].
  intros [Hw Ho]%andb_true_iff. destruct (step c w) as [w1|] eqn:E; [|done]. cbn. apply IH; [|done].
  eapply runs_step; [exact Hr|by apply waits_sound|exact E].
Qed.

(** The state after a schedule. *)
Definition after_run (cs : list choice) w : worker_t := match run cs w with Some w' => w' | None => w end.

Lemma after_run_is cs w : obeys cs w = true -> run cs w = Some (after_run cs w) /\ runs_to w (after_run cs w).
Proof.
  intros H. destruct (obeys_runs cs w w (runs_nothing w) H) as (w' & E & Hr). unfold after_run. rewrite E. by split.
Qed.

End Schedules.

#[local] Existing Instance disk_storage.
#[local] Existing Instance disk_calls.

Definition readable : string -> string -> Z -> bool := fun _ _ _ => false.

(** The Master: what it sends comes from a list, what it is sent joins the rest. *)
#[local] Instance disk_link : MasterLink (disk_storage readable) := {|
  master_send p fd := fun d : @store (disk_storage readable) =>
    Some (0, MkDisk (blocks d) (to_the_master d ++ [(EmptyString, EmptyString, serialized_package p)]) (from_the_master d));
  master_receive fd := fun d : @store (disk_storage readable) =>
    match from_the_master d with
    | [] => Some (None, d)
    | p :: ps => Some (Some p, MkDisk (blocks d) (to_the_master d) ps)
    end
|}.

#[local] Instance disk_link_spec : MasterLinkSpec disk_link (disk_spec readable).
Proof. split; [done|]. intros fd d r d'. cbn. destruct (from_the_master d); by intros [= _ <-]. Qed.

(** One script, [/s/q]. *)
Definition script : list byte := string_bytes "WRITE f:t 0 abcd" ++ x0a :: string_bytes "END".
#[local] Instance scripts_disk : FileSystem := fun path => if String.eqb path "/s/q" then Some script else None.

Definition incoming (op : t_master_op_code) (fs : list field) : t_package :=
  package_reset_read_offset (snd (package_add_all (package_create_empty (master_op op)) fs)).

Definition starts (id pc : Z) : t_package := incoming OP_WORKER_START_QUERY [F_uint32 id; F_uint32 pc; F_string "q"].
Definition preempts (id : Z) : t_package := incoming OP_WORKER_PREEMPT_REQ [F_uint32 id].

Definition fed (pkgs : list t_package) : @memory_manager_t (disk_storage readable) :=
  on_store (MkDisk (fun _ _ _ => []) [] pkgs : @store (disk_storage readable)) (worker_on readable 2 LRU).

Definition worker_with (pkgs : list t_package) : worker_t := initial_worker 8 7 "/s/" (fed pkgs) 1.

(** The query is assigned, writes, and is given up. *)
Definition X := Run_executor.
Definition L := Run_listener.
Definition up_to_request : list choice := [L; L; X; X; X; X; L; L].

Example given_up_events :
  events (after_run (up_to_request ++ [X; X; X]) (worker_with [starts 3 0; preempts 3])) =
    [Finished 3 QUERY_RESULT_EJECT; Evicted 3 1;
     Executed (MkContext "q" 3 0) "WRITE f:t 0 abcd" (I_write "f" "t" 0 "abcd") 0;
     Started (MkContext "q" 3 0); Assigned (MkContext "q" 3 0)].
Proof. vm_compute. reflexivity. Qed.

Abbreviation requested := (after_run up_to_request (worker_with [starts 3 0; preempts 3])).
Abbreviation given_up := (after_run (up_to_request ++ [X; X; X]) (worker_with [starts 3 0; preempts 3])).

Lemma fed_sound pkgs :
  mm_wf (BSS := disk_spec readable) (fed pkgs) /\ searchable (fed pkgs) /\
  storage_socket (fed pkgs) = 7 /\ master_socket (fed pkgs) = 8.
Proof.
  destruct (worker_on_sound readable 2 LRU ltac:(lia)) as [Hwf Hnl].
  destruct (same_call (BSS := disk_spec readable) (worker_on readable 2 LRU)
    (MkDisk (fun _ _ _ => []) [] pkgs : @store (disk_storage readable)) Hwf) as [Hr _]; [done|].
  split; [apply Hr|]. split; [done|]. split; reflexivity.
Qed.




Example ejection_lost_witness :
  let s := MkWorkerState true false false true (MkContext "q" 3 0) 8 7 "/s/" (fed []) 1 in
  let asked := MkWorker (set_ejection_requested true s) X_start L_receive false [] in
  step Run_listener (MkWorker s X_start (L_handle (preempts 3)) false []) = Some asked /\
  step Run_executor asked =
    Some (MkWorker (set_ejection_requested false s) (X_before (MkContext "q" 3 0)) L_receive false [Started (MkContext "q" 3 0)]).
Proof.
  cbv zeta.
  assert (Hid : fst (package_read_uint32 (preempts 3)) = Some 3) by (vm_compute; reflexivity).
  destruct (package_read_uint32 (preempts 3)) as [o pkg'] eqn:E. cbn [fst] in Hid. subst o.
  refine (ejection_lost (MkWorkerState true false false true (MkContext "q" 3 0) 8 7 "/s/" (fed []) 1) false []
    (preempts 3) pkg' 3 _ E eq_refl eq_refl _); vm_compute; reflexivity.
Defined.

(** The next query arrives while the executor is still to finish the first. *)
Definition next_assigned : list choice := up_to_request ++ [X; X; L].
Abbreviation answered_once := (after_run next_assigned (worker_with [starts 3 0; preempts 3; starts 4 0])).

Example eject_drops_query_witness :
  exists w', runs_to (worker_with [starts 3 0; preempts 3; starts 4 0]) w' /\ executor w' = X_wait /\
    has_query (state w') = false /\
    events w' = Finished 3 QUERY_RESULT_EJECT :: Assigned (MkContext "q" 4 0) :: events answered_once /\
    enabled Run_executor w' = false /\ step Wake_up w' = Some w'.
Proof.
  assert (Hl : listener answered_once = L_handle (starts 4 0)) by (vm_compute; reflexivity).
  apply (eject_drops_query 8 7 "/s/" (fed [starts 3 0; preempts 3; starts 4 0]) 1 answered_once (MkContext "q" 3 0) (starts 4 0)
    (MkContext "q" 4 0)); [|vm_compute; reflexivity|exact Hl|vm_compute; reflexivity|vm_compute; reflexivity|vm_compute; reflexivity].
  apply after_run_is. vm_compute. reflexivity.
Defined.

Example stop_hangs_witness :
  let s := MkWorkerState false false false false (MkContext "q" 3 0) 8 7 "/s/" (fed []) 1 in
  (exists w', step Run_listener (MkWorker s X_wait (L_handle (incoming OP_END_QUERY [])) false []) = Some w' /\
    executor w' = X_wait /\ should_stop (state w') = true /\
    enabled Run_executor w' = false /\ enabled Run_listener w' = false) /\
  (exists w', step Run_listener (MkWorker s X_wait L_receive false []) = Some w' /\ executor w' = X_wait /\
    enabled Run_executor w' = false /\ enabled Run_listener w' = false /\ step Wake_up w' = Some w').
Proof.
  cbv zeta. destruct (stop_hangs (MkWorkerState false false false false (MkContext "q" 3 0) 8 7 "/s/" (fed []) 1) []
    (incoming OP_END_QUERY []) eq_refl) as [H1 H2].
  split; [apply H1; vm_compute; reflexivity|]. eapply H2; [reflexivity|]. cbn. reflexivity.
Defined.

Lemma fetch_step n bs cur pc line rest :
  fgets 255 bs = (line, rest) -> bs <> [] ->
  fetch_loop (S n) bs cur pc = if cur =? pc then (0, Some (cut_line line)) else fetch_loop n rest (u32 (cur + 1)) pc.
Proof. intros E Hne. cbn [fetch_loop]. destruct bs; [done|]. by rewrite E. Qed.

Lemma script_lines pc raw :
  snd (fetch_loop (S (length script)) script 0 pc) = Some raw -> raw = "WRITE f:t 0 abcd" \/ raw = "END".
Proof.
  assert (El : length script = 20%nat) by (vm_compute; reflexivity). rewrite El.
  assert (E1 : fgets 255 script = (string_bytes "WRITE f:t 0 abcd" ++ [x0a], string_bytes "END")) by (vm_compute; reflexivity).
  assert (E2 : fgets 255 (string_bytes "END") = (string_bytes "END", [])) by (vm_compute; reflexivity).
  rewrite (fetch_step _ script 0 pc _ _ E1) by (vm_compute; discriminate).
  destruct (0 =? pc); [intros [= <-]; by left|].
  rewrite (fetch_step _ (string_bytes "END") _ pc _ _ E2) by (vm_compute; discriminate).
  destruct (_ =? pc); [intros [= <-]; by right|done].
Qed.

Lemma script_gentle path pc raw i :
  snd (fetch_instruction ("/s/" +:+ path) pc) = Some raw -> snd (decode_instruction raw) = Some i -> gentle (BSS := disk_spec readable) i.
Proof.
  unfold fetch_instruction, file_contents, scripts_disk. destruct (String.eqb _ _); [|done].
  assert (E1 : snd (decode_instruction "WRITE f:t 0 abcd") = Some (I_write "f" "t" 0 "abcd")) by (vm_compute; reflexivity).
  assert (E2 : snd (decode_instruction "END") = Some I_end) by (vm_compute; reflexivity).
  intros [-> | ->]%script_lines; rewrite ?E1, ?E2; intros [= <-]; (split; [apply disk_named|]); [|done]. split; [lia|reflexivity].
Qed.

Lemma script_small path bs : file_contents path = Some bs -> Z.of_nat (length bs) < 2 ^ 31.
Proof. unfold file_contents, scripts_disk. destruct (String.eqb _ _); [|done]. intros [= <-]. vm_compute. reflexivity. Qed.

(** Schedules in which the paths fit the buffer, by computation. *)
Definition fits_buffer (c : choice) (w : @worker_t (disk_storage readable)) : bool :=
  match c, listener w with
  | Run_listener, L_handle pkg =>
      match read_query pkg with Some q => strlen "/s/" + strlen (query_path q) + 1 <=? 256 | None => true end
  | _, _ => true
  end.

Fixpoint fitting (cs : list choice) (w : @worker_t (disk_storage readable)) : bool :=
  match cs with
  | [] => true
  | c :: cs => fits_buffer c w && match step c w with Some w' => fitting cs w' | None => false end
  end.

Lemma fitting_reached cs w0 w : reached "/s/" w0 w -> fitting cs w = true -> reached "/s/" w0 (after_run cs w).
Proof.
  unfold after_run. revert w. induction cs as [|c cs IH]; intros w Hr; cbn [fitting run]; [done|].
  intros [Hf Ho]%andb_true_iff. destruct (step c w) as [w1|] eqn:E; [|done]. cbn. specialize (IH w1).
  assert (Hr1 : reached "/s/" w0 w1).
  { eapply reached_step; [exact Hr| |exact E]. intros pkg q -> El _ Eq. unfold fits_buffer in Hf. rewrite El, Eq in Hf. lia. }
  specialize (IH Hr1 Ho). destruct (run cs w1) eqn:Er; [exact IH|].
  exfalso. clear -Ho Er. revert w1 Ho Er. induction cs as [|c cs IH]; intros w1; cbn; [done|].
  intros [_ Ho]%andb_true_iff. destruct (step c w1); [|done]. by apply IH.
Qed.

Lemma reached_requested cs pkgs :
  fitting cs (worker_with pkgs) = true -> reached "/s/" (worker_with pkgs) (after_run cs (worker_with pkgs)).
Proof. apply fitting_reached, reached_here. Qed.


(** The query has written and is about to be given up. *)
Abbreviation giving_up := (after_run (up_to_request ++ [X]) (worker_with [starts 3 0; preempts 3])).

Lemma giving_up_sound : sound (BSS := disk_spec readable) 7 8 1 "/s/" giving_up.
Proof.
  destruct (fed_sound [starts 3 0; preempts 3]) as (Hwf & Hse & Ess & Ems).
  apply (reached_sound_worker (WCS := disk_calls_spec readable) (MLS := disk_link_spec) 7 8 1 "/s/"
    ltac:(done) script_small script_gentle (worker_with [starts 3 0; preempts 3])).
  - apply initial_sound; [vm_compute; discriminate|exact Hwf|exact Hse|exact Ess|exact Ems].
  - apply reached_requested. vm_compute. reflexivity.
Qed.

Example eviction_saves_witness :
  exists w', step Run_executor giving_up = Some w' /\ executor w' = X_done (MkContext "q" 3 0) QUERY_RESULT_EJECT /\
    same_content (BSS := disk_spec readable) (memory_of giving_up) (memory_of w') /\
    (connected (memory_of giving_up) -> writes_succeed (BS := disk_storage readable) (conn_of (memory_of giving_up)) ->
     forall mm2 f t a, the_store mm2 = the_store (memory_of w') -> mm_find_page_table mm2 f t = None -> 0 <= a ->
       content (BSS := disk_spec readable) mm2 f t a = content (BSS := disk_spec readable) (memory_of giving_up) f t a) /\
    exists p r st, master_send p 8 st = Some (r, the_store (memory_of w')) /\
      carries (serialized_package p) (master_op OP_WORKER_EVICT_RES) [F_uint32 (u32 3); F_uint32 (u32 1)].
Proof.
  apply (eviction_saves (BSS := disk_spec readable) (MLS := disk_link_spec) 7 8 1 "/s/" giving_up (MkContext "q" 3 0) 1).
  - done.
  - exact giving_up_sound.
  - vm_compute. reflexivity.
Defined.

(** A worker keeps the pages of a file in memory between queries.  When a query
    that has read a file goes on on another worker, writes there and comes back,
    it reads the old contents, although the other worker has left the new ones in
    the Storage: nothing tells the first that its page is out of date. *)
Theorem stale_pages_are_read :
  let run mm code := run_all (BS := disk_storage readable) (WC := disk_calls readable) code 7 8 3 1 mm in
  let hand_over mm1 mm2 := on_store (the_store mm1) mm2 in
  exists mm1 mm2 mm3,
    run (worker_on readable 2 LRU) [I_read "f" "t" 0 4] = Some ([0], mm1) /\
    run (hand_over mm1 (worker_on readable 2 LRU)) [I_write "f" "t" 0 "abcd"; I_flush "f" "t"] = Some ([0; 0], mm2) /\
    blocks (the_store mm2) "f" "t" 0 = string_bytes "abcd" /\
    run (hand_over mm2 mm1) [I_read "f" "t" 0 4] = Some ([0], mm3) /\
    to_the_master (the_store mm3) = [("f", "t", replicate 4 x00); ("f", "t", replicate 4 x00)].
Proof.
  cbv zeta. eexists _, _, _. split; [vm_compute; reflexivity|]. split; [vm_compute; reflexivity|].
  split; [vm_compute; reflexivity|]. split; [vm_compute; reflexivity|]. vm_compute. reflexivity.
Qed.
