(* ===== verification/StorageFs.v ===== *)
(** * The file system under the Storage

    What the Storage keeps is a directory tree with hard links: files are inodes,
    a path is a link to one, a block of a file is a second link to a physical
    block.  The calls to the kernel and to the shell are modelled here, under the
    assumption that the disk does its work: they fail for the reasons of the tree
    (a path that is missing or exists), not for want of space or by I/O errors.  A
    file name or a tag is one component of a path.  The configuration files,
    bit arrays and digests of the so-commons library are parameters. *)

From S2P Require Import Prelude CStrings Config.

(** ** Paths *)

(** Under the mount point; a physical block by its name, without [.dat]. *)
Inductive path :=
| P_superblock
| P_bitmap
| P_hash_index
| P_physical (block : string)
| P_metadata (file tag : string)
| P_logical (file tag : string) (n : Z).

Inductive dir :=
| D_root
| D_physical
| D_file (file : string)
| D_tag (file tag : string)
| D_blocks (file tag : string).

#[global] Instance path_eq_dec : EqDecision path.
Proof. solve_decision. Defined.
#[global] Instance dir_eq_dec : EqDecision dir.
Proof. solve_decision. Defined.

#[global] Instance path_countable : Countable path.
Proof.
  refine (inj_countable'
    (fun p => match p with
     | P_superblock => inl (inl tt) | P_bitmap => inl (inr (inl tt)) | P_hash_index => inl (inr (inr tt))
     | P_physical b => inr (inl b) | P_metadata f t => inr (inr (inl (f, t)))
     | P_logical f t n => inr (inr (inr (f, t, n))) end)
    (fun x : (unit + (unit + unit)) + (string + (string * string + string * string * Z)) => match x with
     | inl (inl _) => P_superblock | inl (inr (inl _)) => P_bitmap | inl (inr (inr _)) => P_hash_index
     | inr (inl b) => P_physical b | inr (inr (inl (f, t))) => P_metadata f t
     | inr (inr (inr (f, t, n))) => P_logical f t n end) _).
  by intros [].
Defined.

#[global] Instance dir_countable : Countable dir.
Proof.
  refine (inj_countable'
    (fun d => match d with
     | D_root => inl (inl tt) | D_physical => inl (inr tt) | D_file f => inr (inl f)
     | D_tag f t => inr (inr (inl (f, t))) | D_blocks f t => inr (inr (inr (f, t))) end)
    (fun x : (unit + unit) + (string + (string * string + string * string)) => match x with
     | inl (inl _) => D_root | inl (inr _) => D_physical | inr (inl f) => D_file f
     | inr (inr (inl (f, t))) => D_tag f t | inr (inr (inr (f, t))) => D_blocks f t end) _).
  by intros [].
Defined.

Definition parent (p : path) : dir :=
  match p with
  | P_superblock | P_bitmap | P_hash_index => D_root
  | P_physical _ => D_physical
  | P_metadata f t => D_tag f t
  | P_logical f t _ => D_blocks f t
  end.

(** The directories that [mkdir -p] makes; [files] itself is part of the root. *)
Definition ancestors (d : dir) : list dir :=
  match d with
  | D_root => []
  | D_physical | D_file _ => [d]
  | D_tag f t => [D_file f; d]
  | D_blocks f t => [D_file f; D_tag f t; d]
  end.

(** ["block%04d"] *)
Definition block_name (n : Z) : string := ("block" +:+ print_04 n)%string.

(** ** State *)

Inductive mutex := M_bitmap | M_hash_index | M_worker_counter.

#[global] Instance mutex_eq_dec : EqDecision mutex.
Proof. solve_decision. Defined.

Abbreviation ino := positive.

Record storage := MkStorage {
  inodes : gmap ino (list byte);
  links : gmap path ino;
  dirs : gset dir;
  next_ino : ino;
  held : list mutex;
  worker_counter : Z
}.

Definition on_inodes f st := MkStorage (f (inodes st)) (links st) (dirs st) (next_ino st) (held st) (worker_counter st).
Definition on_links f st := MkStorage (inodes st) (f (links st)) (dirs st) (next_ino st) (held st) (worker_counter st).
Definition on_dirs f st := MkStorage (inodes st) (links st) (f (dirs st)) (next_ino st) (held st) (worker_counter st).
Definition on_next_ino n st := MkStorage (inodes st) (links st) (dirs st) n (held st) (worker_counter st).
Definition on_held f st := MkStorage (inodes st) (links st) (dirs st) (next_ino st) (f (held st)) (worker_counter st).
Definition on_worker_counter f st :=
  MkStorage (inodes st) (links st) (dirs st) (next_ino st) (held st) (f (worker_counter st)).

Abbreviation SM := (ST storage).

(** ** Files *)

Definition file_at (st : storage) (p : path) : option (list byte) := links st !! p ≫= fun i => inodes st !! i.

(** The paths that link inode [i], and their number, [st_nlink]. *)
Definition paths_of (st : storage) (i : ino) : list path :=
  (filter (fun kv : path * ino => kv.2 = i) (map_to_list (links st))).*1.

Definition nlink (st : storage) (i : ino) : Z := Z.of_nat (length (paths_of st i)).

(** [stat]: the number of links of a file. *)
Definition stat_nlink (p : path) : SM (option Z) := fun st => Some (nlink st <$> links st !! p, st).

Definition file_exists (p : path) : SM bool := fun st => Some (bool_decide (is_Some (links st !! p)), st).
Definition dir_exists (d : dir) : SM bool := fun st => Some (bool_decide (d ∈ dirs st), st).

(** [fopen] with mode [r], and all there is to read. *)
Definition read_file (p : path) : SM (option (list byte)) := fun st =>
  match links st !! p with
  | None => Some (None, st)
  | Some i => match inodes st !! i with Some bs => Some (Some bs, st) | None => None end
  end.

(** [fopen] with mode [w] and what is written before [fclose]; false when it fails. *)
Definition write_file (p : path) (bs : list byte) : SM bool := fun st =>
  match links st !! p with
  | Some i => Some (true, on_inodes <[i := bs]> st)
  | None =>
      if decide (parent p ∈ dirs st)
      then Some (true, on_next_ino (Pos.succ (next_ino st))
                         (on_inodes <[next_ino st := bs]> (on_links <[p := next_ino st]> st)))
      else Some (false, st)
  end.

(** [fopen] with mode [r+], and [bs] written at the start. *)
Definition overwrite_file (p : path) (bs : list byte) : SM bool := fun st =>
  match links st !! p with
  | Some i =>
      match inodes st !! i with
      | Some old => Some (true, on_inodes <[i := mem_write old 0 bs]> st)
      | None => None
      end
  | None => Some (false, st)
  end.

(** [link] and [remove]: 0, or -1. *)
Definition link (p q : path) : SM Z := fun st =>
  match links st !! p, links st !! q with
  | Some i, None =>
      if decide (parent q ∈ dirs st) then Some (0, on_links <[q := i]> st) else Some (-1, st)
  | _, _ => Some (-1, st)
  end.

Definition remove (p : path) : SM Z := fun st =>
  match links st !! p with
  | Some _ => Some (0, on_links (delete p) st)
  | None => Some (-1, st)
  end.

(** ** Directories *)

Inductive mkdir_res := Mkdir_ok | Mkdir_EEXIST | Mkdir_ENOENT.

Definition mkdir (d : dir) : SM mkdir_res := fun st =>
  if decide (d ∈ dirs st) then Some (Mkdir_EEXIST, st)
  else if decide (Forall (fun a => a = d \/ a ∈ dirs st) (ancestors d))
  then Some (Mkdir_ok, on_dirs (fun ds => {[d]} ∪ ds) st)
  else Some (Mkdir_ENOENT, st).

(** [mkdir -p] *)
Definition mkdir_p (d : dir) : SM Z := fun st =>
  Some (0, on_dirs (fun ds => list_to_set (ancestors d) ∪ ds) st).

Definition in_tag (f t : string) (p : path) : bool :=
  match p with
  | P_metadata f' t' | P_logical f' t' _ => String.eqb f' f && String.eqb t' t
  | _ => false
  end.

(** [rm -rf files/f/t] *)
Definition rm_rf_tag (f t : string) : SM Z := fun st =>
  Some (0, on_dirs (fun ds => ds ∖ {[D_tag f t; D_blocks f t]})
             (on_links (base.filter (fun kv : path * ino => in_tag f t kv.1 = false)) st)).

Definition logical_of (f t : string) (p : path) : option Z :=
  match p with
  | P_logical f' t' n => if String.eqb f' f && String.eqb t' t then Some n else None
  | _ => None
  end.

(** The links that [cp -rl] makes in the blocks of [fd:td]. *)
Definition copies (fs ts fd td : string) (ls : gmap path ino) : gmap path ino :=
  list_to_map (omap (fun '(p, i) => (fun n => (P_logical fd td n, i)) <$> logical_of fs ts p) (map_to_list ls)).

(** [cp -rl fs/ts/logical_blocks/. fd/td/logical_blocks]: a block that is already
    there as another file is left, and the command fails. *)
Definition cp_rl (fs ts fd td : string) : SM Z := fun st =>
  if decide (D_blocks fs ts ∈ dirs st /\ D_blocks fd td ∈ dirs st) then
    let new := copies fs ts fd td (links st) in
    let clash := base.filter (fun kv : path * ino => bool_decide (links st !! kv.1 <> None /\ links st !! kv.1 <> Some kv.2) = true) new in
    Some (if decide (clash = ∅) then 0 else 1, on_links (fun ls => ls ∪ new) st)
  else Some (1, st).

(** [find ... ! -name superblock.config -delete] *)
Definition wipe : SM Z := fun st =>
  Some (0, on_dirs (fun _ => {[D_root]})
             (on_links (base.filter (fun kv : path * ino => kv.1 = P_superblock)) st)).

(** ** Mutexes *)

(** A thread that locks what it holds waits for itself. *)
Definition lock (m : mutex) : SM unit := fun st =>
  if decide (m ∈ held st) then None else Some (tt, on_held (cons m) st).

Definition unlock (m : mutex) : SM unit := fun st =>
  if decide (m ∈ held st) then Some (tt, on_held (base.filter (fun x => x <> m)) st) else None.

(** ** The commons library *)

Class CommonsBitarray : Type := {
  bitarray_test_bit : list byte -> Z -> bool;
  bitarray_set_bit : list byte -> Z -> list byte;
  bitarray_clean_bit : list byte -> Z -> list byte
}.

Class CommonsCrypto : Type := crypto_md5 : list byte -> string.
