(* ===== verification/StorageUtils.v ===== *)
(** * The utilities of the Storage (storage/src/utils/filesystem_utils.c)

    The metadata of a file, the bitmap of physical blocks and the links of logical
    blocks.  Allocations succeed and the mount point is a directory. *)

From S2P Require Import Prelude CStrings Config Serialization Protocol StorageFs.

(** ** Configuration and errors (globals.h, errors.h) *)

Record t_storage_config := MkStorageConfig {
  fs_size : Z;
  block_size : Z;
  bitmap_size_bytes : Z
}.

Definition FILE_TAG_MISSING : Z := -128.
Definition FILE_TAG_ALREADY_EXISTS : Z := -127.
Definition NOT_ENOUGH_SPACE : Z := -126.
Definition FILE_ALREADY_COMMITTED : Z := -125.
Definition READ_OUT_OF_BOUNDS : Z := -124.

Definition IN_PROGRESS : string := "WORK_IN_PROGRESS".
Definition COMMITTED : string := "COMMITTED".

Section Utils.
Context {CC : CommonsConfig} {CB : CommonsBitarray}.
Variable g_storage_config : t_storage_config.

(** ** Directories *)

Definition create_dir_recursive (d : dir) : SM Z :=
  r ← mkdir_p d;
  mret (if negb (r =? 0) then -1 else 0).

Definition create_file_dir_structure (file_name tag : string) : SM Z :=
  there ← dir_exists (D_tag file_name tag);
  if (there : bool) then mret FILE_TAG_ALREADY_EXISTS else create_dir_recursive (D_blocks file_name tag).

Definition delete_file_dir_structure (file_name tag : string) : SM Z :=
  there ← dir_exists (D_tag file_name tag);
  if negb there then mret FILE_TAG_MISSING else
  r ← rm_rf_tag file_name tag;
  mret (if negb (r =? 0) then -1 else 0).

Definition file_dir_exists (file_name tag : string) : SM bool := dir_exists (D_tag file_name tag).

(** ** Metadata *)

(** The lines [key=value] of a configuration file. *)
Definition config_lines (kvs : list (string * string)) : list byte :=
  string_bytes (String.concat "" ((fun '(k, v) => k +:+ "=" +:+ v +:+ String (Ascii.ascii_of_nat 10) "") <$> kvs))%string.

Definition default_metadata : list byte :=
  config_lines [("SIZE", "0"); ("BLOCKS", "[]"); ("ESTADO", "WORK_IN_PROGRESS")]%string.

Definition create_metadata_file (file_name tag : string) (initial_content : option (list byte)) : SM Z :=
  opened ← write_file (P_metadata file_name tag) (default default_metadata initial_content);
  mret (if (opened : bool) then 0 else -1).

Definition config_create (p : path) : SM (option t_config) :=
  text ← read_file p;
  mret (config_parse <$> text).

Definition read_superblock : SM (Z * option (Z * Z)) :=
  config ← config_create P_superblock;
  match config with
  | None => mret (-1, None)
  | Some config =>
      if negb (config_has_property config "FS_SIZE") || negb (config_has_property config "BLOCK_SIZE")
      then mret (-2, None)
      else mret (0, Some (config_get_int_value config "FS_SIZE", config_get_int_value config "BLOCK_SIZE"))
  end.

(** [block_count] is the length of [blocks]. *)
Record t_file_metadata := MkMetadata {
  md_size : Z;
  md_blocks : list Z;
  md_state : string;
  md_config : t_config;
  md_path : path
}.

Definition block_count (m : t_file_metadata) : Z := Z.of_nat (length (md_blocks m)).

Definition set_blocks (bs : list Z) (m : t_file_metadata) : t_file_metadata :=
  MkMetadata (md_size m) bs (md_state m) (md_config m) (md_path m).
Definition set_size (n : Z) (m : t_file_metadata) : t_file_metadata :=
  MkMetadata n (md_blocks m) (md_state m) (md_config m) (md_path m).
Definition set_state (s : string) (m : t_file_metadata) : t_file_metadata :=
  MkMetadata (md_size m) (md_blocks m) s (md_config m) (md_path m).

(** The metadata in a parsed configuration file. *)
Definition metadata_of (p : path) (config : t_config) : option t_file_metadata :=
  if negb (config_has_property config "SIZE") || negb (config_has_property config "BLOCKS")
     || negb (config_has_property config "ESTADO")
  then None
  else Some (MkMetadata (config_get_int_value config "SIZE")
               (atoi <$> string_get_string_as_array (default EmptyString (config_get config "BLOCKS")))
               (default EmptyString (config_get config "ESTADO")) config p).

Definition read_file_metadata (filename tag : string) : SM (option t_file_metadata) :=
  config ← config_create (P_metadata filename tag);
  match config with
  | None => mret None
  | Some config => mret (metadata_of (P_metadata filename tag) config)
  end.

(** [get_stringified_array] of utils.c. *)
Definition get_stringified_array (array : list string) : string :=
  ("[" +:+ String.concat "," array +:+ "]")%string.

Definition save_file_metadata (m : t_file_metadata) : SM Z :=
  let config := config_set_value (md_config m) "SIZE" (print_int (md_size m)) in
  let blocks := if block_count m =? 0 then "[]"%string else get_stringified_array (print_int <$> md_blocks m) in
  let config := config_set_value config "BLOCKS" blocks in
  let config := config_set_value config "ESTADO" (md_state m) in
  _ ← write_file (md_path m) (config_text config);
  mret 0.

(** ** The bitmap *)

(** A bit array does not check its index. *)
Definition set_bit_at (buffer : list byte) (i : Z) (b : bool) : SM (list byte) :=
  if (0 <=? i) && (i <? 8 * Z.of_nat (length buffer))
  then mret (if b then bitarray_set_bit buffer i else bitarray_clean_bit buffer i)
  else st_ub.

Fixpoint set_bitmap_bits (buffer : list byte) (start_index : Z) (count : nat) (b : bool) : SM (list byte) :=
  match count with
  | O => mret buffer
  | S count => buffer ← set_bit_at buffer start_index b; set_bitmap_bits buffer (start_index + 1) count b
  end.

(** The first [bitmap_size_bytes] bytes of the file, if it has them. *)
Definition fread_bitmap (content : list byte) : option (list byte) :=
  if Z.of_nat (length content) <? bitmap_size_bytes g_storage_config then None
  else Some (take (Z.to_nat (bitmap_size_bytes g_storage_config)) content).

Definition modify_bitmap_bits (start_index : Z) (count : nat) (set_bits : bool) : SM Z :=
  content ← read_file P_bitmap;
  match content with
  | None => mret (-1)
  | Some content =>
      lock M_bitmap;;
      match fread_bitmap content with
      | None => unlock M_bitmap;; mret (-1)
      | Some buffer =>
          buffer ← set_bitmap_bits buffer start_index count set_bits;
          _ ← overwrite_file P_bitmap buffer;
          unlock M_bitmap;; mret 0
      end
  end.

Definition bitmap_load : SM (Z * option (list byte)) :=
  content ← read_file P_bitmap;
  match content with
  | None => mret (-1, None)
  | Some content =>
      lock M_bitmap;;
      match fread_bitmap content with
      | None => unlock M_bitmap;; mret (-3, None)
      | Some buffer => mret (0, Some buffer)
      end
  end.

(** Releases the buffer and the mutex whether it succeeds or not. *)
Definition bitmap_persist (buffer : list byte) : SM Z :=
  opened ← overwrite_file P_bitmap buffer;
  unlock M_bitmap;;
  mret (if (opened : bool) then 0 else -1).

Fixpoint free_bit_from (buffer : list byte) (i : Z) (bits : nat) : Z :=
  match bits with
  | O => -1
  | S bits => if negb (bitarray_test_bit buffer i) then i else free_bit_from buffer (i + 1) bits
  end.

Definition get_free_bit_index (buffer : list byte) : Z := free_bit_from buffer 0 (8 * length buffer).

(** ** Blocks *)

Definition logical_block_exists (file_name tag : string) (block_number : Z) : SM bool :=
  file_exists (P_logical file_name tag block_number).

Definition physical_block_exists (block_number : Z) : SM bool :=
  file_exists (P_physical (block_name block_number)).

Definition ph_block_links (p : path) : SM Z :=
  n ← stat_nlink p; mret (default (-1) n).

Definition delete_logical_block (name tag : string) (logical_block_index physical_block_index : Z) : SM Z :=
  r ← remove (P_logical name tag logical_block_index);
  if negb (r =? 0) then mret (-1) else
  n ← stat_nlink (P_physical (block_name physical_block_index));
  match n with
  | None => mret (-2)
  | Some n =>
      if negb (n =? 1) then mret 0 else
      r ← modify_bitmap_bits physical_block_index 1 false;
      mret (if negb (r =? 0) then -3 else 0)
  end.

(** ** Answers *)

Definition prepare_error_response (op_code op_error_code : Z) : option t_package :=
  match package_add_int8 (package_create_empty op_code) op_error_code with
  | (true, response) => Some response
  | (false, _) => None
  end.

End Utils.
