(* ===== verification/StorageOps.v ===== *)
(** * The operations of the Storage (storage/src/operations/)

    Creation, truncation, deletion and forks of a file:tag, the reading and the
    copy-on-write of its blocks, and the commit that merges equal blocks.  Each
    function follows its C namesake; the answers to the worker are in
    StorageServer.v. *)

From S2P Require Import Prelude CStrings Config Serialization Protocol StorageFs StorageUtils.

Definition INT_MAX : Z := 2 ^ 31 - 1.

Section Operations.
Context {CC : CommonsConfig} {CB : CommonsBitarray} {CY : CommonsCrypto}.
Variable g_storage_config : t_storage_config.

Abbreviation bsize := (block_size g_storage_config).

(** ** create_file.c *)

Definition _create_file (name tag : string) : SM Z :=
  result ← create_file_dir_structure name tag;
  if negb (result =? 0) then mret result else
  r ← create_metadata_file name tag None;
  if negb (r =? 0) then _ ← delete_file_dir_structure name tag; mret (-2) else
  mret 0.

(** ** delete_tag.c *)

(** The loop over the blocks; false when one could not be deleted. *)
Fixpoint delete_blocks (name tag : string) (i : Z) (blocks : list Z) : SM bool :=
  match blocks with
  | [] => mret true
  | physical :: blocks =>
      r ← delete_logical_block g_storage_config name tag i physical;
      if negb (r =? 0) then mret false else delete_blocks name tag (i + 1) blocks
  end.

Definition delete_tag (name tag : string) : SM Z :=
  if String.eqb name "initial_file" && String.eqb tag "BASE" then mret (-1) else
  metadata ← read_file_metadata name tag;
  match metadata with
  | None => mret FILE_TAG_MISSING
  | Some metadata =>
      ok ← delete_blocks name tag 0 (md_blocks metadata);
      if negb ok then mret (-2) else
      r ← delete_file_dir_structure name tag;
      mret (if negb (r =? 0) then -3 else 0)
  end.

(** ** truncate_file.c *)

(** The release of the blocks left over; the codes are ignored. *)
Fixpoint release_blocks (name tag : string) (i : Z) (blocks : list Z) : SM unit :=
  match blocks with
  | [] => mret tt
  | physical :: blocks =>
      _ ← delete_logical_block g_storage_config name tag i physical;
      release_blocks name tag (i + 1) blocks
  end.

(** New blocks are links to physical block 0; false when a link fails. *)
Fixpoint link_zero_blocks (name tag : string) (i : Z) (count : nat) : SM bool :=
  match count with
  | O => mret true
  | S count =>
      r ← link (P_physical (block_name 0)) (P_logical name tag i);
      if negb (r =? 0) then mret false else link_zero_blocks name tag (i + 1) count
  end.

Definition update_size (metadata : t_file_metadata) (new_size_bytes : Z) : SM Z :=
  r ← save_file_metadata (set_size new_size_bytes metadata);
  mret (if negb (r =? 0) then -4 else 0).

Definition truncate_file (name tag : string) (new_size_bytes : Z) : SM Z :=
  metadata ← read_file_metadata name tag;
  match metadata with
  | None => mret (-1)
  | Some metadata =>
      let old_block_count := block_count metadata in
      if (INT_MAX <? new_size_bytes + bsize - 1) || (bsize =? 0) then st_ub else
      let new_block_count := Z.quot (new_size_bytes + bsize - 1) bsize in
      if new_block_count =? old_block_count then update_size metadata new_size_bytes else
      if new_block_count <? 0 then mret (-3) else
      if new_block_count <? old_block_count then
        release_blocks name tag new_block_count (drop (Z.to_nat new_block_count) (md_blocks metadata));;
        update_size (set_blocks (take (Z.to_nat new_block_count) (md_blocks metadata)) metadata) new_size_bytes
      else
        let more := Z.to_nat (new_block_count - old_block_count) in
        ok ← link_zero_blocks name tag old_block_count more;
        if negb ok then mret (-2) else
        update_size (set_blocks (md_blocks metadata ++ replicate more 0) metadata) new_size_bytes
  end.

(** ** create_tag.c *)

Definition create_metadata (name tag : string) (size numb_blocks : Z) (blocks_array_str status : string) : SM Z :=
  if negb (Z.of_nat (length (string_get_string_as_array blocks_array_str)) =? numb_blocks) then mret (-1) else
  opened ← write_file (P_metadata name tag)
    (config_lines [("SIZE", print_int size); ("BLOCKS", blocks_array_str); ("ESTADO", status)]%string);
  mret (if (opened : bool) then 0 else -2).

Definition create_tag (file_src tag_src file_dst tag_dst : string) : SM Z :=
  metadata_dst ← read_file_metadata file_dst tag_dst;
  match metadata_dst with
  | Some _ => mret FILE_TAG_ALREADY_EXISTS
  | None =>
      metadata_src ← read_file_metadata file_src tag_src;
      match metadata_src with
      | None => mret FILE_TAG_MISSING
      | Some metadata_src =>
          made ← mkdir (D_tag file_dst tag_dst);
          match made with
          | Mkdir_ENOENT => mret (-1)
          | _ =>
              made ← mkdir (D_blocks file_dst tag_dst);
              match made with
              | Mkdir_ENOENT => mret (-2)
              | _ =>
                  cmd_status_code ← cp_rl file_src tag_src file_dst tag_dst;
                  if negb (cmd_status_code =? 0) then mret (-3) else
                  r ← create_metadata file_dst tag_dst (md_size metadata_src) (block_count metadata_src)
                        (default EmptyString (config_get (md_config metadata_src) "BLOCKS")) "WORK_IN_PROGRESS";
                  mret (if r <? 0 then -3 else 0)
              end
          end
      end
  end.

(** ** read_block.c *)

Definition read_from_logical_block (file_name tag : string) (block_number : Z) : SM (Z * list byte) :=
  content ← read_file (P_logical file_name tag block_number);
  match content with
  | None => mret (-1, [])
  | Some content =>
      let read_buffer := take (Z.to_nat bsize) content in
      mret (if negb (Z.of_nat (length read_buffer) =? bsize) then -3 else 0, read_buffer)
  end.

Definition execute_block_read (name tag : string) (block_number : Z) : SM (Z * list byte) :=
  there ← file_dir_exists name tag;
  if negb there then mret (FILE_TAG_MISSING, []) else
  metadata ← read_file_metadata name tag;
  match metadata with
  | None => mret (FILE_TAG_MISSING, [])
  | Some metadata =>
      if block_count metadata <=? i32 block_number then mret (READ_OUT_OF_BOUNDS, []) else
      '(r, read_buffer) ← read_from_logical_block name tag block_number;
      mret (if r <? 0 then (-1, []) else (0, read_buffer))
  end.

(** ** write_block.c *)

Definition create_new_hardlink (name tag : string) (logical_block physical_block_index : Z) : SM Z :=
  let bitmap_bits := bitmap_size_bytes g_storage_config * 8 in
  if (physical_block_index <? 0) || (bitmap_bits <=? physical_block_index) then mret (-1) else
  r ← link (P_physical (block_name physical_block_index)) (P_logical name tag logical_block);
  mret (if negb (r =? 0) then -1 else 0).

(** The block is written whole, with zeros after the data. *)
Definition block_image (block_data : list byte) : list byte :=
  let bytes_to_copy := take (Z.to_nat bsize) block_data in
  bytes_to_copy ++ replicate (Z.to_nat bsize - length bytes_to_copy) x00.

Definition write_to_logical_block (file_name tag : string) (block_number : Z) (block_data : list byte) : SM Z :=
  opened ← overwrite_file (P_logical file_name tag block_number) (block_image block_data);
  mret (if (opened : bool) then 0 else -1).

(** A free physical block is marked in the bitmap and linked.  When the bitmap
    cannot be written its buffer is freed twice. *)
Definition reserve_block (name tag : string) (block_number : Z) : SM (Z * Z) :=
  '(r, buffer) ← bitmap_load g_storage_config;
  match buffer with
  | None => mret (-3, -1)
  | Some bitmap =>
      let physical_block_index := get_free_bit_index bitmap in
      if physical_block_index <? 0 then unlock M_bitmap;; mret (NOT_ENOUGH_SPACE, -1) else
      bitmap ← set_bit_at bitmap physical_block_index true;
      r ← bitmap_persist bitmap;
      if r <? 0 then st_ub else
      r ← create_new_hardlink name tag block_number physical_block_index;
      mret (if r <? 0 then -5 else 0, physical_block_index)
  end.

(** The logical block gets a physical block of its own. *)
Definition own_block (name tag : string) (metadata : t_file_metadata) (block_number : Z) : SM Z :=
  r ← remove (P_logical name tag block_number);
  if negb (r =? 0) then mret (-2) else
  '(r, physical_block_index) ← reserve_block name tag block_number;
  if negb (r =? 0) then mret r else
  if block_count metadata <=? block_number then st_ub else
  r ← save_file_metadata
        (set_blocks (<[Z.to_nat block_number := physical_block_index]> (md_blocks metadata)) metadata);
  mret (if r <? 0 then -6 else 0).

Definition execute_block_write (name tag : string) (block_number : Z) (block_data : list byte) : SM Z :=
  there ← file_dir_exists name tag;
  if negb there then mret FILE_TAG_MISSING else
  metadata ← read_file_metadata name tag;
  match metadata with
  | None => mret FILE_TAG_MISSING
  | Some metadata =>
      if String.eqb (md_state metadata) COMMITTED then mret FILE_ALREADY_COMMITTED else
      if block_count metadata <=? i32 block_number then mret READ_OUT_OF_BOUNDS else
      num_hardlinks ← ph_block_links (P_logical name tag block_number);
      if num_hardlinks <? 0 then mret (-1) else
      r ← (if 2 <? num_hardlinks then own_block name tag metadata block_number else mret 0);
      if negb (r =? 0) then mret r else
      r ← write_to_logical_block name tag block_number block_data;
      mret (if r <? 0 then -7 else 0)
  end.

(** ** commit_tag.c *)

(** What is missing of a short block is read as zeros. *)
Definition read_block_content (p : path) : SM (option (list byte)) :=
  content ← read_file p;
  match content with
  | None => mret None
  | Some content => mret (Some (block_image content))
  end.

Definition get_physical_block_number (physical_block_id : string) : Z :=
  if String.prefix "block" physical_block_id
  then default (-1) (scan_int (String.substring 5 (String.length physical_block_id - 5) physical_block_id))
  else -1.

Definition update_logical_block_link (p : path) (physical_block_name : string) : SM Z :=
  r ← remove p;
  if negb (r =? 0) then mret (-1) else
  r ← link (P_physical physical_block_name) p;
  mret (if negb (r =? 0) then -2 else 0).

Definition free_ph_block_if_unused (physical_block_name : string) : SM Z :=
  numb_links ← ph_block_links (P_physical physical_block_name);
  if numb_links <? 0 then mret (-1) else
  if 1 <? numb_links then mret 0 else
  let physical_block_id := get_physical_block_number physical_block_name in
  if physical_block_id <? 0 then mret (-2) else
  '(r, buffer) ← bitmap_load g_storage_config;
  match buffer with
  | None => mret (-3)
  | Some bitmap =>
      bitmap ← set_bit_at bitmap physical_block_id false;
      r ← bitmap_persist bitmap;
      mret (if r <? 0 then -4 else 0)
  end.

(** One round of the loop of [deduplicate_blocks]: the code, the index of digests
    and the metadata that it leaves. *)
Definition deduplicate_block (name tag : string) (logical_block : Z) (hash_index : t_config)
    (metadata : t_file_metadata) : SM (Z * t_config * t_file_metadata) :=
  let p := P_logical name tag logical_block in
  match md_blocks metadata !! Z.to_nat logical_block with
  | None => st_ub
  | Some physical_block =>
      content ← read_block_content p;
      match content with
      | None => mret (-3, hash_index, metadata)
      | Some content =>
          let hash := crypto_md5 content in
          let physical_block_from_logical_path := block_name physical_block in
          match config_get hash_index hash with
          | None => mret (0, config_set_value hash_index hash physical_block_from_logical_path, metadata)
          | Some physical_block_from_hash =>
              if String.eqb physical_block_from_hash physical_block_from_logical_path
              then mret (0, hash_index, metadata) else
              r ← update_logical_block_link p physical_block_from_hash;
              if r <? 0 then mret (-5, hash_index, metadata) else
              let new_physical_id := get_physical_block_number physical_block_from_hash in
              if new_physical_id <? 0 then mret (-6, hash_index, metadata) else
              let metadata :=
                set_blocks (<[Z.to_nat logical_block := new_physical_id]> (md_blocks metadata)) metadata in
              r ← free_ph_block_if_unused physical_block_from_logical_path;
              mret (if r <? 0 then -7 else 0, hash_index, metadata)
          end
      end
  end.

Fixpoint deduplicate_loop (name tag : string) (logical_block : Z) (count : nat) (hash_index : t_config)
    (metadata : t_file_metadata) : SM (Z * t_config * t_file_metadata) :=
  match count with
  | O => mret (0, hash_index, metadata)
  | S count =>
      '(r, hash_index, metadata) ← deduplicate_block name tag logical_block hash_index metadata;
      if r <? 0 then mret (r, hash_index, metadata)
      else deduplicate_loop name tag (logical_block + 1) count hash_index metadata
  end.

Definition deduplicate_blocks (name tag : string) (metadata : t_file_metadata) : SM (Z * t_file_metadata) :=
  if block_count metadata =? 0 then mret (0, metadata) else
  lock M_hash_index;;
  hash_index ← config_create P_hash_index;
  match hash_index with
  | None => unlock M_hash_index;; mret (-1, metadata)
  | Some hash_index =>
      '(r, hash_index, metadata) ←
        deduplicate_loop name tag 0 (length (md_blocks metadata)) hash_index metadata;
      if r <? 0 then unlock M_hash_index;; mret (r, metadata) else
      _ ← write_file P_hash_index (config_text hash_index);
      unlock M_hash_index;; mret (0, metadata)
  end.

Definition execute_tag_commit (name tag : string) : SM Z :=
  there ← file_dir_exists name tag;
  if negb there then mret FILE_TAG_MISSING else
  metadata ← read_file_metadata name tag;
  match metadata with
  | None => mret FILE_TAG_MISSING
  | Some metadata =>
      if String.eqb (md_state metadata) COMMITTED then mret FILE_ALREADY_COMMITTED else
      '(r, metadata) ← deduplicate_blocks name tag metadata;
      if r <? 0 then mret (-1) else
      r ← save_file_metadata (set_state COMMITTED metadata);
      mret (if r <? 0 then -3 else 0)
  end.

End Operations.
