(* ===== verification/StorageServer.v ===== *)
(** * The Storage as a server (storage/src/server/, storage/src/fresh_start/)

    The making of an empty file system, the answers to the requests of a worker and
    the loop that serves one worker. *)

From S2P Require Import Prelude CStrings Config Serialization Protocol StorageFs StorageUtils StorageOps.

Section Server.
Context {CC : CommonsConfig} {CB : CommonsBitarray} {CY : CommonsCrypto}.
Variable g_storage_config : t_storage_config.

Abbreviation bsize := (block_size g_storage_config).

(** ** Fresh start (fresh_start.c) *)

Definition wipe_storage_content : SM Z :=
  there ← dir_exists D_root;
  if negb there then mret (-1) else
  r ← wipe;
  mret (if negb (r =? 0) then -1 else 0).

Definition init_bitmap (fs_size block_size : Z) : SM Z :=
  there ← dir_exists D_root;
  if negb there then mret (-1) else
  if block_size =? 0 then st_ub else
  let total_blocks := Z.quot fs_size block_size in
  let bitmap_size_bytes := Z.quot (total_blocks + 7) 8 in
  bitmap ← set_bit_at (replicate (Z.to_nat bitmap_size_bytes) x00) 0 true;
  opened ← write_file P_bitmap bitmap;
  mret (if (opened : bool) then 0 else -4).

Definition init_blocks_index : SM Z :=
  opened ← write_file P_hash_index [];
  mret (if (opened : bool) then 0 else -1).

(** The loop that creates the blocks; false when one cannot be created. *)
Fixpoint create_blocks (i : Z) (count : nat) (zero_buffer : list byte) : SM bool :=
  match count with
  | O => mret true
  | S count =>
      opened ← write_file (P_physical (block_name i)) zero_buffer;
      if negb opened then mret false else create_blocks (i + 1) count zero_buffer
  end.

Definition init_physical_blocks (fs_size block_size : Z) : SM Z :=
  r ← create_dir_recursive D_physical;
  if negb (r =? 0) then mret (-1) else
  if block_size =? 0 then st_ub else
  let total_blocks := Z.quot fs_size block_size in
  ok ← create_blocks 0 (Z.to_nat total_blocks) (replicate (Z.to_nat block_size) x00);
  mret (if (ok : bool) then 0 else -2).

Definition initial_metadata : list byte :=
  config_lines [("SIZE", "0"); ("BLOCKS", "[0]"); ("ESTADO", "COMMITTED")]%string.

Definition init_files : SM Z :=
  r ← create_file_dir_structure "initial_file" "BASE";
  if negb (r =? 0) then mret (-1) else
  r ← link (P_physical (block_name 0)) (P_logical "initial_file" "BASE" 0);
  if negb (r =? 0) then mret (-5) else
  r ← create_metadata_file "initial_file" "BASE" (Some initial_metadata);
  mret (if negb (r =? 0) then -6 else 0).

Definition init_storage : SM Z :=
  r ← wipe_storage_content;
  if negb (r =? 0) then mret (-2) else
  r ← init_bitmap (fs_size g_storage_config) bsize;
  if negb (r =? 0) then mret (-3) else
  r ← init_blocks_index;
  if negb (r =? 0) then mret (-4) else
  r ← init_physical_blocks (fs_size g_storage_config) bsize;
  if negb (r =? 0) then mret (-5) else
  r ← init_files;
  mret (if negb (r =? 0) then -6 else 0).

(** ** Answers *)

Definition storage_error_message (code : Z) : string :=
  if code =? 0 then "SUCCESS"
  else if code =? FILE_TAG_MISSING then "FILE_TAG_MISSING"
  else if code =? FILE_TAG_ALREADY_EXISTS then "FILE_TAG_ALREADY_EXISTS"
  else if code =? FILE_ALREADY_COMMITTED then "FILE_ALREADY_COMMITTED"
  else if code =? READ_OUT_OF_BOUNDS then "OUT_OF_BOUNDS"
  else if code =? NOT_ENOUGH_SPACE then "NOT_ENOUGH_SPACE"
  else "UNKNOWN_STORAGE_ERROR".

(** The error answer that the handlers build; the results of the writers are
    ignored. *)
Definition error_answer (query_id : Z) (operation : string) (code : Z) : t_package :=
  let response := package_create_empty (storage_op STORAGE_OP_ERROR) in
  let response := snd (package_add_uint32 response query_id) in
  let response := snd (package_add_string response (operation +:+ " error: " +:+ storage_error_message code)) in
  package_reset_read_offset response.

(** The acknowledgement: the code 0 as a byte. *)
Definition status_answer (op : t_storage_op_code) : option t_package :=
  match package_add_int8 (package_create_empty (storage_op op)) 0 with
  | (true, response) => Some response
  | (false, _) => None
  end.

Definition answer (query_id : Z) (operation : string) (op : t_storage_op_code) (operation_result : Z)
    : option t_package :=
  if negb (operation_result =? 0) then Some (error_answer query_id operation operation_result)
  else status_answer op.

(** ** The handlers of the requests *)

Definition create_file (package : t_package) : SM (option t_package) :=
  match package_read_uint32 package with
  | (None, _) => mret None
  | (Some query_id, package) =>
      let '(name, package) := package_read_string package in
      let '(tag, package) := package_read_string package in
      match name, tag with
      | Some name, Some tag =>
          r ← _create_file name tag;
          mret (answer query_id "CREATE_FILE" STORAGE_OP_FILE_CREATE_RES r)
      | _, _ => mret None
      end
  end.

Definition handle_truncate_file_op_package (package : t_package) : SM (option t_package) :=
  match package_read_uint32 package with
  | (None, _) => mret None
  | (Some query_id, package) =>
      let '(name, package) := package_read_string package in
      let '(tag, package) := package_read_string package in
      match name, tag with
      | Some name, Some tag =>
          match package_read_uint32 package with
          | (None, _) => mret None
          | (Some new_size_bytes, _) =>
              r ← truncate_file g_storage_config name tag (i32 new_size_bytes);
              mret (answer query_id "TRUNCATE_FILE" STORAGE_OP_FILE_TRUNCATE_RES r)
          end
      | _, _ => mret None
      end
  end.

Definition handle_create_tag_op_package (package : t_package) : SM (option t_package) :=
  match package_read_uint32 package with
  | (None, _) => mret None
  | (Some query_id, package) =>
      let '(file_src, package) := package_read_string package in
      let '(tag_src, package) := package_read_string package in
      let '(file_dst, package) := package_read_string package in
      let '(tag_dst, package) := package_read_string package in
      match file_src, tag_src, file_dst, tag_dst with
      | Some file_src, Some tag_src, Some file_dst, Some tag_dst =>
          r ← create_tag file_src tag_src file_dst tag_dst;
          mret (package_reset_read_offset <$> answer query_id "CREATE_TAG" STORAGE_OP_TAG_CREATE_RES r)
      | _, _, _, _ => mret None
      end
  end.

Definition handle_delete_tag_op_package (package : t_package) : SM (option t_package) :=
  match package_read_uint32 package with
  | (None, _) => mret None
  | (Some query_id, package) =>
      let '(name, package) := package_read_string package in
      let '(tag, package) := package_read_string package in
      match name, tag with
      | Some name, Some tag =>
          r ← delete_tag g_storage_config name tag;
          mret (answer query_id "DELETE_TAG" STORAGE_OP_TAG_DELETE_RES r)
      | _, _ => mret None
      end
  end.

Definition deserialize_tag_commit_request (package : t_package) : option (Z * string * string) :=
  match package_read_uint32 package with
  | (None, _) => None
  | (Some query_id, package) =>
      match package_read_string package with
      | (None, _) => None
      | (Some name, package) =>
          match package_read_string package with
          | (None, _) => None
          | (Some tag, _) => Some (query_id, name, tag)
          end
      end
  end.

Definition handle_tag_commit_request (package : t_package) : SM (option t_package) :=
  match deserialize_tag_commit_request package with
  | None => mret None
  | Some (query_id, name, tag) =>
      r ← execute_tag_commit g_storage_config name tag;
      mret (package_reset_read_offset <$> answer query_id "COMMIT_TAG" STORAGE_OP_TAG_COMMIT_RES r)
  end.

Definition deserialize_block_read_request (package : t_package) : option (Z * string * string * Z) :=
  match package_read_uint32 package with
  | (None, _) => None
  | (Some query_id, package) =>
      match package_read_string package with
      | (None, _) => None
      | (Some name, package) =>
          match package_read_string package with
          | (None, _) => None
          | (Some tag, package) =>
              match package_read_uint32 package with
              | (None, _) => None
              | (Some block_number, _) => Some (query_id, name, tag, block_number)
              end
          end
      end
  end.

(** The answer with the block: its size and, when it is not empty, its data. *)
Definition block_answer (read_buffer : list byte) : option t_package :=
  let response := package_create_empty (storage_op STORAGE_OP_BLOCK_READ_RES) in
  match package_add_uint32 response (u32 bsize) with
  | (false, _) => None
  | (true, response) =>
      if 0 <? u32 bsize then
        match package_add_data response read_buffer with
        | (false, _) => None
        | (true, response) => Some (package_reset_read_offset response)
        end
      else Some (package_reset_read_offset response)
  end.

Definition handle_read_block_request (package : t_package) : SM (option t_package) :=
  match deserialize_block_read_request package with
  | None => mret None
  | Some (query_id, name, tag, block_number) =>
      '(r, read_buffer) ← execute_block_read g_storage_config name tag block_number;
      if negb (r =? 0) then mret (Some (error_answer query_id "READ_BLOCK" r))
      else mret (block_answer read_buffer)
  end.

Definition deserialize_block_write_request (package : t_package)
    : option (Z * string * string * Z * list byte) :=
  match package_read_uint32 package with
  | (None, _) => None
  | (Some query_id, package) =>
      match package_read_string package with
      | (None, _) => None
      | (Some name, package) =>
          match package_read_string package with
          | (None, _) => None
          | (Some tag, package) =>
              match package_read_uint32 package with
              | (None, _) => None
              | (Some block_number, package) =>
                  match package_read_data package with
                  | (None, _) => None
                  | (Some block_data, _) => Some (query_id, name, tag, block_number, block_data)
                  end
              end
          end
      end
  end.

Definition handle_write_block_request (package : t_package) : SM (option t_package) :=
  match deserialize_block_write_request package with
  | None => mret None
  | Some (query_id, name, tag, block_number, block_data) =>
      r ← execute_block_write g_storage_config name tag block_number block_data;
      mret (package_reset_read_offset <$> answer query_id "WRITE_BLOCK" STORAGE_OP_BLOCK_WRITE_RES r)
  end.

Definition send_block_size : SM (option t_package) :=
  mret (match package_add_uint16 (package_create_empty (storage_op STORAGE_OP_WORKER_GET_BLOCK_SIZE_RES)) bsize with
        | (true, response) => Some response
        | (false, _) => None
        end).

Definition change_worker_counter (n : Z) : SM unit :=
  lock M_worker_counter;; st_modify (on_worker_counter (fun c => c + n));; unlock M_worker_counter.

Definition handle_handshake (package : t_package) : SM (option t_package) :=
  change_worker_counter 1;;
  match package_read_uint32 package with
  | (None, _) => mret None
  | (Some worker_id, _) => mret (Some (package_create_empty (storage_op STORAGE_OP_WORKER_SEND_ID_RES)))
  end.

(** ** The loop of a worker (server.c) *)

(** The switch of [handle_client]: none when the operation is unknown. *)
Definition handle_request (request : t_package) : option (SM (option t_package)) :=
  let op := operation_code request in
  if op =? storage_op STORAGE_OP_WORKER_SEND_ID_REQ then Some (handle_handshake request)
  else if op =? storage_op STORAGE_OP_WORKER_GET_BLOCK_SIZE_REQ then Some send_block_size
  else if op =? storage_op STORAGE_OP_FILE_CREATE_REQ then Some (create_file request)
  else if op =? storage_op STORAGE_OP_FILE_TRUNCATE_REQ then Some (handle_truncate_file_op_package request)
  else if op =? storage_op STORAGE_OP_TAG_CREATE_REQ then Some (handle_create_tag_op_package request)
  else if op =? storage_op STORAGE_OP_TAG_COMMIT_REQ then Some (handle_tag_commit_request request)
  else if op =? storage_op STORAGE_OP_BLOCK_WRITE_REQ then Some (handle_write_block_request request)
  else if op =? storage_op STORAGE_OP_BLOCK_READ_REQ then Some (handle_read_block_request request)
  else if op =? storage_op STORAGE_OP_TAG_DELETE_REQ then Some (handle_delete_tag_op_package request)
  else None.

(** What the socket gives, request after request ([None] when the worker is gone),
    and the answers, until the socket is closed. *)
Fixpoint handle_client (requests : list (option t_package)) : SM (list t_package) :=
  match requests with
  | [] => mret []
  | None :: _ => change_worker_counter (-1);; mret []
  | Some request :: requests =>
      match handle_request request with
      | None => mret []
      | Some m =>
          response ← m;
          match response with
          | None => mret []
          | Some response => responses ← handle_client requests; mret (response :: responses)
          end
      end
  end.

End Server.
