(* ===== verification/StorageFsSpec.v ===== *)
(** * The file system, by what is at each path

    How the calls change [file_at] and the links, what the number of links of an
    inode says, and what is asked of the so-commons library. *)

From Stdlib Require Import Ascii.
From S2P Require Import Prelude CStrings Config Serialization StorageFs StorageUtils.

(** ** Links *)

Lemma elem_of_paths st i p : p ∈ paths_of st i <-> links st !! p = Some i.
Proof.
  unfold paths_of. rewrite list_elem_of_fmap. split.
  - intros ([p' i'] & -> & [Hi Hin]%list_elem_of_filter). cbn in *. subst. by apply elem_of_map_to_list.
  - intros H. exists (p, i). split; [done|]. apply list_elem_of_filter. split; [done|]. by apply elem_of_map_to_list.
Qed.

Lemma NoDup_paths st i : NoDup (paths_of st i).
Proof.
  unfold paths_of. pose proof (NoDup_fst_map_to_list (links st)) as Hnd. revert Hnd.
  induction (map_to_list (links st)) as [|[p j] l IH]; [done|]. rewrite fmap_cons, filter_cons. cbn [fst snd].
  intros [Hp Hl]%NoDup_cons. destruct (decide (j = i)); [|by apply IH]. rewrite fmap_cons. apply NoDup_cons.
  split; [|by apply IH]. rewrite list_elem_of_fmap. intros ([p' j'] & Ep & [_ Hin]%list_elem_of_filter).
  apply Hp. rewrite list_elem_of_fmap. eauto.
Qed.

(** Distinct links are counted. *)
Lemma nlink_ge st i ps :
  NoDup ps -> (forall p, p ∈ ps -> links st !! p = Some i) -> Z.of_nat (length ps) <= nlink st i.
Proof.
  intros Hnd Hall. unfold nlink. apply inj_le. apply submseteq_length, NoDup_submseteq; [done|].
  intros p Hp. by apply elem_of_paths, Hall.
Qed.

(** A second link. *)
Lemma nlink_other st i p :
  links st !! p = Some i -> nlink st i <> 1 -> exists q, q <> p /\ links st !! q = Some i.
Proof.
  intros Hp Hn. pose proof (NoDup_paths st i) as Hnd. apply elem_of_paths in Hp. unfold nlink in Hn.
  destruct (paths_of st i) as [|a [|b l]] eqn:E; [by apply not_elem_of_nil in Hp|done|].
  apply NoDup_cons in Hnd as [Hab _]. rewrite not_elem_of_cons in Hab.
  destruct (decide (a = p)) as [->|Ha].
  - exists b. split; [intros ->; tauto|]. apply elem_of_paths. rewrite E. right. left.
  - exists a. split; [done|]. apply elem_of_paths. rewrite E. by left.
Qed.

(** ** The calls, by what is at each path *)

(** Only the blocks of files share an inode. *)
Definition is_block (p : path) : Prop :=
  match p with P_physical _ | P_logical _ _ _ => True | _ => False end.

Record fs_sound (st : storage) : Prop := {
  s_inodes p i : links st !! p = Some i -> is_Some (inodes st !! i) /\ (i < next_ino st)%positive;
  s_private p q i : links st !! p = Some i -> links st !! q = Some i -> p <> q -> is_block p /\ is_block q
}.

(** Nothing but the files at the paths of [P] has changed, and no link. *)
Record rewrites (P : path -> Prop) (st st' : storage) : Prop := {
  r_links : links st' = links st;
  r_dirs : dirs st' = dirs st;
  r_held : held st' = held st;
  r_workers : worker_counter st' = worker_counter st;
  r_files p : ~ P p -> file_at st' p = file_at st p;
  r_sound : fs_sound st -> fs_sound st'
}.

Lemma rewrites_refl P st : rewrites P st st.
Proof. by split. Qed.

Lemma file_at_link st p i : links st !! p = Some i -> file_at st p = inodes st !! i.
Proof. unfold file_at. by intros ->. Qed.

(** The paths of one inode have one contents. *)
Lemma file_at_shared st p q : links st !! p = links st !! q -> file_at st p = file_at st q.
Proof. unfold file_at. by intros ->. Qed.

Lemma sound_file_at st p : fs_sound st -> is_Some (links st !! p) -> is_Some (file_at st p).
Proof. intros [Hi _] [i E]. rewrite (file_at_link _ _ _ E). by apply (Hi p i). Qed.

Lemma read_file_run st p : fs_sound st -> read_file p st = Some (file_at st p, st).
Proof.
  intros [Hi _]. unfold read_file, file_at. destruct (links st !! p) as [i|] eqn:E; [|done].
  destruct (Hi p i E) as [[bs Eb] _]. rewrite Eb. simpl. by rewrite Eb.
Qed.

Lemma set_inode_rewrites st i bs P :
  (forall p, links st !! p = Some i -> P p) -> rewrites P st (on_inodes <[i := bs]> st).
Proof.
  intros HP. split; try done.
  - intros p Hp. unfold file_at. cbn. destruct (links st !! p) as [j|] eqn:E; [|done]. simpl.
    rewrite lookup_insert_ne; [done|]. intros ->. by apply Hp, HP.
  - intros [Hi Hp]. split; [|done]. intros p j Hj. destruct (Hi p j Hj) as [H1 H2]. split; [|done]. cbn.
    destruct (decide (i = j)) as [->|]; [rewrite lookup_insert; by rewrite decide_True|by rewrite lookup_insert_ne].
Qed.

Lemma private_path st p q : fs_sound st -> ~ is_block p -> is_Some (links st !! p) -> links st !! q = links st !! p -> q = p.
Proof.
  intros [_ Hs] Hb [i E] Eq. destruct (decide (q = p)) as [|Hne]; [done|].
  destruct (Hs p q i) as [? _]; [done|congruence|done|done].
Qed.

(** Writing a file of its own that exists. *)
Lemma write_file_run st p bs :
  fs_sound st -> ~ is_block p -> is_Some (links st !! p) ->
  exists st', write_file p bs st = Some (true, st') /\ rewrites (fun q => q = p) st st' /\ file_at st' p = Some bs.
Proof.
  intros Hs Hb [i E]. unfold write_file. rewrite E. eexists. split; [done|]. split.
  - apply set_inode_rewrites. intros q Eq. apply (private_path st); [done|done|eauto|congruence].
  - unfold file_at. cbn. rewrite E. simpl. rewrite lookup_insert. by rewrite decide_True.
Qed.

Lemma overwrite_file_run st p bs old :
  fs_sound st -> file_at st p = Some old -> length bs = length old ->
  exists st', overwrite_file p bs st = Some (true, st') /\
    rewrites (fun q => links st !! q = links st !! p) st st' /\ file_at st' p = Some bs.
Proof.
  intros Hs Ho Hl. unfold overwrite_file. unfold file_at in Ho. destruct (links st !! p) as [i|] eqn:E; [|done].
  simpl in Ho. rewrite Ho. eexists. split; [done|]. split.
  - apply set_inode_rewrites. intros q ->. done.
  - unfold file_at. cbn. rewrite E. simpl. rewrite lookup_insert, decide_True by done. f_equal.
    unfold mem_write. rewrite take_0, drop_ge, app_nil_r by lia. done.
Qed.

(** A new file. *)
Lemma create_file_run st p bs :
  fs_sound st -> links st !! p = None -> parent p ∈ dirs st ->
  exists st', write_file p bs st = Some (true, st') /\
    links st' = <[p := next_ino st]> (links st) /\ dirs st' = dirs st /\ held st' = held st /\
    worker_counter st' = worker_counter st /\
    (forall q, file_at st' q = if decide (q = p) then Some bs else file_at st q) /\ fs_sound st' /\
    (forall q, links st !! q <> Some (next_ino st)).
Proof.
  intros Hs E Hd. pose proof Hs as [Hi Hp].
  assert (Hf : forall q, links st !! q <> Some (next_ino st)) by (intros q Eq; destruct (Hi q _ Eq); lia).
  unfold write_file. rewrite E, decide_True by done. eexists. split; [done|]. do 4 (split; [done|]).
  split; [|split; [|exact Hf]].
  - intros q. unfold file_at. cbn. destruct (decide (q = p)) as [->|Hne].
    + rewrite lookup_insert, decide_True by done. simpl. by rewrite lookup_insert, decide_True.
    + rewrite lookup_insert_ne by done. destruct (links st !! q) as [j|] eqn:Eq; [|done]. simpl.
      apply lookup_insert_ne. intros <-. by destruct (Hf q).
  - split; cbn.
    + intros q j. rewrite lookup_insert_Some. intros [[<- <-]|[Hne Hj]].
      * rewrite lookup_insert, decide_True by done. split; [eauto|lia].
      * destruct (Hi q j Hj) as [H1 H2]. rewrite lookup_insert_ne by lia. split; [done|lia].
    + intros q q' j. rewrite !lookup_insert_Some. intros [[<- <-]|[Hne Hj]] [[<- Ej]|[Hne' Hj']] Hd'; try done.
      * by destruct (Hf q').
      * subst j. by destruct (Hf q).
      * by apply (Hp q q' j).
Qed.

(** Links and removals change no file that stays. *)
Record relinks (st st' : storage) : Prop := {
  l_inodes : inodes st' = inodes st;
  l_dirs : dirs st' = dirs st;
  l_held : held st' = held st;
  l_next : next_ino st' = next_ino st;
  l_workers : worker_counter st' = worker_counter st
}.

Lemma relinks_file_at st st' p : relinks st st' -> links st' !! p = links st !! p -> file_at st' p = file_at st p.
Proof. intros [Ei _ _ _ _] El. unfold file_at. by rewrite El, Ei. Qed.

Lemma relinks_sound st st' :
  relinks st st' -> (forall p i, links st' !! p = Some i -> links st !! p = Some i \/ is_block p /\ exists q, is_block q /\ links st !! q = Some i) ->
  fs_sound st -> fs_sound st'.
Proof.
  intros [Ei _ _ En _] Hl [Hi Hp]. split.
  - intros p i H. rewrite Ei, En. destruct (Hl p i H) as [H'|(_ & q & _ & H')]; eauto.
  - intros p q i H1 H2 Hne. apply Hl in H1, H2.
    destruct H1 as [H1|(B1 & q1 & Bq1 & H1)], H2 as [H2|(B2 & q2 & Bq2 & H2)].
    + by apply (Hp p q i).
    + split; [|done]. destruct (decide (p = q2)) as [->|]; [done|]. by apply (Hp p q2 i).
    + split; [done|]. destruct (decide (q = q1)) as [->|]; [done|]. by apply (Hp q q1 i).
    + done.
Qed.

Lemma link_run st p q i :
  links st !! p = Some i -> links st !! q = None -> parent q ∈ dirs st ->
  link p q st = Some (0, on_links <[q := i]> st).
Proof. intros E1 E2 Hd. unfold link. by rewrite E1, E2, decide_True. Qed.

Lemma remove_run st p : is_Some (links st !! p) -> remove p st = Some (0, on_links (delete p) st).
Proof. intros [i E]. unfold remove. by rewrite E. Qed.

(** ** The commons library *)

(** The characters that a configuration file keeps as they are. *)
Definition safe_char (c : ascii) : bool :=
  let n := nat_of_ascii c in (33 <=? n)%nat && (n <=? 126)%nat && negb (Ascii.eqb c "=") && negb (Ascii.eqb c "#").

Definition item_char (c : ascii) : bool :=
  safe_char c && negb (Ascii.eqb c ",") && negb (Ascii.eqb c "[") && negb (Ascii.eqb c "]").

Fixpoint all_chars (P : ascii -> bool) (s : string) : bool :=
  match s with String c s => P c && all_chars P s | EmptyString => true end.

Definition config_word (s : string) : Prop := s <> EmptyString /\ all_chars safe_char s = true.
Definition array_item (s : string) : Prop := s <> EmptyString /\ all_chars item_char s = true.

(** Every key and value is such a word. *)
Definition plain_config `{CommonsConfig} (c : t_config) : Prop :=
  forall k v, config_get c k = Some v -> config_word k /\ config_word v.

Fixpoint assoc (k : string) (kvs : list (string * string)) : option string :=
  match kvs with
  | [] => None
  | (k', v) :: kvs => if String.eqb k k' then Some v else assoc k kvs
  end.

Class CommonsConfigSpec (CC : CommonsConfig) : Prop := {
  config_get_set c k v k' :
    config_get (config_set_value c k v) k' = if String.eqb k' k then Some v else config_get c k';
  config_saved c k : plain_config c -> config_get (config_parse (config_text c)) k = config_get c k;
  config_written kvs k :
    NoDup kvs.*1 -> Forall (fun kv => config_word kv.1 /\ config_word kv.2) kvs ->
    config_get (config_parse (config_lines kvs)) k = assoc k kvs;
  array_items l : Forall array_item l -> string_get_string_as_array (get_stringified_array l) = l
}.

(** The bits of a byte array, numbered from its first byte. *)
Class CommonsBitarraySpec (CB : CommonsBitarray) : Prop := {
  set_bit_length bm i : length (bitarray_set_bit bm i) = length bm;
  clean_bit_length bm i : length (bitarray_clean_bit bm i) = length bm;
  test_set_bit bm i j : 0 <= i < 8 * Z.of_nat (length bm) -> 0 <= j < 8 * Z.of_nat (length bm) ->
    bitarray_test_bit (bitarray_set_bit bm i) j = (j =? i) || bitarray_test_bit bm j;
  test_clean_bit bm i j : 0 <= i < 8 * Z.of_nat (length bm) -> 0 <= j < 8 * Z.of_nat (length bm) ->
    bitarray_test_bit (bitarray_clean_bit bm i) j = negb (j =? i) && bitarray_test_bit bm j;
  test_zero_bit n j : 0 <= j < 8 * Z.of_nat n -> bitarray_test_bit (replicate n x00) j = false
}.
