(* ===== verification/StorageInvariant.v ===== *)
(** * The invariant of the Storage

    [fs_inv st T]: the physical blocks are there, the logical blocks are the links
    that the table [T] says, and the bitmap has the bits of the blocks in [T].
    [meta_inv st]: every file:tag has metadata that reads back and the directories
    that go with it.  In a good state, [fs_wf], [T] is what the metadata say. *)

From S2P Require Import Prelude CStrings Config Serialization StorageFs StorageUtils StorageOps StorageFsSpec.

(** ** Words of the configuration files *)

Lemma all_chars_app P a b : all_chars P (a +:+ b) = all_chars P a && all_chars P b.
Proof.
  induction a as [|c a IH]; [done|]. change (all_chars P (String c (a +:+ b)) = all_chars P (String c a) && all_chars P b).
  cbn [all_chars]. by rewrite IH, andb_assoc.
Qed.

Lemma all_chars_mono (P Q : Ascii.ascii -> bool) s :
  (forall c, P c = true -> Q c = true) -> all_chars P s = true -> all_chars Q s = true.
Proof. intros H. induction s as [|c s IH]; [done|]. cbn [all_chars]. rewrite !andb_true_iff. intuition. Qed.

Lemma item_safe c : item_char c = true -> safe_char c = true.
Proof. unfold item_char. by intros [[[? _]%andb_true_iff _]%andb_true_iff _]%andb_true_iff. Qed.

Lemma all_chars_decimal fuel n acc :
  0 <= n -> all_chars item_char acc = true -> all_chars item_char (decimal fuel n acc) = true.
Proof.
  revert n acc. induction fuel as [|fuel IH]; intros n acc Hn Ha; [done|]. cbn [decimal].
  assert (Hd : item_char (digit_char (n mod 10)) = true).
  { apply (digit_ind (fun d => item_char (digit_char d) = true)); [by repeat constructor|].
    apply Z.mod_pos_bound. lia. }
  destruct (n / 10 =? 0); [|apply IH; [apply Z.div_pos; lia|]]; cbn [all_chars]; by rewrite Hd, Ha.
Qed.

Lemma print_int_item n : array_item (print_int n).
Proof.
  assert (Hp : forall k, 0 <= k -> print_number k <> EmptyString /\ all_chars item_char (print_number k) = true).
  { intros k Hk. split; [|by apply all_chars_decimal]. unfold print_number.
    destruct (decimal_head 10 k EmptyString) as (d & s & _ & ->); [lia|done|done]. }
  unfold print_int. destruct (Z.ltb_spec n 0); [|by apply Hp].
  split; [done|]. cbn [all_chars]. apply andb_true_iff. split; [done|]. by apply Hp; lia.
Qed.

Lemma item_word s : array_item s -> config_word s.
Proof. intros [Hne Ha]. split; [done|]. eapply all_chars_mono; [apply item_safe|done]. Qed.

Lemma stringified_word l : Forall array_item l -> config_word (get_stringified_array l).
Proof.
  intros Hl. split; [done|]. unfold get_stringified_array. rewrite !all_chars_app. apply andb_true_iff. split; [done|].
  apply andb_true_iff. split; [|done]. induction Hl as [|s l Hs Hl IH]; [done|].
  apply item_word in Hs as [_ Hs]. cbn [String.concat]. destruct l as [|s' l]; [done|].
  rewrite !all_chars_app, Hs. exact IH.
Qed.

Section Invariant.
Context {CC : CommonsConfig} {CB : CommonsBitarray} {CY : CommonsCrypto}.
Context {CCS : CommonsConfigSpec CC} {CBS : CommonsBitarraySpec CB}.
Variable cfg : t_storage_config.

Abbreviation bsize := (block_size cfg).
Abbreviation bytes := (bitmap_size_bytes cfg).

(** ** Metadata *)

Definition meta (st : storage) (f t : string) : option t_file_metadata :=
  file_at st (P_metadata f t) ≫= fun text => metadata_of (P_metadata f t) (config_parse text).

Lemma config_create_run st p : fs_sound st -> config_create p st = Some (config_parse <$> file_at st p, st).
Proof. intros Hs. unfold config_create, mbind, st_bind. by rewrite read_file_run. Qed.

Lemma read_file_metadata_run st f t : fs_sound st -> read_file_metadata f t st = Some (meta st f t, st).
Proof.
  intros Hs. unfold read_file_metadata, mbind at 1, st_bind. rewrite config_create_run by done. unfold meta.
  by destruct (file_at st _).
Qed.

Lemma meta_path st f t m : meta st f t = Some m -> md_path m = P_metadata f t.
Proof.
  unfold meta. destruct (file_at st _) as [text|]; [|done]. simpl. unfold metadata_of.
  case_match; [done|]. by intros [= <-].
Qed.

(** What [save_file_metadata] writes and what a metadata file may say. *)
Record metadata_ok (m : t_file_metadata) : Prop := {
  ok_size : - 2 ^ 31 <= md_size m < 2 ^ 31;
  ok_blocks : Forall (fun b => - 2 ^ 31 <= b < 2 ^ 31) (md_blocks m);
  ok_state : config_word (md_state m);
  ok_config : plain_config (md_config m)
}.

(** The same file, as far as the Storage looks at it. *)
Definition same_metadata (m m' : t_file_metadata) : Prop :=
  md_size m' = md_size m /\ md_blocks m' = md_blocks m /\ md_state m' = md_state m /\ md_path m' = md_path m.

Lemma plain_set c k v : plain_config c -> config_word k -> config_word v -> plain_config (config_set_value c k v).
Proof.
  intros Hc Hk Hv k' v'. rewrite config_get_set. destruct (String.eqb_spec k' k) as [->|]; [by intros [= <-]|apply Hc].
Qed.

Lemma atoi_print_ints l : Forall (fun b => - 2 ^ 31 <= b < 2 ^ 31) l -> atoi <$> (print_int <$> l) = l.
Proof. induction 1 as [|b l Hb Hl IH]; [done|]. rewrite !fmap_cons, IH. f_equal. by apply atoi_print_int. Qed.

Definition blocks_text (bs : list Z) : string := get_stringified_array (print_int <$> bs).

Lemma print_ints_items bs : Forall array_item (print_int <$> bs).
Proof. apply Forall_fmap, Forall_true. intros b. apply print_int_item. Qed.

(** Metadata that say size, blocks and state. *)
Lemma metadata_of_texts p c size bs state :
  - 2 ^ 31 <= size < 2 ^ 31 -> Forall (fun b => - 2 ^ 31 <= b < 2 ^ 31) bs ->
  config_get c "SIZE" = Some (print_int size) -> config_get c "BLOCKS" = Some (blocks_text bs) ->
  config_get c "ESTADO" = Some state -> metadata_of p c = Some (MkMetadata size bs state c p).
Proof.
  intros Hs Hb E1 E2 E3. unfold metadata_of, config_has_property, config_get_int_value. rewrite E1, E2, E3. cbn [negb orb from_option]. unfold id.
  unfold blocks_text. rewrite array_items by apply print_ints_items. cbn. by rewrite atoi_print_int, atoi_print_ints.
Qed.

(** The configuration that [save_file_metadata] writes. *)
Definition saved_config (m : t_file_metadata) : t_config :=
  config_set_value
    (config_set_value (config_set_value (md_config m) "SIZE" (print_int (md_size m)))
       "BLOCKS" (if block_count m =? 0 then "[]" else blocks_text (md_blocks m)))
    "ESTADO" (md_state m).

Lemma saved_blocks_text m : (if block_count m =? 0 then "[]"%string else blocks_text (md_blocks m)) = blocks_text (md_blocks m).
Proof. unfold block_count. by destruct (md_blocks m). Qed.

Lemma saved_plain m : metadata_ok m -> plain_config (saved_config m).
Proof.
  intros [Hs Hb Hst Hc]. unfold saved_config. rewrite saved_blocks_text.
  repeat apply plain_set; try done; try (by apply item_word, print_int_item); try (by apply stringified_word, print_ints_items); by split.
Qed.

Lemma saved_metadata m p :
  metadata_ok m ->
  exists c, metadata_of p (config_parse (config_text (saved_config m))) =
    Some (MkMetadata (md_size m) (md_blocks m) (md_state m) c p) /\ plain_config c.
Proof.
  intros Hok. pose proof (saved_plain m Hok) as Hpl. destruct Hok as [Hs Hb Hst Hc]. eexists. split.
  - apply metadata_of_texts; [done..| | |]; rewrite config_saved by done; unfold saved_config; rewrite saved_blocks_text;
      rewrite !config_get_set; by cbn.
  - intros k v. rewrite config_saved by done. apply Hpl.
Qed.

(** Metadata written from scratch. *)
Lemma written_metadata p size bs raw state :
  - 2 ^ 31 <= size < 2 ^ 31 -> Forall (fun b => - 2 ^ 31 <= b < 2 ^ 31) bs -> config_word raw ->
  atoi <$> string_get_string_as_array raw = bs -> config_word state ->
  exists c, metadata_of p (config_parse (config_lines [("SIZE", print_int size); ("BLOCKS", raw); ("ESTADO", state)]%string)) =
    Some (MkMetadata size bs state c p) /\ metadata_ok (MkMetadata size bs state c p).
Proof.
  intros Hs Hb Hraw Eraw Hst. set (kvs := [("SIZE", print_int size); ("BLOCKS", raw); ("ESTADO", state)]%string).
  assert (Hget : forall k, config_get (config_parse (config_lines kvs)) k = assoc k kvs).
  { intros k. apply config_written.
    - repeat constructor; rewrite ?elem_of_cons; by set_solver.
    - unfold kvs. rewrite !Forall_cons, Forall_nil. cbn [fst snd].
      destruct (item_word _ (print_int_item size)), Hraw, Hst. by repeat split. }
  exists (config_parse (config_lines kvs)). split.
  - unfold metadata_of, config_has_property, config_get_int_value. rewrite !Hget. cbn. by rewrite Eraw, atoi_print_int.
  - split; try done. intros k v. rewrite Hget. cbn [assoc kvs].
    destruct (String.eqb_spec k "SIZE") as [->|]; [intros [= <-]; split; [done|by apply item_word, print_int_item]|].
    destruct (String.eqb_spec k "BLOCKS") as [->|]; [by intros [= <-]|].
    destruct (String.eqb_spec k "ESTADO") as [->|]; [by intros [= <-]|done].
Qed.

Lemma save_file_metadata_run st f t m :
  fs_sound st -> is_Some (links st !! P_metadata f t) -> md_path m = P_metadata f t -> metadata_ok m ->
  exists st' m', save_file_metadata m st = Some (0, st') /\
    rewrites (fun q => q = P_metadata f t) st st' /\ meta st' f t = Some m' /\ same_metadata m m' /\ metadata_ok m'.
Proof.
  intros Hs Hl Hp Hok. destruct (saved_metadata m (P_metadata f t) Hok) as (c & Ec & Hc).
  destruct (write_file_run st (P_metadata f t) (config_text (saved_config m))) as (st' & E & Hr & Ef); [done|by intros []|done|].
  exists st'. eexists. split; [|split; [exact Hr|split; [|split]]].
  - unfold save_file_metadata, mbind, st_bind. rewrite Hp. fold (blocks_text (md_blocks m)).
    change (config_set_value _ "ESTADO" _) with (saved_config m). by rewrite E.
  - unfold meta. rewrite Ef. exact Ec.
  - by split.
  - destruct Hok. by split.
Qed.

(** ** Blocks *)

(** The number of physical blocks. *)
Definition blocks_total : Z := Z.quot (fs_size cfg) bsize.

Class cfg_ok : Prop := {
  c_block : 0 < bsize < 2 ^ 31;
  c_total : 0 < blocks_total < 2 ^ 31;
  c_bytes : bytes = Z.quot (blocks_total + 7) 8
}.

Lemma cfg_bits : cfg_ok -> 0 < bytes /\ blocks_total <= 8 * bytes < 2 ^ 32.
Proof.
  intros [Hb Ht ->]. rewrite Z.quot_div_nonneg by lia.
  pose proof (Z.div_mod (blocks_total + 7) 8). pose proof (Z.mod_pos_bound (blocks_total + 7) 8). lia.
Qed.

Definition block_path (b : Z) : path := P_physical (block_name b).

Definition block_content (st : storage) (b : Z) : list byte := default [] (file_at st (block_path b)).

(** Which physical block each logical block is. *)
Definition Table := string -> string -> Z -> option Z.

Definition used (T : Table) (b : Z) : Prop := exists f t n, T f t n = Some b.

Definition set_block (T : Table) (f t : string) (n : Z) (o : option Z) : Table := fun f' t' n' =>
  if decide (f' = f /\ t' = t /\ n' = n) then o else T f' t' n'.

(** The blocks of [st] are those of [T], and the bits of the bitmap those of [U]. *)
Record fs_at (st : storage) (T : Table) (U : Z -> Prop) : Prop := {
  i_sound : fs_sound st;
  i_dirs : D_root ∈ dirs st /\ D_physical ∈ dirs st;
  i_phys b : 0 <= b < blocks_total ->
    exists bs, file_at st (block_path b) = Some bs /\ length bs = Z.to_nat bsize;
  i_inj s s' i : links st !! P_physical s = Some i -> links st !! P_physical s' = Some i -> s = s';
  i_linked f t n : links st !! P_logical f t n = T f t n ≫= fun b => links st !! block_path b;
  i_range f t n b : T f t n = Some b -> 0 <= b < blocks_total;
  i_bitmap : exists bm, file_at st P_bitmap = Some bm /\ Z.of_nat (length bm) = bytes /\
    forall b, 0 <= b < 8 * bytes -> bitarray_test_bit bm b = true <-> U b;
  i_hash : is_Some (links st !! P_hash_index);
  i_base : T "initial_file" "BASE" 0 = Some 0;
  i_zero : block_content st 0 = replicate (Z.to_nat bsize) x00
}.

Definition fs_inv (st : storage) (T : Table) : Prop := fs_at st T (used T).

(** Two states that differ in the links of logical blocks and in the bitmap. *)
Record same_files (st st' : storage) : Prop := {
  f_meta f t : file_at st' (P_metadata f t) = file_at st (P_metadata f t);
  f_links f t : links st' !! P_metadata f t = links st !! P_metadata f t;
  f_dirs : dirs st' = dirs st;
  f_held : held st' = held st;
  f_content b : block_content st' b = block_content st b
}.

Lemma same_files_refl st : same_files st st.
Proof. by split. Qed.

Lemma same_files_trans st1 st2 st3 : same_files st1 st2 -> same_files st2 st3 -> same_files st1 st3.
Proof. intros [? ? ? ? ?] [? ? ? ? ?]. split; intros; etransitivity; eauto. Qed.

Record meta_inv (st : storage) : Prop := {
  m_linked f t : is_Some (links st !! P_metadata f t) -> is_Some (meta st f t);
  m_ok f t m : meta st f t = Some m -> metadata_ok m;
  m_tag f t : D_tag f t ∈ dirs st <-> is_Some (meta st f t);
  m_blocks f t : D_blocks f t ∈ dirs st <-> is_Some (meta st f t);
  m_file f t : D_tag f t ∈ dirs st -> D_file f ∈ dirs st;
  m_base : exists m, meta st "initial_file" "BASE" = Some m /\ md_state m = COMMITTED
}.

Definition table (st : storage) : Table := fun f t n =>
  meta st f t ≫= fun m => if decide (0 <= n) then md_blocks m !! Z.to_nat n else None.

Record fs_wf (st : storage) : Prop := {
  w_inv : fs_inv st (table st);
  w_meta : meta_inv st;
  w_held : held st = []
}.

Lemma same_files_meta st st' f t : same_files st st' -> meta st' f t = meta st f t.
Proof. intros H. unfold meta. by rewrite (f_meta _ _ H). Qed.

Lemma same_files_meta_inv st st' : same_files st st' -> meta_inv st -> meta_inv st'.
Proof.
  intros H [? ? ? ? ? ?]. split; intros *; rewrite ?(same_files_meta _ _ _ _ H), ?(f_dirs _ _ H), ?(f_links _ _ H); eauto.
Qed.

Lemma same_files_table st st' f t n : same_files st st' -> table st' f t n = table st f t n.
Proof. intros H. unfold table. by rewrite (same_files_meta _ _ _ _ H). Qed.

(** The table and the bits only matter point by point. *)
Lemma fs_at_ext st T U T' U' :
  (forall f t n, T' f t n = T f t n) -> (forall b, 0 <= b < 8 * bytes -> U' b <-> U b) -> fs_at st T U -> fs_at st T' U'.
Proof.
  intros E EU [? ? ? ? Hl Hr Hb ? ? ?]. split; try done.
  - intros f t n. by rewrite E.
  - intros f t n b. rewrite E. apply Hr.
  - destruct Hb as (bm & E1 & E2 & Hb). exists bm. split; [done|]. split; [done|]. intros b Hb'. rewrite EU by done. by apply Hb.
  - by rewrite E.
Qed.

Lemma used_ext T T' b : (forall f t n, T' f t n = T f t n) -> used T' b <-> used T b.
Proof. intros E. split; intros (f & t & n & H); exists f, t, n; congruence. Qed.

Lemma fs_inv_ext st T T' : (forall f t n, T' f t n = T f t n) -> fs_inv st T -> fs_inv st T'.
Proof. intros E. apply fs_at_ext; [done|]. intros b _. by apply used_ext. Qed.

Lemma meta_inv_link st f t m : meta st f t = Some m -> is_Some (links st !! P_metadata f t).
Proof. unfold meta, file_at. by destruct (links st !! P_metadata f t). Qed.

Lemma phys_linked st T U b : fs_at st T U -> 0 <= b < blocks_total -> is_Some (links st !! block_path b).
Proof.
  intros H Hb. destruct (i_phys _ _ _ H b Hb) as (bs & E & _). unfold file_at in E.
  by destruct (links st !! block_path b).
Qed.

Lemma block_path_inj b b' : 0 <= b < 2 ^ 31 -> 0 <= b' < 2 ^ 31 -> block_path b = block_path b' -> b = b'.
Proof.
  intros Hb Hb' [= E]. rewrite <- (atoi_print_04 b), <- (atoi_print_04 b') by lia. f_equal.
  unfold block_name in E. by simplify_eq.
Qed.

End Invariant.
