(* ===== verification/StorageBlocks.v ===== *)
(** * Blocks change hands

    The steps of the operations on one logical block: a link goes, a link to block
    zero comes, a shared block is replaced by one of its own, a block is written in
    place.  Each keeps [fs_inv] for the table it leaves. *)

From S2P Require Import Prelude CStrings Config Serialization StorageFs StorageUtils StorageOps StorageFsSpec StorageInvariant.

Section Blocks.
Context {CC : CommonsConfig} {CB : CommonsBitarray} {CY : CommonsCrypto}.
Context {CCS : CommonsConfigSpec CC} {CBS : CommonsBitarraySpec CB}.
Variable cfg : t_storage_config.
Context {Hcfg : cfg_ok cfg}.

Abbreviation bsize := (block_size cfg).
Abbreviation bytes := (bitmap_size_bytes cfg).
Abbreviation inv := (fs_inv cfg).
Abbreviation fs_at := (fs_at cfg).
Abbreviation total := (blocks_total cfg).

(** ** The bitmap *)

Lemma lock_run m st : m ∉ held st -> lock m st = Some (tt, on_held (cons m) st).
Proof. intros H. unfold lock. by rewrite decide_False. Qed.

Lemma unlock_run m st h :
  held st = m :: h -> m ∉ h -> exists st', unlock m st = Some (tt, st') /\ st' = on_held (fun _ => h) st.
Proof.
  intros E Hm. unfold unlock. rewrite decide_True by (rewrite E; left). eexists. split; [done|].
  unfold on_held. f_equal. rewrite E, filter_cons_False by tauto. clear E.
  induction h as [|x h IH]; [done|]. rewrite not_elem_of_cons in Hm. rewrite filter_cons_True, IH by naive_solver. done.
Qed.

(** A stretch of the code under mutex [m] that rewrites the files of [P]. *)
Lemma rewrites_locked P m st st2 :
  m ∉ held st -> rewrites P (on_held (cons m) st) st2 ->
  exists st', unlock m st2 = Some (tt, st') /\ rewrites P st st' /\ forall p, file_at st' p = file_at st2 p.
Proof.
  intros Hm [El Ed Eh Ew Ef Hs]. destruct (unlock_run m st2 (held st)) as (st' & E & ->); [by rewrite Eh|done|].
  eexists. split; [exact E|]. split; [|done]. split; try done.
  intros Hst. destruct Hs as [H1 H2]; [|by split]. destruct Hst as [H1 H2]. by split.
Qed.

Lemma rewrites_weaken (P Q : path -> Prop) st st' : (forall p, P p -> Q p) -> rewrites P st st' -> rewrites Q st st'.
Proof. intros HPQ [? ? ? ? ? ?]. split; naive_solver. Qed.

Lemma overwrite_private_run st p bs old :
  fs_sound st -> ~ is_block p -> file_at st p = Some old -> length bs = length old ->
  exists st', overwrite_file p bs st = Some (true, st') /\ rewrites (fun q => q = p) st st' /\ file_at st' p = Some bs.
Proof.
  intros Hs Hp Ho Hl. destruct (overwrite_file_run st p bs old) as (st' & E & Hr & Ef); [done..|].
  exists st'. split; [done|]. split; [|done]. eapply rewrites_weaken; [|exact Hr]. intros q Eq.
  apply (private_path st); [done|done| |done]. unfold file_at in Ho. by destruct (links st !! p).
Qed.

Lemma fread_whole bm : Z.of_nat (length bm) = bytes -> fread_bitmap cfg bm = Some bm.
Proof.
  intros E. unfold fread_bitmap. rewrite E. destruct (Z.ltb_spec bytes bytes); [lia|].
  rewrite <- E, Nat2Z.id. by rewrite take_ge.
Qed.

Lemma set_bit_at_run bm b v st :
  0 <= b < 8 * Z.of_nat (length bm) ->
  exists bm', set_bit_at bm b v st = Some (bm', st) /\ length bm' = length bm /\
    forall j, 0 <= j < 8 * Z.of_nat (length bm) ->
      bitarray_test_bit bm' j = if j =? b then v else bitarray_test_bit bm j.
Proof.
  intros Hb. unfold set_bit_at. destruct (Z.leb_spec 0 b), (Z.ltb_spec b (8 * Z.of_nat (length bm))); try lia. cbn [andb].
  eexists. split; [reflexivity|]. split.
  - destruct v; [apply set_bit_length|apply clean_bit_length].
  - intros j Hj. destruct v; [rewrite test_set_bit by lia|rewrite test_clean_bit by lia]; by destruct (j =? b).
Qed.

(** [bitmap'] is [bitmap] with bit [b] set to [v]. *)
Definition bit_changed (st st' : storage) (b : Z) (v : bool) : Prop :=
  exists bm bm', file_at st P_bitmap = Some bm /\ file_at st' P_bitmap = Some bm' /\ length bm' = length bm /\
    forall j, 0 <= j < 8 * Z.of_nat (length bm) -> bitarray_test_bit bm' j = if j =? b then v else bitarray_test_bit bm j.

Lemma modify_bitmap_bits_run st T U b v :
  fs_at st T U -> M_bitmap ∉ held st -> 0 <= b < 8 * bytes ->
  exists st', modify_bitmap_bits cfg b 1 v st = Some (0, st') /\
    rewrites (fun q => q = P_bitmap) st st' /\ bit_changed st st' b v.
Proof.
  intros Hi Hm Hb. pose proof (i_sound _ _ _ _ Hi) as Hs. destruct (i_bitmap _ _ _ _ Hi) as (bm & Ebm & El & _).
  unfold modify_bitmap_bits, mbind, st_bind. rewrite read_file_run, Ebm by done. rewrite lock_run by done.
  rewrite fread_whole by done. cbn [set_bitmap_bits]. unfold mbind, st_bind.
  destruct (set_bit_at_run bm b v (on_held (cons M_bitmap) st)) as (bm' & -> & Hl & Hbits); [lia|].
  cbn [mret st_ret]. unfold mret, st_ret.
  destruct (overwrite_private_run (on_held (cons M_bitmap) st) P_bitmap bm' bm) as (st2 & -> & Hr & Ef);
    [by destruct Hs|by intros []|done|done|].
  destruct (rewrites_locked _ _ _ _ Hm Hr) as (st' & -> & Hr' & Ef'). exists st'. split; [done|]. split; [done|].
  exists bm, bm'. rewrite Ef'. by repeat split.
Qed.

(** ** The steps *)

Lemma set_block_eq T f t n o : set_block T f t n o f t n = o.
Proof. unfold set_block. by rewrite decide_True. Qed.

Lemma set_block_ne T f t n o f' t' n' : ~ (f' = f /\ t' = t /\ n' = n) -> set_block T f t n o f' t' n' = T f' t' n'.
Proof. intros H. unfold set_block. by rewrite decide_False. Qed.

Lemma rewrites_bitmap_same st st' : fs_sound st -> rewrites (fun q => q = P_bitmap) st st' -> same_files st st'.
Proof.
  intros Hs [El Ed Eh _ Ef _]. split; try done.
  - intros f t. by apply Ef.
  - intros f t. by rewrite El.
  - intros b. unfold block_content. by rewrite Ef.
Qed.

Lemma fs_at_bit st st' T U b v :
  fs_at st T U -> rewrites (fun q => q = P_bitmap) st st' -> bit_changed st st' b v ->
  fs_at st' T (fun j => if decide (j = b) then v = true else U j).
Proof.
  intros [Hs Hd Hp Hi Hl Hr Hb Hh HB Hz] Hrw (bm & bm' & E1 & E2 & E3 & Hbits).
  pose proof (rewrites_bitmap_same _ _ Hs Hrw) as Hsame. destruct Hrw as [El Ed Eh Ew Ef Hs'].
  split; rewrite ?El, ?Ed; try done.
  - by apply Hs'.
  - intros n Hn. rewrite Ef by done. by apply Hp.
  - destruct Hb as (bm0 & E0 & El0 & Hb). simplify_eq. exists bm'. split; [done|]. split; [lia|].
    intros j Hj. rewrite Hbits by lia. destruct (Z.eqb_spec j b), (decide (j = b)); try done. by apply Hb.
  - by rewrite (f_content _ _ Hsame).
Qed.

(** A change of the links of logical blocks keeps all files. *)
Lemma relinks_same st st' :
  relinks st st' -> (forall p, (forall f t n, p <> P_logical f t n) -> links st' !! p = links st !! p) -> same_files st st'.
Proof.
  intros Hr El. pose proof Hr as [Ei Ed Eh En Ew]. split; try done.
  - intros f t. apply relinks_file_at; [done|]. by apply El.
  - intros f t. by apply El.
  - intros b. unfold block_content. rewrite (relinks_file_at st st'); [done..|]. by apply El.
Qed.

Lemma fs_at_relinks st st' T T' U :
  fs_at st T U -> relinks st st' ->
  (forall p, (forall f t n, p <> P_logical f t n) -> (forall f t, p <> P_metadata f t) -> links st' !! p = links st !! p) ->
  (forall f t i, links st' !! P_metadata f t = Some i -> links st !! P_metadata f t = Some i) ->
  (forall f t n, links st' !! P_logical f t n = T' f t n ≫= fun b => links st !! block_path b) ->
  (forall f t n b, T' f t n = Some b -> 0 <= b < total) -> T' "initial_file"%string "BASE"%string 0 = Some 0 ->
  fs_at st' T' U.
Proof.
  intros [Hs Hd Hp Hi Hl Hr Hb Hh HB Hz] Hre El Elm Hl' Hr' HB'.
  assert (Ef : forall p, (forall f t n, p <> P_logical f t n) -> (forall f t, p <> P_metadata f t) -> file_at st' p = file_at st p).
  { intros p Hnp Hnm. apply relinks_file_at; [done|]. by apply El. }
  split; rewrite ?El, ?(l_dirs _ _ Hre) by done; try done.
  - eapply relinks_sound; [done| |done]. intros p i Hpi.
    destruct p as [| | |s|f t|f t n]; try (left; rewrite <- Hpi; symmetry; by apply El); [left; by apply Elm|].
    rewrite Hl' in Hpi. right. split; [done|]. destruct (T' f t n) as [b|]; [|done]. by exists (block_path b).
  - intros b Hb0. rewrite Ef by done. by apply Hp.
  - intros s s' i. rewrite !El by done. apply Hi.
  - intros f t n. rewrite Hl'. destruct (T' f t n) as [b|]; [|done]. simpl. symmetry. by apply El.
  - by rewrite Ef.
  - unfold block_content. by rewrite Ef.
Qed.

Lemma fs_at_unlink st T U f t n :
  fs_at st T U -> (f, t) <> ("initial_file", "BASE")%string -> let st' := on_links (delete (P_logical f t n)) st in
  fs_at st' (set_block T f t n None) U /\ same_files st st'.
Proof.
  intros Hat Hbase st'. assert (Hre : relinks st st') by done.
  assert (El : forall p, (forall f t n, p <> P_logical f t n) -> links st' !! p = links st !! p).
  { intros p Hp. cbn. rewrite lookup_delete_ne; [done|]. intros <-. by eapply Hp. }
  split; [|by apply relinks_same]. apply (fs_at_relinks st st' T); try done; [by auto|by intros ? ? ?; rewrite El| | |].
  - intros f' t' n'. destruct (decide (f' = f /\ t' = t /\ n' = n)) as [(-> & -> & ->)|Hne].
    + rewrite set_block_eq. cbn. by rewrite lookup_delete, decide_True.
    + rewrite set_block_ne by done. cbn. rewrite lookup_delete_ne by naive_solver. apply (i_linked _ _ _ _ Hat).
  - intros f' t' n' b. unfold set_block. case_decide; [done|]. apply (i_range _ _ _ _ Hat).
  - rewrite set_block_ne; [apply (i_base _ _ _ _ Hat)|]. naive_solver.
Qed.

Lemma fs_at_link st T U f t n b i :
  fs_at st T U -> (f, t) <> ("initial_file", "BASE")%string -> 0 <= b < total -> links st !! block_path b = Some i ->
  let st' := on_links <[P_logical f t n := i]> st in
  fs_at st' (set_block T f t n (Some b)) U /\ same_files st st'.
Proof.
  intros Hat Hbase Hb Hi st'. assert (Hre : relinks st st') by done.
  assert (El : forall p, (forall f t n, p <> P_logical f t n) -> links st' !! p = links st !! p).
  { intros p Hp. cbn. rewrite lookup_insert_ne; [done|]. intros <-. by eapply Hp. }
  split; [|by apply relinks_same]. apply (fs_at_relinks st st' T); try done; [by auto|by intros ? ? ?; rewrite El| | |].
  - intros f' t' n'. destruct (decide (f' = f /\ t' = t /\ n' = n)) as [(-> & -> & ->)|Hne].
    + rewrite set_block_eq. cbn. by rewrite lookup_insert, decide_True.
    + rewrite set_block_ne by done. cbn. rewrite lookup_insert_ne by naive_solver. apply (i_linked _ _ _ _ Hat).
  - intros f' t' n' b'. unfold set_block. case_decide; [by intros [= <-]|]. apply (i_range _ _ _ _ Hat).
  - rewrite set_block_ne; [apply (i_base _ _ _ _ Hat)|]. naive_solver.
Qed.

(** ** Who uses a block *)

Lemma used_unset T f t n b j : T f t n = Some b -> used T j <-> used (set_block T f t n None) j \/ j = b.
Proof.
  intros E. split.
  - intros (f' & t' & n' & E'). destruct (decide (f' = f /\ t' = t /\ n' = n)) as [(-> & -> & ->)|Hne]; [right; congruence|].
    left. exists f', t', n'. by rewrite set_block_ne.
  - intros [(f' & t' & n' & E')| ->]; [|by exists f, t, n]. exists f', t', n'. revert E'. unfold set_block. by case_decide.
Qed.

Lemma used_set T f t n b j : T f t n = None -> used (set_block T f t n (Some b)) j <-> used T j \/ j = b.
Proof.
  intros E. split.
  - intros (f' & t' & n' & E'). revert E'. unfold set_block. case_decide; [intros [= ->]; by right|]. left. by exists f', t', n'.
  - intros [(f' & t' & n' & E')| ->]; [|exists f, t, n; apply set_block_eq]. exists f', t', n'.
    rewrite set_block_ne; [done|]. naive_solver.
Qed.

Lemma logical_link st T U f t n b i :
  fs_at st T U -> T f t n = Some b -> links st !! block_path b = Some i -> links st !! P_logical f t n = Some i.
Proof. intros H E Hi. rewrite (i_linked _ _ _ _ H), E. exact Hi. Qed.

(** The second link of a physical block is a logical block. *)
Lemma second_link st T U b i q :
  fs_at st T U -> 0 <= b < total -> links st !! block_path b = Some i -> q <> block_path b -> links st !! q = Some i ->
  exists f t n, q = P_logical f t n /\ T f t n = Some b.
Proof.
  intros H Hb Hi Hne Hq. destruct (s_private _ (i_sound _ _ _ _ H) q (block_path b) i) as [Hbq _]; [done..|].
  destruct q as [| | |s| |f t n]; try done.
  - destruct Hne. by rewrite (i_inj _ _ _ _ H s (block_name b) i).
  - exists f, t, n. split; [done|]. rewrite (i_linked _ _ _ _ H) in Hq. destruct (T f t n) as [b'|] eqn:E; [|done].
    f_equal. pose proof (i_range _ _ _ _ H _ _ _ _ E). destruct (c_total cfg).
    apply block_path_inj; [lia..|]. unfold block_path in *. f_equal. by eapply (i_inj _ _ _ _ H).
Qed.

Lemma nlink_more st T U b i :
  fs_at st T U -> 0 <= b < total -> links st !! block_path b = Some i -> nlink st i <> 1 -> used T b.
Proof.
  intros H Hb Hi Hne. destruct (nlink_other _ _ _ Hi Hne) as (q & Hq & Eq).
  destruct (second_link st T U b i q) as (f & t & n & _ & E); [done..|]. by exists f, t, n.
Qed.

Lemma nlink_one st T U b i :
  fs_at st T U -> links st !! block_path b = Some i -> nlink st i = 1 -> ~ used T b.
Proof.
  intros H Hi E (f & t & n & ET). assert (Hge : 2 <= nlink st i); [|lia].
  apply (nlink_ge st i [block_path b; P_logical f t n]).
  - repeat constructor; rewrite ?list_elem_of_singleton; [done|apply not_elem_of_nil].
  - intros p [->|[->|[]%not_elem_of_nil]%elem_of_cons]%elem_of_cons; [done|]. by eapply logical_link.
Qed.

(** With at most two links, one logical block uses the physical one. *)
Lemma sole_user st T U f t n b i f' t' n' :
  fs_at st T U -> links st !! block_path b = Some i -> nlink st i <= 2 ->
  T f t n = Some b -> T f' t' n' = Some b -> f' = f /\ t' = t /\ n' = n.
Proof.
  intros H Hi Hn E E'. destruct (decide (f' = f /\ t' = t /\ n' = n)) as [|Hne]; [done|]. exfalso.
  assert (Hge : 3 <= nlink st i); [|lia].
  apply (nlink_ge st i [block_path b; P_logical f t n; P_logical f' t' n']).
  - repeat constructor; rewrite ?elem_of_cons; try (intros Hin; set_solver); naive_solver.
  - intros p Hp. repeat (apply elem_of_cons in Hp as [->|Hp]); [done|by eapply logical_link..|by apply not_elem_of_nil in Hp].
Qed.

(** With more, another one does. *)
Lemma other_user st T U f t n b i :
  fs_at st T U -> 0 <= b < total -> links st !! block_path b = Some i -> 2 < nlink st i -> T f t n = Some b ->
  used (set_block T f t n None) b.
Proof.
  intros H Hb Hi Hn E. assert (Hd : exists q, q <> block_path b /\ q <> P_logical f t n /\ links st !! q = Some i).
  { pose proof (NoDup_paths st i) as Hnd. unfold nlink in Hn.
    destruct (decide (Forall (fun q => q = block_path b \/ q = P_logical f t n) (paths_of st i))) as [Hall|Hex].
    - exfalso. assert (Hle : (length (paths_of st i) <= length [block_path b; P_logical f t n])%nat); [|cbn in Hle; lia].
      apply submseteq_length, NoDup_submseteq; [done|]. intros q Hq. rewrite Forall_forall in Hall.
      apply Hall in Hq as [->| ->]; set_solver.
    - apply not_Forall_Exists in Hex; [|apply _]. apply Exists_exists in Hex as (q & Hq & Hno). exists q.
      apply elem_of_paths in Hq. cbn in Hno; tauto. }
  destruct Hd as (q & Hq1 & Hq2 & Hq). destruct (second_link st T U b i q) as (f' & t' & n' & -> & E'); [done..|].
  exists f', t', n'. rewrite set_block_ne; [done|]. by intros (-> & -> & ->).
Qed.

End Blocks.
