(* ===== verification/StorageSteps.v ===== *)
(** * The functions of the Storage on one block

    What [delete_logical_block], [link], [own_block] and [write_to_logical_block]
    do to a state that satisfies [fs_inv]. *)

From S2P Require Import Prelude CStrings Config Serialization StorageFs StorageUtils StorageOps StorageFsSpec StorageInvariant.
From S2P Require Import StorageBlocks.

Section Steps.
Context {CC : CommonsConfig} {CB : CommonsBitarray} {CY : CommonsCrypto}.
Context {CCS : CommonsConfigSpec CC} {CBS : CommonsBitarraySpec CB}.
Variable cfg : t_storage_config.
Context {Hcfg : cfg_ok cfg}.

Abbreviation bsize := (block_size cfg).
Abbreviation bytes := (bitmap_size_bytes cfg).
Abbreviation inv := (fs_inv cfg).
Abbreviation fs_at := (fs_at cfg).
Abbreviation total := (blocks_total cfg).
Abbreviation not_base f t := ((f, t) <> ("initial_file", "BASE")%string).

Lemma phys_ino st T U b : fs_at st T U -> 0 <= b < total -> exists i, links st !! block_path b = Some i.
Proof. intros H Hb. apply (phys_linked cfg st T U b H Hb). Qed.

Lemma total_bits b : 0 <= b < total -> 0 <= b < 8 * bytes.
Proof. intros Hb. destruct (cfg_bits cfg _). lia. Qed.

(** ** A link goes *)

Lemma delete_logical_block_run st T f t n b :
  inv st T -> M_bitmap ∉ held st -> T f t n = Some b -> not_base f t ->
  exists st', delete_logical_block cfg f t n b st = Some (0, st') /\
    inv st' (set_block T f t n None) /\ same_files st st'.
Proof.
  intros Hi Hm E Hb. pose proof (i_range _ _ _ _ Hi _ _ _ _ E) as Hr. destruct (phys_ino _ _ _ _ Hi Hr) as (i & Ei).
  pose proof (logical_link _ _ _ _ _ _ _ _ _ Hi E Ei) as El.
  destruct (fs_at_unlink cfg st T (used T) f t n Hi Hb) as [H1 Hsame1].
  set (st1 := on_links (delete (P_logical f t n)) st) in *. set (T1 := set_block T f t n None) in *.
  assert (Ei1 : links st1 !! block_path b = Some i) by (cbn; by rewrite lookup_delete_ne).
  pose proof (used_unset T f t n b) as Hu. fold T1 in Hu.
  unfold delete_logical_block, mbind, st_bind. rewrite remove_run by eauto. cbn [negb Z.eqb]. fold st1.
  unfold stat_nlink. fold (block_path b). rewrite Ei1. cbn [fmap option_fmap option_map].
  destruct (Z.eqb_spec (nlink st1 i) 1) as [E1|E1]; cbn [negb].
  - destruct (modify_bitmap_bits_run cfg st1 T1 (used T) b false) as (st' & -> & Hrw & Hbit);
      [done|done|by apply total_bits|]. exists st'. split; [done|].
    pose proof (fs_at_bit cfg st1 st' T1 (used T) b false H1 Hrw Hbit) as H2. split.
    + eapply fs_at_ext; [| |exact H2]; [done|]. intros j _. cbn beta.
      pose proof (nlink_one cfg _ _ _ _ _ H1 Ei1 E1). destruct (decide (j = b)) as [->|]; [by split|]. rewrite (Hu j E). tauto.
    + eapply same_files_trans; [exact Hsame1|]. apply rewrites_bitmap_same; [apply H1|done].
  - exists st1. split; [done|]. split; [|done]. eapply fs_at_ext; [| |exact H1]; [done|]. intros j _.
    rewrite (Hu j E). split; [by left|]. intros [?| ->]; [done|]. by eapply nlink_more.
Qed.

(** ** A link to block zero comes *)

Lemma link_zero_run st T f t n :
  inv st T -> T f t n = None -> D_blocks f t ∈ dirs st -> not_base f t ->
  exists st', link (P_physical (block_name 0)) (P_logical f t n) st = Some (0, st') /\
    inv st' (set_block T f t n (Some 0)) /\ same_files st st'.
Proof.
  intros Hi E Hd Hb. assert (Hr : 0 <= 0 < total) by (destruct Hcfg; lia).
  destruct (phys_ino _ _ _ _ Hi Hr) as (i & Ei).
  destruct (fs_at_link cfg st T (used T) f t n 0 i Hi Hb Hr Ei) as [H1 Hsame].
  eexists. split; [apply link_run; [exact Ei| |done]|].
  - by rewrite (i_linked _ _ _ _ Hi), E.
  - split; [|done]. eapply fs_at_ext; [| |exact H1]; [done|]. intros j _. rewrite used_set by done.
    split; [|by left]. intros [?| ->]; [done|]. exists "initial_file"%string, "BASE"%string, 0. apply (i_base _ _ _ _ Hi).
Qed.

(** ** A free bit *)

Lemma free_bit_from_spec bm k i :
  let r := free_bit_from bm i k in
  0 <= i ->
  (r = -1 /\ forall j, i <= j < i + Z.of_nat k -> bitarray_test_bit bm j = true) \/
  (i <= r < i + Z.of_nat k /\ bitarray_test_bit bm r = false /\
   forall j, i <= j < r -> bitarray_test_bit bm j = true).
Proof.
  revert i. induction k as [|k IH]; intros i r Hi; subst r; cbn [free_bit_from].
  - left. split; [done|]. lia.
  - destruct (bitarray_test_bit bm i) eqn:E; cbn [negb]; [|right; repeat split; try lia; done].
    assert (Hcons : forall j m, i <= j < m -> (i + 1 <= j < m -> bitarray_test_bit bm j = true) -> bitarray_test_bit bm j = true).
    { intros j m Hj H. destruct (decide (j = i)) as [->|]; [done|]. apply H. lia. }
    destruct (IH (i + 1)) as [[-> H]|(Hr & Hf & H)]; [lia| |].
    + left. split; [done|]. intros j Hj. apply (Hcons j (i + Z.of_nat (S k))); [lia|]. intros. apply H. lia.
    + right. split; [lia|]. split; [done|]. intros j Hj. apply (Hcons j (free_bit_from bm (i + 1) k)); [lia|]. intros. apply H. lia.
Qed.

(** With a free block, the one that is found is free. *)
Lemma get_free_bit_index_run st T U bm b :
  fs_at st T U -> file_at st P_bitmap = Some bm -> 0 <= b < total -> ~ U b ->
  let k := get_free_bit_index bm in 0 <= k <= b /\ ~ U k.
Proof.
  intros H Ebm Hb Hu k. destruct (i_bitmap _ _ _ _ H) as (bm' & E & El & Hbits). simplify_eq.
  pose proof (total_bits b Hb) as Hb8.
  destruct (free_bit_from_spec bm (8 * length bm) 0) as [[_ Hall]|(Hr & Hf & Hall)]; [lia| |].
  - destruct Hu. apply Hbits; [done|]. apply Hall. lia.
  - unfold k, get_free_bit_index. split; [|intros Hk; apply Hbits in Hk; [congruence|lia]].
    split; [lia|]. destruct (decide (free_bit_from bm 0 (8 * length bm) <= b)); [done|]. destruct Hu.
    apply Hbits; [done|]. apply Hall. lia.
Qed.

(** ** Metadata saved *)

(** Nothing but the metadata of [f:t] has changed, and they are [m]. *)
Record resaved (st st' : storage) (f t : string) (m : t_file_metadata) : Prop := {
  v_meta : meta st' f t = Some m;
  v_ok : metadata_ok m;
  v_links f' t' : (f', t') <> (f, t) -> links st' !! P_metadata f' t' = links st !! P_metadata f' t';
  v_others f' t' : (f', t') <> (f, t) -> file_at st' (P_metadata f' t') = file_at st (P_metadata f' t');
  v_dirs : dirs st' = dirs st;
  v_held : held st' = held st;
  v_content b : block_content st' b = block_content st b
}.

Lemma fs_at_rewrites_meta st st' T U f t :
  fs_at st T U -> rewrites (fun q => q = P_metadata f t) st st' -> fs_at st' T U.
Proof.
  intros [Hs Hd Hp Hi Hl Hr Hb Hh HB Hz] [El Ed Eh Ew Ef Hs'].
  split; rewrite ?El, ?Ed; try done; [by apply Hs'| | |].
  - intros b Hb0. rewrite Ef by done. by apply Hp.
  - by rewrite Ef.
  - unfold block_content. by rewrite Ef.
Qed.

Lemma save_run st T U f t m :
  fs_at st T U -> is_Some (links st !! P_metadata f t) -> md_path m = P_metadata f t -> metadata_ok m ->
  exists st' m', save_file_metadata m st = Some (0, st') /\ fs_at st' T U /\ resaved st st' f t m' /\ same_metadata m m' /\
    file_at st' P_hash_index = file_at st P_hash_index.
Proof.
  intros Hi Hl Hp Hok. destruct (save_file_metadata_run st f t m) as (st' & m' & E & Hr & Em & Hsame & Hok');
    [apply Hi|done..|].
  exists st', m'. split; [done|]. split; [by eapply fs_at_rewrites_meta|].
  destruct Hr as [El Ed Eh Ew Ef _]. split; [|split; [done|by apply Ef]]. split; try done.
  - intros f' t' _. by rewrite El.
  - intros f' t' Hne. apply Ef. by intros [= -> ->].
  - intros b. unfold block_content. by rewrite Ef.
Qed.

(** ** A block of its own *)

Lemma reserve_block_run st T f t n k0 :
  fs_at st T (used T) -> M_bitmap ∉ held st -> T f t n = None -> not_base f t -> D_blocks f t ∈ dirs st ->
  0 <= k0 < total -> ~ used T k0 ->
  exists st' k, reserve_block cfg f t n st = Some ((0, k), st') /\ 0 <= k < total /\ ~ used T k /\
    inv st' (set_block T f t n (Some k)) /\ same_files st st'.
Proof.
  intros Hi Hm E Hb Hd Hk0 Hu0. pose proof (i_sound _ _ _ _ Hi) as Hs.
  destruct (i_bitmap _ _ _ _ Hi) as (bm & Ebm & El & _).
  destruct (get_free_bit_index_run _ _ _ _ _ Hi Ebm Hk0 Hu0) as [Hk Hu]. set (k := get_free_bit_index bm) in *.
  assert (Hkt : 0 <= k < total) by lia. pose proof (total_bits k Hkt) as Hk8.
  unfold reserve_block, bitmap_load, mbind, st_bind. rewrite read_file_run, Ebm by done. rewrite lock_run by done.
  rewrite fread_whole by done. unfold mret, st_ret. fold k. destruct (Z.ltb_spec k 0); [lia|].
  destruct (set_bit_at_run bm k true (on_held (cons M_bitmap) st)) as (bm' & -> & Hl & Hbits); [lia|].
  unfold bitmap_persist, mbind, st_bind.
  destruct (overwrite_private_run (on_held (cons M_bitmap) st) P_bitmap bm' bm) as (st2 & -> & Hr & Ef);
    [by destruct Hs|by intros []|done|done|].
  destruct (rewrites_locked _ _ _ _ Hm Hr) as (st3 & -> & Hr3 & Ef3). unfold mret, st_ret. cbn [Z.ltb Z.compare].
  assert (Hbit : bit_changed st st3 k true) by (exists bm, bm'; rewrite Ef3; by repeat split).
  pose proof (fs_at_bit cfg _ _ _ _ _ _ Hi Hr3 Hbit) as H3. pose proof (rewrites_bitmap_same _ _ Hs Hr3) as Hsame3.
  destruct (phys_ino _ _ _ _ H3 Hkt) as (i & Ei).
  destruct (fs_at_link cfg st3 T _ f t n k i H3 Hb Hkt Ei) as [H4 Hsame4].
  unfold create_new_hardlink, mbind, st_bind. fold (block_path k).
  destruct (Z.ltb_spec k 0), (Z.leb_spec (bytes * 8) k); try lia. cbn [orb].
  rewrite (link_run st3 _ _ i Ei); [| |by rewrite (f_dirs _ _ Hsame3)].
  2:{ by rewrite (i_linked _ _ _ _ H3), E. }
  eexists _, k. split; [reflexivity|]. split; [done|]. split; [done|]. split; [|by eapply same_files_trans].
  eapply fs_at_ext; [| |exact H4]; [done|]. intros j _. cbn beta. rewrite used_set by done.
  destruct (decide (j = k)) as [->|]; [by split; [|right]|]. split; [by intros [?|]|by left].
Qed.

(** The metadata of [f:t] when its block [n] becomes [k]. *)
Definition with_block (m : t_file_metadata) (n k : Z) : t_file_metadata := set_blocks (<[Z.to_nat n := k]> (md_blocks m)) m.

Lemma with_block_ok m n k : metadata_ok m -> 0 <= k < total -> metadata_ok (with_block m n k).
Proof.
  intros [Hs Hb Hst Hc] Hk. destruct Hcfg. split; try done. cbn. apply Forall_insert; [done|]. lia.
Qed.

Lemma own_block_run st T f t n b m k0 :
  inv st T -> M_bitmap ∉ held st -> T f t n = Some b -> not_base f t -> D_blocks f t ∈ dirs st ->
  used (set_block T f t n None) b -> 0 <= k0 < total -> ~ used T k0 ->
  meta st f t = Some m -> metadata_ok m -> n < block_count m ->
  exists st' k m', own_block cfg f t m n st = Some (0, st') /\ 0 <= k < total /\ ~ used T k /\
    inv st' (set_block T f t n (Some k)) /\ resaved st st' f t m' /\ same_metadata (with_block m n k) m'.
Proof.
  intros Hi Hm E Hb Hd Hub Hk0 Hu0 Em Hok Hn.
  destruct (fs_at_unlink cfg st T (used T) f t n Hi Hb) as [H1 Hsame1].
  set (st1 := on_links (delete (P_logical f t n)) st) in *. set (T1 := set_block T f t n None) in *.
  assert (Hu : forall j, used T1 j <-> used T j).
  { intros j. rewrite (used_unset T f t n b j E). split; [by left|]. by intros [?| ->]. }
  apply (fs_at_ext cfg _ _ _ T1 (used T1)) in H1; [|done|done].
  destruct (reserve_block_run st1 T1 f t n k0) as (st2 & k & E2 & Hk & Hku & H2 & Hsame2);
    [done|done|apply set_block_eq|done|done|done|by rewrite Hu|].
  pose proof (same_files_trans _ _ _ Hsame1 Hsame2) as Hsame.
  assert (Hl2 : is_Some (links st2 !! P_metadata f t)).
  { rewrite (f_links _ _ Hsame). by eapply meta_inv_link. }
  destruct (save_run st2 _ _ f t (with_block m n k) H2 Hl2) as (st3 & m' & E3 & H3 & Hv & Hsm & _);
    [exact (meta_path _ _ _ _ Em)|by apply with_block_ok|].
  exists st3, k, m'. split; [|split; [done|split; [by rewrite <- Hu|split; [|split; [|done]]]]].
  - unfold own_block, mbind, st_bind. rewrite remove_run.
    2:{ rewrite (i_linked _ _ _ _ Hi), E. apply (phys_linked cfg st T (used T)); [done|]. by eapply (i_range _ _ _ _ Hi). }
    cbn [negb Z.eqb]. fold st1. rewrite E2. cbn [negb Z.eqb].
    destruct (Z.leb_spec (block_count m) n); [lia|]. fold (with_block m n k). by rewrite E3.
  - eapply fs_inv_ext; [|exact H3]. intros f' t' n'. unfold T1, set_block. by case_decide.
  - destruct Hv as [V1 V2 V3 V4 V5 V6 V8], Hsame as [S1 S2 S3 S4 S6].
    split; try done; intros; [rewrite V3 by done; apply S2|rewrite V4 by done; apply S1|congruence|congruence|rewrite V8; apply S6].
Qed.

(** ** A block written in place *)

(** Nothing but the contents of block [b] has changed, and they are [bs]. *)
Record block_written (st st' : storage) (b : Z) (bs : list byte) : Prop := {
  b_meta f t : file_at st' (P_metadata f t) = file_at st (P_metadata f t);
  b_links : links st' = links st;
  b_dirs : dirs st' = dirs st;
  b_held : held st' = held st;
  b_hash : file_at st' P_hash_index = file_at st P_hash_index;
  b_this : block_content st' b = bs;
  b_others b' : 0 <= b' < total -> b' <> b -> block_content st' b' = block_content st b'
}.

Lemma length_block_image data : 0 <= bsize -> length (block_image cfg data) = Z.to_nat bsize.
Proof. intros Hb. unfold block_image. rewrite length_app, length_replicate, length_take. lia. Qed.

Lemma write_to_logical_block_run st T U f t n b data :
  fs_at st T U -> T f t n = Some b -> b <> 0 ->
  exists st', write_to_logical_block cfg f t n data st = Some (0, st') /\ fs_at st' T U /\
    block_written st st' b (block_image cfg data).
Proof.
  intros Hi E Hb0. pose proof Hi as [Hs Hd Hp Hj Hl Hr Hb Hh HB Hz]. destruct Hcfg as [Hbs Htot _].
  pose proof (Hr _ _ _ _ E) as Hrb. destruct (phys_ino _ _ _ _ Hi Hrb) as (i & Ei). destruct (Hp b Hrb) as (old & Eo & Elo).
  pose proof (logical_link _ _ _ _ _ _ _ _ _ Hi E Ei) as El.
  destruct (overwrite_file_run st (P_logical f t n) (block_image cfg data) old) as (st' & Ew & Hrw & Ef); [done| | |].
  { rewrite (file_at_shared st _ (block_path b)); [done|]. congruence. }
  { rewrite length_block_image by lia. congruence. }
  exists st'. split; [unfold write_to_logical_block, mbind, st_bind; by rewrite Ew|].
  destruct Hrw as [Rl Rd Rh Rw Rf Rs]. rewrite El in Rf.
  assert (Hthis : file_at st' (block_path b) = Some (block_image cfg data)).
  { rewrite (file_at_shared st' _ (P_logical f t n)); [done|]. rewrite Rl. congruence. }
  assert (Hpriv : forall p, ~ is_block p -> file_at st' p = file_at st p).
  { intros p Hnb. apply Rf. intros Hpi. destruct (s_private _ Hs p (block_path b) i); [done|done|by intros ->|done]. }
  assert (Hoth : forall b', 0 <= b' < total -> b' <> b -> file_at st' (block_path b') = file_at st (block_path b')).
  { intros b' Hb' Hne. apply Rf. intros Hpi. apply Hne. apply block_path_inj; [lia..|]. unfold block_path in *. f_equal.
    by eapply Hj. }
  split.
  - split; rewrite ?Rl, ?Rd; try done; [by apply Rs| | |].
    + intros b' Hb'. destruct (decide (b' = b)) as [->|Hne]; [|rewrite Hoth by done; by apply Hp].
      eexists. split; [exact Hthis|]. apply length_block_image. lia.
    + by rewrite Hpriv by (by intros []).
    + unfold block_content. rewrite Hoth by (lia || done). exact Hz.
  - split; try done.
    + intros f' t'. apply Hpriv. by intros [].
    + apply Hpriv. by intros [].
    + unfold block_content. by rewrite Hthis.
    + intros b' Hb' Hne. unfold block_content. by rewrite Hoth.
Qed.

(** ** Metadata of a new file *)

Lemma fs_at_dirs st T U ds :
  fs_at st T U -> D_root ∈ ds /\ D_physical ∈ ds -> fs_at (on_dirs (fun _ => ds) st) T U.
Proof. intros [[Hs1 Hs2] Hd Hp Hi Hl Hr Hb Hh HB Hz] Hds. by split. Qed.

Lemma new_metadata_run st T U f t text m :
  fs_at st T U -> links st !! P_metadata f t = None -> D_tag f t ∈ dirs st ->
  metadata_of (P_metadata f t) (config_parse text) = Some m -> metadata_ok m ->
  exists st', write_file (P_metadata f t) text st = Some (true, st') /\ fs_at st' T U /\ resaved st st' f t m.
Proof.
  intros Hi El Hd Em Hok. destruct (create_file_run st (P_metadata f t) text) as (st' & E & El' & Ed & Eh & Ew & Ef & Hs' & _);
    [apply Hi|done|done|].
  exists st'. split; [done|].
  assert (Hf : forall q, q <> P_metadata f t -> file_at st' q = file_at st q) by (intros q Hq; by rewrite Ef, decide_False).
  assert (Hl : forall q, q <> P_metadata f t -> links st' !! q = links st !! q) by (intros q Hq; by rewrite El', lookup_insert_ne).
  split.
  - destruct Hi as [Hs Hd0 Hp Hj Hln Hr Hb Hh HB Hz]. split; rewrite ?Ed, ?Hf, ?Hl by done; try done.
    + intros b Hb0. rewrite Hf by done. by apply Hp.
    + intros s s' i. rewrite !Hl by done. apply Hj.
    + intros f' t' n. rewrite Hl, Hln by done. destruct (T f' t' n) as [b|]; [|done]. cbn. by rewrite Hl.
    + unfold block_content. by rewrite Hf.
  - split; try done.
    + unfold meta. rewrite Ef, decide_True by done. exact Em.
    + intros f' t' Hne. apply Hl. by intros [= -> ->].
    + intros f' t' Hne. apply Hf. by intros [= -> ->].
    + intros b. unfold block_content. by rewrite Hf.
Qed.

(** ** A good state again *)

Lemma meta_inv_update st st' f t m :
  meta_inv st -> not_base f t -> meta st' f t = Some m -> metadata_ok m ->
  (forall f' t', (f', t') <> (f, t) -> links st' !! P_metadata f' t' = links st !! P_metadata f' t') ->
  (forall f' t', (f', t') <> (f, t) -> file_at st' (P_metadata f' t') = file_at st (P_metadata f' t')) ->
  (forall d, d ∈ dirs st' <-> d ∈ dirs st \/ d ∈ [D_file f; D_tag f t; D_blocks f t]) ->
  meta_inv st'.
Proof.
  intros [M1 M2 M3 M4 M5 M6] Hb Em Hok Hl Hf Hd.
  assert (Eo : forall f' t', (f', t') <> (f, t) -> meta st' f' t' = meta st f' t') by (intros; unfold meta; by rewrite Hf).
  split.
  - intros f' t'. destruct (decide ((f', t') = (f, t))) as [[= -> ->]|Hne]; [by rewrite Em|]. rewrite Hl, Eo by done. apply M1.
  - intros f' t' m'. destruct (decide ((f', t') = (f, t))) as [[= -> ->]|Hne]; [rewrite Em; by intros [= <-]|].
    rewrite Eo by done. apply M2.
  - intros f' t'. rewrite Hd. destruct (decide ((f', t') = (f, t))) as [[= -> ->]|Hne].
    + rewrite Em. split; [by eexists|]. intros _. right. set_solver.
    + rewrite Eo by done. rewrite <- M3. set_solver.
  - intros f' t'. rewrite Hd. destruct (decide ((f', t') = (f, t))) as [[= -> ->]|Hne].
    + rewrite Em. split; [by eexists|]. intros _. right. set_solver.
    + rewrite Eo by done. rewrite <- M4. set_solver.
  - intros f' t'. rewrite !Hd. intros [H|H]; [left; by eapply M5|]. right. set_solver.
  - rewrite Eo; [done|]. by apply not_eq_sym.
Qed.

Lemma table_update st st' f t m f' t' n :
  meta st' f t = Some m ->
  (forall f' t', (f', t') <> (f, t) -> file_at st' (P_metadata f' t') = file_at st (P_metadata f' t')) ->
  table st' f' t' n =
    if decide ((f', t') = (f, t)) then (if decide (0 <= n) then md_blocks m !! Z.to_nat n else None) else table st f' t' n.
Proof.
  intros Em Hf. unfold table. destruct (decide ((f', t') = (f, t))) as [[= -> ->]|Hne]; [by rewrite Em|].
  unfold meta. by rewrite Hf.
Qed.

Lemma meta_inv_resaved st st' f t m :
  meta_inv st -> not_base f t -> is_Some (meta st f t) -> resaved st st' f t m -> meta_inv st'.
Proof.
  intros Hm Hb Hs [V1 V2 V3 V4 V5 V6 V8]. apply (meta_inv_update st st' f t m); try done.
  intros d. rewrite V5. pose proof (m_tag _ Hm f t) as H1. pose proof (m_blocks _ Hm f t) as H2. pose proof (m_file _ Hm f t).
  set_solver.
Qed.

Lemma meta_inv_delete st st' f t :
  meta_inv st -> not_base f t -> links st' !! P_metadata f t = None ->
  (forall f' t', (f', t') <> (f, t) -> links st' !! P_metadata f' t' = links st !! P_metadata f' t') ->
  (forall f' t', (f', t') <> (f, t) -> file_at st' (P_metadata f' t') = file_at st (P_metadata f' t')) ->
  dirs st' = dirs st ∖ {[D_tag f t; D_blocks f t]} -> meta_inv st'.
Proof.
  intros [M1 M2 M3 M4 M5 M6] Hb El Hl Hf Hd.
  assert (Eo : forall f' t', (f', t') <> (f, t) -> meta st' f' t' = meta st f' t') by (intros; unfold meta; by rewrite Hf).
  assert (En : meta st' f t = None) by (unfold meta, file_at; by rewrite El).
  assert (Hn : ~ is_Some (meta st' f t)) by (rewrite En; by intros []).
  split; try (rewrite Eo; [done|]; by apply not_eq_sym); intros f' t'; destruct (decide ((f', t') = (f, t))) as [[= -> ->]|Hne];
    rewrite ?Hd, ?El, ?En, ?Eo, ?Hl by done; try done; try by intros [].
  - apply M1.
  - apply M2.
  - rewrite En in Hn. set_solver.
  - rewrite <- M3. set_solver.
  - rewrite En in Hn. set_solver.
  - rewrite <- M4. set_solver.
  - set_solver.
  - intros H. assert (D_file f' ∈ dirs st) by (apply (M5 f' t'); set_solver). set_solver.
Qed.

End Steps.
