(* ===== verification/StorageSpec.v ===== *)
(** * What the Storage promises, and that its operations keep it

    To its clients the Storage is a map from file:tag to a size, a list of blocks
    and a state ([astorage]).  [spec_...] are the operations on that map; each
    lemma [..._run] says that the operation on the file system, started in a good
    state that represents a map, ends in a good state that represents the map of
    the specification, and returns its code. *)

From S2P Require Import Prelude CStrings Config Serialization StorageFs StorageUtils StorageOps StorageFsSpec StorageInvariant.
From S2P Require Import StorageBlocks StorageSteps.

(** ** The specification *)

Record afile := MkAFile { a_size : Z; a_blocks : list (list byte); a_state : string }.

(** The files, and the names that have a directory. *)
Record astorage := MkAStorage { a_files : string -> string -> option afile; a_names : string -> bool }.

Definition a_update (f t : string) (o : option afile) (A : astorage) : astorage :=
  MkAStorage (fun f' t' => if decide ((f', t') = (f, t)) then o else a_files A f' t') (a_names A).

Definition a_name (f : string) (A : astorage) : astorage :=
  MkAStorage (a_files A) (fun f' => String.eqb f' f || a_names A f').

Definition is_base (f t : string) : bool := String.eqb f "initial_file" && String.eqb t "BASE".

Section Spec.
Context {CC : CommonsConfig} {CB : CommonsBitarray} {CY : CommonsCrypto}.
Variable cfg : t_storage_config.
Abbreviation bsize := (block_size cfg).

Definition spec_create (f t : string) (A : astorage) : Z * astorage :=
  match a_files A f t with
  | Some _ => (FILE_TAG_ALREADY_EXISTS, A)
  | None => (0, a_update f t (Some (MkAFile 0 [] IN_PROGRESS)) (a_name f A))
  end.

Definition spec_delete (f t : string) (A : astorage) : Z * astorage :=
  if is_base f t then (-1, A) else
  match a_files A f t with
  | None => (FILE_TAG_MISSING, A)
  | Some _ => (0, a_update f t None A)
  end.

Definition zero_block : list byte := replicate (Z.to_nat bsize) x00.

(** [n] blocks: the first of [l], and zeros. *)
Definition resize_blocks (n : nat) (l : list (list byte)) : list (list byte) :=
  take n l ++ replicate (n - length l) zero_block.

Definition blocks_for (size : Z) : Z := Z.quot (size + bsize - 1) bsize.

Definition spec_truncate (f t : string) (size : Z) (A : astorage) : Z * astorage :=
  match a_files A f t with
  | None => (-1, A)
  | Some a =>
      if (blocks_for size <? 0) && negb (blocks_for size =? Z.of_nat (length (a_blocks a))) then (-3, A)
      else (0, a_update f t (Some (MkAFile size (resize_blocks (Z.to_nat (blocks_for size)) (a_blocks a)) (a_state a))) A)
  end.

Definition spec_fork (fs ts fd td : string) (A : astorage) : Z * astorage :=
  match a_files A fd td, a_files A fs ts with
  | Some _, _ => (FILE_TAG_ALREADY_EXISTS, A)
  | None, None => (FILE_TAG_MISSING, A)
  | None, Some a =>
      if a_names A fd then (0, a_update fd td (Some (MkAFile (a_size a) (a_blocks a) IN_PROGRESS)) A) else (-1, A)
  end.

Definition spec_read (f t : string) (n : Z) (A : astorage) : Z * list byte :=
  match a_files A f t with
  | None => (FILE_TAG_MISSING, [])
  | Some a =>
      if Z.of_nat (length (a_blocks a)) <=? i32 n then (READ_OUT_OF_BOUNDS, [])
      else match a_blocks a !! Z.to_nat n with Some bs => (0, bs) | None => (-1, []) end
  end.

Definition spec_write (f t : string) (n : Z) (data : list byte) (A : astorage) : Z * astorage :=
  match a_files A f t with
  | None => (FILE_TAG_MISSING, A)
  | Some a =>
      if String.eqb (a_state a) COMMITTED then (FILE_ALREADY_COMMITTED, A)
      else if Z.of_nat (length (a_blocks a)) <=? i32 n then (READ_OUT_OF_BOUNDS, A)
      else if Z.of_nat (length (a_blocks a)) <=? n then (-1, A)
      else (0, a_update f t
                 (Some (MkAFile (a_size a) (<[Z.to_nat n := block_image cfg data]> (a_blocks a)) (a_state a))) A)
  end.

Definition spec_commit (f t : string) (A : astorage) : Z * astorage :=
  match a_files A f t with
  | None => (FILE_TAG_MISSING, A)
  | Some a =>
      if String.eqb (a_state a) COMMITTED then (FILE_ALREADY_COMMITTED, A)
      else (0, a_update f t (Some (MkAFile (a_size a) (a_blocks a) COMMITTED)) A)
  end.

(** ** Representation *)

Definition file_of (st : storage) (m : t_file_metadata) : afile :=
  MkAFile (md_size m) (block_content st <$> md_blocks m) (md_state m).

Definition files (st : storage) (f t : string) : option afile := file_of st <$> meta st f t.

Definition represents (st : storage) (A : astorage) : Prop :=
  (forall f t, a_files A f t = files st f t) /\ (forall f, a_names A f = bool_decide (D_file f ∈ dirs st)).

(** [m] refines [spec]: from a good state to a good state, with its code. *)
Definition refines (m : SM Z) (spec : astorage -> Z * astorage) (st : storage) : Prop :=
  exists r st', m st = Some (r, st') /\ fs_wf cfg st' /\
    forall A, represents st A -> fst (spec A) = r /\ represents st' (snd (spec A)).

Context {CCS : CommonsConfigSpec CC} {CBS : CommonsBitarraySpec CB}.
Context {Hcfg : cfg_ok cfg}.
Abbreviation total := (blocks_total cfg).
Abbreviation wf := (fs_wf cfg).
Abbreviation not_base f t := ((f, t) <> ("initial_file", "BASE")%string).

Lemma is_base_spec f t : is_base f t = true <-> (f, t) = ("initial_file", "BASE")%string.
Proof. unfold is_base. rewrite andb_true_iff, !String.eqb_eq. naive_solver. Qed.

Lemma table_lookup st f t m n : meta st f t = Some m -> 0 <= n -> table st f t n = md_blocks m !! Z.to_nat n.
Proof. intros E Hn. unfold table. rewrite E. simpl. by rewrite decide_True. Qed.

Lemma blocks_in_range st f t m : wf st -> meta st f t = Some m -> Forall (fun b => 0 <= b < total) (md_blocks m).
Proof.
  intros Hwf E. apply Forall_lookup. intros n b Hb. apply (i_range _ _ _ _ (w_inv _ _ Hwf) f t (Z.of_nat n)).
  rewrite (table_lookup _ _ _ m) by (done || lia). by rewrite Nat2Z.id.
Qed.

Lemma file_of_ext st st' m m' :
  md_size m' = md_size m -> md_blocks m' = md_blocks m -> md_state m' = md_state m ->
  (forall b, b ∈ md_blocks m -> block_content st' b = block_content st b) -> file_of st' m' = file_of st m.
Proof. intros E1 E2 E3 H. unfold file_of. rewrite E1, E2, E3. f_equal. apply list_fmap_ext. intros i b Hb. apply H. by eapply list_elem_of_lookup_2. Qed.

Lemma files_same st st' f t :
  file_at st' (P_metadata f t) = file_at st (P_metadata f t) ->
  (forall m b, meta st f t = Some m -> b ∈ md_blocks m -> block_content st' b = block_content st b) ->
  files st' f t = files st f t.
Proof.
  intros Ef Hb. unfold files. assert (Em : meta st' f t = meta st f t) by (unfold meta; by rewrite Ef). rewrite Em.
  destruct (meta st f t) as [m|] eqn:E; [|done]. cbn. f_equal. apply file_of_ext; [done..|]. intros b Hin. by apply (Hb m).
Qed.

(** A state where [f:t] has become [m], and no other file has changed. *)
Lemma represents_update st st' f t m :
  meta st' f t = Some m ->
  (forall f' t', (f', t') <> (f, t) -> file_at st' (P_metadata f' t') = file_at st (P_metadata f' t')) ->
  (forall f', D_file f' ∈ dirs st' <-> D_file f' ∈ dirs st) ->
  (forall f' t' m' b, (f', t') <> (f, t) -> meta st f' t' = Some m' -> b ∈ md_blocks m' -> block_content st' b = block_content st b) ->
  forall A a, represents st A -> file_of st' m = a -> represents st' (a_update f t (Some a) A).
Proof.
  intros Em Hm Hd Hb A a [R1 R2] <-. split.
  - intros f' t'. cbn. case_decide as E; [simplify_eq; unfold files; by rewrite Em|].
    rewrite R1. symmetry. apply files_same; [by apply Hm|]. intros m' b. by apply Hb.
  - intros f'. cbn. rewrite R2. apply bool_decide_ext. by rewrite Hd.
Qed.

End Spec.
