(* ===== verification/StorageRefine.v ===== *)
(** * The operations of the Storage keep their promises (refinement lemmas) *)

From S2P Require Import Prelude CStrings Config Serialization StorageFs StorageUtils StorageOps StorageFsSpec StorageInvariant.
From S2P Require Import StorageBlocks StorageSteps StorageSpec.

Section Refine.
Context {CC : CommonsConfig} {CB : CommonsBitarray} {CY : CommonsCrypto}.
Context {CCS : CommonsConfigSpec CC} {CBS : CommonsBitarraySpec CB}.
Variable cfg : t_storage_config.
Context {Hcfg : cfg_ok cfg}.

Abbreviation bsize := (block_size cfg).
Abbreviation total := (blocks_total cfg).
Abbreviation wf := (fs_wf cfg).
Abbreviation refines := (refines cfg).
Abbreviation not_base f t := ((f, t) <> ("initial_file", "BASE")%string).

(** An operation that changes nothing. *)
Lemma refines_same (m : SM Z) spec st r :
  wf st -> m st = Some (r, st) -> (forall A, represents st A -> spec A = (r, A)) -> refines m spec st.
Proof. intros Hwf E Hs. exists r, st. split; [done|]. split; [done|]. intros A HA. by rewrite (Hs A HA). Qed.

Lemma read_metadata_run st f t : wf st -> read_file_metadata f t st = Some (meta st f t, st).
Proof. intros Hwf. apply read_file_metadata_run. apply (w_inv _ _ Hwf). Qed.

Lemma represented st A f t : represents st A -> a_files A f t = files st f t.
Proof. by intros [H _]. Qed.

Lemma dir_exists_run st f t : wf st -> dir_exists (D_tag f t) st = Some (bool_decide (is_Some (meta st f t)), st).
Proof. intros Hwf. unfold dir_exists. do 2 f_equal. apply bool_decide_ext. apply (m_tag _ (w_meta _ _ Hwf)). Qed.

Lemma base_named st f t : wf st -> meta st f t = None -> not_base f t.
Proof. intros Hwf E [= -> ->]. destruct (m_base _ (w_meta _ _ Hwf)) as (m & Em & _). congruence. Qed.

(** ** Creation *)

Lemma default_metadata_of p :
  exists c, metadata_of p (config_parse default_metadata) = Some (MkMetadata 0 [] IN_PROGRESS c p) /\
    metadata_ok (MkMetadata 0 [] IN_PROGRESS c p).
Proof. apply (written_metadata p 0 [] "[]"); try done. by rewrite (array_items []). Qed.

Lemma create_refines st f t : wf st -> refines (_create_file f t) (spec_create f t) st.
Proof.
  intros Hwf. pose proof (w_meta _ _ Hwf) as Hm. destruct (meta st f t) as [m|] eqn:Em.
  { apply (refines_same _ _ _ FILE_TAG_ALREADY_EXISTS); [done| |].
    - unfold _create_file, create_file_dir_structure, mbind, st_bind. rewrite dir_exists_run, Em by done.
      by rewrite bool_decide_eq_true_2 by eauto.
    - intros A HA. unfold spec_create. rewrite (represented _ _ _ _ HA). unfold files. by rewrite Em. }
  pose proof (base_named _ _ _ Hwf Em) as Hb.
  set (st1 := on_dirs (fun ds => list_to_set (ancestors (D_blocks f t)) ∪ ds) st).
  assert (H1 : fs_at cfg st1 (table st) (used (table st))).
  { apply (fs_at_dirs cfg st _ _ (list_to_set (ancestors (D_blocks f t)) ∪ dirs st)); [apply Hwf|]. destruct (i_dirs _ _ _ _ (w_inv _ _ Hwf)). set_solver. }
  assert (El : links st1 !! P_metadata f t = None).
  { destruct (links st1 !! P_metadata f t) eqn:El; [|done]. destruct (m_linked _ Hm f t) as [m Em']; [by eexists|congruence]. }
  destruct (default_metadata_of (P_metadata f t)) as (c & Ec & Hok).
  assert (Hdt : D_tag f t ∈ dirs st1) by (cbn; set_solver).
  destruct (new_metadata_run cfg st1 _ _ f t _ _ H1 El Hdt Ec Hok) as (st' & E & H2 & Hv).
  pose proof Hv as [V1 V2 V3 V4 V5 V6 V8].
  assert (Hd : forall d, d ∈ dirs st' <-> d ∈ dirs st \/ d ∈ [D_file f; D_tag f t; D_blocks f t]).
  { intros d. rewrite V5. cbn. set_solver. }
  exists 0, st'. split; [|split].
  - unfold _create_file, create_file_dir_structure, create_dir_recursive, mkdir_p, create_metadata_file, mbind, st_bind.
    rewrite dir_exists_run, Em by done. cbn [negb Z.eqb]. unfold mret, st_ret. rewrite bool_decide_eq_false_2 by (by intros []).
    cbn [negb Z.eqb default from_option]. fold st1. by rewrite E.
  - split; [|by eapply meta_inv_update|by rewrite V6; apply Hwf].
    eapply fs_inv_ext; [|exact H2]. intros f' t' n. rewrite (table_update st st' f t _ _ _ _ V1 V4).
    case_decide as E'; [|done]. injection E' as -> ->. unfold table. rewrite Em. cbn. by case_decide; rewrite ?lookup_nil.
  - intros A HA. unfold spec_create. rewrite (represented _ _ _ _ HA). unfold files. rewrite Em. cbn [fmap option_fmap option_map fst snd].
    split; [done|]. destruct HA as [R1 R2]. split.
    + intros f' t'. cbn. case_decide as E'; [injection E' as -> ->; unfold files; by rewrite V1|].
      rewrite R1. symmetry. apply files_same; [by apply V4|]. intros m b _ _. apply V8.
    + intros f'. cbn. rewrite R2. apply eq_bool_prop_intro. rewrite orb_True, !bool_decide_spec, Hd.
      destruct (String.eqb_spec f' f) as [->|Hne]; cbn; set_solver.
Qed.

(** ** Deletion *)

(** The table without the blocks [lo] to [hi - 1] of [f:t]. *)
Definition cut (T : Table) (f t : string) (lo hi : Z) : Table := fun f' t' n =>
  if decide (f' = f /\ t' = t /\ lo <= n < hi) then None else T f' t' n.

Lemma cut_first T f t i hi f' t' n :
  i < hi -> cut (set_block T f t i None) f t (i + 1) hi f' t' n = cut T f t i hi f' t' n.
Proof. intros Hi. unfold cut, set_block. repeat case_decide; try done; exfalso; intuition lia. Qed.

(** Both loops that delete the blocks [bl] of [f:t] from index [i] on. *)
Lemma delete_loop_run (loop : Z -> list Z -> SM bool) st T f t i bl :
  (forall i, loop i [] = mret true) ->
  (forall i b bl st st', delete_logical_block cfg f t i b st = Some (0, st') -> loop i (b :: bl) st = loop (i + 1) bl st') ->
  fs_inv cfg st T -> M_bitmap ∉ held st -> not_base f t ->
  (forall k b, bl !! k = Some b -> T f t (i + Z.of_nat k) = Some b) ->
  exists st', loop i bl st = Some (true, st') /\ fs_inv cfg st' (cut T f t i (i + Z.of_nat (length bl))) /\ same_files st st'.
Proof.
  intros Hnil Hcons. revert st T i. induction bl as [|b bl IH]; intros st T i Hi Hm Hb Hbl.
  - rewrite Hnil. exists st. split; [done|]. split; [|apply same_files_refl]. eapply fs_inv_ext; [|exact Hi].
    intros f' t' n. unfold cut. rewrite decide_False; [done|]. cbn. lia.
  - destruct (delete_logical_block_run cfg st T f t i b) as (st1 & E1 & H1 & Hs1); [done|done| |done|].
    { rewrite <- (Hbl 0%nat b) by done. f_equal. lia. }
    destruct (IH st1 (set_block T f t i None) (i + 1)) as (st' & E' & H' & Hs'); [done|by rewrite (f_held _ _ Hs1)|done| |].
    { intros k b' Hk. rewrite set_block_ne by lia. rewrite <- (Hbl (S k) b') by done. f_equal. lia. }
    exists st'. rewrite (Hcons _ _ _ _ _ E1). split; [done|]. split; [|by eapply same_files_trans].
    eapply fs_inv_ext; [|exact H']. intros f' t' n. cbn [length]. rewrite <- cut_first by lia. unfold cut. f_equal.
    replace (i + 1 + Z.of_nat (length bl)) with (i + Z.of_nat (S (length bl))) by lia. done.
Qed.

Lemma delete_blocks_run st T f t i bl :
  fs_inv cfg st T -> M_bitmap ∉ held st -> not_base f t ->
  (forall k b, bl !! k = Some b -> T f t (i + Z.of_nat k) = Some b) ->
  exists st', delete_blocks cfg f t i bl st = Some (true, st') /\
    fs_inv cfg st' (cut T f t i (i + Z.of_nat (length bl))) /\ same_files st st'.
Proof.
  apply (delete_loop_run (delete_blocks cfg f t)); [done|]. intros j b l s s' E.
  cbn [delete_blocks]. unfold mbind, st_bind. by rewrite E.
Qed.

Lemma release_blocks_run st T f t i bl :
  fs_inv cfg st T -> M_bitmap ∉ held st -> not_base f t ->
  (forall k b, bl !! k = Some b -> T f t (i + Z.of_nat k) = Some b) ->
  exists st', release_blocks cfg f t i bl st = Some (tt, st') /\
    fs_inv cfg st' (cut T f t i (i + Z.of_nat (length bl))) /\ same_files st st'.
Proof.
  intros H1 H2 H3 H4.
  destruct (delete_loop_run (fun i bl => release_blocks cfg f t i bl;; mret true) st T f t i bl) as (st' & E & H); [done| |done..|].
  - intros j b l s s' E. cbn [release_blocks]. unfold mbind, st_bind. by rewrite E.
  - exists st'. split; [|done]. unfold mbind, st_bind in E. destruct (release_blocks cfg f t i bl st) as [[[] s]|]; [|done].
    by injection E as ->.
Qed.

(** The blocks of a file, by its metadata. *)
Lemma table_blocks st f t m k b :
  meta st f t = Some m -> md_blocks m !! k = Some b -> table st f t (Z.of_nat k) = Some b.
Proof. intros Em Hk. rewrite (table_lookup _ _ _ m) by (done || lia). by rewrite Nat2Z.id. Qed.

Lemma in_tag_spec f t p :
  in_tag f t p = true <-> p = P_metadata f t \/ exists n, p = P_logical f t n.
Proof.
  destruct p; cbn; try (split; [done|by intros [?|[? ?]]]); rewrite andb_true_iff, !String.eqb_eq; split; naive_solver.
Qed.

(** What [rm_rf_tag] leaves of [st1]. *)
Definition without_tag (f t : string) (st1 : storage) : storage :=
  on_dirs (fun ds => ds ∖ {[D_tag f t; D_blocks f t]})
    (on_links (base.filter (fun kv : path * ino => in_tag f t kv.1 = false)) st1).

Lemma without_tag_links f t st1 p : links (without_tag f t st1) !! p = if in_tag f t p then None else links st1 !! p.
Proof.
  cbn. destruct (in_tag f t p) eqn:E.
  - apply map_lookup_filter_None. right. cbn. congruence.
  - destruct (links st1 !! p) as [i|] eqn:Ep; [by apply map_lookup_filter_Some|]. by apply map_lookup_filter_None; left.
Qed.

Lemma without_tag_file f t st1 p : in_tag f t p = false -> file_at (without_tag f t st1) p = file_at st1 p.
Proof. intros Hp. unfold file_at. by rewrite without_tag_links, Hp. Qed.

Lemma other_metadata f t f' t' : (f', t') <> (f, t) -> in_tag f t (P_metadata f' t') = false.
Proof. intros Hne. apply not_true_iff_false. rewrite in_tag_spec. naive_solver. Qed.

(** The blocks of [f:t] were unlinked from [st], and then its directory removed. *)
Record untagged (st st2 : storage) (f t : string) (n : nat) : Prop := {
  u_meta : meta st2 f t = None;
  u_others f' t' : (f', t') <> (f, t) -> file_at st2 (P_metadata f' t') = file_at st (P_metadata f' t');
  u_content b : block_content st2 b = block_content st b;
  u_table f' t' k : table st2 f' t' k = cut (table st) f t 0 (0 + Z.of_nat n) f' t' k
}.

Lemma without_tag_untagged st st1 f t m :
  same_files st st1 -> meta st f t = Some m -> untagged st (without_tag f t st1) f t (length (md_blocks m)).
Proof.
  intros Hs1 Em.
  assert (Em2 : meta (without_tag f t st1) f t = None).
  { unfold meta, file_at. by rewrite without_tag_links, (proj2 (in_tag_spec f t _)) by by left. }
  assert (Emo : forall f' t', (f', t') <> (f, t) -> file_at (without_tag f t st1) (P_metadata f' t') = file_at st (P_metadata f' t')).
  { intros f' t' Hne. rewrite without_tag_file by by apply other_metadata. apply (f_meta _ _ Hs1). }
  split; [exact Em2|exact Emo| |].
  - intros b. unfold block_content. rewrite without_tag_file by done. apply (f_content _ _ Hs1).
  - intros f' t' n. unfold cut. destruct (decide ((f', t') = (f, t))) as [[= -> ->]|Hne].
    + unfold table at 1. rewrite Em2. cbn. case_decide as Hn; [done|]. unfold table. rewrite Em. cbn. case_decide; [|done].
      symmetry. apply lookup_ge_None. assert (~ 0 <= n < 0 + Z.of_nat (length (md_blocks m))) by tauto. lia.
    + rewrite decide_False by naive_solver. unfold table, meta. by rewrite Emo.
Qed.

Lemma without_tag_wf st st1 f t m :
  wf st -> not_base f t -> meta st f t = Some m -> same_files st st1 ->
  fs_inv cfg st1 (cut (table st) f t 0 (0 + Z.of_nat (length (md_blocks m)))) -> wf (without_tag f t st1).
Proof.
  intros Hwf Hb Em Hs1 H1. pose proof (without_tag_untagged st st1 f t m Hs1 Em) as [Em2 Emo _ Et].
  pose proof (without_tag_links f t st1) as El. split.
  - eapply fs_inv_ext; [exact Et|]. destruct (i_dirs _ _ _ _ H1) as [Hd1 Hd2].
    apply fs_at_dirs; [|cbn; set_solver].
    apply (fs_at_relinks cfg st1 _ (cut (table st) f t 0 (0 + Z.of_nat (length (md_blocks m))))); [exact H1|done| | | | |].
    + intros p Hp1 Hp2. etransitivity; [exact (El p)|]. destruct (in_tag f t p) eqn:E; [|done].
      apply in_tag_spec in E as [->|[n ->]]; [by destruct (Hp2 f t)|by destruct (Hp1 f t n)].
    + intros f' t' i H. pose proof (eq_trans (eq_sym (H : links (without_tag f t st1) !! _ = Some i)) (El _)) as E. by destruct (in_tag f t _).
    + intros f' t' n. etransitivity; [exact (El (P_logical f' t' n))|]. destruct (in_tag f t _) eqn:E; [|apply (i_linked _ _ _ _ H1)].
      apply in_tag_spec in E as [|[k [= -> -> ->]]]; [done|]. rewrite <- Et. unfold table. by rewrite Em2.
    + apply (i_range _ _ _ _ H1).
    + apply (i_base _ _ _ _ H1).
  - apply (meta_inv_delete cfg st _ f t); try done; [apply Hwf| |intros f' t' Hne|cbn; by rewrite (f_dirs _ _ Hs1)].
    + by rewrite El, (proj2 (in_tag_spec f t _)) by by left.
    + rewrite El, other_metadata by done. apply (f_links _ _ Hs1).
  - cbn. rewrite (f_held _ _ Hs1). apply Hwf.
Qed.

Lemma delete_refines st f t : wf st -> refines (delete_tag cfg f t) (spec_delete f t) st.
Proof.
  intros Hwf. destruct (is_base f t) eqn:Eb.
  { apply (refines_same _ _ _ (-1)); [done| |].
    - unfold delete_tag. fold (is_base f t). by rewrite Eb.
    - intros A _. unfold spec_delete. by rewrite Eb. }
  assert (Hb : not_base f t) by (intros E; apply is_base_spec in E; congruence).
  unfold refines, StorageSpec.refines, delete_tag, spec_delete. fold (is_base f t). rewrite Eb.
  unfold mbind, st_bind. rewrite read_metadata_run by done.
  destruct (meta st f t) as [m|] eqn:Em.
  2:{ eexists _, st. split; [reflexivity|]. split; [done|]. intros A HA. rewrite (represented _ _ _ _ HA).
      unfold files. by rewrite Em. }
  destruct (delete_blocks_run st (table st) f t 0 (md_blocks m)) as (st1 & E1 & H1 & Hs1);
    [apply Hwf|rewrite (w_held _ _ Hwf); apply not_elem_of_nil|done| |].
  { intros k b Hk. by apply (table_blocks st f t m). }
  rewrite E1. cbn [negb]. unfold delete_file_dir_structure, mbind, st_bind, dir_exists.
  rewrite (f_dirs _ _ Hs1), bool_decide_eq_true_2 by (apply (m_tag _ (w_meta _ _ Hwf)); eauto). cbn [negb].
  exists 0, (without_tag f t st1). split; [done|]. split; [by apply (without_tag_wf st st1 f t m)|].
  destruct (without_tag_untagged st st1 f t m Hs1 Em) as [Em2 Emo Ebc _].
  intros A HA. rewrite (represented _ _ _ _ HA). unfold files. rewrite Em. cbn [fmap option_fmap option_map fst snd].
  split; [done|]. destruct HA as [R1 R2]. split.
  - intros f' t'. cbn. case_decide as E; [simplify_eq; unfold files; by rewrite Em2|]. rewrite R1. symmetry.
    apply files_same; [by apply Emo|]. intros. apply Ebc.
  - intros f'. cbn. rewrite R2, (f_dirs _ _ Hs1). apply bool_decide_ext. set_solver.
Qed.

(** ** Reading *)

Lemma stored_block st f t m k b :
  wf st -> meta st f t = Some m -> md_blocks m !! k = Some b ->
  file_at st (P_logical f t (Z.of_nat k)) = Some (block_content st b) /\ length (block_content st b) = Z.to_nat bsize.
Proof.
  intros Hwf Em Hk. pose proof (w_inv _ _ Hwf) as Hi. pose proof (table_blocks _ _ _ _ _ _ Em Hk) as Ht.
  destruct (i_phys _ _ _ _ Hi b (i_range _ _ _ _ Hi _ _ _ _ Ht)) as (bs & Eb & El).
  unfold block_content. rewrite Eb. split; [|exact El]. rewrite (file_at_shared st _ (block_path b)); [done|].
  by rewrite (i_linked _ _ _ _ Hi), Ht.
Qed.

(** A number that is no index of the blocks of a file. *)
Lemma no_block st f t m n :
  wf st -> meta st f t = Some m -> block_count m <= n -> links st !! P_logical f t n = None.
Proof.
  intros Hwf Em Hn. rewrite (i_linked _ _ _ _ (w_inv _ _ Hwf)), (table_lookup _ _ _ m); [|done|unfold block_count in Hn; lia].
  rewrite lookup_ge_None_2; [done|]. unfold block_count in Hn. lia.
Qed.

Lemma i32_bound n : 0 <= n < 2 ^ 32 -> i32 n <= n /\ (n < 2 ^ 31 -> i32 n = n) /\ (2 ^ 31 <= n -> i32 n < 0).
Proof. intros Hn. unfold i32, to_signed. rewrite Z.mod_small by done. case_match; lia. Qed.

Lemma block_read_run st f t n :
  wf st -> 0 <= n < 2 ^ 32 ->
  exists r, execute_block_read cfg f t n st = Some (r, st) /\
    forall A, represents st A -> spec_read f t n A = r.
Proof.
  intros Hwf Hn. unfold execute_block_read, file_dir_exists, spec_read. unfold mbind at 1, st_bind at 1.
  rewrite dir_exists_run by done. destruct (meta st f t) as [m|] eqn:Em.
  2:{ rewrite bool_decide_eq_false_2 by (by intros []). eexists. split; [reflexivity|]. intros A HA.
      rewrite (represented _ _ _ _ HA). unfold files. by rewrite Em. }
  rewrite bool_decide_eq_true_2 by eauto. cbn [negb]. unfold mbind at 1, st_bind at 1. rewrite read_metadata_run, Em by done.
  assert (HA : forall A, represents st A -> a_files A f t = Some (file_of st m)).
  { intros A HA. rewrite (represented _ _ _ _ HA). unfold files. by rewrite Em. }
  unfold block_count. destruct (Z.leb_spec (Z.of_nat (length (md_blocks m))) (i32 n)) as [Hoob|Hin].
  { eexists. split; [reflexivity|]. intros A Hr. rewrite (HA A Hr). cbn [a_blocks file_of]. rewrite length_fmap.
    destruct (Z.leb_spec (Z.of_nat (length (md_blocks m))) (i32 n)); [done|lia]. }
  unfold read_from_logical_block, mbind, st_bind. rewrite read_file_run by apply (w_inv _ _ Hwf).
  destruct (md_blocks m !! Z.to_nat n) as [b|] eqn:Eb.
  - destruct (stored_block _ _ _ _ _ _ Hwf Em Eb) as [Hf Hl]. rewrite Z2Nat.id in Hf by lia. rewrite Hf.
    rewrite take_ge, Hl, Z2Nat.id by (destruct Hcfg; lia). rewrite Z.eqb_refl. cbn [negb]. eexists. split; [reflexivity|].
    intros A Hr. rewrite (HA A Hr). cbn [a_blocks file_of]. rewrite length_fmap, list_lookup_fmap, Eb.
    destruct (Z.leb_spec (Z.of_nat (length (md_blocks m))) (i32 n)); [lia|]. done.
  - apply lookup_ge_None in Eb. assert (El : file_at st (P_logical f t n) = None).
    { unfold file_at. by rewrite (no_block _ _ _ m) by (done || (unfold block_count; lia)). }
    rewrite El. eexists. split; [reflexivity|]. intros A Hr. rewrite (HA A Hr). cbn [a_blocks file_of].
    rewrite length_fmap, list_lookup_fmap, (lookup_ge_None_2 _ _ Eb).
    destruct (Z.leb_spec (Z.of_nat (length (md_blocks m))) (i32 n)); [lia|]. done.
Qed.

(** ** Writing *)

(** Another physical block is free. *)
Definition room (st : storage) : Prop := exists b, 0 <= b < total /\ ~ used (table st) b.

(** What the write of block [n] makes of a file. *)
Definition written (n : Z) (data : list byte) (a : afile) : afile :=
  MkAFile (a_size a) (<[Z.to_nat n := block_image cfg data]> (a_blocks a)) (a_state a).

Lemma write_in_place_run st f t n m b data :
  wf st -> 0 <= n -> meta st f t = Some m -> md_blocks m !! Z.to_nat n = Some b -> b <> 0 ->
  (forall f' t' n', table st f' t' n' = Some b -> f' = f /\ t' = t /\ n' = n) ->
  exists st', write_to_logical_block cfg f t n data st = Some (0, st') /\ wf st' /\ dirs st' = dirs st /\
    (forall f' t', (f', t') <> (f, t) -> files st' f' t' = files st f' t') /\
    files st' f t = Some (written n data (file_of st m)).
Proof.
  intros Hwf Hn Em Eb Hb0 Hsole. pose proof (table_lookup st f t m n Em Hn) as Et. rewrite Eb in Et.
  destruct (write_to_logical_block_run cfg st _ _ f t n b data (w_inv _ _ Hwf) Et Hb0) as (st' & E & Hi & [B1 B2 B3 B4 B5 B6 B7]).
  assert (Hm : forall f' t', meta st' f' t' = meta st f' t') by (intros; unfold meta; by rewrite B1).
  exists st'. split; [done|]. split; [split|split; [done|split]].
  - eapply fs_at_ext; [| |exact Hi]; [|intros j _; apply used_ext]; intros; unfold table; by rewrite Hm.
  - destruct (w_meta _ _ Hwf) as [M1 M2 M3 M4 M5 M6].
    split; intros *; rewrite ?Hm, ?B2, ?B3; eauto.
  - rewrite B4. apply Hwf.
  - intros f' t' Hne. apply files_same; [by apply B1|]. intros m' b' Em' [k Hk]%list_elem_of_lookup.
    pose proof (table_blocks _ _ _ _ _ _ Em' Hk) as Ht. apply B7; [by apply (i_range _ _ _ _ (w_inv _ _ Hwf) _ _ _ _ Ht)|].
    intros ->. apply Hsole in Ht. naive_solver.
  - unfold files. rewrite Hm, Em. cbn. f_equal. unfold written, file_of. cbn. f_equal. apply list_eq. intros k.
    rewrite list_lookup_fmap. destruct (decide (k = Z.to_nat n)) as [->|Hne].
    + rewrite Eb. cbn. rewrite B6. rewrite list_lookup_insert_eq; [done|]. rewrite length_fmap. by apply lookup_lt_Some in Eb.
    + rewrite list_lookup_insert_ne, list_lookup_fmap by done. destruct (md_blocks m !! k) as [b'|] eqn:Ek; [|done]. cbn. f_equal.
      pose proof (table_blocks _ _ _ _ _ _ Em Ek) as Ht. apply B7; [by apply (i_range _ _ _ _ (w_inv _ _ Hwf) _ _ _ _ Ht)|].
      intros ->. apply Hsole in Ht. lia.
Qed.

(** After [own_block] the file is as it was but for block [n], which only it uses. *)
Lemma own_block_wf st f t n m b :
  wf st -> room st -> 0 <= n -> meta st f t = Some m -> md_blocks m !! Z.to_nat n = Some b -> not_base f t ->
  used (set_block (table st) f t n None) b ->
  exists st' k m', own_block cfg f t m n st = Some (0, st') /\ wf st' /\ meta st' f t = Some m' /\
    same_metadata (with_block m n k) m' /\ k <> 0 /\ dirs st' = dirs st /\
    (forall f' t' n', table st' f' t' n' = Some k -> f' = f /\ t' = t /\ n' = n) /\
    (forall b, block_content st' b = block_content st b) /\
    (forall f' t', (f', t') <> (f, t) -> files st' f' t' = files st f' t').
Proof.
  intros Hwf (k0 & Hk0 & Hu0) Hn Em Eb Hb Hub. pose proof (table_lookup st f t m n Em Hn) as Et. rewrite Eb in Et.
  pose proof (w_meta _ _ Hwf) as Hm. pose proof (w_inv _ _ Hwf) as Hi.
  destruct (own_block_run cfg st (table st) f t n b m k0) as (st' & k & m' & E & Hk & Hku & Hi' & Hv & Hsm);
    [done|rewrite (w_held _ _ Hwf); apply not_elem_of_nil|done|done|apply (m_blocks _ Hm); eauto|done|done|done|done|
     by eapply m_ok| |].
  { apply lookup_lt_Some in Eb. unfold block_count. lia. }
  pose proof Hv as [V1 V2 V3 V4 V5 V6 V8]. pose proof Hsm as (S1 & S2 & S3 & S4).
  assert (Ht' : forall f' t' n', table st' f' t' n' = set_block (table st) f t n (Some k) f' t' n').
  { intros f' t' n'. rewrite (table_update st st' f t m') by done. unfold set_block.
    destruct (decide ((f', t') = (f, t))) as [[= -> ->]|Hne]; [|by rewrite decide_False by naive_solver].
    rewrite S2. cbn. apply lookup_lt_Some in Eb. destruct (decide (f = f /\ t = t /\ n' = n)) as [(_ & _ & ->)|Hno].
    - rewrite decide_True by done. by rewrite list_lookup_insert_eq.
    - case_decide; [|by unfold table; rewrite Em; cbn; rewrite decide_False].
      rewrite list_lookup_insert_ne by (intros ?; apply Hno; split_and!; [done|done|lia]). by rewrite (table_lookup _ _ _ m). }
  exists st', k, m'. split; [done|]. split; [split|split; [done|split; [done|split; [|split; [done|split; [|split; [done|]]]]]]].
  - eapply fs_inv_ext; [exact Ht'|done].
  - eapply meta_inv_resaved; eauto.
  - rewrite V6. apply Hwf.
  - intros ->. apply Hku. exists "initial_file"%string, "BASE"%string, 0. apply (i_base _ _ _ _ Hi).
  - intros f' t' n'. rewrite Ht'. unfold set_block. case_decide; [done|]. intros Hk'. destruct Hku. by exists f', t', n'.
  - intros f' t' Hne. apply files_same; [by apply V4|]. intros. apply V8.
Qed.

(** A block with an index in the metadata: written in place, or made its own first. *)
Lemma write_block_refines st f t n m b data :
  wf st -> room st -> 0 <= n -> meta st f t = Some m -> md_blocks m !! Z.to_nat n = Some b -> not_base f t ->
  exists i st1 st', links st !! P_logical f t n = Some i /\
    (if 2 <? nlink st i then own_block cfg f t m n else mret 0) st = Some (0, st1) /\
    write_to_logical_block cfg f t n data st1 = Some (0, st') /\ wf st' /\ dirs st' = dirs st /\
    (forall f' t', (f', t') <> (f, t) -> files st' f' t' = files st f' t') /\
    files st' f t = Some (written n data (file_of st m)).
Proof.
  intros Hwf Hroom Hn Em Eb Hb. pose proof (w_inv _ _ Hwf) as Hi.
  pose proof (table_lookup st f t m n Em Hn) as Et. rewrite Eb in Et.
  pose proof (i_range _ _ _ _ Hi _ _ _ _ Et) as Hr. destruct (phys_ino cfg _ _ _ _ Hi Hr) as (i & Ei).
  exists i. rewrite (logical_link _ _ _ _ _ _ _ _ _ Hi Et Ei). destruct (Z.ltb_spec 2 (nlink st i)) as [H2|H2].
  - destruct (own_block_wf st f t n m b) as (st1 & k & m' & E1 & Hwf1 & Em1 & (S1 & S2 & S3 & S4) & Hk0 & Ed1 & Hsole & Hbc & Hfo);
      [done..|by eapply other_user|].
    assert (Ek : md_blocks m' !! Z.to_nat n = Some k).
    { rewrite S2. cbn. apply list_lookup_insert_eq. by apply lookup_lt_Some in Eb. }
    destruct (write_in_place_run st1 f t n m' k data) as (st' & E' & Hwf' & Ed' & Hfo' & Hf'); [done..|].
    exists st1, st'. split; [done|]. split; [exact E1|]. split; [done|]. split; [done|]. split; [congruence|]. split.
    + intros f' t' Hne. rewrite Hfo' by done. by apply Hfo.
    + rewrite Hf'. f_equal. unfold written, file_of. cbn. rewrite S1, S3, S2. cbn. f_equal.
      rewrite list_fmap_insert, list_insert_insert_eq. f_equal. apply list_fmap_ext. intros ? ? _. apply Hbc.
  - destruct (write_in_place_run st f t n m b data) as (st' & E' & Hwf' & Ed' & Hfo' & Hf'); [done..| | |].
    + intros ->. destruct (sole_user cfg _ _ _ _ _ _ _ _ "initial_file" "BASE" 0 Hi Ei H2 Et) as (<- & <- & _);
        [apply (i_base _ _ _ _ Hi)|done].
    + intros f' t' n'. intros Ht. by eapply (sole_user cfg st _ _ f t n b i).
    + exists st, st'. by split_and!.
Qed.

Lemma write_refines st f t n data :
  wf st -> room st -> 0 <= n < 2 ^ 32 ->
  refines (execute_block_write cfg f t n data) (spec_write cfg f t n data) st.
Proof.
  intros Hwf Hroom Hn. pose proof (w_meta _ _ Hwf) as Hm. destruct (meta st f t) as [m|] eqn:Em.
  2:{ apply (refines_same _ _ _ FILE_TAG_MISSING); [done| |].
      - unfold execute_block_write, file_dir_exists, mbind, st_bind. rewrite dir_exists_run, Em by done.
        by rewrite bool_decide_eq_false_2 by (by intros []).
      - intros A HA. unfold spec_write. rewrite (represented _ _ _ _ HA). unfold files. by rewrite Em. }
  assert (HA : forall A, represents st A -> a_files A f t = Some (file_of st m)).
  { intros A HA. rewrite (represented _ _ _ _ HA). unfold files. by rewrite Em. }
  assert (Estart : execute_block_write cfg f t n data st =
    (if String.eqb (md_state m) COMMITTED then mret FILE_ALREADY_COMMITTED else
     if block_count m <=? i32 n then mret READ_OUT_OF_BOUNDS else
     num_hardlinks ← ph_block_links (P_logical f t n);
     if num_hardlinks <? 0 then mret (-1) else
     r ← (if 2 <? num_hardlinks then own_block cfg f t m n else mret 0);
     if negb (r =? 0) then mret r else
     r ← write_to_logical_block cfg f t n data; mret (if r <? 0 then -7 else 0)) st).
  { unfold execute_block_write, file_dir_exists. unfold mbind at 1, st_bind at 1. rewrite dir_exists_run, Em by done.
    rewrite bool_decide_eq_true_2 by eauto. cbn [negb]. unfold mbind at 1, st_bind at 1. by rewrite read_metadata_run, Em by done. }
  unfold refines, StorageSpec.refines. rewrite Estart. clear Estart.
  destruct (String.eqb (md_state m) COMMITTED) eqn:Ec.
  { eexists _, st. split; [reflexivity|]. split; [done|]. intros A Hr. unfold spec_write. rewrite (HA A Hr). cbn. by rewrite Ec. }
  assert (Hb : not_base f t).
  { intros [= -> ->]. destruct (m_base _ Hm) as (m0 & E0 & E1). simplify_eq. by rewrite E1 in Ec. }
  unfold spec_write, block_count. destruct (Z.leb_spec (Z.of_nat (length (md_blocks m))) (i32 n)) as [Hoob|Hin].
  { eexists _, st. split; [reflexivity|]. split; [done|]. intros A Hr. rewrite (HA A Hr). cbn. rewrite Ec, length_fmap.
    by destruct (Z.leb_spec (Z.of_nat (length (md_blocks m))) (i32 n)); [|lia]. }
  unfold mbind at 1 2, st_bind at 1 2. unfold ph_block_links, stat_nlink, mbind at 1, st_bind at 1.
  destruct (Z.leb_spec (Z.of_nat (length (md_blocks m))) n) as [Hge|Hlt].
  - rewrite (no_block st f t m n) by done. eexists _, st. split; [reflexivity|]. split; [done|]. intros A Hr. rewrite (HA A Hr).
    cbn. rewrite Ec, length_fmap. destruct (Z.leb_spec (Z.of_nat (length (md_blocks m))) (i32 n)); [lia|].
    by destruct (Z.leb_spec (Z.of_nat (length (md_blocks m))) n); [|lia].
  - destruct (lookup_lt_is_Some_2 (md_blocks m) (Z.to_nat n)) as [b Eb]; [lia|].
    destruct (write_block_refines st f t n m b data) as (i & st1 & st' & Ei & E1 & E2 & Hwf' & Ed & Hfo & Hf); [done|done|lia|done|done|done|].
    rewrite Ei. cbn [fmap option_fmap option_map from_option]. unfold mret at 1, st_ret at 1.
    destruct (Z.ltb_spec (id (nlink st i)) 0); [unfold nlink, id in *; lia|]. unfold id in *.
    unfold mbind, st_bind. rewrite E1. cbn [negb Z.eqb]. rewrite E2. eexists _, st'. split; [reflexivity|]. split; [done|].
    intros A Hr. rewrite (HA A Hr). cbn. rewrite Ec, length_fmap.
    destruct (Z.leb_spec (Z.of_nat (length (md_blocks m))) (i32 n)); [lia|].
    destruct (Z.leb_spec (Z.of_nat (length (md_blocks m))) n); [lia|]. split; [done|]. destruct Hr as [R1 R2]. split.
    + intros f' t'. cbn. case_decide as E; [simplify_eq; symmetry; exact Hf|]. rewrite R1. symmetry. by apply Hfo.
    + intros f'. cbn. by rewrite R2, Ed.
Qed.

(** ** Metadata saved after the blocks have changed *)

(** The table with [bl] as the blocks of [f:t]. *)
Definition retab (T : Table) (f t : string) (bl : list Z) : Table := fun f' t' n =>
  if decide ((f', t') = (f, t)) then (if decide (0 <= n) then bl !! Z.to_nat n else None) else T f' t' n.

Lemma retable_run st st1 T1 f t m m2 :
  wf st -> meta st f t = Some m -> not_base f t -> same_files st st1 -> fs_inv cfg st1 T1 ->
  md_path m2 = md_path m -> metadata_ok m2 ->
  (forall f' t' n, T1 f' t' n = retab (table st) f t (md_blocks m2) f' t' n) ->
  exists st', save_file_metadata m2 st1 = Some (0, st') /\ wf st' /\ dirs st' = dirs st /\
    (forall f' t', (f', t') <> (f, t) -> files st' f' t' = files st f' t') /\ files st' f t = Some (file_of st m2) /\
    file_at st' P_hash_index = file_at st1 P_hash_index /\ (forall b, block_content st' b = block_content st b) /\
    (forall f' t' n, table st' f' t' n = T1 f' t' n).
Proof.
  intros Hwf Em Hb Hs Hi Hp Hok HT. pose proof (w_meta _ _ Hwf) as Hm.
  assert (Hl : is_Some (links st1 !! P_metadata f t)) by (rewrite (f_links _ _ Hs); by eapply meta_inv_link).
  assert (Hp2 : md_path m2 = P_metadata f t) by (rewrite Hp; by eapply meta_path).
  destruct (save_run cfg st1 T1 (used T1) f t m2 Hi Hl Hp2 Hok) as (st' & m' & E & H' & [V1 V2 V3 V4 V5 V6 V8] & (S1 & S2 & S3 & S4) & Hh).
  assert (Hother : forall f' t', (f', t') <> (f, t) -> file_at st' (P_metadata f' t') = file_at st (P_metadata f' t')).
  { intros f' t' Hne. rewrite V4 by done. apply (f_meta _ _ Hs). }
  assert (Ht : forall f' t' n, table st' f' t' n = T1 f' t' n).
  { intros f' t' n. rewrite (table_update st st' f t m') by done. by rewrite HT, S2. }
  assert (Hc : forall b, block_content st' b = block_content st b) by (intros b; rewrite V8; apply (f_content _ _ Hs)).
  exists st'. split; [done|]. split; [split|split; [|split; [|split; [|done]]]].
  - by apply (fs_inv_ext _ _ T1).
  - apply (meta_inv_update cfg st st' f t m'); try done.
    + intros f' t' Hne. rewrite V3 by done. apply (f_links _ _ Hs).
    + intros d. rewrite V5, (f_dirs _ _ Hs). pose proof (m_tag _ Hm f t) as H1. pose proof (m_blocks _ Hm f t) as H2.
      pose proof (m_file _ Hm f t). rewrite Em in H1, H2. pose proof (proj2 H1 (mk_is_Some _ _ eq_refl)).
      pose proof (proj2 H2 (mk_is_Some _ _ eq_refl)). set_solver.
  - rewrite V6, (f_held _ _ Hs). apply Hwf.
  - by rewrite V5, (f_dirs _ _ Hs).
  - intros f' t' Hne. apply files_same; [by apply Hother|]. intros. apply Hc.
  - unfold files. rewrite V1. cbn. f_equal. apply file_of_ext; [done..|]. intros b _. apply Hc.
Qed.

(** ** Truncation *)

(** The table with block zero from [lo] to [hi - 1] of [f:t]. *)
Definition fill (T : Table) (f t : string) (lo hi : Z) : Table := fun f' t' n =>
  if decide (f' = f /\ t' = t /\ lo <= n < hi) then Some 0 else T f' t' n.

Lemma link_zero_blocks_run st T f t i count :
  fs_inv cfg st T -> not_base f t -> D_blocks f t ∈ dirs st ->
  (forall n, i <= n -> T f t n = None) ->
  exists st', link_zero_blocks f t i count st = Some (true, st') /\
    fs_inv cfg st' (fill T f t i (i + Z.of_nat count)) /\ same_files st st'.
Proof.
  revert st T i. induction count as [|count IH]; intros st T i Hi Hb Hd Hn.
  - exists st. split; [done|]. split; [|apply same_files_refl]. eapply fs_inv_ext; [|exact Hi].
    intros f' t' n. unfold fill. rewrite decide_False; [done|]. lia.
  - destruct (link_zero_run cfg st T f t i) as (st1 & E1 & H1 & Hs1); [done|by apply Hn|done|done|].
    destruct (IH st1 (set_block T f t i (Some 0)) (i + 1)) as (st' & E' & H' & Hs'); [done|done|by rewrite (f_dirs _ _ Hs1)| |].
    { intros n Hni. rewrite set_block_ne by lia. apply Hn. lia. }
    exists st'. cbn [link_zero_blocks]. unfold mbind, st_bind. rewrite E1. cbn [negb Z.eqb].
    split; [done|]. split; [|by eapply same_files_trans].
    eapply fs_inv_ext; [|exact H']. intros f' t' n. unfold fill, set_block. repeat case_decide; try done; exfalso; intuition lia.
Qed.

Lemma metadata_ok_resized m bs size :
  metadata_ok m -> - 2 ^ 31 <= size < 2 ^ 31 -> Forall (fun b => - 2 ^ 31 <= b < 2 ^ 31) bs ->
  metadata_ok (set_size size (set_blocks bs m)).
Proof. intros [H1 H2 H3 H4] Hs Hb. by split. Qed.

Lemma resize_contents st n bs :
  block_content st 0 = replicate (Z.to_nat bsize) x00 ->
  block_content st <$> (take n bs ++ replicate (n - length bs) 0) = resize_blocks cfg n (block_content st <$> bs).
Proof.
  intros Hz. unfold resize_blocks. rewrite fmap_app, fmap_take, fmap_replicate, length_fmap. unfold zero_block. by rewrite Hz.
Qed.

(** The blocks of the file cut and extended, before its metadata are saved. *)
Lemma resize_run st f t m n :
  wf st -> meta st f t = Some m -> not_base f t ->
  exists st1 T1,
    (if Z.of_nat n <? block_count m
     then release_blocks cfg f t (Z.of_nat n) (drop n (md_blocks m));; mret true
     else link_zero_blocks f t (block_count m) (Z.to_nat (Z.of_nat n - block_count m))) st = Some (true, st1) /\
    fs_inv cfg st1 T1 /\ same_files st st1 /\
    forall f' t' k, T1 f' t' k = retab (table st) f t (take n (md_blocks m) ++ replicate (n - length (md_blocks m)) 0) f' t' k.
Proof.
  intros Hwf Em Hb. pose proof (w_inv _ _ Hwf) as Hi. pose proof (w_meta _ _ Hwf) as Hm.
  assert (Ht : forall k, 0 <= k -> table st f t k = md_blocks m !! Z.to_nat k) by (intros; by apply table_lookup).
  assert (Hneg : forall k, ~ 0 <= k -> table st f t k = None) by (intros k Hk; unfold table; rewrite Em; cbn; by rewrite decide_False).
  unfold block_count. destruct (Z.ltb_spec (Z.of_nat n) (Z.of_nat (length (md_blocks m)))) as [Hlt|Hge].
  - destruct (release_blocks_run st (table st) f t (Z.of_nat n) (drop n (md_blocks m))) as (st1 & E & H1 & Hs1);
      [done|rewrite (w_held _ _ Hwf); apply not_elem_of_nil|done| |].
    { intros k b. rewrite lookup_drop. intros Hk. rewrite Ht by lia. rewrite <- Hk. f_equal. lia. }
    exists st1, (cut (table st) f t (Z.of_nat n) (Z.of_nat n + Z.of_nat (length (drop n (md_blocks m))))).
    split; [unfold mbind, st_bind; by rewrite E|]. split; [done|]. split; [done|].
    intros f' t' k. unfold cut, retab. rewrite length_drop. replace (n - length (md_blocks m))%nat with 0%nat by lia. cbn [replicate]. rewrite app_nil_r.
    destruct (decide ((f', t') = (f, t))) as [[= -> ->]|Hne]; [|by rewrite decide_False by naive_solver].
    destruct (decide (0 <= k)) as [Hk|Hk]; [|rewrite decide_False by lia; by apply Hneg].
    destruct (decide (Z.to_nat k < n)%nat) as [Hkn|Hkn].
    + rewrite decide_False by lia. rewrite lookup_take_lt by done. by apply Ht.
    + rewrite lookup_take_ge by lia. case_decide as Hc; [done|]. rewrite Ht by done. apply lookup_ge_None.
      assert (~ (Z.of_nat n <= k < Z.of_nat n + Z.of_nat (length (md_blocks m) - n))) by tauto. lia.
  - destruct (link_zero_blocks_run st (table st) f t (Z.of_nat (length (md_blocks m)))
      (Z.to_nat (Z.of_nat n - Z.of_nat (length (md_blocks m))))) as (st1 & E & H1 & Hs1); [done|done|apply (m_blocks _ Hm); eauto| |].
    { intros k Hk. rewrite Ht by lia. apply lookup_ge_None. lia. }
    eexists st1, _. split; [exact E|]. split; [exact H1|]. split; [done|].
    intros f' t' k. unfold fill, retab. rewrite take_ge by lia.
    destruct (decide ((f', t') = (f, t))) as [[= -> ->]|Hne]; [|by rewrite decide_False by naive_solver].
    destruct (decide (0 <= k)) as [Hk|Hk]; [|rewrite decide_False by lia; by apply Hneg].
    destruct (decide (Z.to_nat k < length (md_blocks m))%nat) as [Hkn|Hkn].
    + rewrite decide_False by lia. rewrite lookup_app_l by done. by apply Ht.
    + rewrite lookup_app_r by lia. case_decide as Hc.
      * symmetry. apply lookup_replicate_2. lia.
      * rewrite Ht by done. rewrite (lookup_ge_None_2 (md_blocks m)) by lia. symmetry. apply lookup_replicate_None.
        assert (~ (Z.of_nat (length (md_blocks m)) <= k < Z.of_nat (length (md_blocks m)) + Z.of_nat (Z.to_nat (Z.of_nat n - Z.of_nat (length (md_blocks m)))))) by tauto. lia.
Qed.

(** What is saved at the end of a truncation to [n] blocks. *)
Definition resized (m : t_file_metadata) (n : nat) (size : Z) : t_file_metadata :=
  set_size size (set_blocks (take n (md_blocks m) ++ replicate (n - length (md_blocks m)) 0) m).

Lemma resized_ok st f t m n size :
  wf st -> meta st f t = Some m -> - 2 ^ 31 <= size < 2 ^ 31 -> metadata_ok (resized m n size).
Proof.
  intros Hwf Em Hs. pose proof (m_ok _ (w_meta _ _ Hwf) _ _ _ Em) as Hok. apply metadata_ok_resized; [done..|].
  apply Forall_app. split; [apply Forall_take, Hok|apply Forall_replicate; lia].
Qed.

Lemma file_of_resized st m n size :
  block_content st 0 = replicate (Z.to_nat bsize) x00 ->
  file_of st (resized m n size) = MkAFile size (resize_blocks cfg n (a_blocks (file_of st m))) (a_state (file_of st m)).
Proof. intros Hz. unfold file_of, resized. cbn. by rewrite resize_contents. Qed.

(** After the check of its arguments, a truncation resizes and saves. *)
Lemma truncate_body st f t m size :
  wf st -> meta st f t = Some m -> not_base f t -> - 2 ^ 31 <= size -> size + bsize - 1 <= INT_MAX -> 0 <= blocks_for cfg size ->
  let n := Z.to_nat (blocks_for cfg size) in
  exists st1 T1, truncate_file cfg f t size st = update_size (resized m n size) size st1 /\
    fs_inv cfg st1 T1 /\ same_files st st1 /\
    forall f' t' k, T1 f' t' k = retab (table st) f t (md_blocks (resized m n size)) f' t' k.
Proof.
  intros Hwf Em Hb Hlo Hhi Hnew n. destruct Hcfg as [Hbs _ _].
  destruct (resize_run st f t m n Hwf Em Hb) as (st1 & T1 & E & H1 & Hs1 & HT).
  exists st1, T1. split; [|done]. unfold truncate_file. unfold mbind at 1, st_bind at 1. rewrite read_metadata_run, Em by done.
  destruct (Z.ltb_spec INT_MAX (size + bsize - 1)); [lia|]. destruct (Z.eqb_spec bsize 0); [lia|]. cbn [orb].
  fold (blocks_for cfg size). assert (En : blocks_for cfg size = Z.of_nat n) by lia. rewrite En. clearbody n.
  unfold block_count in *. unfold resized.
  destruct (Z.eqb_spec (Z.of_nat n) (Z.of_nat (length (md_blocks m)))) as [Eq|Hne].
  - assert (n = length (md_blocks m)) as -> by lia. rewrite Z.ltb_irrefl, Z.sub_diag in E. cbn in E. injection E as <-.
    rewrite take_ge, Nat.sub_diag by lia. cbn [replicate]. by rewrite app_nil_r.
  - destruct (Z.ltb_spec (Z.of_nat n) 0); [lia|]. rewrite Nat2Z.id.
    destruct (Z.ltb_spec (Z.of_nat n) (Z.of_nat (length (md_blocks m)))).
    + replace (n - length (md_blocks m))%nat with 0%nat by lia. cbn [replicate]. rewrite app_nil_r.
      unfold mbind, st_bind in *. destruct (release_blocks _ _ _ _ _ st) as [[[] st2]|]; [|done]. cbn in E. by injection E as <-.
    + unfold mbind, st_bind. rewrite E. cbn [negb]. rewrite take_ge by lia.
      by replace (Z.to_nat (Z.of_nat n - Z.of_nat (length (md_blocks m)))) with (n - length (md_blocks m))%nat by lia.
Qed.

Lemma truncate_refines st f t size :
  wf st -> not_base f t -> - 2 ^ 31 <= size -> size + bsize - 1 <= INT_MAX ->
  refines (truncate_file cfg f t size) (spec_truncate cfg f t size) st.
Proof.
  intros Hwf Hb Hlo Hhi. destruct (meta st f t) as [m|] eqn:Em.
  2:{ apply (refines_same _ _ _ (-1)); [done| |].
      - unfold truncate_file, mbind, st_bind. by rewrite read_metadata_run, Em.
      - intros A HA. unfold spec_truncate. rewrite (represented _ _ _ _ HA). unfold files. by rewrite Em. }
  assert (HA : forall A, represents st A -> a_files A f t = Some (file_of st m)).
  { intros A HA. rewrite (represented _ _ _ _ HA). unfold files. by rewrite Em. }
  destruct (decide (blocks_for cfg size < 0)) as [Hneg|Hpos].
  - assert (Hne : blocks_for cfg size <> Z.of_nat (length (md_blocks m))) by lia.
    apply (refines_same _ _ _ (-3)); [done| |].
    + unfold truncate_file. unfold mbind, st_bind. rewrite read_metadata_run, Em by done. destruct Hcfg.
      destruct (Z.ltb_spec INT_MAX (size + bsize - 1)); [lia|]. destruct (Z.eqb_spec bsize 0); [lia|]. cbn [orb].
      fold (blocks_for cfg size). unfold block_count. rewrite (proj2 (Z.eqb_neq _ _) Hne). by rewrite (proj2 (Z.ltb_lt _ _) Hneg).
    + intros A Hr. unfold spec_truncate. rewrite (HA A Hr). cbn. rewrite length_fmap.
      by rewrite (proj2 (Z.eqb_neq _ _) Hne), (proj2 (Z.ltb_lt _ _) Hneg).
  - destruct (truncate_body st f t m size) as (st1 & T1 & E & H1 & Hs1 & HT); [done..|lia|]. set (n := Z.to_nat _) in *.
    assert (Hok : metadata_ok (resized m n size)) by (eapply resized_ok; [done..|]; unfold INT_MAX in *; destruct Hcfg; lia).
    destruct (retable_run st st1 T1 f t m (resized m n size)) as (st' & Es & Hwf' & Hd & Hfo & Hf & _); [done..|].
    exists 0, st'. split; [|split; [done|]].
    + rewrite E. unfold update_size, mbind, st_bind. replace (set_size size (resized m n size)) with (resized m n size) by done. by rewrite Es.
    + intros A Hr. unfold spec_truncate. rewrite (HA A Hr). rewrite (proj2 (Z.ltb_ge _ _)) by lia. cbn [andb fst snd].
      split; [done|]. destruct Hr as [R1 R2]. split.
      * intros f' t'. cbn. case_decide as Ek; [|rewrite R1; symmetry; by apply Hfo]. simplify_eq. rewrite Hf. symmetry.
        f_equal. apply file_of_resized, (i_zero _ _ _ _ (w_inv _ _ Hwf)).
      * intros f'. cbn. by rewrite R2, Hd.
Qed.

End Refine.
