(* ===== verification/StorageFork.v ===== *)
(** * Forks keep the promise of the Storage (create_tag.c)

    [cp -rl] gives the new file:tag links to the same physical blocks; what it
    leaves is [fs_inv] for the table with the blocks of the source twice. *)

From S2P Require Import Prelude CStrings Config Serialization StorageFs StorageUtils StorageOps StorageFsSpec StorageInvariant.
From S2P Require Import StorageBlocks StorageSteps StorageSpec StorageRefine.

(** ** The links that [cp -rl] makes *)

Lemma logical_of_spec f t p n : logical_of f t p = Some n <-> p = P_logical f t n.
Proof.
  destruct p; cbn; try done. destruct (String.eqb_spec file f), (String.eqb_spec tag t); cbn; subst; naive_solver.
Qed.

Lemma copies_lookup fs ts fd td ls q i :
  copies fs ts fd td ls !! q = Some i <-> exists n, q = P_logical fd td n /\ ls !! P_logical fs ts n = Some i.
Proof.
  set (l := omap (fun '(p, i) => (fun n => (P_logical fd td n, i)) <$> logical_of fs ts p) (map_to_list ls)).
  assert (Hin : forall q i, (q, i) ∈ l <-> exists n, q = P_logical fd td n /\ ls !! P_logical fs ts n = Some i).
  { intros q' i'. unfold l. rewrite list_elem_of_omap. split.
    - intros ([p j] & Hp & E). apply elem_of_map_to_list in Hp. apply fmap_Some in E as (n & En & [= -> ->]).
      apply logical_of_spec in En as ->. by exists n.
    - intros (n & -> & E). exists (P_logical fs ts n, i'). split; [by apply elem_of_map_to_list|].
      by rewrite (proj2 (logical_of_spec fs ts _ n) eq_refl). }
  unfold copies. fold l. rewrite <- Hin. split; [apply elem_of_list_to_map_2|]. intros H.
  apply elem_of_list_to_map_1'; [|done]. intros j Hj. apply Hin in H as (n & -> & E), Hj as (n' & [= <-] & E'). congruence.
Qed.

Lemma copied_logical fs ts fd td ls n :
  ls !! P_logical fd td n = None -> (ls ∪ copies fs ts fd td ls) !! P_logical fd td n = ls !! P_logical fs ts n.
Proof.
  intros E. rewrite lookup_union, E. rewrite (left_id_L None (union (A := option ino))).
  destruct (ls !! P_logical fs ts n) as [i|] eqn:Es.
  - apply copies_lookup. by exists n.
  - destruct (copies fs ts fd td ls !! _) as [i|] eqn:Ec; [|done]. apply copies_lookup in Ec as (n' & [= <-] & Ec). congruence.
Qed.

Lemma copied_other fs ts fd td ls p :
  (forall n, p <> P_logical fd td n) -> (ls ∪ copies fs ts fd td ls) !! p = ls !! p.
Proof.
  intros Hp. rewrite lookup_union. destruct (copies fs ts fd td ls !! p) as [i|] eqn:E; [|by rewrite (right_id_L None (union (A := option ino)))].
  apply copies_lookup in E as (n & -> & _). by destruct (Hp n).
Qed.

Lemma cp_rl_run st fs ts fd td :
  D_blocks fs ts ∈ dirs st -> D_blocks fd td ∈ dirs st -> (forall n, links st !! P_logical fd td n = None) ->
  cp_rl fs ts fd td st = Some (0, on_links (fun ls => ls ∪ copies fs ts fd td ls) st).
Proof.
  intros Hs Hd Hn. unfold cp_rl. rewrite decide_True by done. rewrite decide_True; [done|].
  apply map_empty. intros p. apply map_lookup_filter_None. right. intros i E Hc. apply bool_decide_eq_true in Hc as [Hc _]. cbn in Hc.
  apply copies_lookup in E as (n & -> & _). by rewrite Hn in Hc.
Qed.

Section Fork.
Context {CC : CommonsConfig} {CB : CommonsBitarray} {CY : CommonsCrypto}.
Context {CCS : CommonsConfigSpec CC} {CBS : CommonsBitarraySpec CB}.
Variable cfg : t_storage_config.
Context {Hcfg : cfg_ok cfg}.

Abbreviation wf := (fs_wf cfg).
Abbreviation refines := (StorageSpec.refines cfg).

(** The blocks of [fs:ts] also as those of [fd:td]. *)
Definition copied (T : Table) (fs ts fd td : string) : Table := fun f t n =>
  if decide ((f, t) = (fd, td)) then T fs ts n else T f t n.

Lemma used_copied T fs ts fd td b : (forall n, T fd td n = None) -> used (copied T fs ts fd td) b <-> used T b.
Proof.
  intros Hn. split.
  - intros (f & t & n & E). revert E. unfold copied. case_decide; [by exists fs, ts, n|by exists f, t, n].
  - intros (f & t & n & E). exists f, t, n. unfold copied. rewrite decide_False; [done|]. intros [= -> ->]. by rewrite Hn in E.
Qed.

Lemma copied_run st T fs ts fd td :
  fs_inv cfg st T -> (fd, td) <> ("initial_file", "BASE")%string -> (forall n, T fd td n = None) ->
  D_blocks fs ts ∈ dirs st -> D_blocks fd td ∈ dirs st ->
  exists st', cp_rl fs ts fd td st = Some (0, st') /\ fs_inv cfg st' (copied T fs ts fd td) /\ same_files st st'.
Proof.
  intros Hi Hb Hn Hs Hd.
  assert (Hl : forall n, links st !! P_logical fd td n = None) by (intros n; by rewrite (i_linked _ _ _ _ Hi), Hn).
  eexists. split; [by apply cp_rl_run|]. split.
  - eapply fs_at_ext; [done| |eapply (fs_at_relinks cfg st _ T (copied T fs ts fd td))]; [|exact Hi|done|..].
    + intros b _. by apply used_copied.
    + intros p Hp _. by apply copied_other.
    + intros f t i. cbn. by rewrite copied_other.
    + intros f t n. cbn. unfold copied. case_decide as E.
      * simplify_eq. rewrite copied_logical by done. apply (i_linked _ _ _ _ Hi).
      * rewrite copied_other by (intros ? [=]; naive_solver). apply (i_linked _ _ _ _ Hi).
    + intros f t n b. unfold copied. case_decide; apply (i_range _ _ _ _ Hi).
    + unfold copied. rewrite decide_False by (by apply not_eq_sym). apply (i_base _ _ _ _ Hi).
  - apply relinks_same; [done|]. intros p Hp. by apply copied_other.
Qed.

(** What the metadata of a file say about its blocks, as text. *)
Lemma meta_config st f t m :
  meta st f t = Some m ->
  exists raw, config_get (md_config m) "BLOCKS" = Some raw /\ atoi <$> string_get_string_as_array raw = md_blocks m.
Proof.
  unfold meta. destruct (file_at st _) as [text|]; [|done]. cbn. unfold metadata_of, config_has_property.
  destruct (config_get _ "SIZE"), (config_get _ "BLOCKS") as [raw|] eqn:E, (config_get _ "ESTADO"); cbn; try done.
  intros [= <-]. by exists raw.
Qed.

(** The metadata of the copy. *)
Lemma create_metadata_run st T st0 fs ts m fd td :
  meta st0 fs ts = Some m -> metadata_ok m -> fs_inv cfg st T -> links st !! P_metadata fd td = None -> D_tag fd td ∈ dirs st ->
  exists st' m', create_metadata fd td (md_size m) (block_count m) (default EmptyString (config_get (md_config m) "BLOCKS"))
      "WORK_IN_PROGRESS" st = Some (0, st') /\ fs_inv cfg st' T /\ resaved st st' fd td m' /\
    md_size m' = md_size m /\ md_blocks m' = md_blocks m /\ md_state m' = IN_PROGRESS.
Proof.
  intros Em [Hs Hbl _ Hpl] Hi El Hd. destruct (meta_config _ _ _ _ Em) as (raw & Er & Ea). rewrite Er. cbn [default from_option].
  destruct (written_metadata (P_metadata fd td) (md_size m) (md_blocks m) raw IN_PROGRESS) as (c & Ec & Hok);
    [done|done|by apply (Hpl "BLOCKS"%string)|done|done|].
  destruct (new_metadata_run cfg st _ _ fd td _ _ Hi El Hd Ec Hok) as (st' & Ew & Hi' & Hv).
  eexists st', _. split; [|split; [exact Hi'|split; [exact Hv|done]]].
  unfold create_metadata, id, block_count. rewrite <- Ea, length_fmap, Z.eqb_refl. cbn [negb]. unfold mbind, st_bind.
  unfold IN_PROGRESS in Ew. by rewrite Ew.
Qed.

(** The two directories of a new tag of a file that has one. *)
Lemma mkdir_run st d :
  d ∉ dirs st -> Forall (fun a => a = d \/ a ∈ dirs st) (ancestors d) ->
  mkdir d st = Some (Mkdir_ok, on_dirs (fun _ => {[d]} ∪ dirs st) st).
Proof. intros Hd Ha. unfold mkdir. by rewrite decide_False, decide_True. Qed.

Lemma tag_ancestors st f t : D_file f ∈ dirs st -> Forall (fun a => a = D_tag f t \/ a ∈ dirs st) (ancestors (D_tag f t)).
Proof. intros Hf. constructor; [by right|]. constructor; [by left|constructor]. Qed.

Lemma blocks_ancestors st f t :
  D_file f ∈ dirs st ->
  Forall (fun a => a = D_blocks f t \/ a ∈ dirs (on_dirs (fun _ => {[D_tag f t]} ∪ dirs st) st)) (ancestors (D_blocks f t)).
Proof.
  intros Hf. constructor; [right; by apply elem_of_union_r|]. constructor; [right; by apply elem_of_union_l, elem_of_singleton|].
  constructor; [by left|constructor].
Qed.

Lemma fork_run st fs ts fd td m :
  wf st -> meta st fd td = None -> meta st fs ts = Some m -> D_file fd ∈ dirs st ->
  exists st' m', create_tag fs ts fd td st = Some (0, st') /\ wf st' /\ meta st' fd td = Some m' /\
    md_size m' = md_size m /\ md_blocks m' = md_blocks m /\ md_state m' = IN_PROGRESS /\
    (forall f' t', (f', t') <> (fd, td) -> file_at st' (P_metadata f' t') = file_at st (P_metadata f' t')) /\
    (forall f', D_file f' ∈ dirs st' <-> D_file f' ∈ dirs st) /\
    (forall b, block_content st' b = block_content st b).
Proof.
  intros Hwf Ed Es Hf. pose proof (w_meta _ _ Hwf) as Hm. pose proof (base_named _ _ _ _ Hwf Ed) as Hb.
  assert (Hdt : D_tag fd td ∉ dirs st) by (rewrite (m_tag _ Hm), Ed; by intros []).
  assert (Hdb : D_blocks fd td ∉ dirs st) by (rewrite (m_blocks _ Hm), Ed; by intros []).
  assert (Hsb : D_blocks fs ts ∈ dirs st) by (apply (m_blocks _ Hm); eauto).
  assert (Hn : forall n, table st fd td n = None) by (intros n; unfold table; by rewrite Ed).
  set (ds := {[D_blocks fd td]} ∪ ({[D_tag fd td]} ∪ dirs st)). set (st1 := on_dirs (fun _ => ds) st).
  assert (H1 : fs_inv cfg st1 (table st)).
  { apply fs_at_dirs; [apply Hwf|]. destruct (i_dirs _ _ _ _ (w_inv _ _ Hwf)). unfold ds. set_solver. }
  destruct (copied_run st1 (table st) fs ts fd td) as (st2 & E2 & H2 & Hs2);
    [done|done|done|cbn; unfold ds; set_solver|cbn; unfold ds; set_solver|].
  assert (El : links st2 !! P_metadata fd td = None).
  { rewrite (f_links _ _ Hs2). cbn. destruct (links st !! _) eqn:E; [|done]. destruct (m_linked _ Hm fd td); [by rewrite E|congruence]. }
  destruct (create_metadata_run st2 _ st fs ts m fd td Es (m_ok _ Hm _ _ _ Es) H2 El) as (st3 & m' & E3 & H3 & Hv & S1 & S2 & S3);
    [rewrite (f_dirs _ _ Hs2); cbn; unfold ds; set_solver|].
  destruct Hv as [V1 V2 V3 V4 V5 V6 V8].
  assert (Hd3 : forall d, d ∈ dirs st3 <-> d ∈ dirs st \/ d ∈ [D_file fd; D_tag fd td; D_blocks fd td]).
  { intros d. rewrite V5, (f_dirs _ _ Hs2). cbn. unfold ds. set_solver. }
  assert (Hfo : forall f' t', (f', t') <> (fd, td) -> file_at st3 (P_metadata f' t') = file_at st (P_metadata f' t')).
  { intros f' t' Hne. rewrite V4 by done. apply (f_meta _ _ Hs2). }
  exists st3, m'. split; [|split; [split|split; [done|split; [done|split; [done|split; [done|split; [done|split]]]]]]].
  - unfold create_tag. unfold mbind, st_bind. rewrite (read_metadata_run cfg), Ed by done. rewrite (read_metadata_run cfg), Es by done.
    rewrite (mkdir_run st (D_tag fd td)) by (done || by apply tag_ancestors).
    rewrite (mkdir_run _ (D_blocks fd td)); [|by apply not_elem_of_union; split; [apply not_elem_of_singleton|]|by apply blocks_ancestors].
    change (on_dirs _ (on_dirs _ st)) with st1. rewrite E2. cbn [negb Z.eqb]. by rewrite E3.
  - eapply fs_inv_ext; [|exact H3]. intros f' t' n. rewrite (table_update st st3 fd td m') by done. unfold copied.
    case_decide; [|done]. rewrite S2. unfold table. by rewrite Es.
  - apply (meta_inv_update cfg st st3 fd td m'); try done. intros f' t' Hne. rewrite V3 by done. apply (f_links _ _ Hs2).
  - rewrite V6, (f_held _ _ Hs2). apply Hwf.
  - intros f'. rewrite Hd3. set_solver.
  - intros b. rewrite V8. apply (f_content _ _ Hs2).
Qed.

Lemma fork_refines st fs ts fd td : wf st -> refines (create_tag fs ts fd td) (spec_fork fs ts fd td) st.
Proof.
  intros Hwf. pose proof (read_metadata_run cfg st fd td Hwf) as Rd. pose proof (read_metadata_run cfg st fs ts Hwf) as Rs.
  assert (HA : forall A f t, represents st A -> a_files A f t = file_of st <$> meta st f t) by (intros A f t [HA _]; apply HA).
  destruct (meta st fd td) as [md|] eqn:Ed.
  { apply (refines_same _ _ _ _ FILE_TAG_ALREADY_EXISTS); [done|unfold create_tag, mbind, st_bind; by rewrite Rd|].
    intros A Hr. unfold spec_fork. by rewrite (HA A fd td Hr), Ed. }
  destruct (meta st fs ts) as [m|] eqn:Es.
  2:{ apply (refines_same _ _ _ _ FILE_TAG_MISSING); [done|unfold create_tag, mbind, st_bind; by rewrite Rd, Rs|].
    intros A Hr. unfold spec_fork. by rewrite !(HA A _ _ Hr), Ed, Es. }
  destruct (decide (D_file fd ∈ dirs st)) as [Hf|Hf].
  - destruct (fork_run st fs ts fd td m) as (st' & m' & E & Hwf' & Em' & S1 & S2 & S3 & Hfo & Hd & Hc); [done..|].
    exists 0, st'. split; [done|]. split; [done|]. intros A Hr. unfold spec_fork. rewrite !(HA A _ _ Hr), Ed, Es. cbn [fmap option_fmap option_map].
    destruct (Hr) as [R1 R2]. rewrite R2, bool_decide_eq_true_2 by done. split; [done|]. cbn [snd].
    eapply (represents_update st st' fd td m'); try done. unfold file_of. rewrite S1, S2, S3. cbn. f_equal.
    apply list_fmap_ext. intros ? ? _. apply Hc.
  - assert (Hdt : D_tag fd td ∉ dirs st) by (rewrite (m_tag _ (w_meta _ _ Hwf)), Ed; by intros []).
    apply (refines_same _ _ _ _ (-1)); [done| |].
    + unfold create_tag, mbind, st_bind. rewrite Rd, Rs. unfold mkdir. rewrite decide_False by done. rewrite decide_False; [done|].
      cbn. rewrite !Forall_cons. intros ([|] & _); done.
    + intros A Hr. unfold spec_fork. rewrite !(HA A _ _ Hr), Ed, Es. cbn. destruct Hr as [_ R2]. by rewrite R2, bool_decide_eq_false_2.
Qed.

End Fork.
