(* ===== verification/StorageCommit.v ===== *)
(** * The commit keeps the promise of the Storage (commit_tag.c)

    [deduplicate_blocks] moves the links of a file to the physical blocks that the
    index of digests names.  With an accurate index and no two contents with one
    digest, the contents of the file are what they were. *)

From S2P Require Import Prelude CStrings Config Serialization StorageFs StorageUtils StorageOps StorageFsSpec StorageInvariant.
From S2P Require Import StorageBlocks StorageSteps StorageSpec StorageRefine.

Class CommonsCryptoSpec (CY : CommonsCrypto) : Prop := md5_word bs : config_word (crypto_md5 bs).

(** ** Names of blocks *)

Lemma substring_all s : String.substring 0 (String.length s) s = s.
Proof. induction s as [|c s IH]; [done|]. cbn. by rewrite IH. Qed.

Lemma number_after_block s : get_physical_block_number ("block" +:+ s) = default (-1) (scan_int s).
Proof.
  unfold get_physical_block_number. change (String.prefix "block" ("block" +:+ s)) with (String.prefix "" s).
  replace (String.prefix "" s) with true by (by destruct s).
  replace (String.substring 5 (String.length ("block" +:+ s) - 5) ("block" +:+ s)) with s; [done|].
  change (String.length ("block" +:+ s)) with (5 + String.length s)%nat.
  replace (5 + String.length s - 5)%nat with (String.length s) by lia.
  change (String.substring 5 (String.length s) ("block" +:+ s)) with (String.substring 0 (String.length s) s).
  by rewrite substring_all.
Qed.

Lemma block_number b : 0 <= b < 2 ^ 31 -> get_physical_block_number (block_name b) = b.
Proof. intros Hb. unfold block_name. by rewrite number_after_block, scan_print_04. Qed.

Lemma block_name_word b : 0 <= b -> config_word (block_name b).
Proof.
  intros Hb. split; [done|]. unfold block_name. rewrite all_chars_app. apply andb_true_iff. split; [done|].
  unfold print_04. destruct (Z.ltb_spec b 0); [lia|].
  assert (Hd : all_chars safe_char (print_number b) = true).
  { eapply all_chars_mono; [apply item_safe|]. by apply all_chars_decimal. }
  by induction (4 - _)%nat as [|k IH].
Qed.

Section Commit.
Context {CC : CommonsConfig} {CB : CommonsBitarray} {CY : CommonsCrypto}.
Context {CCS : CommonsConfigSpec CC} {CBS : CommonsBitarraySpec CB} {CYS : CommonsCryptoSpec CY}.
Variable cfg : t_storage_config.
Context {Hcfg : cfg_ok cfg}.

Abbreviation bsize := (block_size cfg).
Abbreviation total := (blocks_total cfg).
Abbreviation wf := (fs_wf cfg).
Abbreviation refines := (StorageSpec.refines cfg).
Abbreviation not_base f t := ((f, t) <> ("initial_file", "BASE")%string).

(** Every entry of the index is a block in use and the digest of its contents. *)
Record index_ok (h : t_config) (st : storage) (T : Table) : Prop := {
  x_plain : plain_config h;
  x_blocks k v : config_get h k = Some v ->
    exists b, v = block_name b /\ used T b /\ crypto_md5 (block_content st b) = k
}.

(** Digests tell the contents of blocks apart. *)
Definition no_collision (st : storage) : Prop := forall b b', 0 <= b < total -> 0 <= b' < total ->
  crypto_md5 (block_content st b) = crypto_md5 (block_content st b') -> block_content st b = block_content st b'.

Lemma index_ok_ext h st st' T T' :
  (forall b, block_content st' b = block_content st b) -> (forall f t n, T' f t n = T f t n) -> index_ok h st T -> index_ok h st' T'.
Proof.
  intros Hc HT [H1 H2]. split; [done|]. intros k v E. destruct (H2 k v E) as (b & E1 & Hu & E2). exists b.
  by rewrite (used_ext _ _ _ HT), Hc.
Qed.

Lemma no_collision_same st st' : same_files st st' -> no_collision st -> no_collision st'.
Proof. intros Hs H b b'. rewrite !(f_content _ _ Hs). apply H. Qed.

(** ** A block that may have become free *)

Lemma free_unused_run st T U b :
  fs_at cfg st T U -> M_bitmap ∉ held st -> 0 <= b < total -> U b -> (forall j, j <> b -> U j <-> used T j) ->
  exists st', free_ph_block_if_unused cfg (block_name b) st = Some (0, st') /\ fs_inv cfg st' T /\ same_files st st'.
Proof.
  intros H Hm Hb HUb HU. destruct (phys_ino cfg _ _ _ _ H Hb) as (i & Ei). pose proof (i_sound _ _ _ _ H) as Hs.
  assert (Hb31 : 0 <= b < 2 ^ 31) by (destruct Hcfg; lia).
  unfold free_ph_block_if_unused, ph_block_links, stat_nlink. unfold mbind, st_bind. fold (block_path b). rewrite Ei.
  cbn [fmap option_fmap option_map mret default from_option]. unfold mret, st_ret, id.
  assert (Hge : 1 <= nlink st i).
  { apply (nlink_ge st i [block_path b]); [apply NoDup_singleton|]. by intros p ->%list_elem_of_singleton. }
  destruct (Z.ltb_spec (nlink st i) 0); [lia|]. destruct (Z.ltb_spec 1 (nlink st i)) as [Hn|Hn].
  - exists st. split; [done|]. split; [|apply same_files_refl]. eapply fs_at_ext; [done| |exact H]. intros j _. destruct (decide (j = b)) as [->|Hj].
    + split; [done|]. intros _. eapply (nlink_more cfg st T U b i); [done..|lia].
    + by rewrite HU.
  - rewrite block_number by done. destruct (Z.ltb_spec b 0); [lia|].
    destruct (i_bitmap _ _ _ _ H) as (bm & Ebm & El & _). pose proof (total_bits cfg b Hb) as Hb8.
    unfold bitmap_load, mbind, st_bind. rewrite read_file_run, Ebm by done. rewrite lock_run by done.
    rewrite fread_whole by done. unfold mret, st_ret.
    destruct (set_bit_at_run bm b false (on_held (cons M_bitmap) st)) as (bm' & -> & Hl & Hbits); [lia|].
    unfold bitmap_persist, mbind, st_bind.
    destruct (overwrite_private_run (on_held (cons M_bitmap) st) P_bitmap bm' bm) as (st2 & -> & Hr & Ef);
      [by destruct Hs|by intros []|done|done|].
    destruct (rewrites_locked _ _ _ _ Hm Hr) as (st3 & -> & Hr3 & Ef3). exists st3. split; [done|].
    assert (Hbit : bit_changed st st3 b false) by (exists bm, bm'; rewrite Ef3; by repeat split).
    split; [|by apply rewrites_bitmap_same]. eapply fs_at_ext; [done| |exact (fs_at_bit cfg _ _ _ _ _ _ H Hr3 Hbit)].
    intros j _. cbn beta. pose proof (nlink_one cfg _ _ _ _ _ H Ei ltac:(lia)). destruct (decide (j = b)) as [->|Hj]; [by split|].
    by rewrite HU.
Qed.

(** ** One round of the loop *)

Lemma update_link_run st T f t n b b' :
  fs_inv cfg st T -> T f t n = Some b -> 0 <= b' < total -> not_base f t -> D_blocks f t ∈ dirs st ->
  exists st', update_logical_block_link (P_logical f t n) (block_name b') st = Some (0, st') /\
    fs_at cfg st' (set_block T f t n (Some b')) (used T) /\ same_files st st'.
Proof.
  intros Hi E Hb' Hb Hd. pose proof (i_range _ _ _ _ Hi _ _ _ _ E) as Hr.
  destruct (phys_ino cfg _ _ _ _ Hi Hr) as (i & Ei). pose proof (logical_link _ _ _ _ _ _ _ _ _ Hi E Ei) as El.
  destruct (fs_at_unlink cfg st T (used T) f t n Hi Hb) as [H1 Hs1]. set (st1 := on_links _ st) in *.
  destruct (phys_ino cfg _ _ _ _ H1 Hb') as (i' & Ei').
  destruct (fs_at_link cfg st1 _ (used T) f t n b' i' H1 Hb Hb' Ei') as [H2 Hs2].
  eexists. split; [|split; [|exact (same_files_trans _ _ _ Hs1 Hs2)]].
  - unfold update_logical_block_link, mbind, st_bind. rewrite remove_run by eauto. cbn [negb Z.eqb]. fold st1.
    fold (block_path b'). by rewrite (link_run st1 _ _ i') by (done || (cbn; apply lookup_delete_eq)).
  - eapply fs_at_ext; [|done|exact H2]. intros f' t' n'. unfold set_block. by case_decide.
Qed.

Lemma set_blocks_id m : set_blocks (md_blocks m) m = m.
Proof. by destruct m. Qed.

Lemma set_block_same T f t n b f' t' n' : T f t n = Some b -> set_block T f t n (Some b) f' t' n' = T f' t' n'.
Proof. intros E. unfold set_block. case_decide as H; [|done]. by destruct H as (-> & -> & ->). Qed.

(** A round leaves block [n] with the same contents, in an index as good. *)
Lemma deduplicate_block_run st T f t n h m b :
  fs_inv cfg st T -> M_bitmap ∉ held st -> not_base f t -> D_blocks f t ∈ dirs st -> index_ok h st T -> no_collision st ->
  md_blocks m !! Z.to_nat n = Some b -> T f t n = Some b ->
  exists st' h' b', deduplicate_block cfg f t n h m st = Some ((0, h', set_blocks (<[Z.to_nat n := b']> (md_blocks m)) m), st') /\
    0 <= b' < total /\ block_content st b' = block_content st b /\
    fs_inv cfg st' (set_block T f t n (Some b')) /\ same_files st st' /\ index_ok h' st' (set_block T f t n (Some b')).
Proof.
  intros Hi Hm Hb Hd Hx Hc Eb ET. pose proof (i_range _ _ _ _ Hi _ _ _ _ ET) as Hr.
  destruct (i_phys _ _ _ _ Hi b Hr) as (bs & Ebs & Els). destruct (phys_ino cfg _ _ _ _ Hi Hr) as (i & Ei).
  assert (Ebc : block_content st b = bs) by (unfold block_content; by rewrite Ebs).
  unfold deduplicate_block, read_block_content. rewrite Eb. unfold mbind, st_bind. rewrite read_file_run by apply Hi.
  rewrite (file_at_shared st (P_logical f t n) (block_path b)) by (rewrite (logical_link _ _ _ _ _ _ _ _ _ Hi ET Ei); done).
  rewrite Ebs. unfold mret, st_ret.
  assert (Him : block_image cfg bs = bs) by (unfold block_image; rewrite take_ge, Els, Nat.sub_diag by lia; apply app_nil_r).
  rewrite Him. assert (Hid : set_blocks (<[Z.to_nat n:=b]> (md_blocks m)) m = m) by (rewrite list_insert_id by done; apply set_blocks_id).
  destruct (config_get h (crypto_md5 bs)) as [v|] eqn:Eh.
  2:{ eexists st, _, b. split; [rewrite Hid; done|]. split; [done|]. split; [done|].
      split; [apply (fs_inv_ext _ _ T); [by intros; apply set_block_same|done]|]. split; [apply same_files_refl|].
      apply (index_ok_ext _ st st T); [done|by intros; apply set_block_same|]. destruct Hx as [X1 X2]. split.
      - apply plain_set; [done|apply md5_word|apply block_name_word; lia].
      - intros k v. rewrite config_get_set. destruct (String.eqb_spec k (crypto_md5 bs)) as [->|]; [|apply X2].
        intros [= <-]. exists b. rewrite Ebc. split_and!; [done|by exists f, t, n|done]. }
  destruct (x_blocks _ _ _ Hx _ _ Eh) as (b' & -> & Hu & Ek).
  assert (Hr' : 0 <= b' < total) by (destruct Hu as (? & ? & ? & Hu); by apply (i_range _ _ _ _ Hi _ _ _ _ Hu)).
  assert (Hcont : block_content st b' = block_content st b) by (apply Hc; [done..|]; by rewrite Ebc).
  destruct (String.eqb_spec (block_name b') (block_name b)) as [En|En].
  { eexists st, h, b. split; [rewrite Hid; done|]. split; [done|]. split; [done|].
    split; [apply (fs_inv_ext _ _ T); [by intros; apply set_block_same|done]|]. split; [apply same_files_refl|].
    apply (index_ok_ext _ st st T); [done|by intros; apply set_block_same|done]. }
  assert (Hne : b' <> b) by congruence. set (T' := set_block T f t n (Some b')).
  destruct (update_link_run st T f t n b b') as (st1 & E1 & H1 & Hs1); [done..|]. rewrite E1. cbn [Z.ltb Z.compare].
  rewrite block_number by (destruct Hcfg; lia). rewrite (proj2 (Z.ltb_ge b' 0)) by lia.
  assert (HT' : forall j, j <> b -> used T j <-> used T' j).
  { intros j Hj. pose proof (used_unset T f t n b j ET) as Hun. pose proof (used_set (set_block T f t n None) f t n b' j (set_block_eq _ _ _ _ _)) as Hse.
    rewrite (used_ext (set_block (set_block T f t n None) f t n (Some b')) T' j) by (intros; unfold T', set_block; by case_decide).
    rewrite Hse, Hun. split; [intros [?|?]; [by left|done]|]. intros [?| ->]; [by left|]. by apply Hun. }
  destruct (free_unused_run st1 T' (used T) b) as (st2 & E2 & H2 & Hs2); [done|by rewrite (f_held _ _ Hs1)|done|by exists f, t, n|done|].
  rewrite E2. exists st2, h, b'. split; [done|]. pose proof (same_files_trans _ _ _ Hs1 Hs2) as Hs. do 4 (split; [done|]).
  destruct Hx as [X1 X2]. split; [done|]. intros k v E. destruct (X2 k v E) as (b2 & -> & Hu2 & Ek2).
  exists b2. rewrite (f_content _ _ Hs). split; [done|]. split; [|done]. apply HT'; [|done]. intros ->. apply En.
  rewrite Ebc in Ek2. rewrite Ek2 in Eh. congruence.
Qed.

(** ** The loop *)

Lemma retab_set T f t bl n b f' t' n' :
  0 <= n -> (Z.to_nat n < length bl)%nat ->
  retab T f t (<[Z.to_nat n := b]> bl) f' t' n' = set_block (retab T f t bl) f t n (Some b) f' t' n'.
Proof.
  intros Hn Hl. unfold retab, set_block. destruct (decide ((f', t') = (f, t))) as [[= -> ->]|Hne]; [|by rewrite decide_False by naive_solver].
  destruct (decide (n' = n)) as [->|Hne].
  - rewrite !decide_True by done. by rewrite list_lookup_insert_eq.
  - rewrite (decide_False (P := _ /\ _)) by naive_solver. case_decide; [|done]. rewrite list_lookup_insert_ne; [done|]. lia.
Qed.

Lemma contents_set st n b b' (bl : list Z) :
  bl !! n = Some b -> block_content st b' = block_content st b ->
  block_content st <$> <[n := b']> bl = block_content st <$> bl.
Proof.
  intros Hb Hc. rewrite list_fmap_insert, Hc. apply list_insert_id. by rewrite list_lookup_fmap, Hb.
Qed.

Lemma deduplicate_loop_run count st T f t n h m :
  fs_inv cfg st (retab T f t (md_blocks m)) -> M_bitmap ∉ held st -> not_base f t -> D_blocks f t ∈ dirs st ->
  index_ok h st (retab T f t (md_blocks m)) -> no_collision st -> 0 <= n -> n + Z.of_nat count = Z.of_nat (length (md_blocks m)) ->
  exists st' h' bl, deduplicate_loop cfg f t n count h m st = Some ((0, h', set_blocks bl m), st') /\
    block_content st <$> bl = block_content st <$> md_blocks m /\
    fs_inv cfg st' (retab T f t bl) /\ same_files st st' /\ index_ok h' st' (retab T f t bl).
Proof.
  revert st n h m. induction count as [|count IH]; intros st n h m Hi Hm Hb Hd Hx Hc Hn Hl.
  { exists st, h, (md_blocks m). cbn [deduplicate_loop]. rewrite set_blocks_id. by split_and!; try apply same_files_refl. }
  destruct (lookup_lt_is_Some_2 (md_blocks m) (Z.to_nat n)) as [b Eb]; [lia|].
  destruct (deduplicate_block_run st (retab T f t (md_blocks m)) f t n h m b) as (st1 & h1 & b' & E1 & Hr & Hcb & H1 & Hs1 & Hx1);
    [done..| |].
  { unfold retab. by rewrite !decide_True. }
  set (m1 := set_blocks (<[Z.to_nat n:=b']> (md_blocks m)) m) in *.
  assert (HT : forall f' t' n', retab T f t (md_blocks m1) f' t' n' = set_block (retab T f t (md_blocks m)) f t n (Some b') f' t' n').
  { intros. apply retab_set; [done|]. by apply lookup_lt_Some in Eb. }
  destruct (IH st1 (n + 1) h1 m1) as (st' & h' & bl & E' & Hcl & H' & Hs' & Hx').
  - by apply (fs_inv_ext _ _ _ _ HT).
  - by rewrite (f_held _ _ Hs1).
  - done.
  - by rewrite (f_dirs _ _ Hs1).
  - by apply (index_ok_ext _ st1 st1 (set_block (retab T f t (md_blocks m)) f t n (Some b'))).
  - by eapply no_collision_same.
  - lia.
  - cbn [md_blocks m1 set_blocks]. rewrite length_insert. lia.
  - exists st', h', bl. cbn [deduplicate_loop]. unfold mbind, st_bind. rewrite E1. cbn [Z.ltb Z.compare]. rewrite E'.
    split; [done|]. split; [|split; [done|split; [by eapply same_files_trans|done]]].
    assert (Hsame : forall l, block_content st1 <$> l = block_content st <$> l) by (intros l; apply list_fmap_ext; intros; apply (f_content _ _ Hs1)).
    rewrite !Hsame in Hcl. rewrite Hcl. by apply (contents_set _ _ b).
Qed.

(** The index in the file. *)
Definition index_of (st : storage) : t_config := config_parse (default [] (file_at st P_hash_index)).

Definition accurate (st : storage) : Prop := index_ok (index_of st) st (table st).

Lemma index_ok_saved h st T : index_ok h st T -> index_ok (config_parse (config_text h)) st T.
Proof.
  intros [X1 X2]. split; [intros k v; rewrite config_saved by done; apply X1|]. intros k v. rewrite config_saved by done. apply X2.
Qed.

Lemma fs_at_held st T U h : fs_at cfg st T U -> fs_at cfg (on_held h st) T U.
Proof. intros [[Hs1 Hs2] Hd Hp Hi Hl Hr Hb Hh HB Hz]. by split. Qed.

Lemma fs_at_rewrites_index st st' T U : fs_at cfg st T U -> rewrites (fun q => q = P_hash_index) st st' -> fs_at cfg st' T U.
Proof.
  intros [Hs Hd Hp Hi Hl Hr Hb Hh HB Hz] [El Ed Eh Ew Ef Hs']. split; rewrite ?El, ?Ed, ?Ef by done; try done; [by apply Hs'| |].
  - intros b Hb0. rewrite Ef by done. by apply Hp.
  - unfold block_content. by rewrite Ef.
Qed.

Lemma table_retab st f t m : meta st f t = Some m -> forall f' t' n, retab (table st) f t (md_blocks m) f' t' n = table st f' t' n.
Proof. intros Em f' t' n. unfold retab. case_decide; [|done]. simplify_eq. unfold table. by rewrite Em. Qed.

Lemma deduplicate_blocks_run st f t m :
  wf st -> meta st f t = Some m -> not_base f t -> accurate st -> no_collision st ->
  exists st' bl, deduplicate_blocks cfg f t m st = Some ((0, set_blocks bl m), st') /\
    block_content st <$> bl = block_content st <$> md_blocks m /\
    fs_inv cfg st' (retab (table st) f t bl) /\ same_files st st' /\ index_ok (index_of st') st' (retab (table st) f t bl).
Proof.
  intros Hwf Em Hb Hx Hc. pose proof (w_inv _ _ Hwf) as Hi. pose proof (table_retab st f t m Em) as HT.
  unfold deduplicate_blocks. destruct (Z.eqb_spec (block_count m) 0) as [E0|E0].
  { exists st, (md_blocks m). rewrite set_blocks_id. split; [done|]. split; [done|]. split; [by apply (fs_inv_ext _ _ _ _ HT)|].
    split; [apply same_files_refl|]. by apply (index_ok_ext _ st st (table st)). }
  destruct (i_hash _ _ _ _ Hi) as [ih Eih]. pose proof (i_sound _ _ _ _ Hi) as Hs0.
  destruct (sound_file_at _ P_hash_index Hs0) as [text Et]; [by eexists|].
  set (st0 := on_held (cons M_hash_index) st). assert (H0 : fs_inv cfg st0 (retab (table st) f t (md_blocks m))).
  { apply fs_at_held. by apply (fs_inv_ext _ _ _ _ HT). }
  destruct (deduplicate_loop_run (length (md_blocks m)) st0 (table st) f t 0 (config_parse text) m)
    as (st1 & h1 & bl & E1 & Hcb & H1 & Hs1 & Hx1); [done| |done| | |exact Hc|done|done|].
  { cbn. rewrite (w_held _ _ Hwf). set_solver. }
  { apply (m_blocks _ (w_meta _ _ Hwf)). eauto. }
  { apply (index_ok_ext _ st st0 (table st)); [done|done|]. unfold accurate, index_of in Hx. by rewrite Et in Hx. }
  pose proof (i_sound _ _ _ _ H1) as Hsd1.
  destruct (write_file_run st1 P_hash_index (config_text h1)) as (st2 & E2 & Hr2 & Ef2); [done|by intros []|apply (i_hash _ _ _ _ H1)|].
  destruct (unlock_run M_hash_index st2 []) as (st3 & E3 & ->); [rewrite (r_held _ _ _ Hr2), (f_held _ _ Hs1); cbn; by rewrite (w_held _ _ Hwf)|by apply not_elem_of_nil|].
  set (st3 := on_held (fun _ => []) st2) in *. assert (Hc3 : forall b, block_content st3 b = block_content st1 b).
  { intros b. unfold block_content. by rewrite <- (r_files _ _ _ Hr2 (block_path b)). }
  assert (H3 : fs_inv cfg st3 (retab (table st) f t bl)) by (apply fs_at_held; by eapply fs_at_rewrites_index).
  exists st3, bl. split; [|split; [done|split; [exact H3|split]]].
  - unfold mbind, st_bind. rewrite lock_run by (rewrite (w_held _ _ Hwf); apply not_elem_of_nil). fold st0.
    unfold config_create, mbind, st_bind. rewrite read_file_run by apply H0.
    change (file_at st0 P_hash_index) with (file_at st P_hash_index). rewrite Et. cbn [fmap option_fmap option_map mret].
    unfold mret, st_ret. rewrite E1. cbn [Z.ltb Z.compare]. by rewrite E2, E3.
  - destruct Hs1 as [S1 S2 S3 S4 S5], Hr2 as [R1 R2 R3 R4 R5 R6]. split.
    + intros f' t'. change (file_at st2 (P_metadata f' t') = file_at st (P_metadata f' t')). rewrite R5 by done. apply S1.
    + intros f' t'. cbn. rewrite R1. apply S2.
    + cbn. rewrite R2. apply S3.
    + by rewrite (w_held _ _ Hwf).
    + intros b. rewrite Hc3. apply S5.
  - unfold index_of. change (file_at st3 P_hash_index) with (file_at st2 P_hash_index). rewrite Ef2. cbn [default from_option].
    apply index_ok_saved. by apply (index_ok_ext _ st1 st3 (retab (table st) f t bl)).
Qed.

(** ** The commit *)

Lemma commit_run st f t :
  wf st -> accurate st -> no_collision st ->
  exists r st', execute_tag_commit cfg f t st = Some (r, st') /\ wf st' /\ accurate st' /\
    (forall b, block_content st' b = block_content st b) /\
    forall A, represents st A -> fst (spec_commit f t A) = r /\ represents st' (snd (spec_commit f t A)).
Proof.
  intros Hwf Hx Hc. unfold execute_tag_commit, file_dir_exists. unfold mbind at 1, st_bind at 1. rewrite (dir_exists_run cfg) by done.
  assert (HA : forall A, represents st A -> a_files A f t = file_of st <$> meta st f t) by (intros A [HA _]; apply HA).
  destruct (meta st f t) as [m|] eqn:Em.
  2:{ rewrite bool_decide_eq_false_2 by (by intros []). eexists _, st. split; [reflexivity|]. do 3 (split; [done|]). intros A Hr.
      unfold spec_commit. by rewrite (HA A Hr). }
  rewrite bool_decide_eq_true_2 by eauto. cbn [negb]. unfold mbind at 1, st_bind at 1. rewrite (read_metadata_run cfg), Em by done.
  destruct (String.eqb (md_state m) COMMITTED) eqn:Ec.
  { eexists _, st. split; [reflexivity|]. do 3 (split; [done|]). intros A Hr. unfold spec_commit. rewrite (HA A Hr). cbn. by rewrite Ec. }
  assert (Hb : not_base f t).
  { intros [= -> ->]. destruct (m_base _ (w_meta _ _ Hwf)) as (m0 & E0 & E1). simplify_eq. by rewrite E1 in Ec. }
  destruct (deduplicate_blocks_run st f t m) as (st1 & bl & E1 & Hcb & H1 & Hs1 & Hx1); [done..|].
  set (m2 := set_state COMMITTED (set_blocks bl m)).
  assert (Hok : metadata_ok m2).
  { destruct (m_ok _ (w_meta _ _ Hwf) _ _ _ Em) as [O1 O2 O3 O4]. split; [done| |done|done].
    apply Forall_lookup. intros k b Hk. cbn in Hk.
    assert (Ht : retab (table st) f t bl f t (Z.of_nat k) = Some b) by (unfold retab; rewrite !decide_True by (done || lia); by rewrite Nat2Z.id).
    pose proof (i_range _ _ _ _ H1 _ _ _ _ Ht). destruct Hcfg. lia. }
  destruct (retable_run cfg st st1 _ f t m m2 Hwf Em Hb Hs1 H1) as (st' & Es & Hwf' & Hd & Hfo & Hf & Hh & Hc' & HT');
    [done|done|done|].
  exists 0, st'. unfold mbind, st_bind. rewrite E1. cbn [Z.ltb Z.compare]. fold m2. rewrite Es. split; [done|]. split; [done|].
  split; [|split; [done|]].
  - unfold accurate, index_of. rewrite Hh. eapply (index_ok_ext _ st1 st'); [|exact HT'|exact Hx1].
    intros b. rewrite Hc'. symmetry. apply (f_content _ _ Hs1).
  - intros A Hr. unfold spec_commit. rewrite (HA A Hr). cbn. rewrite Ec. split; [done|]. destruct Hr as [R1 R2]. split.
    + intros f' t'. cbn. case_decide as E; [|rewrite R1; symmetry; by apply Hfo]. simplify_eq. rewrite Hf. unfold file_of. cbn.
      by rewrite Hcb.
    + intros f'. cbn. by rewrite R2, Hd.
Qed.

Lemma commit_refines st f t : wf st -> accurate st -> no_collision st -> refines (execute_tag_commit cfg f t) (spec_commit f t) st.
Proof.
  intros Hwf Hx Hc. destruct (commit_run st f t) as (r & st' & E & Hwf' & _ & _ & HA); [done..|]. by exists r, st'.
Qed.

End Commit.
