(* ===== verification/StorageInit.v ===== *)
(** * The Storage starts in a good state (fresh_start.c)

    [init_storage] leaves nothing but the superblock of what was there, and makes
    the bitmap, the empty index, the zeroed blocks and [initial_file:BASE]. *)

From S2P Require Import Prelude CStrings Config Serialization StorageFs StorageUtils StorageOps StorageServer StorageFsSpec.
From S2P Require Import StorageInvariant StorageBlocks StorageSteps StorageSpec StorageRefine StorageCommit.

(** ** States given by their files *)

(** The files of [st] are those of [F], each with an inode of its own. *)
Record holds (st : storage) (F : path -> option (list byte)) (ds : gset dir) : Prop := {
  h_sound : fs_sound st;
  h_inj p q i : links st !! p = Some i -> links st !! q = Some i -> p = q;
  h_files p : file_at st p = F p;
  h_dirs : dirs st = ds;
  h_held : held st = []
}.

Definition with_file (F : path -> option (list byte)) (p : path) (bs : list byte) : path -> option (list byte) :=
  fun q => if decide (q = p) then Some bs else F q.

Lemma holds_link st F ds p : holds st F ds -> links st !! p = None <-> F p = None.
Proof.
  intros H. rewrite <- (h_files _ _ _ H p). split; [unfold file_at; by intros ->|].
  destruct (links st !! p) as [i|] eqn:E; [|done]. destruct (sound_file_at st p (h_sound _ _ _ H)) as [bs Eb]; [eauto|congruence].
Qed.

Lemma write_new_run st F ds p bs :
  holds st F ds -> F p = None -> parent p ∈ ds ->
  exists st', write_file p bs st = Some (true, st') /\ holds st' (with_file F p bs) ds.
Proof.
  intros H Hp Hd. apply (holds_link _ _ _ _ H) in Hp. destruct H as [Hs Hi Hf <- Hh].
  destruct (create_file_run st p bs Hs Hp Hd) as (st' & E & El & Ed & Eh & _ & Ef & Hs' & Hn). exists st'. split; [done|].
  split; [done| | |done|congruence].
  - intros q q' i. rewrite El, !lookup_insert_Some. intros [[<- <-]|[Hq Eq]] [[<- E2]|[Hq' Eq']]; try done.
    + by destruct (Hn q').
    + subst i. by destruct (Hn q).
    + by eapply Hi.
  - intros q. rewrite Ef, Hf. done.
Qed.

(** The files after the loop that creates the blocks from [i] on. *)
Fixpoint with_blocks (F : path -> option (list byte)) (i : Z) (count : nat) (bs : list byte) : path -> option (list byte) :=
  match count with
  | O => F
  | S count => with_blocks (with_file F (block_path i) bs) (i + 1) count bs
  end.

Lemma with_blocks_other F i count bs p : (forall s, p <> P_physical s) -> with_blocks F i count bs p = F p.
Proof.
  intros Hp. revert F i. induction count as [|count IH]; intros F i; [done|]. cbn [with_blocks]. rewrite IH.
  unfold with_file. by rewrite decide_False by apply Hp.
Qed.

Lemma with_blocks_in F i count bs j :
  0 <= i -> i + Z.of_nat count < 2 ^ 31 -> i <= j < i + Z.of_nat count \/ 0 <= j < i /\ F (block_path j) = Some bs ->
  with_blocks F i count bs (block_path j) = Some bs.
Proof.
  revert F i. induction count as [|count IH]; intros F i Hi Hc Hj; cbn [with_blocks]; [destruct Hj as [?|[_ ?]]; [lia|done]|].
  apply IH; [lia|lia|]. destruct Hj as [Hj|[Hj HF]].
  - destruct (decide (j = i)) as [->|]; [|left; lia]. right. split; [lia|]. unfold with_file. by rewrite decide_True.
  - right. split; [lia|]. unfold with_file. case_decide; done.
Qed.

Section Init.
Context {CC : CommonsConfig} {CB : CommonsBitarray} {CY : CommonsCrypto}.
Context {CCS : CommonsConfigSpec CC} {CBS : CommonsBitarraySpec CB}.
Variable cfg : t_storage_config.
Context {Hcfg : cfg_ok cfg}.

Abbreviation bsize := (block_size cfg).
Abbreviation bytes := (bitmap_size_bytes cfg).
Abbreviation total := (blocks_total cfg).

Lemma create_blocks_run count st F ds i bs :
  holds st F ds -> D_physical ∈ ds -> 0 <= i -> i + Z.of_nat count < 2 ^ 31 ->
  (forall j, i <= j < 2 ^ 31 -> F (block_path j) = None) ->
  exists st', create_blocks i count bs st = Some (true, st') /\ holds st' (with_blocks F i count bs) ds.
Proof.
  revert st F i. induction count as [|count IH]; intros st F i H Hd Hi Hc HF; [by exists st|].
  destruct (write_new_run st F ds (P_physical (block_name i)) bs H) as (st1 & E1 & H1); [apply HF; lia|done|].
  destruct (IH st1 (with_file F (block_path i) bs) (i + 1) H1) as (st' & E' & H'); [done|lia|lia| |].
  { intros j Hj. unfold with_file. rewrite decide_False; [apply HF; lia|]. intros E. apply block_path_inj in E; lia. }
  exists st'. split; [|done]. cbn [create_blocks]. unfold mbind, st_bind. by rewrite E1.
Qed.

(** ** Up to the blocks *)

Definition blank_files (superblock : option (list byte)) : path -> option (list byte) :=
  fun p => if decide (p = P_superblock) then superblock else None.

Lemma wipe_run st :
  fs_sound st -> D_root ∈ dirs st -> held st = [] ->
  exists st', wipe_storage_content st = Some (0, st') /\ holds st' (blank_files (file_at st P_superblock)) {[D_root]}.
Proof.
  intros [Hs1 Hs2] Hd Hh. unfold wipe_storage_content, mbind, st_bind, dir_exists. rewrite bool_decide_eq_true_2 by done. cbn [negb].
  unfold wipe. eexists. split; [reflexivity|].
  assert (Hl : forall p i, base.filter (fun kv : path * ino => kv.1 = P_superblock) (links st) !! p = Some i <-> links st !! p = Some i /\ p = P_superblock).
  { intros p i. by rewrite map_lookup_filter_Some. }
  split; try done.
  - split.
    + intros p i [Hp _]%Hl. by apply (Hs1 p).
    + intros p q i [_ ->]%Hl [_ ->]%Hl. done.
  - intros p q i [_ ->]%Hl [_ ->]%Hl. done.
  - intros p. unfold blank_files, file_at. cbn. case_decide as E.
    + subst p. destruct (links st !! P_superblock) as [i|] eqn:Ep; [by rewrite (proj2 (Hl P_superblock i))|].
      by rewrite (proj2 (map_lookup_filter_None _ _ _)); [|left].
    + by rewrite (proj2 (map_lookup_filter_None _ _ _)); [|right; intros].
Qed.

(** The bitmap with block zero in use. *)
Definition first_bitmap : list byte := bitarray_set_bit (replicate (Z.to_nat bytes) x00) 0.

Lemma init_bitmap_run st F ds :
  holds st F ds -> D_root ∈ ds -> F P_bitmap = None ->
  exists st', init_bitmap (fs_size cfg) bsize st = Some (0, st') /\ holds st' (with_file F P_bitmap first_bitmap) ds.
Proof.
  intros H Hd HF. destruct (cfg_bits cfg _) as [Hb _]. destruct Hcfg as [Hbs _ Hby].
  destruct (write_new_run st F ds P_bitmap first_bitmap H HF Hd) as (st' & E & H'). exists st'. split; [|done].
  unfold init_bitmap, mbind, st_bind, dir_exists. rewrite (h_dirs _ _ _ H), bool_decide_eq_true_2 by done. cbn [negb].
  rewrite (proj2 (Z.eqb_neq bsize 0)) by lia. fold (blocks_total cfg). rewrite <- Hby. unfold set_bit_at.
  rewrite length_replicate, (proj2 (Z.ltb_lt 0 _)) by lia. cbn [Z.leb Z.compare andb]. unfold mret, st_ret. fold first_bitmap.
  by rewrite E.
Qed.

(** All files but those of [initial_file:BASE]. *)
Definition disk_files (superblock : option (list byte)) : path -> option (list byte) :=
  with_blocks (with_file (with_file (blank_files superblock) P_bitmap first_bitmap) P_hash_index [])
    0 (Z.to_nat total) (replicate (Z.to_nat bsize) x00).

Lemma init_disk_run st :
  fs_sound st -> D_root ∈ dirs st -> held st = [] ->
  exists st', (r ← wipe_storage_content;
               if negb (r =? 0) then mret (-2) else
               r ← init_bitmap (fs_size cfg) bsize;
               if negb (r =? 0) then mret (-3) else
               r ← init_blocks_index;
               if negb (r =? 0) then mret (-4) else
               r ← init_physical_blocks (fs_size cfg) bsize;
               mret (if negb (r =? 0) then -5 else 0)) st = Some (0, st') /\
    holds st' (disk_files (file_at st P_superblock)) {[D_physical; D_root]}.
Proof.
  intros Hs Hd Hh. destruct (wipe_run st Hs Hd Hh) as (st1 & E1 & H1).
  destruct (init_bitmap_run st1 _ _ H1) as (st2 & E2 & H2); [by apply elem_of_singleton|done|].
  destruct (write_new_run st2 _ _ P_hash_index [] H2) as (st3 & E3 & H3); [done|by apply elem_of_singleton|].
  set (st4 := on_dirs (fun ds => list_to_set (ancestors D_physical) ∪ ds) st3).
  set (F := with_file (with_file (blank_files (file_at st P_superblock)) P_bitmap first_bitmap) P_hash_index []) in *.
  assert (H4 : holds st4 F {[D_physical; D_root]}).
  { destruct H3 as [[Hs1 Hs2] Hi Hf Hd3 Hh3]. split; try done. cbn. rewrite Hd3. set_solver. }
  destruct Hcfg as [Hbs Htot _].
  destruct (create_blocks_run (Z.to_nat total) st4 F _ 0 (replicate (Z.to_nat bsize) x00) H4) as (st' & E' & H');
    [by apply elem_of_union_l, elem_of_singleton|lia|lia|done|].
  exists st'. split; [|done]. unfold mbind, st_bind. rewrite E1. cbn [negb Z.eqb]. rewrite E2. cbn [negb Z.eqb].
  unfold init_blocks_index, mbind, st_bind. rewrite E3. unfold mret, st_ret. cbn [negb Z.eqb].
  unfold init_physical_blocks, create_dir_recursive, mkdir_p, mbind, st_bind. cbn [negb Z.eqb]. unfold mret, st_ret. cbn [negb Z.eqb].
  rewrite (proj2 (Z.eqb_neq bsize 0)) by lia. fold (blocks_total cfg). fold st4. by rewrite E'.
Qed.

(** ** The initial file *)

Definition base_table : Table := fun f t n => if decide (f = "initial_file" /\ t = "BASE" /\ n = 0)%string then Some 0 else None.

Lemma used_base b : used base_table b <-> b = 0.
Proof.
  split; [intros (f & t & n & E); unfold base_table in E; case_decide; congruence|]. intros ->.
  exists "initial_file"%string, "BASE"%string, 0. done.
Qed.

(** The disk with its first link. *)
Lemma linked_disk st s ds i :
  holds st (disk_files s) ds -> D_root ∈ ds /\ D_physical ∈ ds -> links st !! block_path 0 = Some i ->
  fs_inv cfg (on_links <[P_logical "initial_file" "BASE" 0 := i]> st) base_table.
Proof.
  intros H Hd Ei. pose proof H as [Hs Hi Hf Hds Hh]. set (st' := on_links _ st). destruct (cfg_bits cfg _) as [Hby Hbb].
  assert (El : forall p, p <> P_logical "initial_file" "BASE" 0 -> links st' !! p = links st !! p) by (intros p Hp; by apply lookup_insert_ne, not_eq_sym).
  assert (Ef : forall p, p <> P_logical "initial_file" "BASE" 0 -> file_at st' p = disk_files s p).
  { intros p Hp. rewrite <- Hf. by apply relinks_file_at; [|apply El]. }
  assert (Hb : forall b, 0 <= b < total -> disk_files s (block_path b) = Some (replicate (Z.to_nat bsize) x00)).
  { intros b Hb. apply with_blocks_in; destruct Hcfg; [lia|lia|left; lia]. }
  assert (HN : forall f t n, links st !! P_logical f t n = None).
  { intros f t n. apply (holds_link _ _ _ _ H). unfold disk_files. by rewrite with_blocks_other. }
  split; rewrite ?Ef by done; try done.
  - apply (relinks_sound st); [done| |done]. intros p j Ej. destruct (decide (p = P_logical "initial_file" "BASE" 0)) as [->|Hp].
    + right. split; [done|]. exists (block_path 0). split; [done|]. unfold st' in Ej. cbn in Ej. rewrite lookup_insert_eq in Ej. by simplify_eq.
    + left. by rewrite <- El.
  - cbn. by rewrite Hds.
  - intros b Hb0. rewrite Ef by done. eexists. split; [by apply Hb|]. apply length_replicate.
  - intros a a' j. rewrite !El by done. intros E1 E2. by injection (Hi _ _ _ E1 E2).
  - intros f t n. unfold base_table. case_decide as E.
    + destruct E as (-> & -> & ->). unfold st'. cbn [mbind option_bind]. cbn [links on_links]. by rewrite lookup_insert_eq, lookup_insert_ne.
    + rewrite El by (intros [=]; naive_solver). by rewrite HN.
  - intros f t n b. unfold base_table. case_decide; [|done]. intros [= <-]. destruct Hcfg. lia.
  - exists first_bitmap. unfold disk_files. rewrite with_blocks_other by done. split; [done|].
    unfold first_bitmap. rewrite set_bit_length, length_replicate. split; [lia|]. intros b Hb8.
    rewrite test_set_bit, test_zero_bit, orb_false_r, used_base by (rewrite ?length_replicate; lia). by rewrite Z.eqb_eq.
  - rewrite El by done. destruct (links st !! P_hash_index) as [j|] eqn:E; [by eexists|]. apply (holds_link _ _ _ _ H) in E.
    unfold disk_files in E. by rewrite with_blocks_other in E.
  - unfold block_content. rewrite Ef by done. rewrite Hb by (destruct Hcfg; lia). done.
Qed.

Definition initial_map : astorage :=
  MkAStorage (fun f t => if is_base f t then Some (MkAFile 0 [zero_block cfg] COMMITTED) else None) (String.eqb "initial_file").

Lemma initial_metadata_of p :
  exists c, metadata_of p (config_parse initial_metadata) = Some (MkMetadata 0 [0] COMMITTED c p) /\ metadata_ok (MkMetadata 0 [0] COMMITTED c p).
Proof.
  apply (written_metadata p 0 [0] "[0]"); try done; [by repeat constructor|].
  change "[0]"%string with (get_stringified_array [print_int 0]). rewrite array_items; [done|]. repeat constructor. apply print_int_item.
Qed.

(** Only [initial_file:BASE] has metadata and directories. *)
Lemma base_only_wf st m :
  fs_inv cfg st base_table -> meta st "initial_file" "BASE" = Some m -> metadata_ok m ->
  md_size m = 0 -> md_blocks m = [0] -> md_state m = COMMITTED ->
  (forall f t, (f, t) <> ("initial_file", "BASE")%string -> links st !! P_metadata f t = None) ->
  (forall d, d ∈ dirs st <-> d = D_root \/ d = D_physical \/ d ∈ ancestors (D_blocks "initial_file" "BASE")) -> held st = [] ->
  fs_wf cfg st /\ represents st initial_map.
Proof.
  intros Hi Em Hok E1 E2 E3 Hno Hd Hh.
  assert (Em' : forall f t, (f, t) <> ("initial_file", "BASE")%string -> meta st f t = None) by (intros; unfold meta, file_at; by rewrite Hno).
  assert (Hall : forall f t, is_Some (meta st f t) <-> (f, t) = ("initial_file", "BASE")%string).
  { intros f t. destruct (decide ((f, t) = ("initial_file", "BASE")%string)) as [E|Hne]; [|rewrite Em' by done; split; [by intros []|done]].
    split; [done|]. intros _. injection E as -> ->. by eexists. }
  split; [split|]; [| |done|].
  - apply (fs_inv_ext _ _ base_table); [|done]. intros f t n. unfold table, base_table.
    destruct (decide ((f, t) = ("initial_file", "BASE")%string)) as [[= -> ->]|Hne]; [|by rewrite Em', decide_False by naive_solver].
    rewrite Em. cbn. rewrite E2. destruct (decide (n = 0)) as [->|Hn]; [done|]. rewrite (decide_False (P := _ /\ _)) by naive_solver.
    case_decide; [|done]. by destruct (Z.to_nat n) as [|k] eqn:En; [lia|].
  - split.
    + intros f t Hl. apply Hall. destruct (decide ((f, t) = ("initial_file", "BASE")%string)); [done|]. rewrite Hno in Hl by done. by destruct Hl.
    + intros f t m' E. assert ((f, t) = ("initial_file", "BASE")%string) as [= -> ->] by (apply Hall; eauto). by simplify_eq.
    + intros f t. rewrite Hall, Hd. cbn. rewrite !elem_of_cons, elem_of_nil. naive_solver.
    + intros f t. rewrite Hall, Hd. cbn. rewrite !elem_of_cons, elem_of_nil. naive_solver.
    + intros f t. rewrite !Hd. cbn. rewrite !elem_of_cons, elem_of_nil. naive_solver.
    + by exists m.
  - split.
    + intros f t. cbn. unfold files. destruct (is_base f t) eqn:Eb.
      * apply is_base_spec in Eb as [= -> ->]. rewrite Em. cbn. unfold file_of. rewrite E1, E2, E3. cbn. unfold zero_block.
        by rewrite (i_zero _ _ _ _ Hi).
      * rewrite Em'; [done|]. intros E. apply is_base_spec in E. congruence.
    + intros f. cbn -[String.eqb]. apply eq_bool_prop_intro. rewrite bool_decide_spec, Hd. cbn -[String.eqb].
      rewrite !elem_of_cons, elem_of_nil. destruct (String.eqb_spec "initial_file" f); cbn; naive_solver.
Qed.

Lemma first_link_run st s :
  holds st (disk_files s) {[D_physical; D_root]} ->
  exists st', (r ← create_file_dir_structure "initial_file" "BASE";
               if negb (r =? 0) then mret (-1) else
               r ← link (P_physical (block_name 0)) (P_logical "initial_file" "BASE" 0);
               mret (if negb (r =? 0) then -5 else 0)) st = Some (0, st') /\
    fs_inv cfg st' base_table /\ (forall f t, links st' !! P_metadata f t = None) /\ held st' = [] /\
    (forall d, d ∈ dirs st' <-> d = D_root \/ d = D_physical \/ d ∈ ancestors (D_blocks "initial_file" "BASE")) /\
    file_at st' P_hash_index = Some [] /\ file_at st' P_superblock = s.
Proof.
  intros H. set (st1 := on_dirs (fun ds => list_to_set (ancestors (D_blocks "initial_file" "BASE")) ∪ ds) st).
  assert (H1 : holds st1 (disk_files s) (dirs st1)) by (destruct H as [[Hs1 Hs2] Hi Hf Hd3 Hh3]; by split).
  assert (Hds : forall d, d ∈ dirs st1 <-> d = D_root \/ d = D_physical \/ d ∈ ancestors (D_blocks "initial_file" "BASE")).
  { intros d. cbn. rewrite (h_dirs _ _ _ H). set_solver. }
  assert (HF : forall p, (forall s, p <> P_physical s) -> disk_files s p = with_file (with_file (blank_files s) P_bitmap first_bitmap) P_hash_index [] p)
    by (intros p Hp; by apply with_blocks_other).
  destruct (links st1 !! block_path 0) as [i|] eqn:Ei.
  2:{ apply (holds_link _ _ _ _ H1) in Ei. unfold disk_files in Ei. rewrite with_blocks_in in Ei; [done|lia|destruct Hcfg; lia|left; destruct Hcfg; lia]. }
  exists (on_links <[P_logical "initial_file" "BASE" 0 := i]> st1). split; [|split; [|split; [|split; [|split; [done|]]]]].
  - unfold create_file_dir_structure, create_dir_recursive, mkdir_p, dir_exists, mbind, st_bind.
    rewrite bool_decide_eq_false_2 by (rewrite (h_dirs _ _ _ H); set_solver). cbn [negb Z.eqb]. unfold mret, st_ret. cbn [negb Z.eqb].
    fold st1. rewrite (link_run st1 _ _ i Ei); [done| |apply Hds; cbn; set_solver]. apply (holds_link _ _ _ _ H1). by rewrite HF.
  - apply (linked_disk st1 s (dirs st1)); [done|rewrite !Hds; naive_solver|done].
  - intros f t. cbn. rewrite lookup_insert_ne by done. apply (holds_link _ _ _ _ H1). by rewrite HF.
  - cbn. apply (h_held _ _ _ H).
  - split; (etransitivity; [apply (relinks_file_at st1); [done|by apply lookup_insert_ne]|]); rewrite (h_files _ _ _ H1), HF by done; done.
Qed.

Lemma init_files_run st s :
  holds st (disk_files s) {[D_physical; D_root]} ->
  exists st', init_files st = Some (0, st') /\ fs_wf cfg st' /\ represents st' initial_map /\
    file_at st' P_hash_index = Some [] /\ file_at st' P_superblock = s.
Proof.
  intros H. destruct (first_link_run st s H) as (st2 & E2 & H2 & Hml & Hh & Hd & Eh & Esb).
  destruct (initial_metadata_of (P_metadata "initial_file" "BASE")) as (c & Ec & Hok).
  destruct (create_file_run st2 (P_metadata "initial_file" "BASE") initial_metadata) as (st' & E' & El' & Ed' & Eh' & _ & Ef' & _);
    [apply H2|done|apply Hd; cbn; set_solver|].
  destruct (new_metadata_run cfg st2 base_table _ "initial_file" "BASE" initial_metadata _ H2 (Hml _ _)
    ltac:(apply Hd; cbn; set_solver) Ec Hok) as (st'' & E'' & H3 & [V1 V2 V3 V4 V5 V6 V8]).
  assert (st'' = st') as -> by congruence.
  destruct (base_only_wf st' _ H3 V1 Hok) as [Hwf Hr]; try done.
  - intros f t Hne. by rewrite V3.
  - by rewrite V5.
  - by rewrite V6.
  - exists st'. split; [|split; [done|split; [done|split; rewrite Ef', decide_False; done]]].
    unfold init_files. unfold mbind, st_bind in *. destruct (create_file_dir_structure _ _ st) as [[r1 s1]|]; [|done].
    destruct (negb (r1 =? 0)); [done|]. destruct (link _ _ s1) as [[r2 s2]|]; [|done]. unfold mret, st_ret in *.
    destruct (negb (r2 =? 0)); [done|]. injection E2 as ->. unfold create_metadata_file, mbind, st_bind. cbn [default from_option id].
    unfold id. by rewrite E'.
Qed.

Lemma init_storage_run st :
  fs_sound st -> D_root ∈ dirs st -> held st = [] ->
  exists st', init_storage cfg st = Some (0, st') /\ fs_wf cfg st' /\ represents st' initial_map /\ accurate st' /\
    file_at st' P_superblock = file_at st P_superblock.
Proof.
  intros Hs Hd Hh. destruct (init_disk_run st Hs Hd Hh) as (st1 & E1 & H1).
  destruct (init_files_run st1 _ H1) as (st' & E' & Hwf & Hr & Eh & Es). exists st'. split; [|split; [done|split; [done|split; [|done]]]].
  - unfold init_storage. unfold mbind, st_bind in *. unfold mret, st_ret in *.
    destruct (wipe_storage_content st) as [[r1 s1]|]; [|done]. destruct (negb (r1 =? 0)); [done|].
    destruct (init_bitmap _ _ s1) as [[r2 s2]|]; [|done]. destruct (negb (r2 =? 0)); [done|].
    destruct (init_blocks_index s2) as [[r3 s3]|]; [|done]. destruct (negb (r3 =? 0)); [done|].
    destruct (init_physical_blocks _ _ s3) as [[r4 s4]|]; [|done]. destruct (negb (r4 =? 0)); [done|].
    injection E1 as ->. by rewrite E'.
  - unfold accurate, index_of. rewrite Eh. cbn [default from_option]. unfold id. change [] with (config_lines []).
    assert (Hnone : forall k, config_get (config_parse (config_lines [])) k = None) by (intros k; by apply config_written; constructor).
    split; [intros k v|intros k v]; by rewrite Hnone.
Qed.

End Init.
