(* ===== verification/StorageDisk.v ===== *)
(** * A reference for the libraries of the Storage

    Instances of the classes through which the Storage knows the so-commons
    library: configurations as finite maps written as lines [key=value], bit
    arrays with the most significant bit first, and a digest that spells out the
    bytes.  They show that the contracts can be met and let the model run on a
    small disk: four blocks of four bytes, or eight. *)

From Stdlib Require Import Ascii.
From S2P Require Import Prelude CStrings Config Serialization StorageFs StorageUtils StorageOps StorageServer StorageFsSpec.
From S2P Require Import StorageInvariant StorageSpec StorageCommit StorageInit.

(** ** Configurations *)

(** [s] up to the first [stop], and what is after it. *)
Fixpoint cut_at (stop : ascii) (s : string) : option (string * string) :=
  match s with
  | EmptyString => None
  | String c s =>
      if Ascii.eqb c stop then Some (EmptyString, s)
      else match cut_at stop s with Some (w, rest) => Some (String c w, rest) | None => None end
  end.

Definition newline : ascii := ascii_of_nat 10.

Fixpoint parse_lines (fuel : nat) (s : string) : list (string * string) :=
  match fuel with
  | O => []
  | S fuel =>
      match cut_at "=" s with
      | None => []
      | Some (k, s) => match cut_at newline s with None => [] | Some (v, s) => (k, v) :: parse_lines fuel s end
      end
  end.

(** The items of an array, after its bracket; [acc] is the one being read. *)
Fixpoint items (acc s : string) : list string :=
  match s with
  | EmptyString => []
  | String c s =>
      if Ascii.eqb c "]" then (if String.eqb acc "" then [] else [acc])
      else if Ascii.eqb c "," then acc :: items EmptyString s
      else items (acc +:+ String c EmptyString) s
  end.

#[export] Instance disk_config : CommonsConfig := {|
  t_config := gmap string string;
  config_parse bs := let s := String.string_of_list_byte bs in list_to_map (parse_lines (String.length s) s);
  config_text c := config_lines (map_to_list c);
  config_get c k := c !! k;
  config_set_value c k v := <[k := v]> c;
  string_get_string_as_array s := match s with String _ s => items EmptyString s | EmptyString => [] end
|}.

Lemma string_app_assoc (a b c : string) : (a +:+ b) +:+ c = a +:+ (b +:+ c).
Proof.
  induction a as [|x a IH]; [done|]. change (String x ((a +:+ b) +:+ c) = String x (a +:+ (b +:+ c))). by rewrite IH.
Qed.

Lemma string_app_nil (a : string) : a +:+ EmptyString = a.
Proof. induction a as [|x a IH]; [done|]. change (String x (a +:+ EmptyString) = String x a). by rewrite IH. Qed.

Lemma cut_at_app stop w s :
  all_chars (fun c => negb (Ascii.eqb c stop)) w = true -> cut_at stop (w +:+ String stop s) = Some (w, s).
Proof.
  induction w as [|c w IH]; [intros _; change (EmptyString +:+ String stop s) with (String stop s); cbn [cut_at]; by rewrite Ascii.eqb_refl|]. cbn [all_chars]. intros [Hc Hw]%andb_true_iff.
  change (String c w +:+ String stop s) with (String c (w +:+ String stop s)). cbn [cut_at].
  destruct (Ascii.eqb c stop); [done|]. by rewrite IH.
Qed.

Lemma safe_not c d : safe_char c = true -> safe_char d = false -> negb (Ascii.eqb c d) = true.
Proof. intros Hc Hd. destruct (Ascii.eqb_spec c d) as [->|]; [congruence|done]. Qed.

Lemma word_not d w : all_chars safe_char w = true -> safe_char d = false -> all_chars (fun c => negb (Ascii.eqb c d)) w = true.
Proof. intros Hw Hd. eapply all_chars_mono; [|exact Hw]. intros c Hc. by apply safe_not. Qed.

Definition line (kv : string * string) : string := (kv.1 +:+ "=" +:+ kv.2 +:+ String newline "")%string.

Definition text (kvs : list (string * string)) : string := String.concat "" (line <$> kvs).

Lemma text_cons kv kvs : text (kv :: kvs) = line kv +:+ text kvs.
Proof.
  unfold text. rewrite fmap_cons. destruct (line <$> kvs) as [|l ls]; [|done]. cbn [String.concat]. by rewrite string_app_nil.
Qed.

Lemma string_length_app (a b : string) : String.length (a +:+ b) = (String.length a + String.length b)%nat.
Proof.
  induction a as [|c a IH]; [done|]. change (S (String.length (a +:+ b)) = S (String.length a + String.length b)). by rewrite IH.
Qed.

Lemma text_length kvs : (length kvs <= String.length (text kvs))%nat.
Proof.
  induction kvs as [|kv kvs IH]; [done|]. rewrite text_cons, string_length_app. unfold line. rewrite !string_length_app. cbn [String.length length]. lia.
Qed.

Lemma parse_text fuel kvs :
  Forall (fun kv => config_word kv.1 /\ config_word kv.2) kvs -> (length kvs <= fuel)%nat -> parse_lines fuel (text kvs) = kvs.
Proof.
  intros H. revert fuel. induction H as [|[k v] kvs [[_ Hk] [_ Hv]] H IH]; intros fuel Hf; [by destruct fuel|].
  destruct fuel as [|fuel]; [cbn in Hf; lia|]. cbn [parse_lines]. rewrite text_cons. unfold line. cbn [fst snd] in *.
  rewrite !string_app_assoc. change ("=" +:+ (v +:+ (String newline "" +:+ text kvs)))%string with (String "=" (v +:+ String newline (text kvs))).
  rewrite (cut_at_app "=" k) by (by apply word_not). rewrite (cut_at_app newline v) by (by apply word_not).
  f_equal. apply IH. cbn in Hf. lia.
Qed.

Lemma text_bytes kvs : String.string_of_list_byte (config_lines kvs) = text kvs.
Proof.
  unfold config_lines, string_bytes. rewrite String.string_of_list_byte_of_string. unfold text. f_equal.
  apply list_fmap_ext. by intros i [k v] _.
Qed.

Lemma list_to_map_assoc kvs k : (list_to_map kvs : gmap string string) !! k = assoc k kvs.
Proof.
  induction kvs as [|[k' v] kvs IH]; [done|]. cbn [list_to_map assoc]. change (list_to_map ((k', v) :: kvs)) with (<[k' := v]> (list_to_map kvs : gmap string string)).
  destruct (String.eqb_spec k k') as [->|Hne]; [apply lookup_insert_eq|]. by rewrite lookup_insert_ne.
Qed.

Lemma parse_written kvs :
  Forall (fun kv => config_word kv.1 /\ config_word kv.2) kvs -> config_parse (config_lines kvs) = list_to_map kvs.
Proof. intros H. cbn. rewrite text_bytes. rewrite parse_text; [done|done|apply text_length]. Qed.

Lemma items_word acc w s : all_chars item_char w = true -> items acc (w +:+ s) = items (acc +:+ w) s.
Proof.
  revert acc. induction w as [|c w IH]; intros acc Hw.
  - by rewrite string_app_nil.
  - cbn [all_chars] in Hw. apply andb_true_iff in Hw as [Hc Hw]. change (String c w +:+ s)%string with (String c (w +:+ s)). cbn [items].
    unfold item_char in Hc. destruct (Ascii.eqb c "]"); [by rewrite andb_false_r in Hc|].
    destruct (Ascii.eqb c ","); [by rewrite !andb_false_r in Hc|]. rewrite IH by done. by rewrite string_app_assoc.
Qed.

Lemma items_joined s l : Forall array_item (s :: l) -> items EmptyString (String.concat "," (s :: l) +:+ "]") = s :: l.
Proof.
  revert s. induction l as [|s' l IH]; intros s [[Hs Hw] Hl]%Forall_cons.
  - cbn [String.concat]. rewrite items_word by done. cbn. by destruct s.
  - change (String.concat "," (s :: s' :: l)) with (s +:+ "," +:+ String.concat "," (s' :: l))%string.
    rewrite string_app_assoc, items_word by done.
    change (("," +:+ String.concat "," (s' :: l)) +:+ "]")%string with (String "," (String.concat "," (s' :: l) +:+ "]")).
    cbn [items]. change (Ascii.eqb "," "]") with false. change (Ascii.eqb "," ",") with true. cbn iota. by rewrite IH.
Qed.

#[export] Instance disk_config_spec : CommonsConfigSpec disk_config.
Proof.
  split.
  - intros c k v k'. cbn. destruct (String.eqb_spec k' k) as [->|Hne]; [apply lookup_insert_eq|]. by apply lookup_insert_ne.
  - intros c k Hc. cbn [config_text disk_config]. rewrite parse_written.
    + cbn. by rewrite list_to_map_to_list.
    + apply Forall_forall. intros [k' v] Hin%elem_of_map_to_list. exact (Hc k' v Hin).
  - intros kvs k _ H. rewrite parse_written by done. apply list_to_map_assoc.
  - intros [|s l] H; [done|]. cbn [string_get_string_as_array disk_config]. unfold get_stringified_array. by apply items_joined.
Qed.

(** ** Bit arrays *)

Definition byte_at (bm : list byte) (i : Z) : Z := Z_of_byte (default x00 (bm !! Z.to_nat (i / 8))).

(** [MSB_FIRST] *)
Definition bit_in_byte (i : Z) : Z := 7 - i mod 8.

Definition put_byte (bm : list byte) (i v : Z) : list byte := <[Z.to_nat (i / 8) := byte_of_Z v]> bm.

#[export] Instance disk_bitarray : CommonsBitarray := {|
  bitarray_test_bit bm i := Z.testbit (byte_at bm i) (bit_in_byte i);
  bitarray_set_bit bm i := put_byte bm i (Z.setbit (byte_at bm i) (bit_in_byte i));
  bitarray_clean_bit bm i := put_byte bm i (Z.clearbit (byte_at bm i) (bit_in_byte i))
|}.

Lemma bit_in_byte_bound i : 0 <= bit_in_byte i < 8.
Proof. unfold bit_in_byte. pose proof (Z.mod_pos_bound i 8). lia. Qed.

Lemma same_bit i j : i / 8 = j / 8 -> bit_in_byte i = bit_in_byte j -> i = j.
Proof. unfold bit_in_byte. intros E1 E2. pose proof (Z.div_mod i 8). pose proof (Z.div_mod j 8). lia. Qed.

(** A bit after its byte, or another, is written. *)
Lemma test_put bm i j v :
  0 <= i < 8 * Z.of_nat (length bm) -> 0 <= j ->
  Z.testbit (byte_at (put_byte bm i v) j) (bit_in_byte j) =
  if decide (i / 8 = j / 8) then Z.testbit v (bit_in_byte j) else Z.testbit (byte_at bm j) (bit_in_byte j).
Proof.
  intros Hi Hj. unfold byte_at, put_byte. pose proof (Z.div_pos i 8). pose proof (Z.div_pos j 8).
  assert (i / 8 < Z.of_nat (length bm)) by (apply Z.div_lt_upper_bound; lia). case_decide as E.
  - rewrite <- E, list_lookup_insert_eq by lia. cbn [default from_option]. unfold id. rewrite Z_of_byte_of_Z.
    change 256 with (2 ^ 8). apply Z.mod_pow2_bits_low. apply bit_in_byte_bound.
  - rewrite list_lookup_insert_ne; [done|]. lia.
Qed.

#[export] Instance disk_bitarray_spec : CommonsBitarraySpec disk_bitarray.
Proof.
  split.
  - intros bm i. apply length_insert.
  - intros bm i. apply length_insert.
  - intros bm i j Hi Hj. cbn [bitarray_test_bit bitarray_set_bit disk_bitarray]. rewrite test_put by lia. pose proof (bit_in_byte_bound i).
    case_decide as E.
    + rewrite Z.setbit_eqb by lia. unfold byte_at. rewrite E. f_equal.
      destruct (Z.eqb_spec (bit_in_byte i) (bit_in_byte j)), (Z.eqb_spec j i); subst; try done. by destruct n; apply same_bit.
    + destruct (Z.eqb_spec j i); [by subst|done].
  - intros bm i j Hi Hj. cbn [bitarray_test_bit bitarray_clean_bit disk_bitarray]. rewrite test_put by lia. pose proof (bit_in_byte_bound i).
    case_decide as E.
    + rewrite Z.clearbit_eqb by lia. unfold byte_at. rewrite E, andb_comm. f_equal. f_equal.
      destruct (Z.eqb_spec (bit_in_byte i) (bit_in_byte j)), (Z.eqb_spec j i); subst; try done. by destruct n; apply same_bit.
    + destruct (Z.eqb_spec j i); [by subst|done].
  - intros n j Hj. cbn [bitarray_test_bit disk_bitarray]. unfold byte_at. rewrite lookup_replicate_2; [apply Z.testbit_0_l|].
    assert (j / 8 < Z.of_nat n) by (apply Z.div_lt_upper_bound; lia). lia.
Qed.

(** ** Digests *)

(** The letters [a] to [p]. *)
Definition nibble (d : Z) : ascii := ascii_of_nat (97 + Z.to_nat d).

Fixpoint spell (bs : list byte) : string :=
  match bs with
  | [] => EmptyString
  | b :: bs => String (nibble (Z_of_byte b / 16)) (String (nibble (Z_of_byte b mod 16)) (spell bs))
  end.

#[export] Instance disk_crypto : CommonsCrypto := fun bs => String "x" (spell bs).

Lemma nibble_inj d d' : 0 <= d < 16 -> 0 <= d' < 16 -> nibble d = nibble d' -> d = d'.
Proof.
  intros Hd Hd' E. apply (f_equal nat_of_ascii) in E. unfold nibble in E. rewrite !nat_ascii_embedding in E by lia. lia.
Qed.

Lemma nibble_safe d : 0 <= d < 16 -> safe_char (nibble d) = true.
Proof.
  intros Hd. assert (H : Forall (fun d => safe_char (nibble d) = true) (Z.of_nat <$> seq 0 16)) by (vm_compute; repeat constructor).
  rewrite Forall_forall in H. apply H. apply list_elem_of_fmap. exists (Z.to_nat d). split; [lia|]. apply elem_of_seq. lia.
Qed.

Lemma nibbles b : 0 <= Z_of_byte b / 16 < 16 /\ 0 <= Z_of_byte b mod 16 < 16.
Proof.
  pose proof (Z_of_byte_bound b). split; [|apply Z.mod_pos_bound; lia].
  split; [apply Z.div_pos; lia|apply Z.div_lt_upper_bound; lia].
Qed.

#[export] Instance disk_crypto_spec : CommonsCryptoSpec disk_crypto.
Proof.
  intros bs. split; [done|]. unfold disk_crypto. cbn [all_chars]. apply andb_true_iff. split; [done|].
  induction bs as [|b bs IH]; [done|]. cbn [spell all_chars]. destruct (nibbles b). by rewrite !nibble_safe.
Qed.

Lemma digest_inj bs bs' : crypto_md5 bs = crypto_md5 bs' -> bs = bs'.
Proof.
  unfold crypto_md5, disk_crypto. intros [= E]. revert bs' E. induction bs as [|b bs IH]; intros [|b' bs'] E; try done.
  cbn [spell] in E. injection E as E1 E2 E. destruct (nibbles b), (nibbles b'). apply nibble_inj in E1, E2; [|done..]. f_equal; [|by apply IH].
  rewrite <- (byte_of_Z_of_byte b), <- (byte_of_Z_of_byte b'). f_equal. rewrite (Z.div_mod (Z_of_byte b) 16), (Z.div_mod (Z_of_byte b') 16); lia.
Qed.

(** ** Small disks *)

(** Blocks of four bytes: [n] of them. *)
Definition small (n : Z) : t_storage_config := MkStorageConfig (4 * n) 4 (Z.quot (n + 7) 8).

Lemma small_ok n : 0 < n < 2 ^ 20 -> cfg_ok (small n).
Proof.
  intros Hn. assert (E : blocks_total (small n) = n) by (unfold blocks_total; cbn; rewrite Z.mul_comm; apply Z.quot_mul; lia).
  split; rewrite ?E; cbn; lia.
Qed.

(** A mount point with a superblock, before the fresh start. *)
Definition disk_of (superblock : list byte) : storage :=
  MkStorage {[1%positive := superblock]} {[P_superblock := 1%positive]} {[D_root]} 2%positive [] 0.

Definition unformatted : storage := disk_of [].

(** The state after [m]. *)
Definition after {A} (m : SM A) (st : storage) : storage := match m st with Some (_, st) => st | None => st end.

Definition formatted (n : Z) : storage := after (init_storage (small n)) unformatted.

Lemma disk_of_sound superblock : fs_sound (disk_of superblock).
Proof.
  split.
  - intros p i. cbn. rewrite lookup_singleton_Some. intros [<- <-]. rewrite lookup_singleton_eq. split; [by eexists|lia].
  - intros p q i. cbn. rewrite !lookup_singleton_Some. intros [<- <-] [<- _]. done.
Qed.

Lemma unformatted_sound : fs_sound unformatted.
Proof. apply disk_of_sound. Qed.

Lemma formatted_ok n :
  0 < n < 2 ^ 20 ->
  fs_wf (small n) (formatted n) /\ represents (formatted n) (initial_map (small n)) /\ accurate (formatted n).
Proof.
  intros Hn. destruct (init_storage_run (small n) (Hcfg := small_ok n Hn) unformatted unformatted_sound) as (st' & E & H1 & H2 & H3 & _);
    [cbn; by apply elem_of_singleton|done|].
  unfold formatted, after. by rewrite E.
Qed.

Lemma no_collisions cfg st : no_collision cfg st.
Proof. intros b b' _ _. apply digest_inj. Qed.
