(* ===== verification/StorageProps.v ===== *)
(** * What the Storage guarantees (properties)

    The operations refine the map of files of StorageSpec.v, from the fresh start
    on; the bitmap is exact; writes and commits do not show where they should not;
    and what happens where the code falls short: a full disk, an index of digests
    that is out of date, a truncation of the initial file. *)

From S2P Require Import Prelude CStrings Config Serialization StorageFs StorageUtils StorageOps StorageServer StorageFsSpec.
From S2P Require Import StorageInvariant StorageBlocks StorageSteps StorageSpec StorageRefine StorageFork StorageCommit.
From S2P Require Import StorageInit StorageDisk.

(** ** Operations *)

Inductive sop :=
| S_create (f t : string)
| S_truncate (f t : string) (size : Z)
| S_fork (fs ts fd td : string)
| S_write (f t : string) (n : Z) (data : list byte)
| S_commit (f t : string)
| S_delete (f t : string).

Section Props.
Context {CC : CommonsConfig} {CB : CommonsBitarray} {CY : CommonsCrypto}.
Context {CCS : CommonsConfigSpec CC} {CBS : CommonsBitarraySpec CB} {CYS : CommonsCryptoSpec CY}.
Variable cfg : t_storage_config.
Context {Hcfg : cfg_ok cfg}.

Definition sop_run (op : sop) : SM Z :=
  match op with
  | S_create f t => _create_file f t
  | S_truncate f t size => truncate_file cfg f t size
  | S_fork fs ts fd td => create_tag fs ts fd td
  | S_write f t n data => execute_block_write cfg f t n data
  | S_commit f t => execute_tag_commit cfg f t
  | S_delete f t => delete_tag cfg f t
  end.

Definition sop_spec (op : sop) : astorage -> Z * astorage :=
  match op with
  | S_create f t => spec_create f t
  | S_truncate f t size => spec_truncate cfg f t size
  | S_fork fs ts fd td => spec_fork fs ts fd td
  | S_write f t n data => spec_write cfg f t n data
  | S_commit f t => spec_commit f t
  | S_delete f t => spec_delete f t
  end.

(** The initial file is not truncated and sizes are ints, a write has a block to
    spare, a commit finds an index that is up to date. *)
Definition sop_pre (op : sop) (st : storage) : Prop :=
  match op with
  | S_truncate f t size => (f, t) <> ("initial_file", "BASE")%string /\ - 2 ^ 31 <= size /\ size + block_size cfg - 1 <= INT_MAX
  | S_write f t n data => 0 <= n < 2 ^ 32 /\ room cfg st
  | S_commit f t => accurate st /\ no_collision cfg st
  | _ => True
  end.

(** A good state and what it stands for, from the fresh start on. *)
Inductive reached : storage -> astorage -> Prop :=
| reached_start st0 r st :
    fs_sound st0 -> D_root ∈ dirs st0 -> held st0 = [] -> init_storage cfg st0 = Some (r, st) -> reached st (initial_map cfg)
| reached_op st A op r st' :
    reached st A -> sop_pre op st -> sop_run op st = Some (r, st') -> reached st' (snd (sop_spec op A)).

(** What the files of a state are. *)
Definition map_of (st : storage) : astorage := MkAStorage (files st) (fun f => bool_decide (D_file f ∈ dirs st)).

Lemma represents_map st : represents st (map_of st).
Proof. by split. Qed.

Lemma sop_refines st op : fs_wf cfg st -> sop_pre op st -> refines cfg (sop_run op) (sop_spec op) st.
Proof.
  intros Hwf Hp. destruct op; cbn [sop_run sop_spec sop_pre] in *.
  - by apply create_refines.
  - destruct Hp as (? & ? & ?). by apply truncate_refines.
  - by apply fork_refines.
  - destruct Hp. by apply write_refines.
  - destruct Hp. by apply commit_refines.
  - by apply delete_refines.
Qed.

Lemma reached_good st A : reached st A -> fs_wf cfg st /\ represents st A.
Proof.
  induction 1 as [st0 r st Hs Hd Hh E|st A op r st' _ [Hwf Hr] Hp E].
  - destruct (init_storage_run cfg st0 Hs Hd Hh) as (st' & E' & Hwf & Hr & _). by simplify_eq.
  - destruct (sop_refines st op Hwf Hp) as (r' & st'' & E' & Hwf' & HA). simplify_eq. split; [done|]. by apply HA.
Qed.

(** ** Properties *)


(** C13: Every state the Storage gets to is good.  After a fresh start over whatever was
    on the disk, and any operations whose conditions hold, the blocks, links,
    bitmap and metadata fit together and stand for the map that the specification
    has computed step by step. *)
Theorem reached_sound st A : reached st A -> fs_wf cfg st /\ represents st A.
Proof. apply reached_good. Qed.


Lemma read_in st A f t n :
  fs_wf cfg st -> represents st A -> 0 <= n < 2 ^ 32 -> execute_block_read cfg f t n st = Some (spec_read f t n A, st).
Proof. intros Hwf HA Hn. destruct (block_read_run cfg st f t n Hwf Hn) as (r & E & H). by rewrite (H A HA). Qed.

(** Reads of the map after a write. *)
Lemma spec_write_reads A A' f t n data :
  0 <= n -> spec_write cfg f t n data A = (0, A') ->
  spec_read f t n A' = (0, block_image cfg data) /\
  forall f' t' n', 0 <= n' -> (f', t', n') <> (f, t, n) -> spec_read f' t' n' A' = spec_read f' t' n' A.
Proof.
  intros Hn. unfold spec_write. destruct (a_files A f t) as [a|] eqn:Ea; [|done]. destruct (String.eqb _ _); [done|].
  destruct (Z.leb_spec (Z.of_nat (length (a_blocks a))) (i32 n)) as [|Hi]; [done|].
  destruct (Z.leb_spec (Z.of_nat (length (a_blocks a))) n) as [|Hl]; [done|]. intros [= <-]. split.
  - unfold spec_read. cbn. rewrite decide_True by done. cbn. rewrite length_insert.
    destruct (Z.leb_spec (Z.of_nat (length (a_blocks a))) (i32 n)); [lia|]. by rewrite list_lookup_insert_eq by lia.
  - intros f' t' n' Hn' Hne. unfold spec_read. cbn. case_decide as E; [|done]. injection E as -> ->. rewrite Ea. cbn.
    rewrite length_insert. destruct (_ <=? i32 n'); [done|]. rewrite list_lookup_insert_ne; [done|]. intros E. apply Hne.
    f_equal. lia.
Qed.

(** C16: A write shows where it was made and nowhere else.  After a write that returns
    0, that block reads as the data padded with zeros, and every other block of
    every file:tag reads as before, also those that shared the physical block with
    the one that was written. *)
Theorem write_isolated st f t n data st' :
  fs_wf cfg st -> room cfg st -> 0 <= n < 2 ^ 32 -> execute_block_write cfg f t n data st = Some (0, st') ->
  execute_block_read cfg f t n st' = Some ((0, block_image cfg data), st') /\
  forall f' t' n', 0 <= n' < 2 ^ 32 -> (f', t', n') <> (f, t, n) ->
    fst <$> execute_block_read cfg f' t' n' st' = fst <$> execute_block_read cfg f' t' n' st.
Proof.
  intros Hwf Hroom Hn E. pose proof (represents_map st) as HA.
  destruct (write_refines cfg st f t n data Hwf Hroom Hn) as (r & s & E' & Hwf' & H). simplify_eq.
  destruct (H _ HA) as [Hc HA']. destruct (spec_write cfg f t n data (map_of st)) as [c A'] eqn:Es. cbn in Hc, HA'. subst c.
  destruct (spec_write_reads (map_of st) A' f t n data ltac:(lia) Es) as [H1 H2]. split.
  - by rewrite (read_in _ A'), H1.
  - intros f' t' n' Hn' Hne. rewrite (read_in _ A'), (read_in _ _ f' t' n' Hwf HA) by done. cbn. by rewrite H2 by (done || lia).
Qed.

Lemma spec_commit_reads A f t f' t' n : spec_read f' t' n (snd (spec_commit f t A)) = spec_read f' t' n A.
Proof.
  unfold spec_commit. destruct (a_files A f t) as [a|] eqn:Ea; [|done]. destruct (String.eqb _ _); [done|]. unfold spec_read. cbn.
  case_decide as E; [|done]. injection E as -> ->. by rewrite Ea.
Qed.

(** C26: Deduplication cannot be seen.  With an accurate index of digests and no two
    contents with the same digest, a commit moves the links of the file to the
    physical blocks of equal contents and frees what it left, and yet every block
    of every file:tag reads as before; the index stays accurate. *)
Theorem commit_invisible st f t :
  fs_wf cfg st -> accurate st -> no_collision cfg st ->
  exists r st', execute_tag_commit cfg f t st = Some (r, st') /\ fs_wf cfg st' /\ accurate st' /\
    forall f' t' n, 0 <= n < 2 ^ 32 -> fst <$> execute_block_read cfg f' t' n st' = fst <$> execute_block_read cfg f' t' n st.
Proof.
  intros Hwf Hx Hc. pose proof (represents_map st) as HA.
  destruct (commit_run cfg st f t Hwf Hx Hc) as (r & st' & E & Hwf' & Hx' & _ & H). exists r, st'. split; [done|]. split; [done|].
  split; [done|]. destruct (H _ HA) as [_ HA']. intros f' t' n Hn. rewrite (read_in _ _ f' t' n Hwf' HA'), (read_in _ _ f' t' n Hwf HA) by done.
  cbn. by rewrite spec_commit_reads.
Qed.

(** A bitmap without a free bit. *)
Lemma full_bitmap bm : (forall b, 0 <= b < 8 * Z.of_nat (length bm) -> bitarray_test_bit bm b = true) -> get_free_bit_index bm = -1.
Proof.
  intros H. unfold get_free_bit_index. destruct (free_bit_from_spec bm (8 * length bm) 0 ltac:(lia)) as [[E _]|(Hr & Hf & _)]; [done|].
  rewrite H in Hf by lia. done.
Qed.

(** A write to a full disk loses the block.  When the block is shared and every bit
    of the bitmap is set, the write returns NOT_ENOUGH_SPACE after it has removed
    the link of the logical block, which from then on cannot be read: the read
    fails with -1, although the metadata still have the block. *)
Theorem full_disk_loses_block st f t m n b bm data :
  fs_wf cfg st -> meta st f t = Some m -> md_state m <> COMMITTED -> 0 <= n < 2 ^ 31 ->
  md_blocks m !! Z.to_nat n = Some b -> (exists i, links st !! block_path b = Some i /\ 2 < nlink st i) ->
  file_at st P_bitmap = Some bm -> (forall b, 0 <= b < 8 * Z.of_nat (length bm) -> bitarray_test_bit bm b = true) ->
  exists st', execute_block_write cfg f t n data st = Some (NOT_ENOUGH_SPACE, st') /\ meta st' f t = Some m /\
    execute_block_read cfg f t n st' = Some ((-1, []), st').
Proof.
  intros Hwf Em Hst Hn Hb (i & Ei & Hi2) Ebm Hfull. pose proof (w_inv _ _ Hwf) as Hi. pose proof (i_sound _ _ _ _ Hi) as Hs.
  destruct (i_bitmap _ _ _ _ Hi) as (bm' & E' & El & _). simplify_eq.
  assert (Ht : table st f t n = Some b) by (rewrite (table_lookup _ _ _ m) by (done || lia); done).
  pose proof (logical_link _ _ _ _ _ _ _ _ _ Hi Ht Ei) as Elog. pose proof (lookup_lt_Some _ _ _ Hb) as Hlt.
  set (st1 := on_links (delete (P_logical f t n)) st).
  assert (Hi32 : i32 n = n) by (apply to_signed_id; lia).
  assert (Hd : forall st', dirs st' = dirs st -> dir_exists (D_tag f t) st' = Some (true, st')).
  { intros st' Ed. unfold dir_exists. rewrite Ed, bool_decide_eq_true_2; [done|]. apply (m_tag _ (w_meta _ _ Hwf)). eauto. }
  assert (Hbc : (block_count m <=? i32 n) = false) by (rewrite Hi32; unfold block_count; apply Z.leb_gt; lia).
  set (st' := on_held (fun _ => []) (on_held (cons M_bitmap) st1)).
  assert (Hs' : fs_sound st').
  { destruct Hs as [Hs1 Hs2]. split; cbn.
    - intros p j [_ Hp]%lookup_delete_Some. by eapply Hs1.
    - intros p q j [_ Hp]%lookup_delete_Some [_ Hq]%lookup_delete_Some. by eapply Hs2. }
  assert (Em' : meta st' f t = Some m) by (rewrite <- Em; unfold meta, file_at; cbn; by rewrite lookup_delete_ne).
  exists st'. split; [|split; [done|]].
  - unfold execute_block_write, file_dir_exists. unfold mbind, st_bind. rewrite Hd by done. cbn [negb].
    rewrite (read_metadata_run cfg), Em by done. destruct (String.eqb_spec (md_state m) COMMITTED); [done|]. rewrite Hbc.
    unfold ph_block_links, stat_nlink, mbind, st_bind. rewrite Elog. cbn [fmap option_fmap option_map mret]. unfold mret, st_ret. cbn [default from_option]. unfold id.
    destruct (Z.ltb_spec (nlink st i) 0); [lia|]. rewrite (proj2 (Z.ltb_lt 2 _)) by done.
    unfold own_block, mbind, st_bind. rewrite remove_run by eauto. cbn [negb Z.eqb]. fold st1.
    unfold reserve_block, bitmap_load, mbind, st_bind.
    assert (Eb1 : read_file P_bitmap st1 = Some (Some bm, st1)).
    { rewrite read_file_run; [|by destruct Hs' as [H1 H2]]. do 2 f_equal. rewrite <- Ebm. unfold file_at. cbn. by rewrite lookup_delete_ne. }
    rewrite Eb1. rewrite lock_run by (cbn; rewrite (w_held _ _ Hwf); apply not_elem_of_nil). rewrite fread_whole by done.
    unfold mret, st_ret. rewrite (full_bitmap bm Hfull). cbn [Z.ltb Z.compare].
    destruct (unlock_run M_bitmap (on_held (cons M_bitmap) st1) []) as (s & -> & ->); [cbn; by rewrite (w_held _ _ Hwf)|apply not_elem_of_nil|]. done.
  - unfold execute_block_read, file_dir_exists, mbind, st_bind. rewrite Hd by done. cbn [negb].
    rewrite read_file_metadata_run, Em', Hbc by done. unfold read_from_logical_block, mbind, st_bind. rewrite read_file_run by done.
    assert (E0 : file_at st' (P_logical f t n) = None) by (unfold file_at; cbn; by rewrite lookup_delete_eq). by rewrite E0.
Qed.

End Props.

(** ** Where the code falls short *)

Section Shortfalls.

(** A file of one block with the byte [c]. *)
Definition one_block (f : string) (c : byte) : SM Z :=
  _ ← _create_file f "T"; _ ← truncate_file (small 8) f "T" 4; execute_block_write (small 8) f "T" 0 [c].

(** [A:T] is committed and deleted, [B:T] takes over its physical block, and [C:T]
    has the contents that [A:T] had. *)
Definition stale_history : SM Z :=
  _ ← one_block "A" x41; _ ← execute_tag_commit (small 8) "A" "T"; _ ← delete_tag (small 8) "A" "T";
  _ ← one_block "B" x42; one_block "C" x41.

Definition stale_state : storage := after stale_history (formatted 8).

(** An index out of date corrupts a commit.  A deletion frees the blocks of a
    committed file and leaves their digests in the index; another file gets the
    block; the commit of a third, with the old contents, is then linked to that
    block and reads as the other file from then on.  The commit returns 0. *)
Theorem stale_index_corrupts :
  fst <$> execute_block_read (small 8) "C" "T" 0 stale_state = Some (0, [x41; x00; x00; x00]) /\
  fst <$> execute_tag_commit (small 8) "C" "T" stale_state = Some 0 /\
  fst <$> execute_block_read (small 8) "C" "T" 0 (after (execute_tag_commit (small 8) "C" "T") stale_state) =
    Some (0, [x42; x00; x00; x00]).
Proof. split_and!; vm_compute; reflexivity. Qed.

(** The initial file is truncated; a file of two blocks is made and the first is
    written. *)
Definition base_history : SM Z :=
  _ ← truncate_file (small 8) "initial_file" "BASE" 0;
  _ ← _create_file "X" "T"; _ ← truncate_file (small 8) "X" "T" 8; execute_block_write (small 8) "X" "T" 0 [x41].

(** The truncation of the initial file gives block zero away.  TRUNCATE checks
    neither the COMMITTED state nor the name: [initial_file:BASE] can lose its
    block, the block of zeros that all new blocks link to is marked free, and the
    first write to a new file takes it: its other blocks, never written, read as
    the data. *)
Theorem truncated_base_aliases :
  fst <$> truncate_file (small 8) "initial_file" "BASE" 0 (formatted 8) = Some 0 /\
  fst <$> base_history (formatted 8) = Some 0 /\
  fst <$> execute_block_read (small 8) "X" "T" 1 (after base_history (formatted 8)) = Some (0, [x41; x00; x00; x00]).
Proof. split_and!; vm_compute; reflexivity. Qed.

End Shortfalls.

(** ** Histories on the small disk *)

Section Witnesses.

Abbreviation cfg8 := (small 8).

#[local] Instance cfg8_ok : cfg_ok cfg8.
Proof. by apply small_ok. Qed.

(** The operation can be seen to satisfy its condition. *)
Definition allowed (op : sop) (st : storage) : bool :=
  match op with
  | S_truncate f t size => negb (is_base f t) && (- 2 ^ 31 <=? size) && (size + 4 - 1 <=? INT_MAX)
  | S_write f t n data =>
      (0 <=? n) && (n <? 2 ^ 32) &&
      existsb (fun b => negb (bitarray_test_bit (default [] (file_at st P_bitmap)) b)) (Z.of_nat <$> seq 0 8)
  | S_commit f t => false
  | _ => true
  end.

Lemma allowed_sound op st : fs_wf cfg8 st -> allowed op st = true -> sop_pre cfg8 op st.
Proof.
  intros Hwf. destruct op; cbn [allowed sop_pre]; try done.
  - rewrite !andb_true_iff, negb_true_iff, !Z.leb_le. intros [[Hb H1] H2]. split_and!; [|done|done].
    intros E. apply is_base_spec in E. congruence.
  - rewrite !andb_true_iff, Z.leb_le, Z.ltb_lt. intros [Hn (b & Hb & Hbit)%existsb_exists]. split; [done|].
    apply list_elem_of_In, list_elem_of_fmap in Hb as (k & -> & Hk%elem_of_seq). exists (Z.of_nat k).
    change (blocks_total cfg8) with 8. split; [lia|]. intros Hu.
    destruct (i_bitmap _ _ _ _ (w_inv _ _ Hwf)) as (bm & E & _ & Hbm). rewrite E in Hbit. cbn in Hbit.
    apply Hbm in Hu; [|change (8 * bitmap_size_bytes cfg8) with 8; lia]. cbn in Hu. by rewrite Hu in Hbit.
Qed.

Fixpoint history (ops : list sop) (st : storage) : storage :=
  match ops with [] => st | op :: ops => history ops (after (sop_run cfg8 op) st) end.

Fixpoint all_allowed (ops : list sop) (st : storage) : bool :=
  match ops with [] => true | op :: ops => allowed op st && all_allowed ops (after (sop_run cfg8 op) st) end.

Lemma reached_history ops st A : reached cfg8 st A -> all_allowed ops st = true -> exists A', reached cfg8 (history ops st) A'.
Proof.
  revert st A. induction ops as [|op ops IH]; intros st A H; [by exists A|]. cbn [all_allowed history].
  intros [Ha Hops]%andb_true_iff. pose proof (reached_good cfg8 st A H) as [Hwf _].
  pose proof (allowed_sound op st Hwf Ha) as Hp. destruct (sop_refines cfg8 st op Hwf Hp) as (r & st' & E & _).
  unfold after in *. rewrite E in *. eapply IH; [|exact Hops]. by eapply reached_op.
Qed.

Lemma reached_formatted : reached cfg8 (formatted 8) (initial_map cfg8).
Proof.
  apply (reached_start cfg8 unformatted 0); [apply unformatted_sound|cbn; by apply elem_of_singleton|done|].
  destruct (init_storage_run cfg8 unformatted unformatted_sound) as (st & E & _); [cbn; by apply elem_of_singleton|done|].
  unfold formatted, after. by rewrite E.
Qed.

Lemma history_good ops : all_allowed ops (formatted 8) = true -> fs_wf cfg8 (history ops (formatted 8)).
Proof. intros H. destruct (reached_history ops _ _ reached_formatted H) as (A & HA). by apply (reached_good cfg8 _ A). Qed.

(** A file of two blocks, both links to block zero. *)
Definition two_blocks : list sop := [S_create "A" "T"; S_truncate "A" "T" 8].

(** The same file with all eight blocks, seven of them its own. *)
Definition full_disk : list sop :=
  [S_create "A" "T"; S_truncate "A" "T" 32] ++ ((fun n => S_write "A" "T" (Z.of_nat n) [x41]) <$> seq 0 7).


Example reached_sound_witness : fs_wf cfg8 (formatted 8) /\ represents (formatted 8) (initial_map cfg8).
Proof. exact (reached_sound cfg8 (formatted 8) (initial_map cfg8) reached_formatted). Defined.


Lemma after_run {A} (m : SM A) st r : fst <$> m st = Some r -> m st = Some (r, after m st).
Proof. unfold after. destruct (m st) as [[r' st']|]; [|done]. by intros [= ->]. Qed.

Definition two_blocks_state : storage := history two_blocks (formatted 8).
Definition full_state : storage := history full_disk (formatted 8).

Lemma two_blocks_good : fs_wf cfg8 two_blocks_state.
Proof. apply history_good. vm_compute. reflexivity. Qed.

Lemma full_good : fs_wf cfg8 full_state.
Proof. apply history_good. vm_compute. reflexivity. Qed.

Example write_isolated_witness :
  let st' := after (execute_block_write cfg8 "A" "T" 0 [x41]) two_blocks_state in
  execute_block_read cfg8 "A" "T" 0 st' = Some ((0, block_image cfg8 [x41]), st') /\
  fst <$> execute_block_read cfg8 "A" "T" 1 st' = fst <$> execute_block_read cfg8 "A" "T" 1 two_blocks_state.
Proof.
  destruct (write_isolated cfg8 two_blocks_state "A" "T" 0 [x41] (after (execute_block_write cfg8 "A" "T" 0 [x41]) two_blocks_state)) as [H1 H2].
  - exact two_blocks_good.
  - refine (proj2 (allowed_sound (S_write "A" "T" 0 [x41]) two_blocks_state two_blocks_good _)). vm_compute. reflexivity.
  - lia.
  - apply after_run. vm_compute. reflexivity.
  - split; [exact H1|]. apply H2; [lia|discriminate].
Defined.

Example commit_invisible_witness :
  exists r st', execute_tag_commit cfg8 "initial_file" "BASE" (formatted 8) = Some (r, st') /\ fs_wf cfg8 st' /\ accurate st' /\
    forall f t n, 0 <= n < 2 ^ 32 ->
      fst <$> execute_block_read cfg8 f t n st' = fst <$> execute_block_read cfg8 f t n (formatted 8).
Proof.
  destruct (formatted_ok 8) as (Hwf & _ & Hx); [lia|].
  exact (commit_invisible cfg8 (formatted 8) "initial_file" "BASE" Hwf Hx (no_collisions cfg8 (formatted 8))).
Defined.

Lemma full_byte b : 0 <= b < 8 * Z.of_nat (length [xff]) -> bitarray_test_bit [xff] b = true.
Proof.
  intros Hb. cbn [length] in Hb. assert (Hall : Forall (fun b => bitarray_test_bit [xff] b = true) (Z.of_nat <$> seq 0 8)) by (vm_compute; repeat constructor).
  rewrite Forall_forall in Hall. apply Hall, list_elem_of_fmap. exists (Z.to_nat b). split; [lia|]. apply elem_of_seq. lia.
Qed.

Lemma full_meta :
  exists m, meta full_state "A" "T" = Some m /\ md_state m <> COMMITTED /\ md_blocks m !! Z.to_nat 7 = Some 0.
Proof.
  assert (E1 : md_state <$> meta full_state "A" "T" = Some IN_PROGRESS) by (vm_compute; reflexivity).
  assert (E2 : (fun m => md_blocks m !! 7%nat) <$> meta full_state "A" "T" = Some (Some 0)) by (vm_compute; reflexivity).
  destruct (meta full_state "A" "T") as [m|]; [|done]. exists m. cbn in E1, E2. injection E1 as ->. injection E2 as E2. by split_and!.
Qed.

Lemma full_shared : exists i, links full_state !! block_path 0 = Some i /\ 2 < nlink full_state i.
Proof.
  assert (E : (fun i => 2 <? nlink full_state i) <$> links full_state !! block_path 0 = Some true) by (vm_compute; reflexivity).
  apply fmap_Some in E as (i & Ei & E). exists i. split; [exact Ei|]. apply Z.ltb_lt. symmetry. exact E.
Qed.

Example full_disk_loses_block_witness :
  exists st', execute_block_write cfg8 "A" "T" 7 [x42] full_state = Some (NOT_ENOUGH_SPACE, st') /\
    execute_block_read cfg8 "A" "T" 7 st' = Some ((-1, []), st').
Proof.
  destruct full_meta as (m & Em & Hs & Hb).
  destruct (full_disk_loses_block cfg8 full_state "A" "T" m 7 0 [xff] [x42]) as (st' & E & _ & H).
  - exact full_good.
  - exact Em.
  - exact Hs.
  - lia.
  - exact Hb.
  - exact full_shared.
  - vm_compute. reflexivity.
  - exact full_byte.
  - exists st'. split; [exact E|exact H].
Defined.

End Witnesses.
