(* ===== verification/StorageWire.v ===== *)
(** * A call of the worker, all the way to the Storage and back

    The requests that ConnectionsSpec.v sends are read by the handlers of
    StorageServer.v, carried out as StorageSpec.v says, and answered with a message
    that the worker takes for what it is. *)

From S2P Require Import Prelude CStrings Config Serialization Protocol StorageFs StorageUtils StorageOps StorageServer StorageFsSpec.
From S2P Require Import StorageInvariant StorageSpec StorageRefine StorageCommit StorageInit StorageProps StorageDisk.
From S2P Require Import Commons PageTable MemoryManager Interpreter WorkerConnections ConnectionsSpec.

(** ** Reading a request *)

Lemma read_uint32_field p v v' ks vs :
  package_read_all p (F_uint32 v' :: ks) = Some (F_uint32 v :: vs) ->
  exists p', package_read_uint32 p = (Some v, p') /\ package_read_all p' ks = Some vs.
Proof.
  intros (p' & E & H)%package_read_all_cons. cbn [package_read] in E. destruct (package_read_uint32 p) as [[w|] p'']; [|done].
  cbn in E. injection E as -> ->. by exists p'.
Qed.

Lemma read_string_field p s s' ks vs :
  package_read_all p (F_string s' :: ks) = Some (F_string s :: vs) ->
  exists p', package_read_string p = (Some s, p') /\ package_read_all p' ks = Some vs.
Proof.
  intros (p' & E & H)%package_read_all_cons. cbn [package_read] in E. destruct (package_read_string p) as [[w|] p'']; [|done].
  cbn in E. injection E as -> ->. by exists p'.
Qed.

Lemma read_data_field p bs bs' ks vs :
  package_read_all p (F_data bs' :: ks) = Some (F_data bs :: vs) ->
  exists p', package_read_data p = (Some bs, p') /\ package_read_all p' ks = Some vs.
Proof.
  intros (p' & E & H)%package_read_all_cons. cbn [package_read] in E. destruct (package_read_data p) as [[w|] p'']; [|done].
  cbn in E. injection E as -> ->. by exists p'.
Qed.

(** Names the packages that the readers of a request leave. *)
Ltac read_fields :=
  repeat match goal with
  | H : package_read_all _ (F_uint32 _ :: _) = Some _ |- _ =>
      let E := fresh "Er" in apply read_uint32_field in H as (? & E & H)
  | H : package_read_all _ (F_string _ :: _) = Some _ |- _ =>
      let E := fresh "Er" in apply read_string_field in H as (? & E & H)
  | H : package_read_all _ (F_data _ :: _) = Some _ |- _ =>
      let E := fresh "Er" in apply read_data_field in H as (? & E & H)
  end.

(** ** Answers *)

Lemma reset_serialized p : serialized_package (package_reset_read_offset p) = serialized_package p.
Proof. done. Qed.

Lemma status_carries op : exists p, status_answer op = Some p /\ carries (serialized_package p) (storage_op op) [F_int8 0].
Proof.
  destruct (package_built (storage_op op) [F_int8 0]) as (p & E & _ & Hc); [apply storage_op_byte|repeat constructor; lia|vm_compute; discriminate|].
  exists p. split; [|done]. unfold status_answer. cbn [package_add_all package_add] in E.
  destruct (package_add_int8 _ 0) as [[] p']; [|done]. by injection E as ->.
Qed.

Definition error_text (operation : string) (code : Z) : string := (operation +:+ " error: " +:+ storage_error_message code)%string.

Lemma error_carries q operation code :
  0 <= q < 2 ^ 32 -> valid_field (F_string (error_text operation code)) ->
  wire_size [F_uint32 q; F_string (error_text operation code)] <= 2 ^ 26 ->
  carries (serialized_package (error_answer q operation code)) (storage_op STORAGE_OP_ERROR)
    [F_uint32 q; F_string (error_text operation code)].
Proof.
  intros Hq Hv Hw. destruct (package_built (storage_op STORAGE_OP_ERROR) [F_uint32 q; F_string (error_text operation code)]) as (p & E & _ & Hc);
    [apply storage_op_byte|constructor; [done|by apply Forall_singleton]|done|].
  unfold error_answer. rewrite reset_serialized. fold (error_text operation code). cbn [package_add_all package_add] in E.
  destruct (package_add_uint32 _ q) as [[] p1]; [|done]. cbn [snd]. destruct (package_add_string p1 _) as [[] p2]; [|done]. by injection E as ->.
Qed.

(** The name of each request in the errors. *)
Definition request_name (r : request) : string :=
  match r with
  | R_read _ _ _ => "READ_BLOCK"
  | R_write _ _ _ _ => "WRITE_BLOCK"
  | R_create _ _ => "CREATE_FILE"
  | R_truncate _ _ _ => "TRUNCATE_FILE"
  | R_fork _ _ _ _ => "CREATE_TAG"
  | R_commit _ _ => "COMMIT_TAG"
  | R_delete _ _ => "DELETE_TAG"
  end.

Definition no_zero (s : string) : bool := forallb (fun b => negb (Byte.eqb b x00)) (string_bytes s).

Lemma no_zero_spec s : no_zero s = true -> ~ x00 ∈ string_bytes s.
Proof. unfold no_zero. rewrite forallb_forall. intros H Hin%list_elem_of_In. by apply H in Hin. Qed.

Lemma error_text_ok r code q :
  valid_field (F_string (error_text (request_name r) code)) /\
  wire_size [F_uint32 q; F_string (error_text (request_name r) code)] <= 2 ^ 26.
Proof.
  assert (H : (strlen (error_text (request_name r) code) <=? 100) && no_zero (error_text (request_name r) code) = true).
  { unfold error_text, storage_error_message. destruct r; cbn [request_name]; repeat (case_match; [vm_compute; reflexivity|]); vm_compute; reflexivity. }
  apply andb_true_iff in H as [H1%Z.leb_le H2%no_zero_spec]. split; [split; [unfold MAX_STRING_LENGTH; lia|done]|].
  unfold wire_size, encode_all. cbn [flat_map encode]. rewrite !length_app, !length_be32, length_string_bytes. cbn [length]. unfold strlen in H1. lia.
Qed.

Section Wire.
Context {CC : CommonsConfig} {CB : CommonsBitarray} {CY : CommonsCrypto}.
Context {CCS : CommonsConfigSpec CC} {CBS : CommonsBitarraySpec CB} {CYS : CommonsCryptoSpec CY}.
Variable cfg : t_storage_config.
Context {Hcfg : cfg_ok cfg}.

Abbreviation bsize := (block_size cfg).
Abbreviation wf := (fs_wf cfg).

(** ** What the Storage does with a request *)

Definition request_sop (r : request) : option sop :=
  match r with
  | R_read _ _ _ => None
  | R_write f t n bs => Some (S_write f t n bs)
  | R_create f t => Some (S_create f t)
  | R_truncate f t size => Some (S_truncate f t (i32 size))
  | R_fork fs ts fd td => Some (S_fork fs ts fd td)
  | R_commit f t => Some (S_commit f t)
  | R_delete f t => Some (S_delete f t)
  end.

(** The code, the block that is read and the map that is left. *)
Definition spec_request (r : request) (A : astorage) : Z * list byte * astorage :=
  match r with
  | R_read f t n => (spec_read f t n A, A)
  | _ => match request_sop r with Some op => (fst (sop_spec cfg op A), [], snd (sop_spec cfg op A)) | None => (0, [], A) end
  end.

Definition request_pre (r : request) (st : storage) : Prop :=
  match request_sop r with Some op => sop_pre cfg op st | None => True end.

(** The operation and the fields of the answer. *)
Definition answer_of (q : Z) (r : request) (code : Z) (bs : list byte) : Z * list field :=
  if code =? 0 then (accept_op r, if is_read r then [F_uint32 bsize; F_data bs] else [F_int8 0])
  else (storage_op STORAGE_OP_ERROR, [F_uint32 q; F_string (error_text (request_name r) code)]).

Lemma answer_carries q r op code :
  0 <= q < 2 ^ 32 -> is_read r = false -> accept_op r = storage_op op ->
  exists p, answer q (request_name r) op code = Some p /\
    carries (serialized_package p) (fst (answer_of q r code [])) (snd (answer_of q r code [])).
Proof.
  intros Hq Hr Eop. unfold answer, answer_of. destruct (Z.eqb_spec code 0); cbn [negb fst snd].
  - rewrite Hr, Eop. apply status_carries.
  - eexists. split; [done|]. destruct (error_text_ok r code q). by apply error_carries.
Qed.

Lemma block_carries bs :
  Z.of_nat (length bs) = bsize -> bsize <= MAX_DATA_SIZE ->
  exists p, block_answer cfg bs = Some p /\
    carries (serialized_package p) (storage_op STORAGE_OP_BLOCK_READ_RES) [F_uint32 bsize; F_data bs].
Proof.
  intros Hl Hm. destruct Hcfg as [Hb _ _]. unfold MAX_DATA_SIZE in Hm.
  destruct (package_built (storage_op STORAGE_OP_BLOCK_READ_RES) [F_uint32 bsize; F_data bs]) as (p & E & _ & Hc);
    [apply storage_op_byte| | |].
  - repeat constructor; cbn [valid_field]; unfold MAX_DATA_SIZE; lia.
  - unfold wire_size, encode_all. cbn [flat_map encode]. rewrite !length_app, !length_be32. cbn [length]. lia.
  - unfold block_answer. rewrite u32_small by lia. cbn [package_add_all package_add] in E.
    destruct (package_add_uint32 _ _) as [[] p1]; [|done]. rewrite (proj2 (Z.ltb_lt 0 bsize)) by lia.
    destruct (package_add_data p1 bs) as [[] p2]; [|done]. injection E as ->. by eexists.
Qed.

(** A block of a file is as long as the blocks are. *)
Lemma spec_read_length st A f t n bs :
  wf st -> represents st A -> spec_read f t n A = (0, bs) -> Z.of_nat (length bs) = bsize.
Proof.
  intros Hwf [HA _] E. unfold spec_read in E. rewrite HA in E. unfold files in E. destruct (meta st f t) as [m|] eqn:Em; [|done].
  cbn in E. destruct (_ <=? i32 n); [done|]. rewrite list_lookup_fmap in E. destruct (md_blocks m !! Z.to_nat n) as [b|] eqn:Eb; [|done].
  cbn in E. injection E as <-. destruct (stored_block cfg st f t m _ b Hwf Em Eb) as [_ ->]. destruct Hcfg. lia.
Qed.

Lemma request_query q r p :
  package_read_all p (request_fields q r) = Some (request_fields q r) -> valid_message (request_fields q r) -> 0 <= q < 2 ^ 32.
Proof. intros _ [Hv _]. unfold request_fields in Hv. apply Forall_inv in Hv. exact Hv. Qed.

(** A request other than a read reaches its operation. *)
Lemma operation_handled q r op p :
  request_sop r = Some op -> operation_code p = request_op r -> package_read_all p (request_fields q r) = Some (request_fields q r) ->
  exists m k, handle_request cfg p = Some m /\ accept_op r = storage_op k /\
    forall st c st', sop_run cfg op st = Some (c, st') ->
      m st = Some (package_reset_read_offset <$> answer q (request_name r) k c, st') \/
      m st = Some (answer q (request_name r) k c, st').
Proof.
  intros Es Ep Hr. destruct r; cbn [request_sop] in Es; [done|injection Es as <-..]; unfold request_op in Ep; unfold request_fields in Hr;
    unfold handle_request; rewrite Ep; code_tests; eexists _, _; (split; [reflexivity|split; [reflexivity|]]);
    intros st c st' E; cbn [sop_run] in E; read_fields.
  - left. unfold handle_write_block_request, deserialize_block_write_request. rewrite Er, Er0, Er1, Er2, Er3. unfold mbind, st_bind. by rewrite E.
  - right. unfold create_file. rewrite Er, Er0, Er1. unfold mbind, st_bind. by rewrite E.
  - right. unfold handle_truncate_file_op_package. rewrite Er, Er0, Er1, Er2. unfold mbind, st_bind. by rewrite E.
  - left. unfold handle_create_tag_op_package. rewrite Er, Er0, Er1, Er2, Er3. unfold mbind, st_bind. by rewrite E.
  - left. unfold handle_tag_commit_request, deserialize_tag_commit_request. rewrite Er, Er0, Er1. unfold mbind, st_bind. by rewrite E.
  - right. unfold handle_delete_tag_op_package. rewrite Er, Er0, Er1. unfold mbind, st_bind. by rewrite E.
Qed.

(** A request is answered as the specification says. *)
Lemma request_answered st A q r p :
  wf st -> represents st A -> request_pre r st -> valid_message (request_fields q r) -> bsize <= MAX_DATA_SIZE ->
  operation_code p = request_op r -> package_read_all p (request_fields q r) = Some (request_fields q r) ->
  exists m resp st', handle_request cfg p = Some m /\ m st = Some (Some resp, st') /\ wf st' /\
    represents st' (snd (spec_request r A)) /\
    carries (serialized_package resp) (fst (answer_of q r (fst (fst (spec_request r A))) (snd (fst (spec_request r A)))))
      (snd (answer_of q r (fst (fst (spec_request r A))) (snd (fst (spec_request r A))))).
Proof.
  intros Hwf HA Hp Hv Hm Ep Hr. pose proof (request_query q r p Hr Hv) as Hq. destruct (request_sop r) as [op|] eqn:Es.
  - unfold request_pre in Hp. rewrite Es in Hp. destruct (sop_refines cfg st op Hwf Hp) as (c & st' & E & Hwf' & H).
    destruct (H A HA) as [Hc HA']. assert (Espec : spec_request r A = (c, [], snd (sop_spec cfg op A))).
    { destruct r; cbn [request_sop] in Es; [done|..]; injection Es as <-; unfold spec_request, request_sop; by rewrite <- Hc. }
    rewrite Espec. cbn [fst snd]. destruct (operation_handled q r op p Es Ep Hr) as (m & k & Eh & Ek & Hm').
    assert (Hrd : is_read r = false) by (by destruct r).
    destruct (answer_carries q r k c Hq Hrd Ek) as (resp & Ea & Hcar). destruct (Hm' _ _ _ E) as [Em|Em]; rewrite Ea in Em.
    + exists m, (package_reset_read_offset resp), st'. by rewrite reset_serialized.
    + by exists m, resp, st'.
  - destruct r as [f t n| | | | | |]; try done. unfold request_op in Ep. unfold request_fields in Hr. cbn [spec_request].
    destruct Hv as [Hv _]. assert (Hn : 0 <= n < 2 ^ 32) by (do 3 apply Forall_inv_tail in Hv; by apply Forall_inv in Hv).
    destruct (block_read_run cfg st f t n Hwf Hn) as ([c bs] & E & Hs). rewrite (Hs A HA). cbn [fst snd].
    unfold handle_request. rewrite Ep. code_tests. read_fields.
    eexists. assert (Hrun : forall o, (if negb (c =? 0) then Some (error_answer q "READ_BLOCK" c) else block_answer cfg bs) = Some o ->
        handle_read_block_request cfg p st = Some (Some o, st)).
    { intros o Eo. unfold handle_read_block_request, deserialize_block_read_request. rewrite Er, Er0, Er1, Er2. unfold mbind, st_bind. rewrite E.
      destruct (c =? 0); cbn [negb] in *; by rewrite <- Eo. }
    unfold answer_of. destruct (Z.eqb_spec c 0) as [->|Hc]; cbn [negb] in Hrun.
    + destruct (block_carries bs) as (resp & Eb & Hcar); [apply (spec_read_length st A f t n); [done..|by apply Hs]|done|]. exists resp, st. split; [reflexivity|]. split; [by apply Hrun|]. split; [done|]. by split.
    + eexists _, st. split; [reflexivity|]. rewrite (Hrun _ eq_refl). do 3 (split; [done|]). destruct (error_text_ok (R_read f t n) c q). by apply error_carries.
Qed.

(** The worker takes the answer for what it is. *)
Lemma answer_understood (N : Network) c r code bs h :
  exchange c r (fst (answer_of (of_query c) r code bs)) (snd (answer_of (of_query c) r code bs)) h ->
  (is_read r = true -> code = 0 -> Z.of_nat (length bs) = bsize) ->
  exists h', perform c r h = Some (if code =? 0 then (0, if is_read r then Some bs else None) else (-1, None), h').
Proof.
  intros Hx Hl. destruct (perform_exchange c r _ _ h Hx) as (p & Ep & Hreset & Hread & ->). unfold answered. rewrite Ep. unfold answer_of in *.
  destruct (Z.eqb_spec code 0) as [Ec|Ec]; cbn [fst snd] in *.
  - rewrite Z.eqb_refl. eexists. unfold mret, st_ret. destruct (is_read r) eqn:Er; [|done].
    rewrite (read_block_fields p bsize bs Hread). by rewrite Hl, Z.eqb_refl.
  - rewrite accept_not_error, Z.eqb_refl. cbn [andb]. destruct (negb (is_delete r)); [|by eexists].
    apply read_two_strings in Hread as (p1 & p2 & E1 & E2). unfold handler_error_from_storage. rewrite Hreset, E1, E2.
    destruct (build _ _) as [ok ep]. unfold mbind, st_bind. destruct ok; cbn [negb]; [|by eexists].
    unfold send. destruct (package_send _ _ _) as [rc block]. by eexists.
Qed.

(** ** The property *)


End Wire.

Section Witness.


End Witness.
