(* ===== verification/StorageMain.v ===== *)
(** * The start of the Storage (storage/src/config/storage_config.c, main.c)

    The configuration, the geometry of the disk, the fresh start, up to the server.
    The file given in the command line is a parameter: what [config_create] makes
    of it, none when it cannot be opened. *)

From S2P Require Import Prelude CStrings Config Serialization StorageFs StorageUtils StorageOps StorageServer StorageFsSpec.
From S2P Require Import StorageInvariant StorageSpec StorageCommit StorageInit StorageDisk StorageProps.

(** [t_storage_config] whole: [geometry] is the part the operations use. *)
Record storage_settings := MkSettings {
  operation_delay : Z;
  block_access_delay : Z;
  storage_ip : string;
  storage_port : string;
  fresh_start : bool;
  geometry : t_storage_config
}.

Definition required_props : list string :=
  ["STORAGE_IP"; "STORAGE_PORT"; "FRESH_START"; "MOUNT_POINT"; "OPERATION_DELAY"; "BLOCK_ACCESS_DELAY"; "LOG_LEVEL"].

Section Start.
Context {CC : CommonsConfig} {CB : CommonsBitarray} {CY : CommonsCrypto} {CK : CommonsConfigKeys CC}.

(** The loop reads one name per key of the configuration; past the last name it
    reads beyond the array. *)
Fixpoint check_properties (keys i : nat) (config : t_config) : SM bool :=
  match keys with
  | O => mret true
  | S keys =>
      match required_props !! i with
      | None => st_ub
      | Some name => if negb (config_has_property config name) then mret false else check_properties keys (S i) config
      end
  end.

Definition has_required_properties (config : t_config) : SM bool :=
  check_properties (config_keys_amount config) 0 config.

(** The value of a key, which [strdup] and [atoi] must not get as NULL. *)
Definition value_of (config : t_config) (key : string) : SM string :=
  match config_get config key with Some v => mret v | None => st_ub end.

(** The sizes of the superblock, and the bytes of the bitmap: a bit a block. *)
Definition read_geometry : SM (option t_storage_config) :=
  superblock_config ← config_create P_superblock;
  match superblock_config with
  | None => mret None
  | Some c =>
      if negb (config_has_property c "FS_SIZE") || negb (config_has_property c "BLOCK_SIZE") then mret None else
      let fs_size := config_get_int_value c "FS_SIZE" in
      let block_size := config_get_int_value c "BLOCK_SIZE" in
      if block_size =? 0 then st_ub else
      let total_blocks := Z.quot fs_size block_size in
      if INT_MAX <? total_blocks + 7 then st_ub else
      mret (Some (MkStorageConfig fs_size block_size (Z.quot (total_blocks + 7) 8)))
  end.

Definition create_storage_config (config_file : option t_config) : SM (option storage_settings) :=
  match config_file with
  | None => mret None
  | Some config =>
      ok ← has_required_properties config;
      if negb ok then mret None else
      operation_delay ← value_of config "OPERATION_DELAY";
      block_access_delay ← value_of config "BLOCK_ACCESS_DELAY";
      storage_ip_str ← value_of config "STORAGE_IP";
      storage_port_str ← value_of config "STORAGE_PORT";
      _ ← value_of config "MOUNT_POINT";
      _ ← value_of config "LOG_LEVEL";
      fresh_start_str ← value_of config "FRESH_START";
      g ← read_geometry;
      mret (MkSettings (atoi operation_delay) (atoi block_access_delay) storage_ip_str storage_port_str
              (String.eqb fresh_start_str "TRUE" || String.eqb fresh_start_str "true") <$> g)
  end.

(** [main] up to [start_server]: its code, and the settings it serves with. *)
Definition storage_main (config_file : option t_config) : SM (Z * option storage_settings) :=
  g_storage_config ← create_storage_config config_file;
  match g_storage_config with
  | None => mret (-2, None)
  | Some s =>
      if fresh_start s then
        init_result ← init_storage (geometry s);
        if negb (init_result =? 0) then mret (-6, None) else mret (0, Some s)
      else mret (0, Some s)
  end.

(** ** What the start leaves *)

Definition complete (config : t_config) : Prop := Forall (fun name => is_Some (config_get config name)) required_props.

(** The settings are those of the file. *)
Definition says (config : t_config) (s : storage_settings) : Prop :=
  config_get config "STORAGE_IP" = Some (storage_ip s) /\ config_get config "STORAGE_PORT" = Some (storage_port s) /\
  (atoi <$> config_get config "OPERATION_DELAY") = Some (operation_delay s) /\
  (atoi <$> config_get config "BLOCK_ACCESS_DELAY") = Some (block_access_delay s) /\
  ((fresh_start s = true) <-> (exists v, config_get config "FRESH_START" = Some v /\ v ∈ ["TRUE"; "true"])).

Lemma check_complete config keys i :
  complete config -> (i + keys <= 7)%nat -> check_properties keys i config = mret true.
Proof.
  intros Hc. revert i. induction keys as [|keys IH]; intros i Hi; [done|]. cbn [check_properties].
  destruct (required_props !! i) as [name|] eqn:E; [|apply lookup_ge_None in E; cbn in E; lia].
  unfold complete in Hc. rewrite Forall_lookup in Hc. destruct (Hc i name E) as [v Ev].
  unfold config_has_property. rewrite Ev. cbn [negb]. apply IH. lia.
Qed.

(** A configuration with more keys than the required ones is read past the end of
    their names. *)
Lemma check_overrun config keys i :
  complete config -> (7 < i + keys)%nat -> (i <= 7)%nat -> check_properties keys i config = st_ub.
Proof.
  intros Hc. revert i. induction keys as [|keys IH]; intros i Hi Hi7; [lia|]. cbn [check_properties].
  destruct (required_props !! i) as [name|] eqn:E; [|done].
  unfold complete in Hc. rewrite Forall_lookup in Hc. destruct (Hc i name E) as [v Ev].
  unfold config_has_property. rewrite Ev. cbn [negb]. apply lookup_lt_Some in E. cbn in E. apply IH; lia.
Qed.

Lemma value_complete config name v : config_get config name = Some v -> value_of config name = mret v.
Proof. unfold value_of. by intros ->. Qed.

End Start.

Section Started.
Context {CC : CommonsConfig} {CB : CommonsBitarray} {CY : CommonsCrypto} {CK : CommonsConfigKeys CC}.
Context {CCS : CommonsConfigSpec CC} {CBS : CommonsBitarraySpec CB} {CYS : CommonsCryptoSpec CY}.

Lemma read_geometry_run st bytes fs bs :
  fs_sound st -> file_at st P_superblock = Some bytes ->
  config_get (config_parse bytes) "FS_SIZE" = Some fs -> config_get (config_parse bytes) "BLOCK_SIZE" = Some bs ->
  0 < atoi bs -> Z.quot (atoi fs) (atoi bs) + 7 <= INT_MAX ->
  read_geometry st = Some (Some (MkStorageConfig (atoi fs) (atoi bs) (Z.quot (Z.quot (atoi fs) (atoi bs) + 7) 8)), st).
Proof.
  intros Hs Hf Efs Ebs Hbs Hmax. unfold read_geometry, config_create, mbind, st_bind.
  rewrite (read_file_run st P_superblock Hs), Hf. cbn [fmap option_fmap option_map mret st_ret]. unfold config_has_property, config_get_int_value.
  rewrite Efs, Ebs. cbn [negb orb default from_option]. unfold id.
  destruct (Z.eqb_spec (atoi bs) 0); [lia|]. destruct (Z.ltb_spec INT_MAX (Z.quot (atoi fs) (atoi bs) + 7)); [lia|]. done.
Qed.

(** C24: The Storage starts.  A configuration with the required keys and no other, on a
    superblock with a block size and a disk of at least one block, gives the
    operations a geometry with a bit for every block; after a fresh start the disk
    is the one the runs of the Storage begin with, and without one it is as it was.
    With one key more the loop over the names reads past their end. *)
Theorem storage_starts config st bytes fs bs :
  complete config ->
  file_at st P_superblock = Some bytes ->
  config_get (config_parse bytes) "FS_SIZE" = Some fs -> config_get (config_parse bytes) "BLOCK_SIZE" = Some bs ->
  0 < atoi bs <= atoi fs -> Z.quot (atoi fs) (atoi bs) + 7 <= INT_MAX ->
  fs_sound st -> D_root ∈ dirs st -> held st = [] ->
  ((config_keys_amount config <= 7)%nat -> exists s st',
     storage_main (Some config) st = Some ((0, Some s), st') /\
     says config s /\ geometry s = MkStorageConfig (atoi fs) (atoi bs) (Z.quot (Z.quot (atoi fs) (atoi bs) + 7) 8) /\ cfg_ok (geometry s) /\
     (if fresh_start s then reached (geometry s) st' (initial_map (geometry s)) else st' = st)) /\
  ((7 < config_keys_amount config)%nat -> storage_main (Some config) st = None).
Proof.
  intros Hc Hf Efs Ebs Hbs Hmax Hs Hd Hh. split.
  - intros Hk. unfold storage_main, create_storage_config, has_required_properties. rewrite check_complete by (done || lia).
    pose proof Hc as Hv. unfold complete, required_props in Hv. rewrite !Forall_cons in Hv.
    destruct Hv as ([ip Eip] & [port Eport] & [fresh Efresh] & [mount Emount] & [od Eod] & [bd Ebd] & [lv Elv] & _).
    rewrite (value_complete _ _ _ Eip), (value_complete _ _ _ Eport), (value_complete _ _ _ Efresh), (value_complete _ _ _ Emount),
      (value_complete _ _ _ Eod), (value_complete _ _ _ Ebd), (value_complete _ _ _ Elv).
    unfold mbind, st_bind, mret, st_ret. cbn [negb].
    rewrite (read_geometry_run st bytes fs bs) by (done || lia). cbn [fmap option_fmap option_map].
    set (g := MkStorageConfig _ _ _).
    assert (Hg : cfg_ok g).
    { assert (Hq : 0 < Z.quot (atoi fs) (atoi bs)).
      { rewrite Z.quot_div_nonneg by lia. apply Z.div_str_pos. lia. }
      pose proof (i32_range 0) as _. assert (Hb : atoi bs < 2 ^ 31) by apply i32_range.
      unfold INT_MAX in Hmax. split; unfold blocks_total; cbn; lia. }
    assert (Hsays : says config (MkSettings (atoi od) (atoi bd) ip port (String.eqb fresh "TRUE" || String.eqb fresh "true") g)).
    { split; [done|]. split; [done|]. rewrite Eod, Ebd. split; [done|]. split; [done|]. cbn [fresh_start].
      rewrite orb_true_iff, !String.eqb_eq. setoid_rewrite list_elem_of_In. cbn [In]. rewrite Efresh. naive_solver. }
    destruct (String.eqb fresh "TRUE" || String.eqb fresh "true") eqn:E; cbn [fresh_start geometry].
    + destruct (init_storage_run g st Hs Hd Hh) as (st' & Ei & _). rewrite Ei. cbn [negb].
      change (negb (0 =? 0)) with false. cbv iota. eexists _, st'. split; [reflexivity|]. cbn [geometry fresh_start].
      split; [done|]. split; [done|]. split; [done|]. by eapply reached_start.
    + eexists _, st. split; [reflexivity|]. by cbn [geometry fresh_start].
  - intros Hk. unfold storage_main, create_storage_config, has_required_properties. by rewrite check_overrun by (done || lia).
Qed.

End Started.

(** ** A Storage of eight blocks *)

#[export] Instance disk_config_keys : CommonsConfigKeys disk_config := fun c => base.size (c : gmap string string).

Definition superblock8 : list byte := config_lines [("FS_SIZE", "32"); ("BLOCK_SIZE", "4")].

Definition settings8 : t_config :=
  (list_to_map [("STORAGE_IP", "127.0.0.1"); ("STORAGE_PORT", "8001"); ("FRESH_START", "TRUE"); ("MOUNT_POINT", "/mnt");
    ("OPERATION_DELAY", "10"); ("BLOCK_ACCESS_DELAY", "5"); ("LOG_LEVEL", "INFO")] : gmap string string).

Lemma storage_starts_witness :
  exists s st', storage_main (Some settings8) (disk_of superblock8) = Some ((0, Some s), st') /\
    geometry s = MkStorageConfig 32 4 1 /\ reached (geometry s) st' (initial_map (geometry s)).
Proof.
  assert (Hc : complete settings8) by (repeat constructor; vm_compute; by eexists).
  assert (Hf : config_get (config_parse superblock8) "FS_SIZE" = Some "32") by reflexivity.
  assert (Hb : config_get (config_parse superblock8) "BLOCK_SIZE" = Some "4") by reflexivity.
  destruct (storage_starts settings8 (disk_of superblock8) superblock8 "32" "4" Hc) as [H _];
    [reflexivity|exact Hf|exact Hb|vm_compute; split; congruence|vm_compute; congruence|apply disk_of_sound|cbn; by apply elem_of_singleton|done|].
  destruct H as (s & st' & E & (_ & _ & _ & _ & Hfresh) & Eg & _ & Hr); [vm_compute; lia|].
  exists s, st'. split; [exact E|]. split; [exact Eg|].
  destruct (fresh_start s) eqn:Ef; [exact Hr|]. discriminate (proj2 Hfresh). exists "TRUE". split; [reflexivity|left].
Defined.
