(* ===== verification/StorageClients.v ===== *)
(** * The clients of the Storage (storage/src/main.c, server/server.c, operations/handshake.c)

    The loop that accepts workers and the thread of each: its socket, its
    [t_client_data] and the counter of workers.  What a request does to the files is
    in StorageServer.v; since the threads interleave inside the operations, here an
    operation may answer or not, and that is all that is known of it. *)

From S2P Require Import Prelude Serialization Protocol CStrings Config StorageFs StorageUtils StorageOps StorageServer StorageDisk.

(** ** The process *)

(** [client_id] is not written before the handshake. *)
Record t_client_data := MkClientData { client_socket : Z; client_id : option Z }.

(** [serving]: [main] is in its loop; after it the configuration and the logger are
    gone. *)
Record process := MkProcess {
  g_worker_counter : Z;
  open_fds : gset Z;
  clients : list t_client_data;
  serving : bool
}.

Definition on_counter f s := MkProcess (f (g_worker_counter s)) (open_fds s) (clients s) (serving s).
Definition on_open_fds f s := MkProcess (g_worker_counter s) (f (open_fds s)) (clients s) (serving s).
Definition on_clients f s := MkProcess (g_worker_counter s) (open_fds s) (f (clients s)) (serving s).
Definition on_serving b s := MkProcess (g_worker_counter s) (open_fds s) (clients s) b.

Abbreviation PM := (ST process).

(** ** The loop of main.c *)

(** [wait_for_client] gives what [accept] gives, or -1. *)
Definition wait_for_client (accepted : Z) : Z := if accepted =? -1 then -1 else accepted.

(** The labels of the end: the first connection that cannot be accepted ends the
    Storage, with the code 0 of its start. *)
Definition clean_logger : PM unit := st_modify (on_serving false).

(** A round: [resources] says whether there is memory and a thread. *)
Definition accept_round (accepted : Z) (resources : bool) : PM unit :=
  let client_fd := wait_for_client accepted in
  if client_fd =? -1 then clean_logger else
  st_modify (on_open_fds (fun o => {[client_fd]} ∪ o));;
  if negb resources then st_modify (on_open_fds (fun o => o ∖ {[client_fd]}))
  else st_modify (on_clients (fun l => l ++ [MkClientData client_fd None])).

(** ** The thread of a client *)

(** The label [cleanup] of [handle_client]. *)
Definition client_cleanup (i : nat) (c : t_client_data) : PM unit :=
  st_modify (on_open_fds (fun o => o ∖ {[client_socket c]}));;
  st_modify (on_clients (delete i)).

Definition set_client_id (i : nat) (c : t_client_data) (id : Z) : PM unit :=
  st_modify (on_clients (<[i := MkClientData (client_socket c) (Some id)]>)).

(** [handle_handshake]: whether it answers. *)
Definition introduce (i : nat) (c : t_client_data) (request : t_package) : PM bool :=
  st_modify (on_counter (fun n => n + 1));;
  match package_read_uint32 request with
  | (None, _) => mret false
  | (Some worker_id, _) => set_client_id i c (i32 worker_id);; mret true
  end.

Section Rounds.
Context {CC : CommonsConfig} {CB : CommonsBitarray} {CY : CommonsCrypto}.
Variable cfg : t_storage_config.

(** A round of the loop with a request; [answered] is what its operation gives. *)
Definition request_round (i : nat) (c : t_client_data) (request : t_package) (answered : bool) : PM unit :=
  if operation_code request =? storage_op STORAGE_OP_WORKER_SEND_ID_REQ then
    ok ← introduce i c request; if (ok : bool) then mret tt else client_cleanup i c
  else match handle_request cfg request with
       | None => client_cleanup i c
       | Some _ => if answered then mret tt else client_cleanup i c
       end.

(** Without a request: the name of the worker is written to the log. *)
Definition gone_round (i : nat) (c : t_client_data) : PM unit :=
  st_modify (on_counter (fun n => n - 1));;
  match client_id c with
  | None => st_ub
  | Some _ => client_cleanup i c
  end.

Inductive client_event :=
| Accepted (fd : Z) (resources : bool)
| Requested (i : nat) (request : t_package) (answered : bool)
| Gone (i : nat).

(** The round of a thread, for which the configuration must still be there. *)
Definition client_round (i : nat) (k : t_client_data -> PM unit) : PM unit :=
  s ← st_get;
  if negb (serving s) then st_ub else
  match clients s !! i with Some c => k c | None => mret tt end.

Definition client_step (e : client_event) : PM unit :=
  match e with
  | Accepted fd resources => accept_round fd resources
  | Requested i request answered => client_round i (fun c => request_round i c request answered)
  | Gone i => client_round i (gone_round i)
  end.

(** What the kernel and the threads may do next. *)
Definition may_happen (e : client_event) (s : process) : Prop :=
  match e with
  | Accepted fd _ => serving s = true /\ (fd = -1 \/ (0 <= fd /\ fd ∉ open_fds s))
  | Requested i _ _ | Gone i => is_Some (clients s !! i)
  end.

Definition listening (listener : Z) : process := MkProcess 0 {[listener]} [] true.

Inductive client_run (ok : client_event -> process -> Prop) (listener : Z) : process -> Prop :=
| client_start : client_run ok listener (listening listener)
| client_event_run e s s' :
    client_run ok listener s -> may_happen e s -> ok e s -> client_step e s = Some (tt, s') -> client_run ok listener s'.

(** ** Sockets *)

(** The open descriptors are the one that listens and one for each client. *)
Record owned (listener : Z) (s : process) : Prop := {
  ow_open fd : fd ∈ open_fds s <-> fd = listener \/ fd ∈ map client_socket (clients s);
  ow_apart : NoDup (listener :: map client_socket (clients s))
}.

Lemma map_socket_set_id (l : list t_client_data) i c id :
  l !! i = Some c -> map client_socket (<[i := MkClientData (client_socket c) id]> l) = map client_socket l.
Proof.
  intros Hi. rewrite list_fmap_insert. cbn. apply list_insert_id. change (map client_socket l) with (client_socket <$> l).
  by rewrite list_lookup_fmap, Hi.
Qed.

Lemma deleted_sockets (l : list t_client_data) i c x :
  NoDup (map client_socket l) -> l !! i = Some c ->
  x ∈ map client_socket (delete i l) <-> x ∈ map client_socket l /\ x <> client_socket c.
Proof.
  intros Hnd Hi. rewrite delete_take_drop. rewrite <- (take_drop_middle l i c Hi) in Hnd.
  rewrite <- (take_drop_middle l i c Hi) at 3. rewrite map_app in Hnd. cbn [map] in Hnd.
  rewrite !map_app. cbn [map]. rewrite !elem_of_app, elem_of_cons.
  apply NoDup_app in Hnd as (_ & Hd & [Hd2 _]%NoDup_cons). split.
  - intros [Hx|Hx]; (split; [tauto|]); intros ->; [|done]. apply (Hd _ Hx). by left.
  - tauto.
Qed.

Lemma owned_cleanup listener s i c :
  owned listener s -> clients s !! i = Some c ->
  owned listener (on_clients (delete i) (on_open_fds (fun o => o ∖ {[client_socket c]}) s)).
Proof.
  intros [Ho Ha] Hi. apply NoDup_cons in Ha as [Hl Ha]. split; cbn [open_fds clients on_clients on_open_fds].
  - intros fd. rewrite elem_of_difference, elem_of_singleton, Ho, (deleted_sockets _ _ _ _ Ha Hi). split; [tauto|].
    intros [->|[H1 H2]]; [|tauto]. split; [by left|]. intros ->. apply Hl, list_elem_of_fmap_2. by eapply list_elem_of_lookup_2.
  - apply NoDup_cons. rewrite (deleted_sockets _ _ _ _ Ha Hi). split; [tauto|].
    assert (Es : map client_socket (delete i (clients s)) = delete i (map client_socket (clients s))) by apply list_fmap_delete.
    rewrite Es. eapply sublist_NoDup; [exact Ha|apply sublist_delete].
Qed.

Lemma owned_set_id listener s i c id :
  owned listener s -> clients s !! i = Some c -> owned listener (on_clients (<[i := MkClientData (client_socket c) id]>) s).
Proof. intros [Ho Ha] Hi. split; cbn [open_fds clients on_clients]; by rewrite map_socket_set_id. Qed.

Lemma run_cleanup i c s s' : client_cleanup i c s = Some (tt, s') -> s' = on_clients (delete i) (on_open_fds (fun o => o ∖ {[client_socket c]}) s).
Proof. by intros [= <-]. Qed.

(** *** A round of a client *)

Definition dropped (i : nat) (c : t_client_data) (s : process) : process :=
  on_clients (delete i) (on_open_fds (fun o => o ∖ {[client_socket c]}) s).

Inductive round_effect (i : nat) (c : t_client_data) (s : process) : process -> Prop :=
| round_answered : round_effect i c s s
| round_introduced id :
    round_effect i c s (on_clients (<[i := MkClientData (client_socket c) (Some id)]>) (on_counter (fun n => n + 1) s))
| round_dropped f : round_effect i c s (dropped i c (on_counter f s)).

Lemma on_counter_id s : on_counter (fun n => n) s = s.
Proof. by destruct s. Qed.

Lemma request_round_effect i c request answered s s' :
  request_round i c request answered s = Some (tt, s') -> round_effect i c s s'.
Proof.
  unfold request_round. destruct (operation_code request =? _).
  - unfold introduce. destruct (package_read_uint32 request) as [[id|] r]; intros [= <-]; [apply round_introduced|].
    apply (round_dropped i c s (fun n => n + 1)).
  - assert (Hd : forall s', client_cleanup i c s = Some (tt, s') -> round_effect i c s s').
    { intros s1 [= <-]. rewrite <- (on_counter_id s) at 2. apply (round_dropped i c s (fun n => n)). }
    destruct (handle_request cfg request), answered; auto. intros [= <-]. apply round_answered.
Qed.

Lemma owned_effect listener i c s s' :
  owned listener s -> clients s !! i = Some c -> round_effect i c s s' -> owned listener s'.
Proof.
  intros Ho Hi He. assert (Hc : forall f, owned listener (on_counter f s)) by (intros f; by destruct Ho).
  destruct He as [|id|f]; [done|..].
  - apply (owned_set_id listener (on_counter _ s)); [apply Hc|done].
  - by apply (owned_cleanup listener (on_counter f s)).
Qed.

(** A step of a client while the Storage serves. *)
Lemma client_round_run i k s s' :
  client_round i k s = Some (tt, s') -> is_Some (clients s !! i) ->
  serving s = true /\ exists c, clients s !! i = Some c /\ k c s = Some (tt, s').
Proof.
  intros (s1 & s2 & [= <- <-] & E)%run_bind [c Hi]. destruct (serving s); [|done]. cbn [negb] in E. rewrite Hi in E. eauto.
Qed.

Lemma owned_step listener e s s' : owned listener s -> may_happen e s -> client_step e s = Some (tt, s') -> owned listener s'.
Proof.
  intros Hown Hm E. destruct e as [fd r|i request answered|i]; cbn [may_happen client_step] in *.
  - unfold accept_round, wait_for_client in E. destruct Hm as [_ [->|[Hge Hfd]]]; [by injection E as <-; destruct Hown|].
    rewrite (proj2 (Z.eqb_neq fd (-1))) in E by lia. rewrite (proj2 (Z.eqb_neq fd (-1))) in E by lia.
    destruct Hown as [Ho Ha]. destruct r; cbn [negb] in E; apply run_bind in E as ([] & s1 & [= <-] & [= <-]);
      (split; cbn [open_fds clients on_clients on_open_fds]).
    + intros x. rewrite map_app, elem_of_union, elem_of_singleton, Ho, elem_of_app. cbn. rewrite list_elem_of_singleton. tauto.
    + rewrite map_app. cbn. rewrite Ho in Hfd. apply NoDup_cons in Ha as [Hl Ha]. apply NoDup_cons.
      rewrite elem_of_app, list_elem_of_singleton. split; [intros [?| ->]; tauto|]. apply NoDup_app. split; [done|].
      split; [|by apply NoDup_singleton]. intros x Hx ->%list_elem_of_singleton. tauto.
    + intros x. rewrite elem_of_difference, elem_of_union, elem_of_singleton, <- Ho. split; [tauto|]. intros Hx. split; [by right|].
      by intros ->.
    + done.
  - apply client_round_run in E as (_ & c & Hi & E); [|done]. eapply owned_effect; [done|exact Hi|by eapply request_round_effect].
  - apply client_round_run in E as (_ & c & Hi & E); [|done]. eapply owned_effect; [done|exact Hi|].
    unfold gone_round in E. apply run_bind in E as ([] & s1 & [= <-] & E). destruct (client_id c); [|done]. injection E as <-.
    apply (round_dropped i c s (fun n => n - 1)).
Qed.

(** ** The counter *)

(** What the workers of the repository do: the handshake first, once, with its
    number; then requests that are answered; they hang up after the handshake. *)
Definition proper (e : client_event) (s : process) : Prop :=
  match e with
  | Accepted fd _ => fd <> -1
  | Requested i request answered => forall c, clients s !! i = Some c ->
      if operation_code request =? storage_op STORAGE_OP_WORKER_SEND_ID_REQ
      then client_id c = None /\ is_Some (fst (package_read_uint32 request))
      else is_Some (handle_request cfg request) /\ answered = true
  | Gone i => forall c, clients s !! i = Some c -> is_Some (client_id c)
  end.

Definition known (c : t_client_data) : nat := match client_id c with Some _ => 1 | None => 0 end.
Definition workers_known (l : list t_client_data) : nat := sum_list_with known l.

Lemma known_replaced l i c c' :
  l !! i = Some c -> (workers_known (<[i := c']> l) + known c = workers_known l + known c')%nat.
Proof.
  intros Hi. rewrite insert_take_drop by (by apply lookup_lt_Some in Hi). unfold workers_known.
  rewrite <- (take_drop_middle l i c Hi) at 3. rewrite !sum_list_with_app. cbn. lia.
Qed.

Lemma known_deleted l i c : l !! i = Some c -> (workers_known (delete i l) + known c = workers_known l)%nat.
Proof.
  intros Hi. rewrite delete_take_drop. unfold workers_known. rewrite <- (take_drop_middle l i c Hi) at 3.
  rewrite !sum_list_with_app. cbn. lia.
Qed.

Definition counted (s : process) : Prop := serving s = true /\ g_worker_counter s = Z.of_nat (workers_known (clients s)).

(** A proper event is defined and keeps the count. *)
Lemma proper_step e s :
  counted s -> may_happen e s -> proper e s -> exists s', client_step e s = Some (tt, s') /\ counted s'.
Proof.
  intros [Hs Hn] Hm Hp. destruct e as [fd r|i request answered|i]; cbn [may_happen proper client_step] in *.
  - unfold accept_round, wait_for_client. destruct (Z.eqb_spec fd (-1)) as [|_]; [done|].
    rewrite (proj2 (Z.eqb_neq fd (-1))) by done. destruct r; eexists; (split; [reflexivity|]); (split; [done|]); cbn; [|done].
    unfold workers_known. rewrite sum_list_with_app. cbn. fold (workers_known (clients s)). lia.
  - destruct Hm as [c Hi]. specialize (Hp c Hi). unfold client_round, mbind at 1, st_bind at 1, st_get. rewrite Hs, Hi. cbn [negb].
    unfold request_round. destruct (operation_code request =? _).
    + destruct Hp as [Hc [id Hid]]. unfold introduce. destruct (package_read_uint32 request) as [[id'|] rest]; [|done].
      eexists. split; [reflexivity|]. split; [done|]. cbn [g_worker_counter clients on_clients on_counter].
      pose proof (known_replaced _ _ _ (MkClientData (client_socket c) (Some (i32 id'))) Hi) as H. unfold known in H. rewrite Hc in H.
      cbn in H. lia.
    + destruct Hp as [[m ->] ->]. by exists s.
  - destruct Hm as [c Hi]. specialize (Hp c Hi). unfold client_round, mbind at 1, st_bind at 1, st_get. rewrite Hs, Hi. cbn [negb].
    unfold gone_round. destruct Hp as [id Hid]. rewrite Hid. eexists. split; [reflexivity|]. split; [done|].
    cbn [g_worker_counter clients on_clients on_counter on_open_fds]. pose proof (known_deleted _ _ _ Hi) as H.
    unfold known in H. rewrite Hid in H. lia.
Qed.

(** C21: Nobody's socket, and every worker counted.  In any run of the Storage the open
    descriptors are the one it listens on and one for each client, all different,
    whatever the clients send and however their threads interleave.  When they
    behave as the workers of the repository do, the next step of every one of them
    is defined and the counter is the number of workers that have introduced
    themselves and are still there. *)
Theorem clients_accounted listener s :
  (client_run (fun _ _ => True) listener s -> owned listener s) /\
  (client_run proper listener s -> counted s /\
     forall e, may_happen e s -> proper e s -> exists s', client_step e s = Some (tt, s')).
Proof.
  split.
  - induction 1 as [|e s s' Hr IH Hm _ E]; [|by eapply owned_step]. split; cbn; [|by apply NoDup_singleton].
    intros fd. rewrite elem_of_singleton, elem_of_nil. tauto.
  - intros Hr. assert (Hc : counted s).
    { induction Hr as [|e s s' Hr IH Hm Hp E]; [done|]. destruct (proper_step e s IH Hm Hp) as (s1 & E1 & H1). by simplify_eq. }
    split; [done|]. intros e Hm Hp. destruct (proper_step e s Hc Hm Hp) as (s' & E & _). eauto.
Qed.

(** A client that hangs up before it has introduced itself: the log is given a name
    that was never written. *)
Theorem early_goodbye i c s : clients s !! i = Some c -> client_id c = None -> client_step (Gone i) s = None.
Proof.
  intros Hi Hc. cbn [client_step]. unfold client_round, mbind, st_bind, st_get. destruct (serving s); [|done].
  cbn [negb]. rewrite Hi. unfold gone_round, mbind, st_bind. cbn [st_modify]. by rewrite Hc.
Qed.

(** A connection that cannot be accepted ends the Storage under its clients: the
    configuration and the logger are released, and the next round of any thread
    uses them. *)
Theorem refused_accept_ends s :
  exists s', client_step (Accepted (-1) true) s = Some (tt, s') /\
    forall i request answered, is_Some (clients s' !! i) ->
      client_step (Requested i request answered) s' = None /\ client_step (Gone i) s' = None.
Proof. eexists. split; [reflexivity|]. intros i request answered Hi. by split. Qed.

(** A request that is not known drops the client, but the counter keeps it. *)
Theorem unknown_request_counted i c s request answered :
  counted s -> clients s !! i = Some c -> is_Some (client_id c) -> handle_request cfg request = None ->
  operation_code request <> storage_op STORAGE_OP_WORKER_SEND_ID_REQ ->
  exists s', client_step (Requested i request answered) s = Some (tt, s') /\
    g_worker_counter s' = Z.of_nat (workers_known (clients s')) + 1.
Proof.
  intros [Hs Hn] Hi [id Hid] Hreq Hop. cbn [client_step]. unfold client_round, mbind at 1, st_bind at 1, st_get. rewrite Hs, Hi. cbn [negb].
  unfold request_round. rewrite (proj2 (Z.eqb_neq _ _) Hop), Hreq. eexists. split; [reflexivity|].
  cbn [g_worker_counter clients on_clients on_open_fds]. pose proof (known_deleted _ _ _ Hi) as H. unfold known in H. rewrite Hid in H. lia.
Qed.

End Rounds.

(** ** Two workers *)

Definition worker_request (op : t_storage_op_code) (fs : list field) : t_package :=
  package_reset_read_offset (snd (package_add_all (package_create_empty (storage_op op)) fs)).

Definition two_workers : list client_event :=
  [Accepted 5 true; Requested 0 (worker_request STORAGE_OP_WORKER_SEND_ID_REQ [F_uint32 7]) true; Accepted 6 true; Accepted 8 false;
   Requested 1 (worker_request STORAGE_OP_WORKER_SEND_ID_REQ [F_uint32 9]) true;
   Requested 0 (worker_request STORAGE_OP_WORKER_GET_BLOCK_SIZE_REQ []) true; Gone 0].

Definition then_event (s : process) (e : client_event) : process :=
  match client_step (small 8) e s with Some (_, s') => s' | None => s end.

Definition one_left : process := foldl then_event (listening 3) two_workers.

Example one_left_is : clients one_left = [MkClientData 6 (Some 9)] /\ g_worker_counter one_left = 1 /\ open_fds one_left = {[3; 6]}.
Proof. vm_compute. auto. Qed.

Lemma then_run ok s e :
  client_run (small 8) ok 3 s -> may_happen e s -> ok e s -> bool_decide (is_Some (client_step (small 8) e s)) = true ->
  client_run (small 8) ok 3 (then_event s e).
Proof.
  intros Hr Hm Hok H. unfold then_event. destruct (client_step (small 8) e s) as [[[] s']|] eqn:E.
  - by eapply client_event_run.
  - exact Hr.
Defined.

Lemma one_left_run : client_run (small 8) (proper (small 8)) 3 one_left.
Proof.
  unfold one_left. cbn [two_workers foldl].
  repeat (apply then_run; [| | |vm_compute; reflexivity]); [apply client_start|..].
  all: try (intros c Hc; vm_compute in Hc; injection Hc as <-; vm_compute; repeat split; by eexists).
  all: try (split; [reflexivity|right; split; [lia|apply (bool_decide_unpack _); vm_compute; exact I]]).
  all: try (eexists; vm_compute; reflexivity).
  all: try (cbn; lia).
Defined.

Lemma clients_accounted_witness : owned 3 one_left /\ g_worker_counter one_left = Z.of_nat (workers_known (clients one_left)).
Proof.
  destruct (clients_accounted (small 8) 3 one_left) as [H1 H2]. split.
  - apply H1. assert (H : forall s, client_run (small 8) (proper (small 8)) 3 s -> client_run (small 8) (fun _ _ => True) 3 s).
    { intros s. induction 1 as [|e s s' Hr IH Hm Hp E]; [apply client_start|by eapply client_event_run]. }
    apply H, one_left_run.
  - apply H2, one_left_run.
Defined.
