(* ===== verification/StorageLocks.v ===== *)
(** * The locks of the files of the Storage (storage/src/file_locks.c)

    A read-write lock for each File:Tag in use, made by the first thread that asks
    for it and destroyed by the last one that leaves it, as the counter of its
    references says.  The operations of the Storage have their calls of these
    functions commented out; this is what the functions do when threads call them
    in pairs.

    A thread is at a point of its code between two critical sections of the mutex
    of the dictionary; a thread that locks two files is two of the threads here. *)

From S2P Require Import Prelude.

(** ** Data *)

(** The lock of the pthreads library: whether a writer has it, and how many
    readers do. *)
Record rwlock := MkRwlock { writer : bool; readers : Z }.

Record t_file_mutex := MkFileMutex { mutex : rwlock; ref_count : Z }.

(** What both functions take. *)
Record file := MkFile { name : string; tag : string }.

Definition key (f : file) : string := (name f +:+ ":" +:+ tag f)%string.

(** Where a thread is: in neither function; at the [pthread_rwlock_...lock] of the
    lock it has counted itself in; back from [lock_file], with the lock or, when
    [pthread_rwlock_init] failed, without; and in [unlock_file], before the unlock
    and before the second critical section. *)
Inductive point :=
| Out
| Waiting (f : file) (fm : positive) (for_write : bool)
| Back (f : file) (held : option bool)
| Unlocking (f : file) (fm : positive) (held : option bool)
| Leaving (f : file) (fm : positive).

(** [g_open_files_dict], the blocks it points to, and the threads. *)
Record locks := MkLocks {
  open_files : gmap string positive;
  heap : gmap positive t_file_mutex;
  next_fm : positive;
  threads : gmap nat point
}.

Abbreviation L := (ST locks).

Definition point_of (st : locks) (t : nat) : point := default Out (threads st !! t).

Definition on_open_files f st := MkLocks (f (open_files st)) (heap st) (next_fm st) (threads st).
Definition on_heap f st := MkLocks (open_files st) (f (heap st)) (next_fm st) (threads st).
Definition on_threads f st := MkLocks (open_files st) (heap st) (next_fm st) (f (threads st)).

Definition go (t : nat) (p : point) : L unit := st_modify (on_threads <[t := p]>).

(** A use of the block at [fm], undefined once it is freed. *)
Definition use {A} (fm : positive) (f : t_file_mutex -> option (A * t_file_mutex)) : L A := fun st =>
  match heap st !! fm with
  | None => None
  | Some m => match f m with Some (a, m') => Some (a, on_heap <[fm := m']> st) | None => None end
  end.

Definition malloc_file_mutex : L positive := fun st =>
  Some (next_fm st, MkLocks (open_files st) (<[next_fm st := MkFileMutex (MkRwlock false 0) 0]> (heap st))
                      (Pos.succ (next_fm st)) (threads st)).

(** ** Read-write locks *)

Definition rwlock_free (for_write : bool) (l : rwlock) : bool :=
  negb (writer l) && (negb for_write || (readers l =? 0)).

Definition rwlock_lock (for_write : bool) (l : rwlock) : rwlock :=
  if for_write then MkRwlock true (readers l) else MkRwlock (writer l) (readers l + 1).

(** Undefined for a thread that does not have the lock. *)
Definition rwlock_unlock (held : option bool) (l : rwlock) : option rwlock :=
  match held with
  | None => None
  | Some true => if writer l then Some (MkRwlock false (readers l)) else None
  | Some false => if 0 <? readers l then Some (MkRwlock (writer l) (readers l - 1)) else None
  end.

(** Undefined for a lock that somebody has. *)
Definition rwlock_destroy (l : rwlock) : option unit :=
  if writer l || (0 <? readers l) then None else Some tt.

(** ** The functions *)

(** [lock_file] up to its unlock of the dictionary; [init_ok] is what
    [pthread_rwlock_init] answers. *)
Definition lock_file (t : nat) (f : file) (for_write init_ok : bool) : L unit :=
  let enter fm :=
    (use fm (fun m => if ref_count m =? 2 ^ 31 - 1 then None else Some (tt, MkFileMutex (mutex m) (ref_count m + 1)));;
     go t (Waiting f fm for_write)) in
  d ← st_gets open_files;
  match d !! key f with
  | Some fm => enter fm
  | None =>
      if negb init_ok then go t (Back f None) else
      fm ← malloc_file_mutex;
      st_modify (on_open_files <[key f := fm]>);;
      enter fm
  end.

(** The lock itself, when it is free. *)
Definition lock_rwlock (t : nat) (f : file) (fm : positive) (for_write : bool) : L unit :=
  use fm (fun m => Some (tt, MkFileMutex (rwlock_lock for_write (mutex m)) (ref_count m)));;
  go t (Back f (Some for_write)).

(** [unlock_file] up to its first unlock of the dictionary; the assertion fails
    when there is no such lock. *)
Definition unlock_file (t : nat) (f : file) (held : option bool) : L unit :=
  d ← st_gets open_files;
  match d !! key f with
  | None => st_ub
  | Some fm => go t (Unlocking f fm held)
  end.

Definition unlock_rwlock (t : nat) (f : file) (fm : positive) (held : option bool) : L unit :=
  use fm (fun m => match rwlock_unlock held (mutex m) with
                   | Some l => Some (tt, MkFileMutex l (ref_count m))
                   | None => None
                   end);;
  go t (Leaving f fm).

(** [pthread_rwlock_destroy] and [free]. *)
Definition destroy_file_mutex (fm : positive) : L unit :=
  use fm (fun m => match rwlock_destroy (mutex m) with Some _ => Some (tt, m) | None => None end);;
  st_modify (on_heap (delete fm)).

(** The second critical section of [unlock_file]. *)
Definition drop_reference (t : nat) (f : file) (fm : positive) : L unit :=
  count ← use fm (fun m => Some (ref_count m - 1, MkFileMutex (mutex m) (ref_count m - 1)));
  (if count =? 0 then
     d ← st_gets open_files;
     match d !! key f with
     | None => st_ub
     | Some removed_fm => st_modify (on_open_files (delete (key f)));; destroy_file_mutex removed_fm
     end
   else mret tt);;
  go t Out.

(** [dictionary_iterator] over the locks that are left, and the end of the dictionary. *)
Fixpoint destroy_all (fms : list positive) : L unit :=
  match fms with
  | [] => mret tt
  | fm :: fms => destroy_file_mutex fm;; destroy_all fms
  end.

Definition cleanup_file_sync : L unit :=
  d ← st_gets open_files;
  destroy_all (snd <$> map_to_list d);;
  st_modify (on_open_files (fun _ => ∅)).

(** ** Runs *)

(** A thread outside may lock a file; any other goes on. *)
Inductive action := Lock (f : file) (for_write init_ok : bool) | Go.

(** Whether a thread can act: one that waits does when the lock is free. *)
Definition enabled (st : locks) (t : nat) (a : action) : bool :=
  match point_of st t, a with
  | Out, Lock _ _ _ => true
  | Waiting _ fm for_write, Go => match heap st !! fm with Some m => rwlock_free for_write (mutex m) | None => true end
  | (Back _ _ | Unlocking _ _ _ | Leaving _ _), Go => true
  | _, _ => false
  end.

Definition thread (t : nat) (a : action) : L unit :=
  p ← st_gets (fun st => point_of st t);
  match p, a with
  | Out, Lock f for_write init_ok => lock_file t f for_write init_ok
  | Waiting f fm for_write, Go => lock_rwlock t f fm for_write
  | Back f held, Go => unlock_file t f held
  | Unlocking f fm held, Go => unlock_rwlock t f fm held
  | Leaving f fm, Go => drop_reference t f fm
  | _, _ => mret tt
  end.

(** No result for what is undefined, or aborts. *)
Definition step (t : nat) (a : action) (st : locks) : option locks :=
  if enabled st t a then snd <$> thread t a st else None.

Definition no_locks : locks := MkLocks ∅ ∅ 1 ∅.

(** [init_ok] of an action. *)
Definition created (a : action) : bool := match a with Lock _ _ init_ok => init_ok | Go => true end.

(** The runs in which [pthread_rwlock_init] does not fail. *)
Inductive reachable : locks -> Prop :=
| reach_start : reachable no_locks
| reach_step st t a st' : reachable st -> created a = true -> step t a st = Some st' -> reachable st'.
