(* ===== verification/StorageLocksSpec.v ===== *)
(** * What the locks of the files promise (theorems about StorageLocks.v)

    The counter of a lock is the number of threads that use it, so it is freed when
    the last one leaves and never before; a writer has its file for itself; and
    threads that only ask for one file at a time all get out. *)

From S2P Require Import Prelude StorageLocks.

(** ** Counting threads *)

Section Counting.
Implicit Types (P Q : point -> bool) (ts : gmap nat point) (p : point).

Definition count P ts : Z := map_fold (fun _ p n => Z.b2z (P p) + n) 0 ts.

Lemma count_delete P ts t p : ts !! t = Some p -> count P ts = Z.b2z (P p) + count P (delete t ts).
Proof. intros E. unfold count. apply (map_fold_delete_L (fun _ p n => Z.b2z (P p) + n) 0 t p ts); [intros; lia|done]. Qed.

Lemma count_fresh P ts t p : ts !! t = None -> count P (<[t := p]> ts) = Z.b2z (P p) + count P ts.
Proof. intros E. unfold count. apply (map_fold_insert_L (fun _ p n => Z.b2z (P p) + n)); [intros; lia|done]. Qed.

(** Threads that are not in the map are out. *)
Lemma count_insert P ts t p :
  P Out = false -> count P (<[t := p]> ts) = count P ts - Z.b2z (P (default Out (ts !! t))) + Z.b2z (P p).
Proof.
  intros HP. rewrite <- insert_delete_eq, count_fresh by apply lookup_delete_eq.
  destruct (ts !! t) as [p0|] eqn:E; cbn [default from_option id].
  - rewrite (count_delete P ts t p0 E). lia.
  - rewrite delete_id by done. rewrite HP. cbn [Z.b2z]. lia.
Qed.

Lemma count_le P Q ts : (forall p, P p = true -> Q p = true) -> 0 <= count P ts <= count Q ts.
Proof.
  intros H. induction ts as [|t p ts E IH] using map_ind; [done|]. rewrite !count_fresh by done.
  specialize (H p). destruct (P p), (Q p); cbn [Z.b2z]; (lia || by destruct H).
Qed.

Lemma count_nonneg P ts : 0 <= count P ts.
Proof. by apply (count_le P P). Qed.

Lemma count_size P ts : count P ts <= Z.of_nat (size ts).
Proof.
  induction ts as [|t p ts E IH] using map_ind; [done|]. rewrite count_fresh, map_size_insert_None by done.
  destruct (P p); cbn [Z.b2z]; lia.
Qed.

Lemma count_in P ts t : P Out = false -> P (default Out (ts !! t)) = true -> 0 < count P ts.
Proof.
  intros HP H. destruct (ts !! t) as [p|] eqn:E; cbn [default from_option id] in H; [|congruence].
  rewrite (count_delete P ts t p E), H. pose proof (count_nonneg P (delete t ts)). cbn [Z.b2z]. lia.
Qed.

Lemma count_two P ts t t' :
  P Out = false -> t <> t' -> P (default Out (ts !! t)) = true -> P (default Out (ts !! t')) = true -> 1 < count P ts.
Proof.
  intros HP Hne H H'. destruct (ts !! t) as [p|] eqn:E; cbn [default from_option id] in H; [|congruence].
  rewrite (count_delete P ts t p E), H. enough (0 < count P (delete t ts)) by (cbn [Z.b2z]; lia).
  apply (count_in P _ t'); [done|]. by rewrite lookup_delete_ne.
Qed.

Lemma count_some P ts : P Out = false -> 0 < count P ts -> exists t, P (default Out (ts !! t)) = true.
Proof.
  intros HP. induction ts as [|t p ts E IH] using map_ind; [done|]. rewrite count_fresh by done. destruct (P p) eqn:Ep; cbn [Z.b2z].
  - intros _. exists t. by rewrite lookup_insert_eq.
  - intros H. destruct IH as [t' H']; [lia|]. exists t'. destruct (decide (t = t')) as [<-|Hne]; [|by rewrite lookup_insert_ne].
    rewrite E in H'. cbn [default from_option id] in H'. congruence.
Qed.

End Counting.

(** ** The invariant *)

Definition file_of (p : point) : option file :=
  match p with
  | Out | Back _ None => None
  | Waiting f _ _ | Back f (Some _) | Unlocking f _ _ | Leaving f _ => Some f
  end.

(** The block a thread remembers. *)
Definition pointer_of (p : point) : option positive :=
  match p with Out | Back _ _ => None | Waiting _ fm _ | Unlocking _ fm _ | Leaving _ fm => Some fm end.

(** The lock a thread has. *)
Definition held_of (p : point) : option bool :=
  match p with Back _ h | Unlocking _ _ h => h | _ => None end.

Definition uses (k : string) (p : point) : bool :=
  match file_of p with Some f => String.eqb (key f) k | None => false end.
Definition has (k : string) (w : bool) (p : point) : bool :=
  uses k p && match held_of p with Some w' => Bool.eqb w w' | None => false end.

(** A thread that should have a lock has it. *)
Definition has_its_lock (p : point) : Prop :=
  match p with Back _ None | Unlocking _ _ None => False | _ => True end.

(** The block of [k] says what the threads [ts] do. *)
Record agrees (ts : gmap nat point) (k : string) (m : t_file_mutex) : Prop := {
  agrees_count : ref_count m = count (uses k) ts;
  agrees_readers : readers (mutex m) = count (has k false) ts;
  agrees_writer : Z.b2z (writer (mutex m)) = count (has k true) ts;
  agrees_alone : writer (mutex m) = true -> readers (mutex m) = 0
}.

Record sound (st : locks) : Prop := {
  sound_pointer : forall t f fm, file_of (point_of st t) = Some f -> pointer_of (point_of st t) = Some fm ->
    open_files st !! key f = Some fm;
  sound_held : forall t, has_its_lock (point_of st t);
  sound_open : forall k fm, open_files st !! k = Some fm ->
    exists m, heap st !! fm = Some m /\ agrees (threads st) k m /\ 0 < ref_count m;
  sound_used : forall k, 0 < count (uses k) (threads st) -> is_Some (open_files st !! k);
  sound_apart : forall k k' fm, open_files st !! k = Some fm -> open_files st !! k' = Some fm -> k = k';
  sound_live : forall fm m, heap st !! fm = Some m -> (fm < next_fm st)%positive /\ exists k, open_files st !! k = Some fm
}.

Lemma uses_key k p f : file_of p = Some f -> uses k p = String.eqb (key f) k.
Proof. unfold uses. by intros ->. Qed.

Lemma has_uses k w p : has k w p = true -> uses k p = true.
Proof. unfold has. by intros [H _]%andb_true_iff. Qed.

Lemma has_le k w ts : 0 <= count (has k w) ts <= count (uses k) ts.
Proof. apply count_le. intros p. apply has_uses. Qed.

Lemma point_of_insert st t p t' d h n :
  point_of (MkLocks d h n (<[t := p]> (threads st))) t' = if decide (t = t') then p else point_of st t'.
Proof.
  unfold point_of. cbn [threads]. destruct (decide (t = t')) as [<-|Hne]; [by rewrite lookup_insert_eq|by rewrite lookup_insert_ne].
Qed.

(** A thread that is about no other file than [f]. *)
Definition about (f : file) (p : point) : Prop := match file_of p with Some g => key g = key f | None => True end.

Lemma about_other f p k : about f p -> k <> key f -> uses k p = false.
Proof.
  unfold about, uses. destruct (file_of p) as [g|]; [|done]. intros ->. intros Hne. by apply String.eqb_neq.
Qed.

(** The other files do not see it move. *)
Lemma agrees_other ts t f p k m :
  about f (default Out (ts !! t)) -> about f p -> k <> key f -> agrees ts k m -> agrees (<[t := p]> ts) k m.
Proof.
  intros H H' Hne [A1 A2 A3 A4].
  assert (Hu : forall P : point -> bool, (forall q, P q = true -> uses k q = true) -> P Out = false ->
            count P (<[t := p]> ts) = count P ts).
  { intros P HP H0. rewrite count_insert by done.
    assert (Hf : forall q, about f q -> P q = false).
    { intros q Hq. destruct (P q) eqn:E; [|done]. apply HP in E. by rewrite (about_other f q k Hq Hne) in E. }
    rewrite !Hf by done. cbn [Z.b2z]. lia. }
  split; [rewrite Hu; [done|by intros|done]| | |done]; (rewrite Hu; [done|intros q; apply has_uses|done]).
Qed.

(** A thread moves and the block of its file follows. *)
Lemma sound_move st t f p fm m m' :
  sound st -> open_files st !! key f = Some fm ->
  about f (point_of st t) -> about f p -> has_its_lock p -> pointer_of p = None \/ pointer_of p = Some fm ->
  agrees (<[t := p]> (threads st)) (key f) m' -> 0 < ref_count m' ->
  heap st !! fm = Some m ->
  sound (MkLocks (open_files st) (<[fm := m']> (heap st)) (next_fm st) (<[t := p]> (threads st))).
Proof.
  intros Hs Ek Ha Ha' Hl Hp Hm Hr Em. split; cbn [open_files heap next_fm threads].
  - intros t' g fm'. rewrite point_of_insert. destruct (decide (t = t')); [|by apply Hs].
    intros Eg Efm. unfold about in Ha'. rewrite Eg in Ha'. rewrite Ha'. destruct Hp; congruence.
  - intros t'. rewrite point_of_insert. destruct (decide (t = t')); [done|by apply Hs].
  - intros k fm' E. destruct (decide (k = key f)) as [->|Hne].
    + assert (fm' = fm) as -> by congruence. exists m'. by rewrite lookup_insert_eq.
    + destruct (sound_open _ Hs k fm' E) as (m0 & E0 & H0 & H0'). exists m0.
      rewrite lookup_insert_ne by (intros ->; destruct Hne; by eapply sound_apart). split; [done|]. split; [|done].
      by apply (agrees_other _ _ f).
  - intros k Hk. destruct (decide (k = key f)) as [->|Hne]; [by eexists|]. apply (sound_used _ Hs).
    rewrite count_insert in Hk by done. fold (point_of st t) in Hk. rewrite (about_other f _ k Ha Hne), (about_other f p k Ha' Hne) in Hk.
    cbn [Z.b2z] in Hk. lia.
  - apply Hs.
  - intros fm' m0. destruct (decide (fm = fm')) as [<-|Hne].
    + intros _. split; [by eapply sound_live|by eexists].
    + rewrite lookup_insert_ne by done. apply Hs.
Qed.

(** ** The steps keep it *)

Lemma uses_self f p : file_of p = Some f -> uses (key f) p = true.
Proof. intros E. rewrite (uses_key _ _ f E). apply String.eqb_refl. Qed.

Lemma has_self f w p :
  file_of p = Some f -> has (key f) w p = match held_of p with Some w' => Bool.eqb w w' | None => false end.
Proof. intros E. unfold has. by rewrite (uses_self f). Qed.

(** The counters after a move of [t], at points the goal shows. *)
Ltac recount Ep :=
  split; cbn [ref_count mutex readers writer];
  rewrite ?count_insert by done;
  repeat match goal with |- context [default Out (threads ?st !! ?t)] => change (default Out (threads st !! t)) with (point_of st t) end;
  rewrite ?Ep;
  repeat match goal with
  | |- context [Z.b2z (uses (key ?f) ?p)] => first [change (uses (key f) p) with false | rewrite (uses_self f p eq_refl)]
  | |- context [Z.b2z (has (key ?f) ?w ?p)] => first [change (has (key f) w p) with false | rewrite (has_self f w p eq_refl)]
  end; cbn [held_of Bool.eqb Z.b2z].

Lemma wp_use {A} fm (f : t_file_mutex -> option (A * t_file_mutex)) (Q : A -> locks -> Prop) st m a m' :
  heap st !! fm = Some m -> f m = Some (a, m') -> Q a (on_heap <[fm := m']> st) -> wp (use fm f) Q st.
Proof. intros E E' HQ. unfold wp, use. by rewrite E, E'. Qed.

Lemma enter_sound st t f fm m w :
  sound st -> point_of st t = Out -> open_files st !! key f = Some fm -> heap st !! fm = Some m -> agrees (threads st) (key f) m ->
  sound (MkLocks (open_files st) (<[fm := MkFileMutex (mutex m) (ref_count m + 1)]> (heap st)) (next_fm st)
           (<[t := Waiting f fm w]> (threads st))).
Proof.
  intros Hs Ep Ek Em [A1 A2 A3 A4]. pose proof (count_nonneg (uses (key f)) (threads st)).
  apply (sound_move st t f _ fm m); try done; [by rewrite Ep|by right| |cbn; lia]. recount Ep; done || lia.
Qed.

(** The block of a file nobody uses. *)
Lemma new_sound st t f w :
  sound st -> point_of st t = Out -> open_files st !! key f = None ->
  sound (MkLocks (<[key f := next_fm st]> (open_files st))
           (<[next_fm st := MkFileMutex (MkRwlock false 0) 1]> (heap st)) (Pos.succ (next_fm st))
           (<[t := Waiting f (next_fm st) w]> (threads st))).
Proof.
  intros Hs Ep Ek.
  assert (Hfresh : forall k fm, open_files st !! k = Some fm -> fm <> next_fm st).
  { intros k fm E ->. destruct (sound_open _ Hs k _ E) as (m & Em & _). apply Hs in Em. lia. }
  assert (H0 : count (uses (key f)) (threads st) = 0).
  { destruct (Z.eq_dec (count (uses (key f)) (threads st)) 0); [done|]. destruct (sound_used _ Hs (key f)) as [fm E]; [|congruence].
    pose proof (count_nonneg (uses (key f)) (threads st)). lia. }
  pose proof (has_le (key f) true (threads st)). pose proof (has_le (key f) false (threads st)).
  assert (Hout : about f (point_of st t)) by by rewrite Ep.
  split; cbn [open_files heap next_fm threads].
  - intros t' g fm. rewrite point_of_insert. destruct (decide (t = t')).
    + intros [= <-] [= <-]. apply lookup_insert_eq.
    + intros Eg Efm. assert (E := sound_pointer _ Hs t' g fm Eg Efm). rewrite lookup_insert_ne; [done|]. intros Heq. congruence.
  - intros t'. rewrite point_of_insert. destruct (decide (t = t')); [done|by apply Hs].
  - intros k fm. destruct (decide (k = key f)) as [->|Hne].
    + rewrite lookup_insert_eq. intros [= <-]. exists (MkFileMutex (MkRwlock false 0) 1). rewrite lookup_insert_eq.
      split; [done|]. split; [|done]. recount Ep; done || lia.
    + rewrite lookup_insert_ne by congruence. intros E. destruct (sound_open _ Hs k fm E) as (m & Em & Hm & Hr). exists m.
      rewrite lookup_insert_ne by (intros <-; by eapply Hfresh). split; [done|]. split; [|done]. by apply (agrees_other _ _ f).
  - intros k Hk. destruct (decide (k = key f)) as [->|Hne]; [rewrite lookup_insert_eq; by eexists|].
    rewrite lookup_insert_ne by congruence. apply (sound_used _ Hs). rewrite count_insert in Hk by done.
    fold (point_of st t) in Hk. rewrite Ep in Hk. rewrite (about_other f (Waiting f (next_fm st) w) k) in Hk by done. cbn [Z.b2z uses file_of] in Hk. lia.
  - intros k k' fm. destruct (decide (k = key f)) as [->|Hne], (decide (k' = key f)) as [->|Hne'];
      rewrite ?lookup_insert_eq, ?lookup_insert_ne by congruence; try done; [intros [= <-] E|intros E [= <-]|apply Hs]; by apply Hfresh in E.
  - intros fm m. destruct (decide (fm = next_fm st)) as [->|Hne].
    + intros _. split; [lia|]. exists (key f). apply lookup_insert_eq.
    + rewrite lookup_insert_ne by done. intros Em. destruct (sound_live _ Hs fm m Em) as [Hlt [k Ek']]. split; [lia|].
      exists k. rewrite lookup_insert_ne; [done|]. intros <-. congruence.
Qed.

(** The last thread takes the lock with it. *)
Lemma last_sound st t f fm :
  sound st -> point_of st t = Leaving f fm -> count (uses (key f)) (threads st) = 1 ->
  sound (MkLocks (delete (key f) (open_files st)) (delete fm (heap st)) (next_fm st) (<[t := Out]> (threads st))).
Proof.
  intros Hs Ep H1. assert (Ek := sound_pointer _ Hs t f fm ltac:(by rewrite Ep) ltac:(by rewrite Ep)).
  assert (Ha : about f (point_of st t)) by by rewrite Ep.
  assert (Hc : forall k, count (uses k) (<[t := Out]> (threads st)) = count (uses k) (threads st) - Z.b2z (String.eqb (key f) k)).
  { intros k. rewrite count_insert by done. fold (point_of st t). rewrite Ep. unfold uses at 2 3. cbn [file_of Z.b2z]. lia. }
  split; cbn [open_files heap next_fm threads].
  - intros t' g fm'. rewrite point_of_insert. destruct (decide (t = t')); [done|]. intros Eg Efm.
    rewrite lookup_delete_ne; [by apply (sound_pointer _ Hs t')|]. intros Heq.
    assert (H2 : 1 < count (uses (key f)) (threads st)); [|lia].
    apply (count_two _ _ t t'); [done|done| |].
    + fold (point_of st t). rewrite Ep. apply String.eqb_refl.
    + fold (point_of st t'). rewrite (uses_key _ _ g Eg), <- Heq. apply String.eqb_refl.
  - intros t'. rewrite point_of_insert. destruct (decide (t = t')); [done|by apply Hs].
  - intros k fm' [Hne E]%lookup_delete_Some. destruct (sound_open _ Hs k fm' E) as (m & Em & Hm & Hr). exists m.
    rewrite lookup_delete_ne by (intros <-; destruct Hne; by eapply sound_apart). split; [done|]. split; [|done]. by apply (agrees_other _ _ f).
  - intros k Hk. rewrite Hc in Hk. destruct (decide (key f = k)) as [Heq|Hne].
    + subst k. rewrite String.eqb_refl in Hk. cbn [Z.b2z] in Hk. lia.
    + apply String.eqb_neq in Hne as E. rewrite E in Hk. cbn [Z.b2z] in Hk. rewrite lookup_delete_ne by done. apply (sound_used _ Hs). lia.
  - intros k k' fm' [_ E]%lookup_delete_Some [_ E']%lookup_delete_Some. by eapply sound_apart.
  - intros fm' m [Hne Em]%lookup_delete_Some. destruct (sound_live _ Hs fm' m Em) as [Hlt [k Ek']]. split; [done|]. exists k.
    rewrite lookup_delete_ne; [done|]. intros <-. congruence.
Qed.

(** A thread with a block finds it in its file's entry, counted. *)
Lemma sound_at st t f fm :
  sound st -> file_of (point_of st t) = Some f -> pointer_of (point_of st t) = Some fm ->
  open_files st !! key f = Some fm /\ exists m, heap st !! fm = Some m /\ agrees (threads st) (key f) m /\ 0 < ref_count m.
Proof.
  intros Hs Ef Efm. assert (Ek := sound_pointer _ Hs t f fm Ef Efm). split; [done|]. by apply (sound_open _ Hs).
Qed.

Lemma used_at st t f : file_of (point_of st t) = Some f -> 0 < count (uses (key f)) (threads st).
Proof. intros E. apply (count_in _ _ t); [done|]. by apply uses_self. Qed.

Lemma held_at st t f w :
  file_of (point_of st t) = Some f -> held_of (point_of st t) = Some w -> 0 < count (has (key f) w) (threads st).
Proof.
  intros Ef Ew. apply (count_in _ _ t); [done|]. fold (point_of st t). rewrite (has_self f w _ Ef), Ew. apply Bool.eqb_reflx.
Qed.

(** The counter of the file has room for one more. *)
Definition room (st : locks) (a : action) : Prop :=
  match a with
  | Lock f _ _ => forall fm m, open_files st !! key f = Some fm -> heap st !! fm = Some m -> ref_count m <> 2 ^ 31 - 1
  | Go => True
  end.

Lemma lock_file_wp st t f w :
  sound st -> point_of st t = Out -> room st (Lock f w true) -> wp (lock_file t f w true) (fun _ => sound) st.
Proof.
  intros Hs Ep Hroom. unfold lock_file. apply wp_bind, wp_gets. destruct (open_files st !! key f) as [fm|] eqn:Ek.
  - destruct (sound_open _ Hs _ _ Ek) as (m & Em & Hm & Hr). apply wp_bind.
    eapply (wp_use _ _ _ _ m tt); [done| |].
    { destruct (Z.eqb_spec (ref_count m) (2 ^ 31 - 1)) as [E|]; [by destruct (Hroom fm m Ek Em)|done]. }
    apply wp_modify. unfold on_threads, on_heap. cbn [open_files heap next_fm threads]. by apply enter_sound.
  - cbn [negb]. apply wp_bind. eapply wp_intro; [done|]. apply wp_bind, wp_modify, wp_bind.
    eapply (wp_use _ _ _ _ (MkFileMutex (MkRwlock false 0) 0) tt); [by apply lookup_insert_eq|done|].
    apply wp_modify. unfold on_threads, on_heap, on_open_files. cbn [open_files heap next_fm threads mutex ref_count].
    rewrite insert_insert_eq. by apply new_sound.
Qed.

Lemma lock_rwlock_wp st t f fm w m :
  sound st -> point_of st t = Waiting f fm w -> heap st !! fm = Some m -> rwlock_free w (mutex m) = true ->
  wp (lock_rwlock t f fm w) (fun _ => sound) st.
Proof.
  intros Hs Ep Em Hf. destruct (sound_at st t f fm Hs) as (Ek & m0 & Em0 & Hm & Hr); [by rewrite Ep..|].
  assert (m0 = m) as -> by congruence. apply wp_bind. eapply wp_use; [done|done|]. apply wp_modify. unfold on_threads, on_heap.
  cbn [open_files heap next_fm threads].
  apply (sound_move st t f _ fm m); try done; [by rewrite Ep|by left|].
  destruct Hm as [A1 A2 A3 A4]. unfold rwlock_free in Hf. apply andb_true_iff in Hf as [Hw Hr0].
  destruct (writer (mutex m)) eqn:Ew; [done|]. cbn [Z.b2z] in A3.
  destruct w; cbn [rwlock_lock]; recount Ep; rewrite ?Ew; cbn [negb orb Z.b2z] in *; lia || done.
Qed.

Lemma unlock_file_wp st t f w :
  sound st -> point_of st t = Back f (Some w) -> wp (unlock_file t f (Some w)) (fun _ => sound) st.
Proof.
  intros Hs Ep. unfold unlock_file. apply wp_bind, wp_gets.
  destruct (sound_used _ Hs (key f)) as [fm Ek]; [apply (used_at st t); by rewrite Ep|].
  destruct (sound_open _ Hs _ _ Ek) as (m & Em & Hm & Hr). rewrite Ek. apply wp_modify. unfold on_threads.
  rewrite <- (insert_id (heap st) fm m Em). apply (sound_move st t f _ fm m); try done; [by rewrite Ep|by right|].
  destruct Hm as [A1 A2 A3 A4]. destruct w; recount Ep; lia || done.
Qed.

Lemma unlock_rwlock_wp st t f fm w :
  sound st -> point_of st t = Unlocking f fm (Some w) -> wp (unlock_rwlock t f fm (Some w)) (fun _ => sound) st.
Proof.
  intros Hs Ep. destruct (sound_at st t f fm Hs) as (Ek & m & Em & Hm & Hr); [by rewrite Ep..|].
  assert (Hh : 0 < count (has (key f) w) (threads st)) by (apply (held_at st t); by rewrite Ep).
  destruct Hm as [A1 A2 A3 A4].
  assert (Hun : exists l, rwlock_unlock (Some w) (mutex m) = Some l /\
            agrees (<[t := Leaving f fm]> (threads st)) (key f) (MkFileMutex l (ref_count m))).
  { destruct w; cbn [rwlock_unlock].
    - destruct (writer (mutex m)) eqn:Ew; [|cbn in A3; lia]. eexists. split; [done|]. cbn [Z.b2z] in A3. recount Ep; done || lia.
    - destruct (Z.ltb_spec 0 (readers (mutex m))); [|lia]. eexists. split; [done|]. recount Ep; try (done || lia).
      intros Ew. specialize (A4 Ew). lia. }
  destruct Hun as (l & El & Hm). apply wp_bind. eapply (wp_use _ _ _ _ m tt (MkFileMutex l (ref_count m))); [done|by rewrite El|].
  apply wp_modify. unfold on_threads, on_heap. cbn [open_files heap next_fm threads].
  apply (sound_move st t f _ fm m); try done; [by rewrite Ep|by right].
Qed.

Lemma drop_reference_wp st t f fm :
  sound st -> point_of st t = Leaving f fm -> wp (drop_reference t f fm) (fun _ => sound) st.
Proof.
  intros Hs Ep. destruct (sound_at st t f fm Hs) as (Ek & m & Em & [A1 A2 A3 A4] & Hr); [by rewrite Ep..|].
  apply wp_bind. eapply wp_use; [done|done|]. cbn beta. set (m' := MkFileMutex _ _). set (st1 := on_heap _ _).
  assert (Hout : agrees (<[t := Out]> (threads st)) (key f) m') by (subst m'; recount Ep; done || lia).
  destruct (Z.eqb_spec (ref_count m - 1) 0) as [H0|H0]; apply wp_bind.
  - apply wp_bind, wp_gets. cbn [open_files on_heap st1]. rewrite Ek. apply wp_bind, wp_modify, wp_bind.
    eapply (wp_use _ _ _ _ m' tt); [apply lookup_insert_eq| |].
    { unfold rwlock_destroy. pose proof (has_le (key f) true (threads st)) as Hw. pose proof (has_le (key f) false (threads st)) as Hd.
      assert (H1 : forall w, count (has (key f) w) (threads st) = 0).
      { intros w. pose proof (has_le (key f) w (<[t := Out]> (threads st))) as Hle. destruct Hout as [B1 _ _ _].
        rewrite count_insert in Hle by done. fold (point_of st t) in Hle. rewrite Ep in Hle.
        change (has (key f) w (Leaving f fm)) with (uses (key f) (Leaving f fm) && false) in Hle. rewrite andb_false_r in Hle.
        rewrite <- B1 in Hle. change (has (key f) w Out) with false in Hle. cbn [Z.b2z m' ref_count] in Hle. lia. }
      rewrite !H1 in *. cbn [m' mutex]. destruct (writer (mutex m)); [done|]. by rewrite A2. }
    apply wp_modify, wp_modify. unfold st1, on_threads, on_heap, on_open_files. cbn [open_files heap next_fm threads].
    rewrite insert_insert_eq, delete_insert_eq. apply last_sound; [done..|lia].
  - apply wp_ret, wp_modify. unfold st1, on_threads, on_heap. cbn [open_files heap next_fm threads].
    apply (sound_move st t f _ fm m); try done; [by rewrite Ep|by left|cbn; lia].
Qed.

Lemma thread_wp st t a :
  sound st -> created a = true -> enabled st t a = true -> room st a -> wp (thread t a) (fun _ => sound) st.
Proof.
  intros Hs Hc He Hroom. unfold thread, enabled in *. apply wp_bind, wp_gets.
  pose proof (sound_held _ Hs t) as Hl. destruct (point_of st t) as [|f fm w|f [w|]|f fm [w|]|f fm] eqn:Ep, a as [g w' ok|]; try done.
  - cbn in Hc. subst ok. by apply lock_file_wp.
  - destruct (sound_at st t f fm Hs) as (_ & m & Em & _); [by rewrite Ep..|]. rewrite Em in He. by eapply lock_rwlock_wp.
  - by apply unlock_file_wp.
  - by apply unlock_rwlock_wp.
  - by apply drop_reference_wp.
Qed.

Lemma step_thread st t a st' : step t a st = Some st' -> enabled st t a = true /\ exists u, thread t a st = Some (u, st').
Proof.
  unfold step. destruct (enabled st t a); [|done]. destruct (thread t a st) as [[u st1]|]; [|done]. intros [= <-]. eauto.
Qed.

Lemma step_room st t a st' : step t a st = Some st' -> room st a.
Proof.
  unfold step, thread, enabled. destruct a as [f w ok|]; [|done]. destruct (point_of st t) eqn:Ep; try done.
  intros E fm m Ek Em Hmax. unfold mbind at 1, st_bind, st_gets in E. rewrite Ep in E. unfold lock_file, mbind, st_bind, st_gets in E.
  rewrite Ek in E. unfold use in E. rewrite Em, Hmax in E. done.
Qed.

Lemma step_sound st t a st' : sound st -> created a = true -> step t a st = Some st' -> sound st'.
Proof.
  intros Hs Hc E. pose proof (step_room st t a st' E) as Hroom. unfold step in E.
  destruct (enabled st t a) eqn:He; [|done]. destruct (wp_run _ _ _ (thread_wp st t a Hs Hc He Hroom)) as ([] & st1 & E1 & H1).
  rewrite E1 in E. by injection E as <-.
Qed.

Lemma no_locks_sound : sound no_locks.
Proof.
  split; cbn; try done; intros t; unfold point_of; cbn; rewrite ?lookup_empty; by intros.
Qed.

Lemma reachable_sound_locks st : reachable st -> sound st.
Proof. induction 1; [apply no_locks_sound|by eapply step_sound]. Qed.

(** ** Everybody gets out *)

(** [m] moves no thread. *)
Definition still {A} (m : L A) : Prop := forall st a st', m st = Some (a, st') -> threads st' = threads st.

Lemma still_bind {A B} (m : L A) (k : A -> L B) : still m -> (forall a, still (k a)) -> still (m ≫= k).
Proof. intros Hm Hk st b st' (a & st1 & E & E')%run_bind. rewrite (Hk _ _ _ _ E'). by eapply Hm. Qed.

Lemma still_use {A} fm (f : t_file_mutex -> option (A * t_file_mutex)) : still (use fm f).
Proof. intros st a st'. unfold use. destruct (heap st !! fm); [|done]. destruct (f _) as [[]|]; [|done]. by intros [= _ <-]. Qed.

Lemma still_destroy fm : still (destroy_file_mutex fm).
Proof. apply still_bind; [apply still_use|]. by intros [] st a st' [= _ <-]. Qed.

Lemma still_go {A} (m : L A) t p st st' a :
  still m -> (_ ← m; go t p) st = Some (a, st') -> threads st' = <[t := p]> (threads st).
Proof. intros Hm (b & st1 & E & [= _ <-])%run_bind. cbn. by rewrite (Hm _ _ _ E). Qed.

(** The steps of [lock_file] and [unlock_file] that are left. *)
Definition left_to_do (p : point) : Z :=
  match p with Out => 0 | Leaving _ _ => 1 | Unlocking _ _ _ => 2 | Back _ _ => 3 | Waiting _ _ _ => 4 end.

Lemma go_moves st t st' :
  step t Go st = Some st' ->
  exists p, threads st' = <[t := p]> (threads st) /\ left_to_do (point_of st t) = left_to_do p + 1.
Proof.
  intros [He [a E1]]%step_thread. unfold enabled in He. unfold thread in E1. apply run_bind in E1 as (p & st1 & [= <- <-] & E1).
  destruct (point_of st t) as [|f fm w|f h|f fm h|f fm] eqn:Ep; try done.
  - eexists. split; [eapply still_go; [|exact E1]; apply still_use|done].
  - apply run_bind in E1 as (d & st1 & [= <- <-] & E1). destruct (open_files st !! key f) as [fm|]; [|done].
    injection E1 as _ <-. by eexists.
  - eexists. split; [eapply still_go; [|exact E1]; apply still_use|done].
  - apply run_bind in E1 as (n & st1 & E2 & E1). exists Out. split; [|done]. rewrite <- (still_use _ _ _ _ _ E2).
    eapply still_go; [|exact E1]. destruct (n =? 0); [|by intros ? ? ? [= _ <-]].
    apply still_bind; [by intros ? ? ? [= _ <-]|]. intros d. destruct (d !! key f); [|done].
    apply still_bind; [by intros ? ? ? [= _ <-]|]. intros _. apply still_destroy.
Qed.

(** [at_least i p]: [i] steps are left or more. *)
Definition at_least (i : Z) (p : point) : bool := i <=? left_to_do p.

Definition work (st : locks) : Z :=
  count (at_least 1) (threads st) + count (at_least 2) (threads st) + count (at_least 3) (threads st) + count (at_least 4) (threads st).

Lemma work_nonneg st : 0 <= work st.
Proof.
  unfold work. pose proof (count_nonneg (at_least 1) (threads st)). pose proof (count_nonneg (at_least 2) (threads st)).
  pose proof (count_nonneg (at_least 3) (threads st)). pose proof (count_nonneg (at_least 4) (threads st)). lia.
Qed.

Lemma go_works st t st' : step t Go st = Some st' -> work st' = work st - 1.
Proof.
  intros (p & Et & Hp)%go_moves. unfold work. rewrite Et, !count_insert by done. fold (point_of st t).
  unfold at_least. destruct (point_of st t), p; cbn [left_to_do] in Hp; try lia; cbn [left_to_do Z.leb Z.compare Pos.compare Pos.compare_cont Z.b2z]; lia.
Qed.

(** Some thread can go on, when some thread is inside. *)
Lemma somebody_goes st t : sound st -> point_of st t <> Out -> exists t', enabled st t' Go = true.
Proof.
  intros Hs Hne. set (past := fun p => match p with Back _ _ | Unlocking _ _ _ | Leaving _ _ => true | _ => false end).
  destruct (Z.eq_dec (count past (threads st)) 0) as [H0|H0].
  - exists t. assert (Hpast : past (point_of st t) = false).
    { destruct (past (point_of st t)) eqn:E; [|done]. pose proof (count_in past (threads st) t eq_refl E). lia. }
    unfold enabled. destruct (point_of st t) as [|f fm w|f h|f fm h|f fm] eqn:Ep; try done.
    destruct (sound_at st t f fm Hs) as (_ & m & Em & [_ A2 A3 _] & _); [by rewrite Ep..|]. rewrite Em.
    assert (Hh : forall w', count (has (key f) w') (threads st) = 0).
    { intros w'. pose proof (count_le (has (key f) w') past (threads st)) as Hle. destruct Hle as [Hle1 Hle2]; [|lia].
      intros q. unfold has, uses. destruct q as [|? ? ?|? [?|]|? ? [?|]|? ?]; cbn; try done; by rewrite ?andb_false_r. }
    rewrite Hh in A2, A3. unfold rwlock_free. destruct (writer (mutex m)); [done|]. rewrite A2. by rewrite orb_true_r.
  - destruct (count_some past (threads st) eq_refl) as [t' H']; [pose proof (count_nonneg past (threads st)); lia|].
    exists t'. unfold enabled. change (past (point_of st t') = true) in H'. by destruct (point_of st t').
Qed.

Fixpoint run (cs : list (nat * action)) (st : locks) : option locks :=
  match cs with
  | [] => Some st
  | (t, a) :: cs => match step t a st with Some st => run cs st | None => None end
  end.

Lemma run_reachable st cs st' :
  reachable st -> Forall (fun c => created c.2 = true) cs -> run cs st = Some st' -> reachable st'.
Proof.
  intros Hr Hcs. revert st Hr. induction Hcs as [|[t a] cs Hc Hcs IH]; intros st Hr; cbn [run]; [by intros [= <-]|].
  destruct (step t a st) as [st1|] eqn:E; [|done]. apply IH. by eapply reach_step.
Qed.

(** Threads go on one after the other. *)
Definition go_on (ts : list nat) : locks -> option locks := run ((fun t => (t, Go)) <$> ts).

Lemma nobody_inside st : sound st -> (forall t, point_of st t = Out) -> open_files st = ∅ /\ heap st = ∅.
Proof.
  intros Hs Hout. assert (Hopen : open_files st = ∅).
  { apply map_empty. intros k. destruct (open_files st !! k) as [fm|] eqn:E; [|done].
    destruct (sound_open _ Hs k fm E) as (m & _ & [A1 _ _ _] & Hr). rewrite A1 in Hr.
    destruct (count_some (uses k) (threads st) eq_refl Hr) as [t Ht]. fold (point_of st t) in Ht. by rewrite Hout in Ht. }
  split; [done|]. apply map_empty. intros fm. destruct (heap st !! fm) as [m|] eqn:E; [|done].
  destruct (sound_live _ Hs fm m E) as [_ [k Ek]]. rewrite Hopen in Ek. done.
Qed.

Lemma drain n st : sound st -> work st = Z.of_nat n ->
  exists ts st', go_on ts st = Some st' /\ length ts = n /\ (forall t, point_of st' t = Out) /\ sound st'.
Proof.
  revert st. induction n as [|n IH]; intros st Hs Hn.
  - exists [], st. split; [done|]. split; [done|]. split; [|done]. intros t. destruct (point_of st t) eqn:Ep; try done.
    all: exfalso; assert (H : 0 < count (at_least 1) (threads st)) by (apply (count_in _ _ t); [done|]; fold (point_of st t); by rewrite Ep).
    all: unfold work in Hn; pose proof (count_nonneg (at_least 2) (threads st)); pose proof (count_nonneg (at_least 3) (threads st));
      pose proof (count_nonneg (at_least 4) (threads st)); lia.
  - assert (Hin : exists t, point_of st t <> Out).
    { assert (H : 0 < count (at_least 1) (threads st)).
      { assert (Hle : forall i, 1 <= i -> count (at_least i) (threads st) <= count (at_least 1) (threads st)).
        { intros i Hi. apply count_le. unfold at_least. intros p H%Z.leb_le. apply Z.leb_le. lia. }
        pose proof (Hle 2 ltac:(lia)). pose proof (Hle 3 ltac:(lia)). pose proof (Hle 4 ltac:(lia)). unfold work in Hn. lia. }
      destruct (count_some _ _ eq_refl H) as [t Ht]. exists t. fold (point_of st t) in Ht. by destruct (point_of st t). }
    destruct Hin as [t Ht]. destruct (somebody_goes st t Hs Ht) as [t' He].
    destruct (wp_run _ _ _ (thread_wp st t' Go Hs eq_refl He I)) as ([] & st1 & E1 & H1).
    assert (E : step t' Go st = Some st1) by (unfold step; by rewrite He, E1).
    destruct (IH st1 H1) as (ts & st' & Er & Hl & Ho); [rewrite (go_works st t' st1 E); lia|].
    exists (t' :: ts), st'. unfold go_on in *. cbn [fmap list_fmap run length]. rewrite E. by rewrite Hl.
Qed.

(** ** The theorems *)

(** A reader of one file and a writer of another, both with their locks. *)
Definition two_threads : locks :=
  default no_locks (run [(1%nat, Lock (MkFile "a" "v1") false true); (1%nat, Go); (2%nat, Lock (MkFile "b" "v1") true true); (2%nat, Go)] no_locks).

Lemma two_threads_reachable : reachable two_threads.
Proof.
  apply (run_reachable no_locks [(1%nat, Lock (MkFile "a" "v1") false true); (1%nat, Go); (2%nat, Lock (MkFile "b" "v1") true true); (2%nat, Go)]).
  - apply reach_start.
  - by repeat constructor.
  - reflexivity.
Qed.

(** C23: A writer has its file for itself.  When one thread is between the lock and the
    unlock of a file for writing, no other thread is for the same file; and
    everybody else's locks are of other keys. *)
Theorem writer_alone st t t' w' f :
  reachable st -> t <> t' ->
  has (key f) true (point_of st t) = true -> has (key f) w' (point_of st t') = false.
Proof.
  intros Hs%reachable_sound_locks Hne Ht. destruct (has (key f) w' (point_of st t')) eqn:Ht'; [|done]. exfalso.
  assert (Hu : 0 < count (uses (key f)) (threads st)).
  { apply (count_in _ _ t); [done|]. by eapply has_uses. }
  destruct (sound_used _ Hs _ Hu) as [fm Ek]. destruct (sound_open _ Hs _ _ Ek) as (m & _ & [_ A2 A3 A4] & _).
  assert (H1 : 0 < count (has (key f) true) (threads st)) by (by apply (count_in _ _ t)).
  destruct (writer (mutex m)) eqn:Ew; [|cbn in A3; lia]. specialize (A4 eq_refl). cbn in A3. destruct w'.
  - pose proof (count_two (has (key f) true) (threads st) t t' eq_refl Hne Ht Ht'). lia.
  - pose proof (count_in (has (key f) false) (threads st) t' eq_refl Ht'). lia.
Qed.

Lemma writer_alone_witness : has "b:v1" false (point_of two_threads 1) = false.
Proof.
  apply (writer_alone two_threads 2 1 false (MkFile "b" "v1") two_threads_reachable); [lia|reflexivity].
Defined.

(** The locks are never used once they are freed, never destroyed while somebody
    has them, and never missing when their threads unlock them: every step that a
    thread can take is defined while less than 2^31 - 1 threads use the file.  But a
    failure of [pthread_rwlock_init] is not reported: the thread goes on without
    the lock, and its own [unlock_file] aborts the program. *)
Theorem file_locks_defined st t a :
  reachable st -> enabled st t a = true ->
  (created a = true -> (forall k, count (uses k) (threads st) < 2 ^ 31 - 1) -> is_Some (step t a st)) /\
  (forall f w, a = Lock f w false -> open_files st !! key f = None ->
     exists st', step t a st = Some st' /\ enabled st' t Go = true /\ step t Go st' = None).
Proof.
  intros Hs%reachable_sound_locks He. split.
  - intros Hc Hmax. assert (Hroom : room st a).
    { destruct a as [f w ok|]; [|done]. intros fm m Ek Em. destruct (sound_open _ Hs _ _ Ek) as (m' & Em' & [A1 _ _ _] & _).
      specialize (Hmax (key f)). assert (m' = m) as -> by congruence. lia. }
    destruct (wp_run _ _ _ (thread_wp st t a Hs Hc He Hroom)) as ([] & st1 & E1 & _). unfold step. rewrite He, E1. by eexists.
  - intros f w -> Ek. exists (on_threads <[t := Back f None]> st).
    assert (Ep : point_of st t = Out) by (unfold enabled in He; by destruct (point_of st t)).
    assert (Ep' : point_of (on_threads <[t := Back f None]> st) t = Back f None).
    { unfold on_threads. rewrite point_of_insert. by destruct (decide (t = t)). }
    unfold step at 1. rewrite He. unfold thread at 1, mbind, st_bind, st_gets. rewrite Ep.
    unfold lock_file, mbind, st_bind, st_gets. rewrite Ek. cbn [negb]. unfold go, st_modify. split; [done|].
    assert (He' : enabled (on_threads <[t := Back f None]> st) t Go = true) by (unfold enabled; by rewrite Ep').
    split; [done|]. unfold step. rewrite He'. unfold thread, mbind, st_bind, st_gets. rewrite Ep'.
    unfold unlock_file, mbind, st_bind, st_gets. cbn [open_files on_threads]. by rewrite Ek.
Qed.

Lemma file_locks_defined_witness : is_Some (step 2 Go two_threads).
Proof.
  apply (file_locks_defined two_threads 2 Go two_threads_reachable); [reflexivity|reflexivity|].
  intros k. eapply Z.le_lt_trans; [apply count_size|]. by vm_compute.
Defined.

(** Everybody gets out.  Threads that lock one file each can always be run to the
    end, whatever state they are in; then no lock is left in the dictionary, no
    block is left allocated, and [cleanup_file_sync] has nothing to do. *)
Theorem file_locks_drain st :
  reachable st ->
  exists ts st', go_on ts st = Some st' /\ (forall t, point_of st' t = Out) /\
    open_files st' = ∅ /\ heap st' = ∅ /\ cleanup_file_sync st' = Some (tt, st').
Proof.
  intros Hs%reachable_sound_locks. destruct (drain (Z.to_nat (work st)) st Hs) as (ts & st' & E & _ & Ho & Hs').
  { pose proof (work_nonneg st). lia. }
  destruct (nobody_inside st' Hs' Ho) as [Hd Hh]. exists ts, st'. split; [done|]. split; [done|]. split; [done|]. split; [done|].
  unfold cleanup_file_sync, mbind, st_bind, st_gets. rewrite Hd. destruct st' as [d h n ts']. cbn in *. by rewrite Hd.
Qed.

Lemma file_locks_drain_witness :
  exists ts st', go_on ts two_threads = Some st' /\ heap st' = ∅.
Proof.
  destruct (file_locks_drain two_threads two_threads_reachable) as (ts & st' & E & _ & _ & Hh & _). by exists ts, st'.
Defined.

(** Two files whose names and tags have colons share a lock. *)
Example colons_share_a_lock : key (MkFile "a:b" "c") = key (MkFile "a" "b:c").
Proof. reflexivity. Qed.
