(* ===== verification/QueryControl.v ===== *)
(** * The Query Control (query_control/src/main.c)

    The whole program: the connection to the Master, the handshake, the query, and
    the loop that shows what the query reads until it ends.  The network is that
    of WorkerConnections.v. *)

From Stdlib Require Import Ascii.
From S2P Require Import Prelude CStrings Config Serialization Protocol Commons PageTable MemoryManager Interpreter WorkerConnections.

(** What the program logs: a reading, with the bytes that cannot be printed as
    dots, and the reason of the end. *)
Inductive shown :=
| Reading (file_tag : string) (size : Z) (printable : string)
| Ended (reason : string).

Definition printable_char (b : byte) : ascii :=
  let c := Z_of_byte b in
  if (32 <=? c) && (c <=? 126) then ascii_of_byte b else "."%char.

Fixpoint printable (data : list byte) : string :=
  match data with
  | [] => EmptyString
  | b :: data => String (printable_char b) (printable data)
  end.

Definition no_message : string := "Error desconocido en Storage (sin mensaje)".
Definition no_query_id : string := "Finalización por error en Storage".
Definition normal_end : string := "Finalización normal de la Query".

(** The reason in a [QC_OP_MASTER_FIN_DESCONEXION]. *)
Definition end_reason (resp : t_package) : string :=
  match package_read_uint32 (package_reset_read_offset resp) with
  | (None, _) => no_query_id
  | (Some _, resp) =>
      match package_read_string resp with
      | (None, _) => no_message
      | (Some msg, _) => msg
      end
  end.

(** The two reads of a [QC_OP_READ_DATA]. *)
Definition read_data (resp : t_package) : option (list byte) * option string :=
  let '(file_data, b) := buffer_read_data (buffer resp) in
  let '(file_tag, _) := buffer_read_string b in (file_data, file_tag).

Section QueryControl.
Context `{N : Network}.

(** The loop of [main], up to [close]: the code and what is logged.  A round
    receives a package; no result when the program never ends. *)
Fixpoint receive_loop (fuel : nat) (master_socket retval : Z) : NET (Z * list shown) :=
  match fuel with
  | O => st_ub
  | S fuel =>
      resp ← receive master_socket;
      match resp with
      | None => mret (-7, [])
      | Some resp =>
          let op := operation_code resp in
          if op =? master_op QC_OP_READ_DATA then
            match read_data resp with
            | (_, None) => mret (-7, [])
            | (None, Some _) => mret (-7, [])
            | (Some data, Some file_tag) =>
                r ← receive_loop fuel master_socket retval;
                mret (fst r, Reading file_tag (Z.of_nat (length data)) (printable data) :: snd r)
            end
          else if op =? master_op QC_OP_MASTER_FIN_DESCONEXION then mret (0, [Ended (end_reason resp)])
          else if op =? master_op OP_END_QUERY then mret (0, [Ended normal_end])
          else receive_loop fuel master_socket (-7)
      end
  end.

(** From the connection to [clean_socket]. *)
Definition converse (fuel : nat) (master_socket : Z) (query_filepath : string) (priority : Z) : NET (Z * list shown) :=
  let '(ok, package_handshake) := build (master_op OP_QUERY_HANDSHAKE) [F_string "QUERY_CONTROL_HANDSHAKE"] in
  if negb ok then mret (-6, []) else
  rc ← send package_handshake master_socket;
  if negb (rc =? 0) then mret (-6, []) else
  response ← receive master_socket;
  match response with
  | None => mret (-6, [])
  | Some response =>
      if negb (operation_code response =? master_op OP_QUERY_HANDSHAKE) then mret (-6, []) else
      let '(ok, package_to_send) := build (master_op OP_QUERY_FILE_PATH) [F_string query_filepath; F_uint8 (u8 priority)] in
      if negb ok then mret (-6, []) else
      rc ← send package_to_send master_socket;
      if rc <? 0 then mret (-6, []) else
      response ← receive master_socket;
      receive_loop fuel master_socket
        (match response with
         | Some response => if operation_code response =? master_op QC_OP_MASTER_CONNECTION_OK then 0 else -7
         | None => -7
         end)
  end.

Context {CC : CommonsConfig}.

(** [config_file] gives the files that can be opened.  The logger is taken to be
    created. *)
Definition query_control_main (fuel : nat) (argv : list string) (config_file : string -> option t_config)
    : NET (Z * list shown) :=
  match argv with
  | [config_filepath; query_filepath; priority] =>
      let priority := atoi priority in
      if priority <? 0 then mret (-8, []) else
      match create_query_control_config (config_file config_filepath) with
      | None => st_ub
      | Some None => mret (-3, [])
      | Some (Some query_control_config) =>
          master_socket ← client_connect (qc_ip query_control_config) (qc_port query_control_config);
          if master_socket <? 0 then mret (-5, []) else
          r ← converse fuel master_socket query_filepath priority;
          close master_socket;;
          mret r
      end
  | _ => mret (-1, [])
  end.

End QueryControl.
