(* ===== verification/QueryControlSpec.v ===== *)
(** * What a Query Control shows (properties)

    [main] on the bytes of the network, against the conversation it is meant to
    have: a function of the messages the Master sends. *)

From S2P Require Import Prelude CStrings Config Serialization Protocol Commons PageTable MemoryManager Interpreter.
From S2P Require Import WorkerConnections ConnectionsSpec QueryControl StorageDisk.

(** The messages of the Master, as its handlers build them. *)
Inductive master_message :=
| M_handshake
| M_connection_ok
| M_read (data : list byte) (file_tag : string)
| M_end (query_id : Z)
| M_error (query_id : Z) (reason : string).

Definition message_op (m : master_message) : Z :=
  master_op match m with
  | M_handshake => OP_QUERY_HANDSHAKE
  | M_connection_ok => QC_OP_MASTER_CONNECTION_OK
  | M_read _ _ => QC_OP_READ_DATA
  | M_end _ => OP_END_QUERY
  | M_error _ _ => QC_OP_MASTER_FIN_DESCONEXION
  end.

Definition message_fields (m : master_message) : list field :=
  match m with
  | M_handshake | M_connection_ok => []
  | M_read data file_tag => [F_data data; F_string file_tag]
  | M_end id => [F_uint32 id]
  | M_error id reason => [F_uint32 id; F_string reason]
  end.

(** What the loop makes of the messages: it shows the readings until the query
    ends; a message it does not expect spoils the code, until the end mends it. *)
Fixpoint follow (ms : list master_message) : Z * list shown :=
  match ms with
  | [] => (-7, [])
  | M_read data file_tag :: ms =>
      (fst (follow ms), Reading file_tag (Z.of_nat (length data)) (printable data) :: snd (follow ms))
  | M_error _ reason :: _ => (0, [Ended reason])
  | M_end _ :: _ => (0, [Ended normal_end])
  | (M_handshake | M_connection_ok) :: ms => follow ms
  end.

(** Whether the handshake is answered. *)
Definition greeted (ms : list master_message) : bool :=
  match ms with M_handshake :: _ => true | _ => false end.

(** The first answer has to be the handshake; the second is consumed whatever it is. *)
Definition conversation (ms : list master_message) : Z * list shown :=
  match ms with
  | M_handshake :: ms => follow (tail ms)
  | _ => (-6, [])
  end.

Section Session.
Context {N : Network}.

(** The Master sends [ms] on [fd] and closes; the network takes what is sent. *)
Definition on_wire (m : master_message) : Z * list field := (message_op m, message_fields m).
Definition session (fd : Z) (ms : list master_message) : Prop := peer fd (on_wire <$> ms).

Lemma message_op_byte m : 0 <= message_op m < 256.
Proof. destruct m; cbn; lia. Qed.

(** The next message, received. *)
Lemma next_message fd ms h :
  session fd ms ->
  match ms !! received fd h with
  | Some m => exists p, receive fd h = Some (Some p, Got fd (Some p) :: h) /\ operation_code p = message_op m /\
      package_reset_read_offset p = p /\ package_read_all p (message_fields m) = Some (message_fields m)
  | None => receive fd h = Some (None, Got fd None :: h)
  end.
Proof.
  intros Hs. pose proof (receive_next fd _ h Hs) as H. rewrite list_lookup_fmap in H. by destruct (ms !! received fd h).
Qed.

Lemma read_data_fields p data ft :
  package_read_all p [F_data data; F_string ft] = Some [F_data data; F_string ft] -> read_data p = (Some data, Some ft).
Proof.
  intros (p1 & E1 & (p2 & E2 & _)%package_read_all_cons)%package_read_all_cons. cbn [package_read] in E1, E2.
  unfold package_read_data, package_read_string, on_buffer, read_data in *.
  destruct (buffer_read_data (buffer p)) as [[d|] b]; [|done]. cbn in E1. injection E1 as -> <-. cbn [buffer set_buffer] in E2.
  destruct (buffer_read_string b) as [[s|] b']; [|done]. cbn in E2. by injection E2 as -> _.
Qed.

Lemma end_reason_fields p id reason :
  package_reset_read_offset p = p ->
  package_read_all p [F_uint32 id; F_string reason] = Some [F_uint32 id; F_string reason] -> end_reason p = reason.
Proof.
  intros Hr (p1 & p2 & E1 & E2)%read_two_strings. unfold end_reason. by rewrite Hr, E1, E2.
Qed.

(** What has been sent, the last first. *)
Definition outgoing (h : history) : list (Z * list byte) :=
  omap (fun e => match e with Sent fd block => Some (fd, block) | _ => None end) h.

Lemma drop_next {A} (l : list A) n :
  drop n l = match l !! n with Some x => x :: drop (S n) l | None => [] end.
Proof.
  destruct (l !! n) as [x|] eqn:E; [by apply drop_S|]. apply drop_ge. by apply lookup_ge_None.
Qed.

Lemma receive_loop_follows fd ms fuel h retval :
  session fd ms -> (length ms - received fd h < fuel)%nat ->
  exists h', receive_loop fuel fd retval h = Some (follow (drop (received fd h) ms), h') /\ outgoing h' = outgoing h.
Proof.
  intros Hs. revert h retval. induction fuel as [|fuel IH]; intros h retval Hf; [lia|].
  pose proof (next_message fd ms h Hs) as Hn. rewrite drop_next. cbn [receive_loop]. unfold mbind, st_bind.
  destruct (ms !! received fd h) as [m|] eqn:E; [|rewrite Hn; by eexists].
  destruct Hn as (p & -> & Hop & Hreset & Hread). apply lookup_lt_Some in E.
  assert (Hgo : forall retval, exists h', receive_loop fuel fd retval (Got fd (Some p) :: h) =
    Some (follow (drop (S (received fd h)) ms), h') /\ outgoing h' = outgoing h).
  { intros r. destruct (IH (Got fd (Some p) :: h) r) as (h' & E' & Ho); [rewrite received_got; lia|].
    rewrite received_got in E'. by exists h'. }
  rewrite Hop. destruct m as [| |data ft|id|id reason]; cbn [message_op message_fields follow] in *.
  - destruct (Hgo (-7)) as (h' & E' & Ho). exists h'. by split; [exact E'|].
  - destruct (Hgo (-7)) as (h' & E' & Ho). exists h'. by split; [exact E'|].
  - rewrite (read_data_fields p data ft Hread). destruct (Hgo retval) as (h' & E' & Ho). exists h'. split; [|done].
    change (message_op (M_read data ft) =? master_op QC_OP_READ_DATA) with true. cbv beta iota. by rewrite E'.
  - by eexists.
  - rewrite (end_reason_fields p id reason Hreset Hread). by eexists.
Qed.

(** A string that can be sent, by computation. *)
Lemma valid_string s :
  (strlen s <=? MAX_STRING_LENGTH) && forallb (fun b => negb (Byte.eqb b x00)) (string_bytes s) = true -> valid_field (F_string s).
Proof.
  rewrite andb_true_iff, forallb_forall, Z.leb_le. intros [Hl Hb]. split; [done|]. intros H%list_elem_of_In.
  specialize (Hb _ H). discriminate.
Qed.

Lemma handshake_valid : valid_message [F_string "QUERY_CONTROL_HANDSHAKE"].
Proof.
  split; [|vm_compute; discriminate]. constructor; [|done]. apply valid_string. vm_compute. reflexivity.
Qed.

Lemma path_valid path prio : valid_field (F_string path) -> valid_message [F_string path; F_uint8 (u8 prio)].
Proof.
  intros Hp. split.
  - constructor; [done|]. constructor; [apply Z.mod_pos_bound; lia|done].
  - unfold wire_size, encode_all, encode, be32. cbn [flat_map]. destruct Hp as [Hp _]. unfold MAX_STRING_LENGTH, strlen in Hp.
    rewrite !length_app, length_rev, length_le_bytes, length_string_bytes. cbn. lia.
Qed.

Definition handshake_block : list byte := message (master_op OP_QUERY_HANDSHAKE) [F_string "QUERY_CONTROL_HANDSHAKE"].
Definition query_block (path : string) (prio : Z) : list byte :=
  message (master_op OP_QUERY_FILE_PATH) [F_string path; F_uint8 (u8 prio)].

Lemma converse_follows fd ms fuel path prio h :
  session fd ms -> valid_field (F_string path) -> (length ms < fuel)%nat -> received fd h = 0%nat -> outgoing h = [] ->
  exists h', converse fuel fd path prio h = Some (conversation ms, h') /\
    outgoing h' = (if greeted ms then [(fd, query_block path prio)] else []) ++
                  [(fd, handshake_block)].
Proof.
  intros Hs Hp Hf Hr Ho. unfold converse.
  destruct (send_message (master_op OP_QUERY_HANDSHAKE) [F_string "QUERY_CONTROL_HANDSHAKE"] fd h) as (p1 & Eb & Es & _);
    [cbn; lia|apply handshake_valid|apply Hs|apply Hs|].
  rewrite Eb. cbn [negb]. unfold mbind, st_bind. rewrite Es. change (negb (0 =? 0)) with false. cbv iota.
  set (h1 := Sent fd (message (master_op OP_QUERY_HANDSHAKE) [F_string "QUERY_CONTROL_HANDSHAKE"]) :: h).
  assert (Hr1 : received fd h1 = 0%nat) by exact Hr.
  assert (Ho1 : outgoing h1 = [(fd, handshake_block)]) by (change (outgoing h1) with ((fd, handshake_block) :: outgoing h); by rewrite Ho).
  pose proof (next_message fd ms h1 Hs) as Hn. rewrite Hr1 in Hn. destruct ms as [|m ms]; cbn [lookup list_lookup] in Hn.
  { rewrite Hn. eexists. split; [reflexivity|]. exact Ho1. }
  destruct Hn as (p & -> & Hop & _ & _). rewrite Hop.
  destruct m; cbn [conversation]; try by (eexists; split; [reflexivity|]; exact Ho1).
  change (negb (message_op M_handshake =? master_op OP_QUERY_HANDSHAKE)) with false. cbv iota.
  set (h2 := Got fd (Some p) :: h1). assert (Hr2 : received fd h2 = 1%nat) by (unfold h2; by rewrite received_got, Hr1).
  destruct (send_message (master_op OP_QUERY_FILE_PATH) [F_string path; F_uint8 (u8 prio)] fd h2) as (p2 & Eb2 & Es2 & _);
    [cbn; lia|by apply path_valid|apply Hs|apply Hs|].
  rewrite Eb2. cbn [negb]. rewrite Es2. change (0 <? 0) with false. cbv iota.
  set (h3 := Sent fd _ :: h2). assert (Hr3 : received fd h3 = 1%nat) by exact Hr2.
  pose proof (next_message fd (M_handshake :: ms) h3 Hs) as Hn. rewrite Hr3 in Hn.
  assert (Hend : forall o r, receive fd h3 = Some (o, Got fd o :: h3) -> exists h',
    receive_loop fuel fd r (Got fd o :: h3) = Some (follow (tail ms), h') /\ outgoing h' = [(fd, query_block path prio); (fd, handshake_block)]).
  { intros o r _. destruct (receive_loop_follows fd (M_handshake :: ms) fuel (Got fd o :: h3) r Hs) as (h' & E & Eo); [cbn [length] in *; lia|].
    exists h'. rewrite received_got, Hr3 in E. split; [rewrite E; by destruct ms|]. rewrite Eo.
    change (outgoing (Got fd o :: h3)) with ((fd, query_block path prio) :: outgoing h1). by rewrite Ho1. }
  destruct ((M_handshake :: ms) !! 1%nat) as [m|].
  - destruct Hn as (p' & En & _). rewrite En. by apply Hend.
  - rewrite Hn. by apply Hend.
Qed.

(** C22: The Query Control shows what its query reads.  Connected to a Master that sends
    [ms] and closes, it sends its handshake and, once it is answered, its query;
    then it shows every reading, in order and with its bytes, up to the end of the
    query, and the reason of the end, and returns 0; it returns -6 when the
    handshake is not answered and -7 when the Master goes away.  It ends for
    every [ms], and it closes its socket.  (The message after the handshake is
    taken for the answer to the query whatever it is: a reading that overtakes
    the answer is lost.) *)
Theorem query_control_session {CC : CommonsConfig} fd ms fuel cfg path prio config_file c :
  session fd ms -> create_query_control_config (config_file cfg) = Some (Some c) -> connects [] (qc_ip c) (qc_port c) = fd ->
  0 <= atoi prio -> valid_field (F_string path) -> (length ms < fuel)%nat ->
  exists h, query_control_main fuel [cfg; path; prio] config_file [] = Some (conversation ms, Closed fd :: h) /\
    outgoing h = (if greeted ms then [(fd, query_block path (atoi prio))] else []) ++
                 [(fd, handshake_block)].
Proof.
  intros Hs Ec Efd Hprio Hpath Hf. unfold query_control_main.
  destruct (Z.ltb_spec (atoi prio) 0); [lia|]. rewrite Ec. unfold client_connect, mbind, st_bind. rewrite Efd.
  destruct (Z.ltb_spec fd 0); [destruct Hs; lia|].
  destruct (converse_follows fd ms fuel path (atoi prio) [Connected (qc_ip c) (qc_port c) fd] Hs Hpath Hf eq_refl eq_refl) as (h & E & Ho).
  exists h. rewrite E. by split.
Qed.

End Session.

(** ** A Master that sends some messages and closes *)

Definition master_says (ms : list master_message) : Network := speaking (fun _ => 5) (fun _ => on_wire <$> ms).

Lemma master_says_session ms :
  Forall (fun m => valid_message (message_fields m)) ms -> session (N := master_says ms) 5 ms.
Proof.
  intros Hv. unfold session. apply (speaking_peer (fun _ => 5) (fun _ => on_wire <$> ms)); [lia|].
  apply Forall_fmap. eapply Forall_impl; [exact Hv|]. intros m Hm. split; [apply message_op_byte|done].
Qed.

Definition sample_messages : list master_message :=
  [M_handshake; M_connection_ok; M_read [x41; x07] "f:t"; M_end 3].

Lemma sample_valid : Forall (fun m => valid_message (message_fields m)) sample_messages.
Proof.
  assert (Hft : valid_field (F_string "f:t")) by (apply valid_string; vm_compute; reflexivity).
  assert (Hd : valid_field (F_data [x41; x07])) by (vm_compute; split; [reflexivity|discriminate]).
  assert (Hid : valid_field (F_uint32 3)) by (cbn; lia).
  unfold sample_messages. repeat (apply List.Forall_cons; [split; [|vm_compute; discriminate]|]); cbn [message_fields];
    auto using List.Forall_nil, List.Forall_cons.
  all: cbn; lia.
Qed.

Definition one_file : string -> option t_config := fun _ =>
  Some (list_to_map [("IP_MASTER", "ip"); ("PUERTO_MASTER", "port"); ("LOG_LEVEL", "INFO")] : gmap string string).

Example query_control_session_witness :
  let N := master_says sample_messages in
  conversation sample_messages = (0, [Reading "f:t" 2 "A."; Ended normal_end]) /\
  exists h, query_control_main 5 ["c"; "q"; "4"] one_file [] =
      Some (conversation sample_messages, Closed 5 :: h) /\
    outgoing h = [(5, query_block "q" 4); (5, handshake_block)].
Proof.
  cbv zeta. split; [vm_compute; reflexivity|].
  apply (query_control_session (N := master_says sample_messages) 5 sample_messages 5 "c" "q" "4" one_file (MkQueryControlConfig "ip" "port" "INFO")).
  - apply master_says_session, sample_valid.
  - reflexivity.
  - reflexivity.
  - vm_compute. discriminate.
  - apply valid_string. vm_compute. reflexivity.
  - cbn. lia.
Defined.

(** A reading that overtakes the answer to the query is not shown. *)
Example early_reading_is_lost data ft :
  conversation [M_handshake; M_read data ft; M_connection_ok; M_end 3] = (0, [Ended normal_end]).
Proof. reflexivity. Qed.
