(* ===== verification/WorkerMain.v ===== *)
(** * The start and the end of a worker (worker/src/main.c)

    The arguments, the configuration, the two handshakes, the internal memory, up to
    the threads of WorkerThreads.v; and what is released when they have ended.  The
    network is that of WorkerConnections.v, the configuration file a parameter; the
    logger and the threads are taken to be created. *)

From S2P Require Import Prelude CStrings Config Serialization Protocol Commons PageTable MemoryManager Interpreter.
From S2P Require Import WorkerConnections WorkerThreads.

Section Main.
Context {N : Network} {CC : CommonsConfig}.

(** The socket of the Master, for the threads. *)
#[export] Instance network_link : MasterLink worker_storage := {|
  master_send := send;
  master_receive := receive
|}.

(** [malloc] of the internal memory: the bytes it happens to hold. *)
Variable malloc : Z -> option (list byte).

(** The fields of the configuration, all written by [create_worker_config]. *)
Definition str_field (config : t_worker_config) (field : string) : string := default EmptyString (strings config !! field).
Definition int_field (config : t_worker_config) (field : string) : Z := default 0 (numbers config !! field).

Definition parse_replacement_algorithm (algorithm : string) : pt_replacement_t :=
  if strcasecmp_equal algorithm "LRU" then LRU
  else if strcasecmp_equal algorithm "CLOCK_M" || strcasecmp_equal algorithm "CLOCK-M" then CLOCK_M
  else LRU.

(** The label [cleanup]: the sockets that are open. *)
Definition cleanup (socket_master socket_storage : Z) : NET unit :=
  st_when (0 <=? socket_master) (close socket_master);;
  st_when (0 <=? socket_storage) (close socket_storage).

(** [mm_create] with its [size_t]s. *)
Definition create_memory (config : t_worker_config) (block_size : Z) (h : history) : option memory_manager_t :=
  let memory_size := u64 (int_field config "memory_size") in
  match malloc memory_size with
  | None => None
  | Some memory =>
      mm_create memory_size block_size (parse_replacement_algorithm (str_field config "replacement_algorithm")) memory
        (h : store) 0
  end.

(** From the first handshake to the threads: none when the worker gives up. *)
Definition start_worker (config : t_worker_config) (worker_id : Z) : NET (option worker_t) :=
  socket_storage ← handshake_with_storage (str_field config "storage_ip") (str_field config "storage_port") worker_id;
  if socket_storage <? 0 then cleanup (-1) socket_storage;; mret None else
  r ← get_block_size socket_storage worker_id;
  if fst r <? 0 then cleanup (-1) socket_storage;; mret None else
  match snd r with
  | None => st_ub
  | Some block_size =>
      h ← st_get;
      match create_memory config block_size h with
      | None => cleanup (-1) socket_storage;; mret None
      | Some mm =>
          let mm := mm_set_storage_connection socket_storage worker_id mm in
          socket_master ← handshake_with_master (str_field config "master_ip") (str_field config "master_port") worker_id;
          if socket_master <? 0 then cleanup socket_master socket_storage;; mret None else
          h ← st_get;
          mret (Some (initial_worker socket_master socket_storage (str_field config "path_scripts")
                        (on_store (h : store) (mm_set_master_connection socket_master mm)) worker_id))
      end
  end.

Definition EXIT_FAILURE : Z := 1.

(** The file and the identifier; none is [exit]. *)
Definition validate_arguments (argv : list string) : option (string * Z) :=
  match argv with
  | [config_path; id] => if atoi id <=? 0 then None else Some (config_path, atoi id)
  | _ => None
  end.

(** [main] up to the threads, and its exit code when there are none. *)
Definition worker_main (argv : list string) (config_file : string -> option t_config) : NET (Z * option worker_t) :=
  match validate_arguments argv with
  | None => mret (EXIT_FAILURE, None)
  | Some (config_path, worker_id) =>
      match create_worker_config (config_file config_path) with
      | None => st_ub
      | Some None => mret (EXIT_FAILURE, None)
      | Some (Some config) => w ← start_worker config worker_id; mret (0, w)
      end
  end.

(** After the threads: the sockets, and the memory manager. *)
Definition worker_end (w : worker_t) : option memory_manager_t :=
  let s := state w in
  let mm := memory_manager s in
  match cleanup (ws_master_socket s) (ws_storage_socket s) (the_store mm : history) with
  | Some (_, h) => snd <$> mm_destroy (on_store (h : store) mm)
  | None => None
  end.

End Main.
