(* ===== verification/WorkerMainSpec.v ===== *)
(** * How a worker starts and ends (theorems about WorkerMain.v)

    Whatever the network answers, a worker either starts with its two sockets and
    an empty memory of the right geometry, or closes what it had opened; it does
    start when the Storage and the Master answer; and at the end nothing is left. *)

From S2P Require Import Prelude CStrings Config Serialization Protocol Commons PageTable MemoryManager MemoryInvariant MemorySpec PagingSpec.
From S2P Require Import Interpreter WorkerConnections ConnectionsSpec WorkerThreads FilesSpec WorkerMain StorageDisk.

(** The descriptors a history leaves open. *)
Fixpoint open_fds (h : history) : gset Z :=
  match h with
  | [] => ∅
  | Connected _ _ fd :: h => if fd <? 0 then open_fds h else {[fd]} ∪ open_fds h
  | Closed fd :: h => open_fds h ∖ {[fd]}
  | (Sent _ _ | Got _ _) :: h => open_fds h
  end.

Lemma open_fds_talk es h : forallb talk es = true -> open_fds (es ++ h) = open_fds h.
Proof. induction es as [|e es IH]; [done|]. cbn [forallb app]. intros [He Hes]%andb_true_iff. destruct e; try done; cbn [open_fds]; auto. Qed.

Section Spec.
Context {N : Network} {CC : CommonsConfig}.
Variable malloc : Z -> option (list byte).

(** What the worker relies on: a block of [malloc] has the bytes that were asked
    for, and no block is larger than half of the memory; a new descriptor is not
    in use. *)
Definition malloc_ok : Prop := forall n bs, malloc n = Some bs -> Z.of_nat (length bs) = n /\ n < 2 ^ 63.
Definition new_descriptors : Prop := forall h ip port, connects h ip port ∉ open_fds h.

Lemma handshake_opens ip port rq expected id h rc h' :
  new_descriptors -> handshake_with_server ip port rq expected id h = Some (rc, h') ->
  (rc < 0 /\ open_fds h' = open_fds h) \/ (0 <= rc /\ (rc ∉ open_fds h) /\ open_fds h' = {[rc]} ∪ open_fds h).
Proof.
  intros Hnew E. destruct (handshake_cases _ _ _ _ _ _ _ _ E) as (es & Hes & H). pose proof (Hnew h ip port) as Hf.
  destruct H as [(H1 & -> & ->)|[(H1 & -> & ->)|(H1 & -> & -> & _)]]; cbn [open_fds].
  - left. split; [lia|]. by destruct (Z.ltb_spec (connects h ip port) 0); [|lia].
  - left. split; [lia|]. rewrite open_fds_talk by done. cbn [open_fds]. destruct (Z.ltb_spec (connects h ip port) 0); [lia|]. set_solver.
  - right. split; [done|]. split; [done|]. rewrite open_fds_talk by done. cbn [open_fds]. by destruct (Z.ltb_spec (connects h ip port) 0); [lia|].
Qed.

Lemma cleanup_run sm ss h :
  cleanup sm ss h = Some (tt, (if 0 <=? ss then [Closed ss] else []) ++ (if 0 <=? sm then [Closed sm] else []) ++ h).
Proof. unfold cleanup, st_when. destruct (0 <=? sm), (0 <=? ss); reflexivity. Qed.

Lemma get_block_size_range fd id h rc bs h' :
  get_block_size fd id h = Some ((rc, bs), h') -> match bs with Some n => rc = 0 /\ 0 <= n < 2 ^ 16 | None => rc = -1 end.
Proof.
  unfold get_block_size. destruct (build _ _) as [[] request]; cbn [negb]; [|by intros [= <- <- _]].
  intros (rc1 & h1 & _ & H)%run_bind. destruct (negb (rc1 =? 0)); [by injection H as <- <- _|].
  apply run_bind in H as ([p|] & h2 & _ & H); [|by injection H as <- <- _]. destruct (negb _); [by injection H as <- <- _|].
  unfold package_read_uint16, on_buffer, buffer_read_uint16 in H.
  destruct (negb _); [by injection H as <- <- _|]. destruct (get_bytes (buffer p) 2) as [b b']. injection H as <- <- _. split; [done|].
  unfold ntohs. pose proof (le_val_bound (rev (le_bytes 2 (le_val b)))) as Hb. rewrite length_rev, length_le_bytes in Hb.
  change (256 ^ Z.of_nat 2) with (2 ^ 16) in Hb. done.
Qed.

(** ** The memory of a worker that has started *)

(** [mm] is empty, of [memory_size] bytes in pages of [block_size]. *)
Record fresh_memory (config : t_worker_config) (block_size : Z) (mm : memory_manager_t) : Prop := {
  fm_size : 0 < int_field config "memory_size";
  fm_block : mm_page_size mm = block_size /\ 0 < block_size;
  fm_frames : frames mm = replicate (Z.to_nat (int_field config "memory_size" / block_size)) false;
  fm_entries : entries mm = [];
  fm_policy : policy mm = parse_replacement_algorithm (str_field config "replacement_algorithm");
  fm_wf : forall (BSS : BlockStorageSpec worker_storage block_size), conn_ok (conn_of mm) -> mm_wf mm /\ no_leak mm
}.

Definition int_range (n : Z) : Prop := - 2 ^ 31 <= n < 2 ^ 31.

Lemma create_memory_fresh config block_size h mm ss id sm h' :
  malloc_ok -> int_range (int_field config "memory_size") -> 0 <= block_size < 2 ^ 16 ->
  create_memory malloc config block_size h = Some mm ->
  fresh_memory config block_size
    (on_store (h' : @store worker_storage) (mm_set_master_connection sm (mm_set_storage_connection ss id mm))).
Proof.
  intros Hm Hr Hb. unfold create_memory. set (n := int_field config "memory_size") in *.
  destruct (malloc (u64 n)) as [memory|] eqn:E; [|done]. destruct (Hm _ _ E) as [Hlen Hmax]. intros Ec.
  assert (Hn : 0 <= n).
  { destruct (Z.le_gt_cases 0 n); [done|]. unfold u64 in Hmax.
    rewrite <- (Z.mod_unique n (2 ^ 64) (-1) (n + 2 ^ 64)) in Hmax; unfold int_range in Hr; lia. }
  unfold int_range in Hr. rewrite u64_small in * by lia. pose proof Ec as Ec'. unfold mm_create in Ec'.
  destruct (Z.eqb_spec n 0) as [|Hn0]; [done|]. destruct (Z.eqb_spec block_size 0) as [|Hb0]; [done|]. injection Ec' as <-.
  assert (Hle : 0 <= n / block_size <= n).
  { split; [apply Z.div_pos; lia|]. apply Z.div_le_upper_bound; nia. }
  split; try done; [lia|by split; [|lia]|cbn [frames]; rewrite u32_small by lia; done|].
  intros BSS Hok. destruct (mm_create_wf (BSS := BSS) n (parse_replacement_algorithm (str_field config "replacement_algorithm"))
    memory (h' : @store worker_storage) 0 _ ltac:(lia) ltac:(lia) Hlen ltac:(unfold mm_create; rewrite (proj2 (Z.eqb_neq n 0) Hn0), (proj2 (Z.eqb_neq block_size 0) Hb0); reflexivity))
    as (Hwf & Hnl & _).
  split; [|exact Hnl]. apply (connections_wf ss id (-1) sm _ Hwf). exact Hok.
Qed.

(** ** Starting *)

(** [w] is as [main] leaves it to the threads. *)
Definition started (config : t_worker_config) (worker_id : Z) (h' : history) (w : worker_t) : Prop :=
  exists ss sm mm bs, w = initial_worker sm ss (str_field config "path_scripts") mm worker_id /\
    0 <= ss /\ 0 <= sm /\ conn_of mm = MkConn ss sm (-1) /\ the_store mm = h' /\ fresh_memory config bs mm.

Lemma start_worker_run config id h ow h' :
  new_descriptors -> malloc_ok -> int_range (int_field config "memory_size") ->
  start_worker malloc config id h = Some (ow, h') ->
  match ow with
  | None => open_fds h' = open_fds h
  | Some w => started config id h' w /\
      let ss := ws_storage_socket (state w) in let sm := ws_master_socket (state w) in
      (ss ∉ open_fds h) /\ (sm ∉ {[ss]} ∪ open_fds h) /\ open_fds h' = {[sm]} ∪ ({[ss]} ∪ open_fds h)
  end.
Proof.
  intros Hnew Hm Hr (ss & h1 & E1 & E)%run_bind. destruct (handshake_opens _ _ _ _ _ _ _ _ Hnew E1) as [[Hss H1]|(Hss & Hn1 & H1)].
  { rewrite (proj2 (Z.ltb_lt _ _) Hss) in E. apply run_bind in E as (u & h2 & E2 & [= <- <-]). rewrite cleanup_run in E2.
    injection E2 as _ <-. destruct (Z.leb_spec 0 ss); [lia|]. exact H1. }
  destruct (Z.ltb_spec ss 0); [lia|].
  apply run_bind in E as ([rc bs] & h2 & E2 & E). destruct (get_block_size_quiet _ _ _ _ _ E2) as (es2 & Hes2 & H2).
  pose proof (get_block_size_range _ _ _ _ _ _ E2) as Hbs. assert (Ho2 : open_fds h2 = {[ss]} ∪ open_fds h).
  { rewrite H2, open_fds_talk by done. done. }
  assert (Hquit : forall h3 : history, open_fds h3 = {[ss]} ∪ open_fds h -> forall sm, sm < 0 -> forall u h4, cleanup sm ss h3 = Some (u, h4) -> open_fds h4 = open_fds h).
  { intros h3 Ho3 sm Hsm u h4 Eq. rewrite cleanup_run in Eq. injection Eq as _ <-.
    destruct (Z.leb_spec 0 ss); [|lia]. destruct (Z.leb_spec 0 sm); [lia|]. cbn [app open_fds]. rewrite Ho3. set_solver. }
  cbn [fst snd] in E. destruct bs as [bs|].
  2:{ subst rc. change (-1 <? 0) with true in E. apply run_bind in E as (u & h3 & E3 & [= <- <-]). exact (Hquit h2 Ho2 (-1) ltac:(lia) u h3 E3). }
  destruct Hbs as [-> Hbs]. change (0 <? 0) with false in E. cbv iota in E.
  apply run_bind in E as (h2' & h2'' & [= <- <-] & E). destruct (create_memory malloc config bs h2) as [mm|] eqn:Emm.
  2:{ apply run_bind in E as (u & h3 & E3 & [= <- <-]). exact (Hquit h2 Ho2 (-1) ltac:(lia) u h3 E3). }
  apply run_bind in E as (sm & h3 & E3 & E).
  destruct (handshake_opens _ _ _ _ _ _ _ _ Hnew E3) as [[Hsm H3]|(Hsm & Hn3 & H3)].
  { rewrite (proj2 (Z.ltb_lt _ _) Hsm) in E. apply run_bind in E as (u & h4 & E4 & [= <- <-]). exact (Hquit h3 ltac:(by rewrite H3) sm Hsm u h4 E4). }
  destruct (Z.ltb_spec sm 0); [lia|]. injection E as <- <-. split.
  - exists ss, sm, (on_store (h3 : @store worker_storage) (mm_set_master_connection sm (mm_set_storage_connection ss id mm))), bs.
    split; [done|]. split; [done|]. split; [done|]. split; [|split; [done|by eapply create_memory_fresh]].
    unfold create_memory in Emm. destruct (malloc _); [|done]. unfold mm_create in Emm. destruct (_ || _); [done|]. by injection Emm as <-.
  - cbn [state initial_worker ws_storage_socket ws_master_socket]. split; [done|]. rewrite Ho2 in *. by rewrite H3.
Qed.

(** C34: A worker starts or leaves nothing behind.  Whatever the arguments, the file and
    the answers of the network, when [main] gets as far as the threads they have an
    empty memory of whole frames, well formed over any Storage, and two new sockets,
    one for each peer; otherwise every socket it opened is closed. *)
Theorem worker_starts_or_cleans argv config_file h code ow h' :
  new_descriptors -> malloc_ok -> (forall path config wc, config_file path = Some config ->
    create_worker_config (Some config) = Some (Some wc) -> int_range (int_field wc "memory_size")) ->
  worker_main malloc argv config_file h = Some ((code, ow), h') ->
  match ow with
  | None => open_fds h' = open_fds h
  | Some w => code = 0 /\ (exists config id, 0 < id /\ started config id h' w) /\
      let ss := ws_storage_socket (state w) in let sm := ws_master_socket (state w) in
      (ss ∉ open_fds h) /\ (sm ∉ {[ss]} ∪ open_fds h) /\ open_fds h' = {[sm]} ∪ ({[ss]} ∪ open_fds h)
  end.
Proof.
  intros Hnew Hm Hr. unfold worker_main, validate_arguments. destruct argv as [|path [|ids [|? ?]]]; try by intros [= <- <- <-].
  destruct (Z.leb_spec (atoi ids) 0); [by intros [= <- <- <-]|].
  destruct (create_worker_config (config_file path)) as [[config|]|] eqn:Ec; [|by intros [= <- <- <-]|done].
  intros (w & h1 & E & [= <- <- <-])%run_bind. destruct (config_file path) as [c|] eqn:Ef; [|done].
  pose proof (start_worker_run config (atoi ids) h w h1 Hnew Hm (Hr path c config Ef Ec) E) as H1.
  destruct w as [w|]; [|done]. destruct H1 as [H1 H2]. split; [done|]. split; [|done]. by exists config, (atoi ids).
Qed.

(** ** Both peers answer *)

Lemma id_valid id : 0 <= id < 2 ^ 32 -> valid_message [F_uint32 id].
Proof.
  intros Hid. split; [by constructor|]. unfold wire_size, encode_all, encode, be32. cbn [flat_map].
  rewrite length_app, length_rev, length_le_bytes. cbn. lia.
Qed.

Lemma handshake_answered ip port rq expected id h fd ms fs :
  0 <= rq < 256 -> 0 <= id < 2 ^ 32 -> connects h ip port = fd -> peer fd ms -> ms !! received fd h = Some (expected, fs) ->
  exists p, handshake_with_server ip port rq expected id h =
    Some (fd, Got fd (Some p) :: Sent fd (message rq [F_uint32 id]) :: Connected ip port fd :: h).
Proof.
  intros Hrq Hid Efd Hp Enext. unfold handshake_with_server, mbind, st_bind, client_connect. rewrite Efd.
  destruct (Z.ltb_spec fd 0); [destruct Hp; lia|].
  destruct (send_message rq [F_uint32 id] fd (Connected ip port fd :: h)) as (p1 & Eb & Es & _); [done|by apply id_valid|apply Hp|apply Hp|].
  rewrite Eb. cbn [negb]. rewrite Es. change (0 <? 0) with false. cbv iota.
  pose proof (receive_next fd ms (Sent fd (message rq [F_uint32 id]) :: Connected ip port fd :: h) Hp) as Hn.
  change (received fd (Sent fd (message rq [F_uint32 id]) :: Connected ip port fd :: h)) with (received fd h) in Hn.
  rewrite Enext in Hn. destruct Hn as (p & -> & Hop & _). rewrite Hop, Z.eqb_refl. cbn [negb]. by exists p.
Qed.

Lemma block_size_answered fd ms id h bs fs :
  0 <= id < 2 ^ 32 -> peer fd ms -> ms !! received fd h = Some (storage_op STORAGE_OP_WORKER_GET_BLOCK_SIZE_RES, F_uint16 bs :: fs) ->
  exists p block, get_block_size fd id h = Some ((0, Some bs), Got fd (Some p) :: Sent fd block :: h).
Proof.
  intros Hid Hp Enext. unfold get_block_size, mbind, st_bind.
  destruct (send_message (storage_op STORAGE_OP_WORKER_GET_BLOCK_SIZE_REQ) [F_uint32 id] fd h) as (p1 & Eb & Es & _);
    [apply storage_op_byte|by apply id_valid|apply Hp|apply Hp|].
  rewrite Eb. cbn [negb]. rewrite Es. change (negb (0 =? 0)) with false. cbv iota. set (block := message _ _).
  pose proof (receive_next fd ms (Sent fd block :: h) Hp) as Hn. change (received fd (Sent fd block :: h)) with (received fd h) in Hn.
  rewrite Enext in Hn. destruct Hn as (p & -> & Hop & _ & Hread). rewrite Hop, Z.eqb_refl. cbn [negb].
  apply package_read_all_cons in Hread as (p' & Er & _). cbn [package_read] in Er.
  destruct (package_read_uint16 p) as [[v|] p'']; [|done]. cbn in Er. injection Er as -> _. by exists p, block.
Qed.

(** A worker starts.  With a Storage that answers the handshake and says the size
    of its blocks, a Master that answers, and memory for at least a byte, [main]
    reaches its threads, with pages of the size of the Storage's blocks. *)
Theorem worker_starts config_file path id config wc fs ms bs memory f1 f2 f3 :
  0 < atoi id -> config_file path = Some config -> create_worker_config (Some config) = Some (Some wc) ->
  (forall h, connects h (str_field wc "storage_ip") (str_field wc "storage_port") = fs) ->
  (forall h, connects h (str_field wc "master_ip") (str_field wc "master_port") = ms) -> fs <> ms ->
  peer fs [(storage_op STORAGE_OP_WORKER_SEND_ID_RES, f1); (storage_op STORAGE_OP_WORKER_GET_BLOCK_SIZE_RES, F_uint16 bs :: f2)] ->
  peer ms [(master_op OP_WORKER_ACK, f3)] ->
  0 < int_field wc "memory_size" < 2 ^ 31 -> bs <> 0 -> malloc (int_field wc "memory_size") = Some memory ->
  exists w h', worker_main malloc [path; id] config_file [] = Some ((0, Some w), h') /\
    ws_storage_socket (state w) = fs /\ ws_master_socket (state w) = ms /\
    mm_page_size (memory_manager (state w)) = bs /\ physical_memory (memory_manager (state w)) = memory /\
    policy (memory_manager (state w)) = parse_replacement_algorithm (str_field wc "replacement_algorithm").
Proof.
  intros Hid Ef Ec Efs Ems Hne Hfs Hms Hmem Hbs Emem.
  assert (Hidr : 0 <= atoi id < 2 ^ 32).
  { split; [lia|]. assert (H : atoi id < 2 ^ 31) by apply i32_range. lia. }
  unfold worker_main, validate_arguments. destruct (Z.leb_spec (atoi id) 0); [lia|]. rewrite Ef, Ec. unfold start_worker, mbind, st_bind.
  destruct (handshake_answered _ _ (storage_op STORAGE_OP_WORKER_SEND_ID_REQ) (storage_op STORAGE_OP_WORKER_SEND_ID_RES)
    (atoi id) [] fs _ f1 (storage_op_byte _) Hidr (Efs []) Hfs eq_refl) as (p1 & E1).
  unfold handshake_with_storage. rewrite E1. set (h1 := Got fs (Some p1) :: _).
  destruct (Z.ltb_spec fs 0); [destruct Hfs; lia|].
  destruct (block_size_answered fs _ (atoi id) h1 bs f2 Hidr Hfs) as (p2 & block & E2); [unfold h1; by rewrite received_got|].
  rewrite E2. cbn [fst snd]. change (0 <? 0) with false. cbv iota. unfold st_get. set (h2 := Got fs (Some p2) :: _).
  unfold create_memory. rewrite u64_small by lia. rewrite Emem. unfold mm_create.
  rewrite (proj2 (Z.eqb_neq (int_field wc "memory_size") 0)), (proj2 (Z.eqb_neq bs 0)) by lia. cbn [orb].
  assert (Hr : received ms h2 = 0%nat).
  { unfold received, h2, h1. cbn [List.filter]. by rewrite (proj2 (Z.eqb_neq fs ms) Hne). }
  destruct (handshake_answered _ _ (master_op OP_WORKER_HANDSHAKE_REQ) (master_op OP_WORKER_ACK)
    (atoi id) h2 ms _ f3 ltac:(cbn; lia) Hidr (Ems h2) Hms) as (p3 & E3); [by rewrite Hr|].
  unfold handshake_with_master. rewrite E3. destruct (Z.ltb_spec ms 0); [destruct Hms; lia|].
  eexists _, _. split; [reflexivity|]. done.
Qed.

(** ** The end *)

Lemma destroy_tables_run es mm :
  NoDup (map page_table es) -> (forall p, p ∈ map page_table es -> is_Some (pts mm !! p)) ->
  exists mm', destroy_tables es mm = Some (tt, mm') /\ the_store mm' = the_store mm /\
    (forall p, pts mm' !! p = if decide (p ∈ map page_table es) then None else pts mm !! p).
Proof.
  revert mm. induction es as [|e es IH]; intros mm Hnd Hin; cbn [destroy_tables].
  - exists mm. split; [done|]. split; [done|]. intros p. by destruct (decide _) as [?%not_elem_of_nil|].
  - cbn [map] in *. apply NoDup_cons in Hnd as [He Hnd]. unfold mbind, st_bind, pt_destroy.
    destruct (Hin (page_table e)) as [pt Ept]; [left|]. rewrite Ept.
    destruct (IH (on_pts (delete (page_table e)) mm) Hnd) as (mm' & E & Es & Hp).
    { intros p Hp. cbn. rewrite lookup_delete_ne by (intros <-; done). apply Hin. by right. }
    exists mm'. split; [done|]. split; [done|]. intros p. rewrite Hp. cbn [pts on_pts].
    destruct (decide (p ∈ map page_table es)), (decide (p ∈ page_table e :: map page_table es)) as [H|H]; try done.
    + destruct H. by right.
    + apply elem_of_cons in H as [->|H]; [apply lookup_delete_eq|done].
    + rewrite lookup_delete_ne; [done|]. intros <-. destruct H. left.
Qed.

(** A worker that ends leaves nothing.  Once the threads have gone, from any state of
    a well-formed memory, both sockets are closed and every page table is freed,
    once. *)
Theorem worker_ends_clean {ps} {BSS : BlockStorageSpec worker_storage ps} (w : worker_t) :
  let s := state w in
  mm_wf (memory_manager s) -> 0 <= ws_storage_socket s -> 0 <= ws_master_socket s ->
  exists mm', worker_end w = Some mm' /\ pts mm' = ∅ /\
    open_fds (the_store mm') = open_fds (the_store (memory_manager s)) ∖ {[ws_master_socket s]} ∖ {[ws_storage_socket s]}.
Proof.
  cbv zeta. intros [Hs _] Hss Hsm. unfold worker_end. rewrite cleanup_run.
  destruct (Z.leb_spec 0 (ws_storage_socket (state w))); [|lia]. destruct (Z.leb_spec 0 (ws_master_socket (state w))); [|lia].
  cbn [app]. set (h := Closed _ :: _). unfold mm_destroy, mbind, st_bind, st_get.
  destruct (destroy_tables_run (entries (memory_manager (state w))) (on_store (h : @store worker_storage) (memory_manager (state w))))
    as (mm' & E & Es & Hp); [apply Hs|intros p Hp; by apply Hs|].
  change (entries (on_store (h : @store worker_storage) (memory_manager (state w)))) with (entries (memory_manager (state w))).
  rewrite E. exists mm'. split; [done|]. split.
  - apply map_empty. intros p. rewrite Hp. destruct (decide _) as [Hi|Hi]; [done|].
    cbn [pts on_store]. destruct (pts (memory_manager (state w)) !! p) eqn:Ept; [|done].
    destruct Hi. apply (s_dom _ Hs). by rewrite Ept.
  - by rewrite Es.
Qed.

End Spec.

(** ** A worker of four frames *)

Definition some_memory (n : Z) : option (list byte) :=
  if (0 <=? n) && (n <? 2 ^ 20) then Some (replicate (Z.to_nat n) x00) else None.

Lemma some_memory_ok : malloc_ok some_memory.
Proof.
  intros n bs. unfold some_memory. destruct (Z.leb_spec 0 n), (Z.ltb_spec n (2 ^ 20)); try done. intros [= <-].
  rewrite length_replicate. lia.
Qed.

Definition worker_map : t_config :=
  (list_to_map [("IP_MASTER", "m"); ("PUERTO_MASTER", "1"); ("IP_STORAGE", "s"); ("PUERTO_STORAGE", "2");
    ("ALGORITMO_REEMPLAZO", "clock-m"); ("PATH_SCRIPTS", "/s/"); ("LOG_LEVEL", "INFO"); ("TAM_MEMORIA", "16"); ("RETARDO_MEMORIA", "0")]
    : gmap string string).

Definition worker_file : string -> option t_config := fun _ => Some worker_map.

Definition worker_settings : t_worker_config :=
  match create_worker_config (Some worker_map) with Some (Some wc) => wc | _ => MkWorkerConfig ∅ ∅ end.

Definition both_answer : Network := speaking (fun ip => if String.eqb ip "s" then 3 else 4) (fun fd =>
  if fd =? 3 then [(storage_op STORAGE_OP_WORKER_SEND_ID_RES, []); (storage_op STORAGE_OP_WORKER_GET_BLOCK_SIZE_RES, [F_uint16 4])]
  else [(master_op OP_WORKER_ACK, [])]).

Lemma both_answer_peer fd : 0 <= fd -> peer (N := both_answer) fd
  (if fd =? 3 then [(storage_op STORAGE_OP_WORKER_SEND_ID_RES, []); (storage_op STORAGE_OP_WORKER_GET_BLOCK_SIZE_RES, [F_uint16 4])]
   else [(master_op OP_WORKER_ACK, [])]).
Proof.
  intros Hfd. apply (speaking_peer _ (fun fd => if fd =? 3 then _ else _) fd Hfd).
  assert (H0 : valid_message []) by (split; [constructor|vm_compute; discriminate]).
  assert (H4 : valid_message [F_uint16 4]) by (split; [constructor; [cbn; lia|constructor]|vm_compute; discriminate]).
  destruct (fd =? 3); repeat (apply List.Forall_cons || apply List.Forall_nil); cbn [fst snd]; (split; [|done]); cbn; lia.
Qed.

Lemma worker_starts_witness :
  exists w h', worker_main (N := both_answer) some_memory ["worker.config"; "7"] worker_file [] = Some ((0, Some w), h') /\
    mm_page_size (memory_manager (state w)) = 4 /\ policy (memory_manager (state w)) = CLOCK_M.
Proof.
  destruct (worker_starts (N := both_answer) some_memory worker_file "worker.config" "7" worker_map worker_settings
    3 4 4 (replicate 16 x00) [] [] []) as (w & h' & E & _ & _ & Hps & _ & Hpol).
  - vm_compute. reflexivity.
  - reflexivity.
  - vm_compute. reflexivity.
  - intros h. vm_compute. reflexivity.
  - intros h. vm_compute. reflexivity.
  - lia.
  - apply (both_answer_peer 3). lia.
  - apply (both_answer_peer 4). lia.
  - vm_compute. split; reflexivity.
  - lia.
  - vm_compute. reflexivity.
  - exists w, h'. split; [exact E|]. split; [exact Hps|]. rewrite Hpol. vm_compute. reflexivity.
Defined.

(** A number above all the descriptors of a history. *)
Fixpoint above (h : history) : Z :=
  match h with
  | [] => 3
  | Connected _ _ fd :: h => Z.max (fd + 1) (above h)
  | _ :: h => above h
  end.

Lemma open_below h fd : fd ∈ open_fds h -> fd < above h.
Proof.
  induction h as [|[ip port fd'|? ?|? ?|fd'] h IH]; cbn [open_fds above].
  - by intros ?%not_elem_of_empty.
  - destruct (fd' <? 0); [intros H; specialize (IH H); lia|]. rewrite elem_of_union, elem_of_singleton.
    intros [->|H]; [lia|specialize (IH H); lia].
  - exact IH.
  - exact IH.
  - rewrite elem_of_difference. intros [H _]. by apply IH.
Qed.

(** A network that takes the connections and says nothing. *)
Definition silent : Network := {|
  connects h _ _ := above h;
  send_returns _ _ block := Z.of_nat (length block);
  receives _ _ := MkSocket [] [0]
|}.

Lemma silent_new : new_descriptors (N := silent).
Proof. intros h ip port H%open_below. cbn in H. lia. Qed.

Abbreviation silent_main := (worker_main (N := silent) some_memory ["worker.config"; "7"] worker_file []).

(** It gives up, after a connection. *)
Definition gives_up : bool :=
  match silent_main with Some ((0, None), _ :: _) => true | _ => false end.

Lemma worker_starts_or_cleans_witness :
  exists h', silent_main = Some ((0, None), h') /\ open_fds h' = ∅ /\ h' <> [].
Proof.
  assert (V : gives_up = true) by (vm_compute; reflexivity). unfold gives_up in V.
  pose proof (worker_starts_or_cleans (N := silent) some_memory ["worker.config"; "7"] worker_file []) as H.
  destruct silent_main as [[[[| |] [w|]] [|e h']]|]; try discriminate V.
  exists (e :: h'). split; [reflexivity|]. split; [|discriminate].
  refine (H 0 None (e :: h') silent_new some_memory_ok _ eq_refl).
  intros path config wc Ec Ew. assert (Hc : config = worker_map) by (unfold worker_file in Ec; congruence). subst config.
  assert (wc = worker_settings) as -> by (unfold worker_settings; by rewrite Ew).
  vm_compute. split; [discriminate|reflexivity].
Defined.

(** Over a silent network every call fails and no block changes. *)
Lemma silent_receive fd h : receive (N := silent) fd h = Some (None, Got fd None :: h).
Proof. unfold receive, package_receive. by destruct (fd <? 0). Qed.

Definition silent_storage : BlockStorageSpec (worker_storage (N := silent)) 4.
Proof.
  refine {| conn_ok := fun _ => True; name_ok := fun _ => True; block_of := fun _ _ _ _ => replicate 4 x00 |}; try done.
  - intros c f t n s _ _ _ _.
    assert (H : wp (WorkerConnections.read_block_from_storage (N := silent) c f t n) (fun rd _ => fst rd = -1) s).
    { unfold WorkerConnections.read_block_from_storage. destruct (build _ _) as [[] rq]; cbn [negb]; [|done].
      unfold wp, mbind, st_bind, send. destruct (package_send _ _ _) as [rc block]. destruct (negb (rc =? 0)); [done|].
      by rewrite silent_receive. }
    eapply wp_mono; [exact H|]. intros rd s' ->. split; [done|]. intros [|]; done.
  - intros c f t n bs s _ _ _ _ Hl.
    assert (H : wp (WorkerConnections.write_block_to_storage (N := silent) c f t n bs) (fun r _ => r = -1) s).
    { unfold WorkerConnections.write_block_to_storage. destruct (build _ _) as [[] rq]; cbn [negb]; [|done].
      unfold wp, mbind, st_bind, send. destruct (package_send _ _ _) as [rc block]. destruct (negb (rc =? 0)); [done|].
      by rewrite silent_receive. }
    eapply wp_mono; [exact H|]. intros r s' ->. split; [done|]. intros; discriminate.
Defined.

Lemma worker_ends_clean_witness :
  exists w mm', worker_end (N := silent) w = Some mm' /\ pts mm' = ∅ /\ open_fds (the_store mm') = ∅.
Proof.
  set (mm := match mm_create (BS := worker_storage (N := silent)) 16 4 LRU (replicate 16 x00) [Connected "m" "1" 4; Connected "s" "2" 3] 0 with
             | Some mm => mm | None => MkMM (BS := worker_storage (N := silent)) [] 0 0 LRU [] 0 0 0 0 [] 0 None ∅ 1%positive 0 [] end).
  exists (initial_worker (BS := worker_storage (N := silent)) 4 3 "/s/" mm 7).
  destruct (worker_ends_clean (N := silent) (BSS := silent_storage) (initial_worker (BS := worker_storage (N := silent)) 4 3 "/s/" mm 7)) as (mm' & E & Ep & Eo).
  - destruct (mm_create_wf (BSS := silent_storage) 16 LRU (replicate 16 x00) ([Connected "m" "1" 4; Connected "s" "2" 3] : @store (worker_storage (N := silent))) 0 mm)
      as (H & _); [lia|lia|reflexivity|reflexivity|exact H].
  - cbn. lia.
  - cbn. lia.
  - exists mm'. split; [exact E|]. split; [exact Ep|]. rewrite Eo. apply set_eq. intros x. vm_compute (the_store _). cbn [open_fds].
    change (4 <? 0) with false. change (3 <? 0) with false. cbv iota. cbn. set_solver.
Defined.
