(* ===== verification/StorageLookup.v ===== *)
(** * The physical block of a logical one (storage/src/operations/commit_tag.c)

    [get_current_physical_block] looks for the physical block that shares the inode
    of a logical one.  Nothing in the Storage calls it; it is what its header says. *)

From S2P Require Import Prelude CStrings Config Serialization StorageFs StorageUtils StorageOps StorageServer StorageFsSpec.
From S2P Require Import StorageInvariant StorageSpec StorageCommit StorageInit StorageDisk.

(** [stat]: the inode of a file. *)
Definition stat_ino (p : path) : SM (option ino) := fun st => Some (links st !! p, st).

(** The loop over the directory, in the order of [readdir]. *)
Fixpoint scan_blocks (entries : list string) (logical : ino) : SM (Z * option string) :=
  match entries with
  | [] => mret (-3, None)
  | entry :: entries =>
      if String.eqb entry "." || String.eqb entry ".." then scan_blocks entries logical else
      physical ← stat_ino (P_physical entry);
      match physical with
      | None => scan_blocks entries logical
      | Some i => if decide (i = logical) then mret (0, Some entry) else scan_blocks entries logical
      end
  end.

(** [readdir] is what the directory of the physical blocks lists, without [.dat]. *)
Definition get_current_physical_block (readdir : list string) (logical_block_path : path) : SM (Z * option string) :=
  logical ← stat_ino logical_block_path;
  match logical with
  | None => mret (-1, None)
  | Some i =>
      opened ← dir_exists D_physical;
      if negb opened then mret (-2, None) else scan_blocks readdir i
  end.

Section Lookup.
Context {CC : CommonsConfig} {CB : CommonsBitarray} {CY : CommonsCrypto}.
Context {CCS : CommonsConfigSpec CC} {CBS : CommonsBitarraySpec CB}.
Context (cfg : t_storage_config).

Lemma scan_blocks_run st s entries i :
  (forall s' j, links st !! P_physical s' = Some j -> j = i -> s' = s) -> links st !! P_physical s = Some i ->
  s <> "." -> s <> ".." -> s ∈ entries -> scan_blocks entries i st = Some ((0, Some s), st).
Proof.
  intros Hinj Hs H1 H2. induction entries as [|e entries IH]; [by intros ?%not_elem_of_nil|]. intros Hin. cbn [scan_blocks].
  destruct (decide (e = s)) as [->|Hne].
  - apply String.eqb_neq in H1, H2. rewrite H1, H2. cbn [orb]. unfold mbind, st_bind, stat_ino. rewrite Hs. by rewrite decide_True.
  - apply elem_of_cons in Hin as [->|Hin]; [done|]. specialize (IH Hin). destruct (_ || _); [done|].
    unfold mbind, st_bind, stat_ino. destruct (links st !! P_physical e) as [j|] eqn:Ej; [|done].
    destruct (decide (j = i)) as [Hj|]; [|done]. by destruct Hne; apply (Hinj e j).
Qed.

(** In whatever order the directory is read, the block found for a block of a file
    is the one its metadata names; and there is none past the end of the file. *)
Theorem physical_block_found readdir st f t n :
  fs_wf cfg st -> (forall s, is_Some (links st !! P_physical s) -> s ∈ readdir) ->
  get_current_physical_block readdir (P_logical f t n) st =
    Some (match table st f t n with Some b => (0, Some (block_name b)) | None => (-1, None) end, st).
Proof.
  intros Hwf Hdir. pose proof (w_inv _ _ Hwf) as Hi. unfold get_current_physical_block, mbind, st_bind, stat_ino.
  rewrite (i_linked _ _ _ _ Hi f t n). destruct (table st f t n) as [b|] eqn:Eb; [|done]. change (Some b ≫= fun b => links st !! block_path b) with (links st !! block_path b).
  destruct (i_phys _ _ _ _ Hi b) as (bs & Ef & _); [by eapply (i_range _ _ _ _ Hi)|].
  unfold file_at in Ef.  unfold block_path in *.
  destruct (links st !! P_physical (block_name b)) as [i|] eqn:Ei; [|done].
  unfold dir_exists. rewrite bool_decide_eq_true_2 by apply (i_dirs _ _ _ _ Hi). cbn [negb].
  apply scan_blocks_run; [|done|done|done|apply Hdir; by rewrite Ei].
  intros s' j Hs' ->. by eapply (i_inj _ _ _ _ Hi).
Qed.

End Lookup.

Lemma physical_block_found_witness :
  exists readdir, get_current_physical_block readdir (P_logical "initial_file" "BASE" 0) (formatted 4) =
    Some ((0, Some "block0000"), formatted 4).
Proof.
  exists ("." :: ".." :: omap (fun kv => match kv.1 with P_physical s => Some s | _ => None end) (map_to_list (links (formatted 4)))).
  destruct (formatted_ok 4) as (Hwf & _); [lia|].
  rewrite (physical_block_found (small 4) _ (formatted 4) "initial_file" "BASE" 0 Hwf).
  - rewrite (i_base _ _ _ _ (w_inv _ _ Hwf)). reflexivity.
  - intros s [i Hi]. do 2 right. apply list_elem_of_omap. exists (P_physical s, i). split; [by apply elem_of_map_to_list|done].
Defined.
