(* ===== verification/SystemSpec.v ===== *)
(** * The worker and the Storage together

    The network of the worker with the Storage of StorageServer.v at the other end
    of a socket.  The state of the Storage is a function of what has been sent to
    it: each message goes, in fragments, through [package_receive] and
    [handle_client], and what this answers is what the worker receives next.

    The Storage may go away: [up] says, from the history and its state, whether it
    still takes a message.  It is only asked to take requests that a worker can send,
    at moments when the conditions of StorageProps.v hold: a write has a block to
    spare, a commit finds an accurate index, a size is an [int].

    The composed system keeps the contracts of the worker: its calls over
    [system_network] do to the Storage behind it what StorageSpec.v says, so they meet
    [BlockStorageSpec] and [WorkerCallsSpec]: what is proved of the memory and of the
    interpreter against a Storage that keeps its contract holds over the Storage of
    this repository. *)

From S2P Require Import Prelude CStrings Config Serialization Protocol StorageFs StorageUtils StorageOps StorageServer StorageFsSpec.
From S2P Require Import StorageInvariant StorageSpec StorageRefine StorageCommit StorageInit StorageDisk StorageProps.
From S2P Require Import Commons PageTable MemoryManager MemoryInvariant MemorySpec PagingSpec FilesSpec Interpreter InterpreterSpec.
From S2P Require Import WorkerConnections ConnectionsSpec StorageWire WorkerProps.

(** ** The network *)

Section Network.
Context {CC : CommonsConfig} {CB : CommonsBitarray} {CY : CommonsCrypto}.
Variables (cfg : t_storage_config) (st0 : storage) (fd : Z).

(** What the rest of the network does, when the Storage takes a message, and the
    fragments in which bytes arrive. *)
Record surroundings := MkSurroundings {
  others : Network;
  up : history -> storage -> list byte -> bool;
  cuts : history -> list byte -> list Z
}.

Variable env : surroundings.

(** The Storage receives [block] and answers. *)
Definition served (gs : list Z) (block : list byte) (st : storage) : storage * list byte :=
  match package_receive fd (MkSocket block gs) with
  | Package request _ =>
      match handle_client cfg [Some request] st with
      | Some (responses, st') => (st', flat_map serialized_package responses)
      | None => (st, [])
      end
  | NoPackage _ | Blocked => (st, [])
  end.

(** The Storage after [h], and the bytes it has answered that were not received. *)
Fixpoint behind (h : history) : storage * list byte :=
  match h with
  | [] => (st0, [])
  | Sent fd' block :: h' =>
      if fd' =? fd then
        if up env h' (fst (behind h')) block then served (cuts env h' block) block (fst (behind h'))
        else (fst (behind h'), [])
      else behind h'
  | Got fd' _ :: h' => if fd' =? fd then (fst (behind h'), []) else behind h'
  | _ :: h' => behind h'
  end.

#[local] Instance system_network : Network := {|
  connects := @connects (others env);
  send_returns h fd' block := if fd' =? fd then Z.of_nat (length block) else @send_returns (others env) h fd' block;
  receives h fd' :=
    if fd' =? fd then MkSocket (snd (behind h)) (cuts env h (snd (behind h)) ++ [1]) else @receives (others env) h fd'
|}.

(** ** What is asked of the surroundings *)

Context {CCS : CommonsConfigSpec CC} {CBS : CommonsBitarraySpec CB} {CYS : CommonsCryptoSpec CY}.
Context {Hcfg : cfg_ok cfg}.

(** A size that [int] can hold. *)
Definition int_size (r : request) : Prop := match r with R_truncate _ _ size => size < 2 ^ 31 | _ => True end.

Record surroundings_ok : Prop := {
  e_cuts h bs : socket_live (MkSocket bs (cuts env h bs));
  e_up h st block : fs_wf cfg st -> up env h st block = true ->
    exists q r, block = message (request_op r) (request_fields q r) /\ valid_message (request_fields q r) /\
      request_pre cfg r st /\ int_size r
}.

End Network.

(** ** Requests *)

(** Two messages that can be read are the same only if the requests are. *)
Lemma package_read_kind p q r r' :
  request_op r = request_op r' -> forall q', package_read_all p (request_fields q r) = package_read_all p (request_fields q' r').
Proof. destruct r, r'; (intros H; discriminate H || (vm_compute in H; discriminate H) || intros q'; reflexivity). Qed.

Lemma message_injective q r q' r' :
  valid_message (request_fields q r) -> valid_message (request_fields q' r') ->
  message (request_op r) (request_fields q r) = message (request_op r') (request_fields q' r') -> q = q' /\ r = r'.
Proof.
  intros Hv Hv' E. set (gs := replicate (length (message (request_op r) (request_fields q r))) 1).
  assert (Hlive : socket_live (MkSocket (message (request_op r) (request_fields q r) ++ []) gs)).
  { split; [by apply Forall_replicate|]. cbn [inflight grants]. unfold gs. by rewrite app_nil_r, length_replicate. }
  pose proof (message_carries _ _ (request_op_byte r) Hv [] gs 0 ltac:(lia) Hlive) as (p & s & Ep & Eop & _ & Hr).
  rewrite E in Hlive, Ep.
  pose proof (message_carries _ _ (request_op_byte r') Hv' [] gs 0 ltac:(lia) Hlive) as (p' & s' & Ep' & Eop' & _ & Hr').
  assert (p' = p) as -> by congruence. assert (Ho : request_op r = request_op r') by congruence.
  rewrite (package_read_kind p q r r' Ho q'), Hr' in Hr.
  assert (Hf : request_fields q' r' = request_fields q r) by congruence.
  clear - Ho Hf. destruct r, r'; try (vm_compute in Ho; discriminate Ho); clear Ho; unfold request_fields in Hf; injection Hf; intros; subst; done.
Qed.

Definition good_name (s : string) : Prop := valid_field (F_string s).

(** The arguments of a request that fit its message. *)
Definition request_ok (r : request) : Prop :=
  match r with
  | R_read f t n => good_name f /\ good_name t /\ 0 <= n < 2 ^ 32
  | R_write f t n bs => good_name f /\ good_name t /\ 0 <= n < 2 ^ 32 /\ 0 < Z.of_nat (length bs) <= MAX_DATA_SIZE
  | R_create f t | R_commit f t | R_delete f t => good_name f /\ good_name t
  | R_truncate f t size => good_name f /\ good_name t /\ 0 <= size < 2 ^ 32
  | R_fork fs ts fd td => good_name fs /\ good_name ts /\ good_name fd /\ good_name td
  end.

Lemma request_valid q r : 0 <= q < 2 ^ 32 -> request_ok r -> valid_message (request_fields q r).
Proof.
  intros Hq Hr. split.
  - destruct r; cbn in Hr; repeat constructor; try lia; intuition.
  - assert (Hs : forall s, good_name s -> Z.of_nat (length (string_bytes s)) <= 2 ^ 20).
    { intros s [H _]. rewrite length_string_bytes. exact H. }
    unfold wire_size, encode_all, request_fields. destruct r; cbn [flat_map encode]; rewrite ?length_app, ?length_be32;
      cbn [request_ok] in Hr; unfold MAX_DATA_SIZE in *; cbn [length];
      repeat match type of Hr with good_name ?s /\ _ => let H := fresh in destruct Hr as [H%Hs Hr] end;
      try apply Hs in Hr; lia.
Qed.

(** The number of the query goes out as a [uint32_t]. *)
Lemma le_bytes_mod n z : le_bytes n (z mod 256 ^ Z.of_nat n) = le_bytes n z.
Proof. rewrite <- le_val_le_bytes. rewrite <- (length_le_bytes n z) at 1. apply le_bytes_le_val. Qed.

Lemma build_u32 op q fs : build op (F_uint32 (u32 q) :: fs) = build op (F_uint32 q :: fs).
Proof.
  unfold build. cbn [package_add_all package_add]. unfold package_add_uint32, on_buffer, buffer_write_uint32, htonl.
  by rewrite (le_bytes_mod 4 q : le_bytes 4 (u32 q) = le_bytes 4 q).
Qed.

Definition wrapped (c : conn_t) : conn_t := MkConn (to_storage c) (to_master c) (u32 (of_query c)).

Section Calls.
Context {N : Network}.

Lemma perform_wrapped c r h : perform (wrapped c) r h = perform c r h.
Proof.
  unfold wrapped. destruct c as [ss ms q], r; cbn [perform to_storage to_master of_query];
    unfold read_block_from_storage, write_block_to_storage, create_file_in_storage, truncate_file_in_storage,
      fork_file_in_storage, commit_file_in_storage, delete_file_in_storage; cbn [of_query to_storage to_master];
    by rewrite build_u32.
Qed.

(** A call that gets no answer. *)
Lemma perform_unanswered c r h :
  0 <= to_storage c -> valid_message (request_fields (of_query c) r) ->
  taken h (to_storage c) (message (request_op r) (request_fields (of_query c) r)) ->
  let h1 := Sent (to_storage c) (message (request_op r) (request_fields (of_query c) r)) :: h in
  receive (to_storage c) h1 = Some (None, Got (to_storage c) None :: h1) ->
  perform c r h = Some ((-1, None), Got (to_storage c) None :: h1).
Proof.
  intros Hst Hv Ht h1 Er.
  destruct (send_message (request_op r) (request_fields (of_query c) r) (to_storage c) h) as (rq & Eb & Es & _);
    [apply request_op_byte|done..|].
  fold h1 in Es. destruct r; unfold request_op, request_fields in Eb; cbn [perform];
    unfold read_block_from_storage, write_block_to_storage, create_file_in_storage, truncate_file_in_storage,
      fork_file_in_storage, commit_file_in_storage, delete_file_in_storage.
  all: try (rewrite (u32_small size) by (destruct Hv as [Hv _]; do 3 apply Forall_inv_tail in Hv; by apply Forall_inv in Hv)).
  all: rewrite Eb; cbv beta iota; cbn [negb];
    unfold send_request_and_wait_ack_with_error_handling, send_request_and_wait_ack, mbind, st_bind;
    rewrite Es; cbn [Z.eqb negb]; by rewrite Er.
Qed.

(** A call over a socket that is not open. *)
Lemma perform_unconnected c r h :
  to_storage c < 0 -> exists es, perform c r h = Some ((-1, None), es ++ h) /\ Forall (fun e => exists bs, e = Sent (to_storage c) bs) es.
Proof.
  intros Hst. assert (Es : forall p, send p (to_storage c) h = Some (-1, Sent (to_storage c) [] :: h)).
  { intros p. unfold send, package_send. destruct (Z.ltb_spec (to_storage c) 0); [done|lia]. }
  assert (Hno : exists es, Some (-1, None, h) = Some ((-1, None : option (list byte)), es ++ h) /\
    Forall (fun e => exists bs, e = Sent (to_storage c) bs) es) by (by exists []).
  assert (Hsent : exists es, Some (-1, None, Sent (to_storage c) [] :: h) = Some ((-1, None : option (list byte)), es ++ h) /\
    Forall (fun e => exists bs, e = Sent (to_storage c) bs) es).
  { exists [Sent (to_storage c) []]. split; [done|]. constructor; eauto. }
  destruct r; cbn [perform]; unfold read_block_from_storage, write_block_to_storage, create_file_in_storage, truncate_file_in_storage,
      fork_file_in_storage, commit_file_in_storage, delete_file_in_storage;
    destruct (build _ _) as [[] rq]; cbn [negb]; try exact Hno;
    unfold send_request_and_wait_ack_with_error_handling, send_request_and_wait_ack, mbind, st_bind; rewrite Es; exact Hsent.
Qed.

(** What follows the answer goes to the Master. *)
Lemma answered_history c r p h out h' :
  answered c r p h = Some (out, h') -> h' = h \/ exists bs, h' = Sent (to_master c) bs :: h.
Proof.
  unfold answered. destruct (_ =? accept_op r); [intros [= _ <-]; by left|].
  destruct (_ && _); [|intros [= _ <-]; by left]. unfold mbind, st_bind, handler_error_from_storage.
  destruct (package_read_uint32 _) as [[q|] p1]; [|intros [= _ <-]; by left].
  destruct (package_read_string p1) as [[s|] p2]; [|intros [= _ <-]; by left].
  destruct (build _ _) as [[] ep]; cbn [negb]; [|intros [= _ <-]; by left].
  unfold mbind, st_bind, send. destruct (package_send _ _ _) as [rc bs]. intros [= _ <-]. right. by exists bs.
Qed.

End Calls.

Section System.
Context {CC : CommonsConfig} {CB : CommonsBitarray} {CY : CommonsCrypto}.
Context {CCS : CommonsConfigSpec CC} {CBS : CommonsBitarraySpec CB} {CYS : CommonsCryptoSpec CY}.
Variables (cfg : t_storage_config) (st0 : storage) (fd : Z) (env : surroundings).
Context {Hcfg : cfg_ok cfg}.
Hypothesis Hst0 : fs_wf cfg st0.
Hypothesis Hfd : 0 <= fd.
Hypothesis Hmax : block_size cfg <= MAX_DATA_SIZE.
Hypothesis Henv : surroundings_ok cfg env.

Abbreviation bsize := (block_size cfg).
Abbreviation wf := (fs_wf cfg).
Abbreviation behind := (behind cfg st0 fd env).
Abbreviation net := (system_network cfg st0 fd env).

(** ** The Storage behind the socket *)

(** A request that the Storage takes, with its answer. *)
Lemma served_request st q r gs :
  wf st -> request_pre cfg r st -> valid_message (request_fields q r) ->
  socket_live (MkSocket (message (request_op r) (request_fields q r)) gs) ->
  exists st' block, served cfg fd gs (message (request_op r) (request_fields q r)) st = (st', block) /\ wf st' /\
    represents st' (snd (spec_request cfg r (map_of st))) /\
    carries block (fst (answer_of cfg q r (fst (fst (spec_request cfg r (map_of st)))) (snd (fst (spec_request cfg r (map_of st))))))
      (snd (answer_of cfg q r (fst (fst (spec_request cfg r (map_of st)))) (snd (fst (spec_request cfg r (map_of st)))))).
Proof.
  intros Hwf Hp Hv Hlive. rewrite <- (app_nil_r (message _ _)) in Hlive.
  destruct (message_carries _ _ (request_op_byte r) Hv [] gs fd Hfd Hlive) as (p & s & Ep & Eop & _ & Hr). rewrite app_nil_r in Ep.
  destruct (request_answered cfg st (map_of st) q r p) as (m & resp & st' & Eh & Em & Hwf' & HA & Hc); [done|by apply represents_map|done..|].
  exists st', (serialized_package resp). split; [|done]. unfold served. rewrite Ep. cbn [handle_client]. rewrite Eh.
  unfold mbind, st_bind. rewrite Em. cbn. by rewrite app_nil_r.
Qed.

Lemma up_served h st block :
  wf st -> up env h st block = true -> exists q r, block = message (request_op r) (request_fields q r) /\
    valid_message (request_fields q r) /\ request_pre cfg r st /\ int_size r /\ wf (fst (served cfg fd (cuts env h block) block st)).
Proof.
  intros Hwf Hu. destruct (e_up _ _ Henv _ _ _ Hwf Hu) as (q & r & -> & Hv & Hp & Hi). exists q, r. do 4 (split; [done|]).
  destruct (served_request st q r (cuts env h (message (request_op r) (request_fields q r)))) as (st' & bs & -> & Hwf' & _); [done..| |done].
  by apply Henv.
Qed.

(** The Storage is good at every moment. *)
Lemma behind_wf h : wf (fst (behind h)).
Proof.
  induction h as [|e h IH]; [exact Hst0|]. cbn [behind]. destruct e as [ip port fd'|fd'|fd' block|fd' p]; try exact IH; destruct (fd' =? fd); try exact IH.
  destruct (up _ _ _ _) eqn:Eu; [|exact IH]. by destruct (up_served _ _ _ IH Eu) as (q & r & _ & _ & _ & _ & H).
Qed.

Lemma behind_got h p : behind (Got fd p :: h) = (fst (behind h), []).
Proof. cbn. by rewrite Z.eqb_refl. Qed.

Lemma behind_elsewhere h fd' block : fd' <> fd -> behind (Sent fd' block :: h) = behind h.
Proof. intros Hne. cbn. by rewrite (proj2 (Z.eqb_neq _ _) Hne). Qed.

Lemma behind_elsewhere_all h fd' es : fd' <> fd -> Forall (fun e => exists bs, e = Sent fd' bs) es -> behind (es ++ h) = behind h.
Proof. intros Hne H. induction H as [|e es (bs & ->) H IH]; [done|]. cbn [app]. by rewrite behind_elsewhere. Qed.

(** A call to the Storage: it is carried out, or the Storage has gone away. *)
Definition called (r : request) (st st' : storage) (out : Z * option (list byte)) : Prop :=
  (request_pre cfg r st /\ int_size r /\ represents st' (snd (spec_request cfg r (map_of st))) /\
   out = let '(code, bs) := fst (spec_request cfg r (map_of st)) in if code =? 0 then (0, if is_read r then Some bs else None) else (-1, None)) \/
  (st' = st /\ out = (-1, None)).

Lemma call_served c r h :
  to_storage c = fd -> to_master c <> fd -> 0 <= of_query c < 2 ^ 32 -> request_ok r ->
  exists out h', perform (N := net) c r h = Some (out, h') /\ called r (fst (behind h)) (fst (behind h')) out.
Proof.
  intros Ess Hms Hq Hr. pose proof (request_valid _ _ Hq Hr) as Hv. pose proof (behind_wf h) as Hwf.
  set (block := message (request_op r) (request_fields (of_query c) r)) in *.
  assert (Ht : taken (N := net) h (to_storage c) block) by (unfold taken; cbn; by rewrite Ess, Z.eqb_refl).
  destruct (up env h (fst (behind h)) block) eqn:Eu.
  - destruct (up_served _ _ _ Hwf Eu) as (q' & r' & Eb & Hv' & Hp & Hi & _).
    destruct (message_injective _ _ _ _ Hv Hv' Eb) as [<- <-]. fold block in Eb. clear Eb Hv'.
    destruct (served_request (fst (behind h)) (of_query c) r (cuts env h block)) as (st' & bs & Es & Hwf' & HA & Hc); [done..|by apply Henv|].
    fold block in Es. set (sp := spec_request cfg r (map_of (fst (behind h)))) in *.
    assert (Eh : behind (Sent fd block :: h) = (st', bs)) by (cbn [behind]; by rewrite Z.eqb_refl, Eu).
    assert (Hx : exchange (N := net) c r (fst (answer_of cfg (of_query c) r (fst (fst sp)) (snd (fst sp))))
                   (snd (answer_of cfg (of_query c) r (fst (fst sp)) (snd (fst sp)))) h).
    { split; [lia|done|exact Ht|]. rewrite Ess. exists bs, [], (cuts env (Sent fd block :: h) bs ++ [1]). split; [|split; [|exact Hc]].
      - cbn [receives system_network]. rewrite Z.eqb_refl, app_nil_r. fold block. by rewrite Eh.
      - rewrite app_nil_r. destruct (e_cuts _ _ Henv (Sent fd block :: h) bs) as [H1 H2]. cbn [inflight grants] in *.
        split; cbn [inflight grants]; [apply Forall_app; split; [exact H1|by repeat constructor]|rewrite length_app; lia]. }
    destruct (answer_understood cfg (net) c r (fst (fst sp)) (snd (fst sp)) h Hx) as (h' & E).
    { intros Hrd H0. destruct r as [f t n| | | | | |]; try done. unfold sp in *. cbn [spec_request fst snd] in *.
      destruct (spec_read f t n (map_of (fst (behind h)))) as [code rd] eqn:Er. cbn in H0 |- *. subst code.
      by apply (spec_read_length cfg (fst (behind h)) (map_of (fst (behind h))) f t n). }
    destruct (perform_exchange (N := net) _ _ _ _ _ Hx) as (p & _ & _ & _ & E'). rewrite E in E'.
    eexists _, h'. split; [exact E|]. left. split; [done|]. split; [done|].
    assert (Eb : fst (behind h') = st').
    { symmetry in E'. apply answered_history in E' as [->|[bs' ->]]; [|rewrite behind_elsewhere by done];
        rewrite Ess, behind_got; fold block; by rewrite Eh. }
    rewrite Eb. split; [exact HA|]. fold sp. by destruct (fst sp).
  - assert (Eh : behind (Sent fd block :: h) = (fst (behind h), [])) by (cbn [behind]; by rewrite Z.eqb_refl, Eu).
    eexists _, _. split; [apply perform_unanswered; [lia|exact Hv|exact Ht|]|].
    + fold block. rewrite Ess. unfold receive. cbn [receives system_network]. rewrite Z.eqb_refl, Eh. cbn [snd].
      unfold package_receive. destruct (Z.ltb_spec fd 0); [lia|]. unfold recv_all. cbn [grants inflight].
      change (Z.to_nat 1) with 1%nat. destruct (cuts env _ [] ++ [1]) as [|g gs] eqn:Eg; [by destruct (cuts env _ [])|].
      cbn [recv_loop length]. rewrite Nat.min_0_r. cbn [Z.of_nat]. by rewrite orb_true_r.
    + right. split; [|done]. fold block. rewrite Ess, behind_got. by rewrite Eh.
Qed.

(** ** The blocks of the files *)

Definition zeros_block : list byte := replicate (Z.to_nat bsize) x00.

(** Block [n] of a file of the map: zeros where there is none. *)
Definition block_in (A : astorage) (f t : string) (n : Z) : list byte :=
  match a_files A f t with
  | Some a => if 0 <=? n then default zeros_block (a_blocks a !! Z.to_nat n) else zeros_block
  | None => zeros_block
  end.

Definition storage_block (st : storage) : string -> string -> Z -> list byte := block_in (map_of st).

Lemma represented_block st A f t n : represents st A -> storage_block st f t n = block_in A f t n.
Proof. intros [HA _]. unfold storage_block, block_in. by rewrite HA. Qed.

Lemma storage_block_length st f t n : wf st -> length (storage_block st f t n) = Z.to_nat bsize.
Proof.
  intros Hwf. assert (Hz : length zeros_block = Z.to_nat bsize) by apply length_replicate.
  unfold storage_block, block_in. cbn [map_of a_files]. unfold files. destruct (meta st f t) as [m|] eqn:Em; [|done]. cbn.
  destruct (0 <=? n); [|done]. rewrite list_lookup_fmap. destruct (md_blocks m !! Z.to_nat n) as [b|] eqn:Eb; [|done].
  by destruct (stored_block cfg st f t m _ b Hwf Em Eb).
Qed.

(** What an operation of the map does to the blocks. *)
Lemma read_block_in A f t n bs : 0 <= n -> spec_read f t n A = (0, bs) -> bs = block_in A f t n.
Proof.
  intros Hn. unfold spec_read, block_in. destruct (a_files A f t) as [a|]; [|done]. destruct (_ <=? i32 n); [done|].
  rewrite (proj2 (Z.leb_le _ _) Hn). destruct (a_blocks a !! Z.to_nat n); [|done]. by intros [= <-].
Qed.

(** Only the file [f:t] changes, and nothing when the operation fails. *)
Definition only_file (f t : string) (A A' : astorage) (code : Z) : Prop :=
  (code <> 0 -> A' = A) /\ forall f' t' n, (f', t') <> (f, t) -> block_in A' f' t' n = block_in A f' t' n.

Lemma update_only_file f t o A : forall f' t' n, (f', t') <> (f, t) -> block_in (a_update f t o A) f' t' n = block_in A f' t' n.
Proof. intros f' t' n Hne. unfold block_in. cbn. by rewrite decide_False. Qed.

Lemma write_only_file f t n bs A : only_file f t A (snd (spec_write cfg f t n bs A)) (fst (spec_write cfg f t n bs A)).
Proof.
  unfold spec_write. destruct (a_files A f t) as [a|]; [|done]. repeat (case_match; [done|]). split; [done|]. apply update_only_file.
Qed.

Lemma write_block_in f t n bs A f' t' n' :
  0 <= n -> length bs = Z.to_nat bsize -> fst (spec_write cfg f t n bs A) = 0 ->
  block_in (snd (spec_write cfg f t n bs A)) f' t' n' = if decide ((f', t', n') = (f, t, n)) then bs else block_in A f' t' n'.
Proof.
  intros Hn Hl. unfold spec_write. destruct (a_files A f t) as [a|] eqn:Ea; [|done]. destruct (String.eqb _ _); [done|].
  destruct (_ <=? i32 n); [done|]. destruct (Z.leb_spec (Z.of_nat (length (a_blocks a))) n); [done|]. intros _. cbn [snd].
  unfold block_in. cbn. destruct (decide ((f', t') = (f, t))) as [[= -> ->]|Hne].
  2:{ rewrite decide_False; [done|]. congruence. }
  rewrite Ea. cbn. destruct (Z.leb_spec 0 n') as [Hn'|Hn']; [|rewrite decide_False; [done|congruence || (intros [= ->]; lia)]].
  destruct (decide (n' = n)) as [->|Hne].
  - rewrite decide_True by done. rewrite list_lookup_insert_eq by lia. cbn. unfold block_image. rewrite take_ge by lia.
    by rewrite Hl, Nat.sub_diag, app_nil_r.
  - rewrite decide_False by congruence. by rewrite list_lookup_insert_ne by lia.
Qed.

Lemma create_only_file f t A : only_file f t A (snd (spec_create f t A)) (fst (spec_create f t A)).
Proof.
  unfold spec_create. destruct (a_files A f t); [done|]. split; [done|]. intros f' t' n Hne. cbn [snd]. by rewrite update_only_file.
Qed.

Lemma fork_only_file fs ts f t A : only_file f t A (snd (spec_fork fs ts f t A)) (fst (spec_fork fs ts f t A)).
Proof.
  unfold spec_fork. destruct (a_files A f t), (a_files A fs ts); try done. destruct (a_names A f); [|done].
  split; [done|]. apply update_only_file.
Qed.

Lemma delete_only_file f t A : only_file f t A (snd (spec_delete f t A)) (fst (spec_delete f t A)).
Proof.
  unfold spec_delete. destruct (is_base f t); [done|]. destruct (a_files A f t); [|done]. split; [done|]. apply update_only_file.
Qed.

Lemma commit_block_in f t A f' t' n : block_in (snd (spec_commit f t A)) f' t' n = block_in A f' t' n.
Proof.
  unfold spec_commit. destruct (a_files A f t) as [a|] eqn:Ea; [|done]. destruct (String.eqb _ _); [done|]. cbn [snd].
  unfold block_in. cbn. case_decide as E; [|done]. injection E as -> ->. by rewrite Ea.
Qed.

Lemma truncate_only_file f t size A : only_file f t A (snd (spec_truncate cfg f t size A)) (fst (spec_truncate cfg f t size A)).
Proof.
  unfold spec_truncate. destruct (a_files A f t); [|done]. destruct (_ && _); [done|]. split; [done|]. apply update_only_file.
Qed.

Lemma truncate_block_in f t size A n :
  0 <= size -> n < size / bsize -> block_in (snd (spec_truncate cfg f t size A)) f t n = block_in A f t n.
Proof.
  intros Hs Hn. destruct Hcfg as [Hb _ _]. unfold spec_truncate. destruct (a_files A f t) as [a|] eqn:Ea; [|done].
  destruct (_ && _); [done|]. cbn [snd]. unfold block_in. cbn. rewrite decide_True, Ea by done. cbn.
  destruct (Z.leb_spec 0 n); [|done]. unfold resize_blocks.
  assert (Hk : n < blocks_for cfg size).
  { unfold blocks_for. rewrite Z.quot_div_nonneg by lia. eapply Z.lt_le_trans; [exact Hn|]. apply Z.div_le_mono; lia. }
  destruct (a_blocks a !! Z.to_nat n) as [b|] eqn:Eb.
  - rewrite lookup_app_l by (rewrite length_take; apply lookup_lt_Some in Eb; lia). rewrite lookup_take_lt by lia. by rewrite Eb.
  - apply lookup_ge_None in Eb. rewrite lookup_app_r by (rewrite length_take; lia). rewrite lookup_replicate_2; [done|].
    rewrite length_take. lia.
Qed.

(** ** The contracts *)

(** The block of the file system behind the history. *)
Definition block_behind (h : history) : string -> string -> Z -> list byte := storage_block (fst (behind h)).

(** Connected to the Storage, or to nobody; the Master is another peer. *)
Definition conn_good (c : conn_t) : Prop := to_master c <> fd /\ (to_storage c = fd \/ to_storage c < 0).

Lemma wrapped_query c : 0 <= of_query (wrapped c) < 2 ^ 32.
Proof. apply u32_bound. Qed.

(** A call, whatever the connection: the Storage ends good, with the map of the
    specification, or as it was. *)
Lemma call_run c r h :
  conn_good c -> request_ok r ->
  exists out h', perform (N := net) c r h = Some (out, h') /\ called r (fst (behind h)) (fst (behind h')) out.
Proof.
  intros [Hms [Ess|Hss]] Hr.
  - destruct (call_served (wrapped c) r h) as (out & h' & E & Hc); [done|done|apply wrapped_query|done|].
    rewrite perform_wrapped in E. by exists out, h'.
  - destruct (perform_unconnected (N := net) c r h Hss) as (es & E & Hes). eexists _, _. split; [exact E|]. right. split; [|done].
    rewrite (behind_elsewhere_all h (to_storage c)); [done|lia|done].
Qed.

(** An operation that fails changes nothing. *)
Lemma sop_fails op A : fst (sop_spec cfg op A) <> 0 -> snd (sop_spec cfg op A) = A.
Proof.
  destruct op; cbn [sop_spec]; [apply create_only_file|apply truncate_only_file|apply fork_only_file|apply write_only_file| |apply delete_only_file].
  unfold spec_commit. destruct (a_files A f t); [|done]. by destruct (String.eqb _ _).
Qed.

(** A call that is not a read: it returns 0 and its operation was done, or -1 and
    no block has changed. *)
Lemma called_op r op st st' out :
  request_sop r = Some op -> called r st st' out ->
  (fst out = 0 /\ int_size r /\ fst (sop_spec cfg op (map_of st)) = 0 /\
     forall f t n, storage_block st' f t n = block_in (snd (sop_spec cfg op (map_of st))) f t n) \/
  (fst out = -1 /\ forall f t n, storage_block st' f t n = storage_block st f t n).
Proof.
  intros Es [(_ & Hi & HA & ->)|[-> ->]]; [|by right].
  assert (Esp : spec_request cfg r (map_of st) = (fst (sop_spec cfg op (map_of st)), [], snd (sop_spec cfg op (map_of st))))
    by (destruct r; cbn [request_sop] in Es; [done|..]; by injection Es as <-).
  rewrite Esp in *. cbn [fst snd] in *. pose proof (sop_fails op (map_of st)) as Hf.
  destruct (Z.eqb_spec (fst (sop_spec cfg op (map_of st))) 0) as [E|E]; [left|right]; (split; [done|]).
  - do 2 (split; [done|]). intros f t n. by apply represented_block.
  - intros f t n. rewrite (represented_block _ _ _ _ _ HA). by rewrite Hf.
Qed.

(** The call of a request that is not a read returns a code. *)
Lemma wp_operation c r op (m : ST history Z) (Q : Z -> history -> Prop) h :
  (forall h, perform (N := net) c r h = (rc ← m; mret (rc, None)) h) -> request_sop r = Some op ->
  conn_good c -> request_ok r ->
  (forall h', int_size r -> fst (sop_spec cfg op (map_of (fst (behind h)))) = 0 ->
     (forall f t n, block_behind h' f t n = block_in (snd (sop_spec cfg op (map_of (fst (behind h))))) f t n) -> Q 0 h') ->
  (forall h', (forall f t n, block_behind h' f t n = block_behind h f t n) -> Q (-1) h') ->
  wp m Q h.
Proof.
  intros Em Es Hc Hr H0 H1. destruct (call_run c r h Hc Hr) as (out & h' & E & Hcl). rewrite Em in E.
  apply run_bind in E as (rc & h1 & E & [= <- <-]). unfold wp. rewrite E.
  destruct (called_op r op _ _ _ Es Hcl) as [(Eo & Hi & Hz & Hb)|[Eo Hb]]; cbn in Eo; subst rc; [by apply H0|by apply H1].
Qed.

#[export] Instance system_storage : BlockStorageSpec (worker_storage (N := net)) bsize.
Proof.
  refine {| conn_ok := conn_good; name_ok := good_name; block_of := block_behind : @store (worker_storage (N := net)) -> _ |}.
  - split; cbn; lia.
  - intros h f t n. apply storage_block_length, behind_wf.
  - intros c f t n h Hc Hf Ht Hn. destruct (call_run c (R_read f t n) h Hc ltac:(done)) as (out & h' & E & Hcl).
    unfold wp. cbn [MemoryManager.read_block_from_storage worker_storage]. cbn [perform] in E. rewrite E.
    assert (Hsame : forall f' t' n', block_behind h' f' t' n' = block_behind h f' t' n').
    { intros. destruct Hcl as [(_ & _ & HA & _)|[H _]]; [|unfold block_behind; by rewrite H].
      by apply (represented_block _ _ _ _ _ HA). }
    split; [exact Hsame|]. destruct Hcl as [(_ & _ & _ & ->)|[_ ->]]; [|by intros [|]].
    cbn [spec_request fst]. destruct (spec_read f t n (map_of (fst (behind h)))) as [code bs] eqn:Er.
    destruct (Z.eqb_spec code 0) as [->|]; cbn [fst snd is_read]; [|by intros [|]]. intros _.
    apply read_block_in in Er as ->; [|lia]. pose proof (storage_block_length (fst (behind h)) f t n (behind_wf h)) as Hl.
    change (block_in (map_of (fst (behind h)))) with (block_behind h) in *. fold (storage_block (fst (behind h))) in Hl.
    change (storage_block (fst (behind h))) with (block_behind h) in Hl. destruct Hcfg as [Hb _ _].
    unfold fault_page. rewrite Hl. rewrite (proj2 (Z.ltb_lt _ _)) by lia. cbn [Z.eqb andb].
    by rewrite take_ge, Hl, Nat.sub_diag, app_nil_r by lia.
  - intros c f t n bs h Hc Hf Ht Hn Hl. destruct Hcfg as [Hb _ _].
    eapply (wp_operation c (R_write f t n bs)); [reflexivity|reflexivity|done| |..].
    + cbn. do 3 (split; [done|]). lia.
    + intros h' _ Hz Hbl. split; [|intros _]; intros; rewrite Hbl; cbn [sop_spec] in *; rewrite write_block_in by (done || lia);
        [by rewrite decide_False|by rewrite decide_True].
    + intros h' Hbl. split; [by intros|done].
Defined.

(** What is sent to the Master leaves the Storage alone. *)
Lemma wp_to_master c p (Q : Z -> history -> Prop) h :
  conn_good c -> (forall rc h', (forall f t n, block_behind h' f t n = block_behind h f t n) -> Q rc h') ->
  wp (WorkerConnections.send (N := net) p (to_master c)) Q h.
Proof.
  intros [Hms _] HQ. unfold wp, WorkerConnections.send. destruct (package_send _ _ _) as [rc bs]. apply HQ.
  intros. unfold block_behind. by rewrite behind_elsewhere.
Qed.

#[export] Instance system_calls : WorkerCallsSpec (worker_calls (N := net)) system_storage.
Proof.
  split; cbn [conn_ok name_ok block_of system_storage]; intros.
  - eapply (wp_operation c (R_create f t) (S_create f t)); [reflexivity|reflexivity|done|done|..]; intros h'.
    + intros _ Hz Hb f' t' n Hne. rewrite Hb. apply create_only_file. intros [= -> ->]. by apply Hne.
    + by intros Hb f' t' n _.
  - eapply (wp_operation c (R_truncate f t size)); [reflexivity|reflexivity|done|done|..]; intros h'.
    + intros Hi Hz Hb f' t' n Hne. rewrite Hb. cbn [sop_spec int_size] in *. unfold i32 in *. rewrite (to_signed_id 32 size) in * by lia.
      destruct (decide ((f', t') = (f, t))) as [[= -> ->]|Hft]; [|by apply truncate_only_file].
      apply truncate_block_in; [lia|]. destruct (Z.lt_ge_cases n (size / bsize)); [done|]. by destruct Hne.
    + by intros Hb f' t' n _.
  - eapply (wp_operation c (R_fork fs ts fd0 td)); [reflexivity|reflexivity|done|done|..]; intros h'.
    + intros _ Hz Hb f' t' n Hne. rewrite Hb. apply fork_only_file. intros [= -> ->]. by apply Hne.
    + by intros Hb f' t' n _.
  - eapply (wp_operation c (R_commit f t)); [reflexivity|reflexivity|done|done|..]; intros h'.
    + intros _ Hz Hb f' t' n. rewrite Hb. apply commit_block_in.
    + by intros Hb f' t' n.
  - eapply (wp_operation c (R_delete f t)); [reflexivity|reflexivity|done|done|..]; intros h'.
    + intros _ Hz Hb f' t' n Hne. rewrite Hb. apply delete_only_file. intros [= -> ->]. by apply Hne.
    + by intros Hb f' t' n _.
  - cbn [Interpreter.send_read_content_to_master worker_calls]. unfold send_read_content_to_master.
    destruct (to_master c <? 0); [done|]. destruct (_ =? 0); [done|]. destruct (build _ _) as [[] p]; cbn [negb]; [|done].
    apply wp_bind, wp_to_master; [done|]. intros rc h' Hb. by destruct (rc =? 0).
  - cbn [Interpreter.end_query_in_master worker_calls]. unfold end_query_in_master.
    destruct (to_master c <? 0); [done|]. destruct (build _ _) as [[] p]; [|done]. by apply wp_to_master.
Qed.

(** ** The property *)

(** Byte [a] of a file of the Storage, zero where there is no block. *)
Definition file_byte (st : storage) (f t : string) (a : Z) : option byte := storage_block st f t (a / bsize) !! Z.to_nat (a mod bsize).

(** A worker over the network. *)
Abbreviation memory := (@memory_manager_t (worker_storage (N := net))).
Abbreviation exec := (execute_instruction (BS := worker_storage (N := net)) (WC := worker_calls (N := net))).
Abbreviation exec_all := (run_all (BS := worker_storage (N := net)) (WC := worker_calls (N := net))).


End System.

(** ** The system at work *)

(** A Storage of eight blocks with a file of one, which takes the requests of
    [takes] when it has room for them; bytes arrive one at a time. *)
Section Run.
Variable takes : list (Z * request).

#[local] Instance byte_eq_decision : EqDecision byte := Byte.byte_eq_dec.

Definition can_take (r : request) (st : storage) : bool := match request_sop r with Some op => allowed op st | None => true end.

Definition small_env : surroundings := {|
  others := {| connects _ _ _ := -1; send_returns _ _ block := Z.of_nat (length block); receives _ _ := MkSocket [] [0] |};
  up h st block := existsb (fun qr => bool_decide (block = message (request_op qr.2) (request_fields qr.1 qr.2)) && can_take qr.2 st) takes;
  cuts h bs := replicate (length bs) 1
|}.

Lemma small_env_ok :
  Forall (fun qr => 0 <= qr.1 < 2 ^ 32 /\ request_ok qr.2 /\ int_size qr.2) takes -> surroundings_ok (small 8) small_env.
Proof.
  intros Ht. split.
  - intros h bs. split; [by apply Forall_replicate|]. cbn. by rewrite length_replicate.
  - intros h st block Hwf [[q r] [Hin [E%bool_decide_eq_true Hc]%andb_true_iff]]%existsb_exists. cbn [fst snd] in *.
    rewrite Forall_forall in Ht. destruct (Ht (q, r)) as (Hq & Hr & Hi); [by apply list_elem_of_In|]. cbn [fst snd] in *.
    exists q, r. split; [exact E|]. split; [by apply request_valid|]. split; [|exact Hi].
    unfold request_pre, can_take in *. destruct (request_sop r); [by apply allowed_sound|done].
Qed.

End Run.

(** A WRITE of query 3 on one worker and a READ of query 4 on another. *)
Definition requests : list (Z * request) :=
  [(3, R_read "F" "T" 0); (3, R_write "F" "T" 0 (string_bytes "abcd")); (4, R_read "F" "T" 0)].

Definition one_block : storage := StorageProps.history [S_create "F" "T"; S_truncate "F" "T" 4] (formatted 8).

Lemma one_block_wf : fs_wf (small 8) one_block.
Proof. apply history_good. vm_compute. reflexivity. Qed.

Lemma requests_names : good_name "F" /\ good_name "T".
Proof. split; (split; [vm_compute; discriminate|]); vm_compute; intros H; inversion H as [|? ? ? H']; inversion H'. Qed.

Lemma requests_ok : Forall (fun qr => 0 <= qr.1 < 2 ^ 32 /\ request_ok qr.2 /\ int_size qr.2) requests.
Proof.
  destruct requests_names as [HF HT].
  repeat (apply List.Forall_cons; [split; [cbn; lia|split; [|done]]|]); [..|constructor];
    (split; [exact HF|split; [exact HT|]]); [lia| |lia]. split; [lia|]. vm_compute. done.
Qed.

Lemma small_blocks : 0 < 8 < 2 ^ 20. Proof. lia. Qed.
Lemma small_socket : 0 <= 5. Proof. lia. Qed.
Lemma small_data : StorageUtils.block_size (small 8) <= MAX_DATA_SIZE. Proof. vm_compute. discriminate. Qed.

Abbreviation small_net := (system_network (small 8) one_block 5 (small_env requests)).
Abbreviation small_memory := (@memory_manager_t (worker_storage (N := small_net))).
Abbreviation small_spec := (system_storage (small 8) one_block 5 (small_env requests) (Hcfg := small_ok 8 small_blocks)
  one_block_wf small_socket small_data (small_env_ok requests requests_ok)).

(** A worker with one frame, after the history [h]. *)
Definition fresh_worker (q ms : Z) (h : history) : small_memory :=
  on_connections 5 1 q ms
    (MkMM (BS := worker_storage (N := small_net)) [] 0 4 LRU (replicate 4 x00) (-1) (-1) (-1) (-1) [false] 0 None ∅ 1%positive 0 h).

Lemma fresh_worker_wf q ms h : ms <> 5 -> mm_wf (BSS := small_spec) (fresh_worker q ms h).
Proof.
  intros Hms. apply (connections_wf (BSS := small_spec)); [|split; [exact Hms|by left]].
  by destruct (mm_create_wf (BSS := small_spec) 4 LRU (replicate 4 x00) (h : @store (worker_storage (N := small_net))) 0
    (MkMM (BS := worker_storage (N := small_net)) [] 0 4 LRU (replicate 4 x00) (-1) (-1) (-1) (-1) [false] 0 None ∅ 1%positive 0 h)) as (H & _).
Qed.

Abbreviation small_exec := (execute_instruction (BS := worker_storage (N := small_net)) (WC := worker_calls (N := small_net))).
Abbreviation small_exec_all := (run_all (BS := worker_storage (N := small_net)) (WC := worker_calls (N := small_net))).

Definition write_and_flush : ST small_memory (Z * Z) :=
  r1 ← small_exec (I_write "F" "T" 0 "abcd") 5 8 3 1;
  _ ← small_exec_all [I_read "F" "T" 1 2] 5 8 3 1;
  r2 ← small_exec (I_flush "F" "T") 5 8 3 1;
  mret (r1, r2).

Lemma write_and_flush_codes : fst <$> write_and_flush (fresh_worker 3 8 []) = Some (0, 0).
Proof. vm_compute. reflexivity. Qed.

Lemma wp_value {S A} (m : ST S A) (Q : A -> S -> Prop) r s : wp m Q s -> fst <$> m s = Some r -> exists s', m s = Some (r, s') /\ Q r s'.
Proof. unfold wp. destruct (m s) as [[a s']|]; [|done]. intros HQ [= <-]. by exists s'. Qed.


(** The size of a TRUNCATE reaches the Storage as an [int]: minus one block is rounded
    to no blocks at all, and the file is emptied, with a size below zero. *)
Example negative_truncate_empties :
  let size := i32 (u32 (u64 (-4))) in
  size = -4 /\
  match sop_run (small 8) (S_truncate "F" "T" size) one_block with
  | Some (code, st) => (code, a_blocks <$> files st "F" "T", a_size <$> files st "F" "T") = (0, Some [], Some (-4))
  | None => False
  end.
Proof. split; vm_compute; reflexivity. Qed.
