(* ===== verification/Delivery.v ===== *)
(** * What a READ reads is what the Query Control shows

    The way of a reading through three processes: the message of the worker
    (worker/src/connections/master.c), its handling by the Master
    (master/src/worker_manager.c), and the loop of the Query Control
    (query_control/src/main.c).  Each step takes the bytes the one before has sent. *)

From S2P Require Import Prelude CStrings Commons Serialization Protocol MasterState WorkerManager MasterInvariant SchedulerSpec HandlersSpec.
From S2P Require Import MasterMain MasterProps PageTable MemoryManager Interpreter WorkerConnections ConnectionsSpec StorageWire.
From S2P Require Import QueryControl QueryControlSpec.

(** The message of a worker with the data of a READ. *)
Definition read_message (worker_id query : Z) (data : list byte) (file tag : string) : list field :=
  [F_uint32 worker_id; F_uint32 query; F_data data; F_string file; F_string tag].

(** The message of the Master for the Query Control. *)
Definition reading (data : list byte) (file tag : string) : master_message := M_read data (file_tag_of file tag).

(** ** The worker *)

Lemma read_content_sent {N : Network} c data file tag worker_id h :
  0 <= to_master c -> valid_message (read_message worker_id (of_query c) data file tag) ->
  taken h (to_master c) (message (master_op OP_WORKER_READ_MESSAGE_REQ) (read_message worker_id (of_query c) data file tag)) ->
  send_read_content_to_master c data file tag worker_id h =
    Some (0, Sent (to_master c) (message (master_op OP_WORKER_READ_MESSAGE_REQ) (read_message worker_id (of_query c) data file tag)) :: h).
Proof.
  intros Hm Hv Ht. destruct (send_message (master_op OP_WORKER_READ_MESSAGE_REQ) _ (to_master c) h ltac:(cbn; lia) Hv Hm Ht) as (p & Eb & Es & _).
  unfold send_read_content_to_master. destruct (Z.ltb_spec (to_master c) 0); [lia|].
  destruct Hv as [Hv _]. do 2 apply Forall_inv_tail in Hv. apply Forall_inv in Hv. cbn in Hv.
  destruct (Z.eqb_spec (Z.of_nat (length data)) 0); [lia|]. unfold read_message in Eb. rewrite Eb. cbn [negb].
  unfold mbind, st_bind. by rewrite Es.
Qed.

(** ** The Master *)

Lemma buffer_field_uint32 p v p' : package_read_uint32 p = (Some v, p') -> buffer_read_uint32 (buffer p) = (Some v, buffer p').
Proof. unfold package_read_uint32, on_buffer. destruct (buffer_read_uint32 (buffer p)). by intros [= -> <-]. Qed.

Lemma buffer_field_string p v p' : package_read_string p = (Some v, p') -> buffer_read_string (buffer p) = (Some v, buffer p').
Proof. unfold package_read_string, on_buffer. destruct (buffer_read_string (buffer p)). by intros [= -> <-]. Qed.

Lemma buffer_field_data p v p' : package_read_data p = (Some v, p') -> buffer_read_data (buffer p) = (Some v, buffer p').
Proof. unfold package_read_data, on_buffer. destruct (buffer_read_data (buffer p)). by intros [= -> <-]. Qed.

Section Master.
Context {CL : CommonsList} {CLS : CommonsListSpec CL} {KN : Kernel}.

Lemma read_content_forwarded fd now cl pkg worker_id query data file tag p q w :
  master_wf w -> running_query_u query w = Some p -> qheap w !! p = Some q -> 0 <= q_socket_fd q ->
  Forall valid_field (message_fields (reading data file tag)) ->
  operation_code pkg = master_op OP_WORKER_READ_MESSAGE_REQ -> package_reset_read_offset pkg = pkg ->
  package_read_all pkg (read_message worker_id query data file tag) = Some (read_message worker_id query data file tag) ->
  exists ob block, handle_package fd now cl pkg w = Some (cl, on_outbox ob w) /\
    carries block (message_op (reading data file tag)) (message_fields (reading data file tag)) /\
    (MasterState.send_returns (outbox w) (q_socket_fd q) block = Z.of_nat (length block) -> ob = (q_socket_fd q, block) :: outbox w).
Proof.
  intros Hwf Hp Hq Hfd Hv Eop Hreset Hr. unfold read_message in Hr.
  apply read_uint32_field in Hr as (p1 & E1 & Hr). apply read_uint32_field in Hr as (p2 & E2 & Hr).
  apply read_data_field in Hr as (p3 & E3 & Hr). apply read_string_field in Hr as (p4 & E4 & Hr).
  apply read_string_field in Hr as (p5 & E5 & _).
  rewrite <- Hreset in E1. apply buffer_field_uint32 in E1, E2. apply buffer_field_data in E3. apply buffer_field_string in E4, E5.
  destruct (wp_run _ _ _ (manage_read_message_run (buffer pkg) _ _ query _ (Some data) _ file _ tag _ fd w Hwf E1 E2 E3 E4 E5))
    as (rc & w' & E & _ & H). rewrite Hp in H. destruct H as (q' & Hq' & _ & ob & -> & Hs). simplify_eq.
  destruct (Hs Hfd Hv) as (block & Hc & Hob & Htake). exists ob, block. split; [|split; [exact Hc|by intros ->%Htake%Hob]].
  unfold handle_package. rewrite Eop.
  repeat match goal with |- context [master_op ?a =? ?x] =>
    let v := eval vm_compute in (master_op a =? x) in change (master_op a =? x) with v end.
  cbv beta iota zeta. unfold mbind, st_bind. by rewrite E.
Qed.

End Master.

(** ** The Query Control *)

Lemma reading_received {N : Network} fd data file_tag fuel retval h :
  0 <= fd -> arrives h fd (message_op (M_read data file_tag)) (message_fields (M_read data file_tag)) ->
  exists p, receive_loop (S fuel) fd retval h =
    match receive_loop fuel fd retval (Got fd (Some p) :: h) with
    | Some (r, h') => Some ((fst r, Reading file_tag (Z.of_nat (length data)) (printable data) :: snd r), h')
    | None => None
    end.
Proof.
  intros Hfd Ha. destruct (receive_message h fd _ _ Hfd Ha) as (p & Er & Eop & _ & Hr). exists p.
  cbn [receive_loop]. unfold mbind, st_bind. rewrite Er, Eop.
  change (message_op (M_read data file_tag) =? master_op QC_OP_READ_DATA) with true. cbv beta iota.
  by rewrite (read_data_fields p data file_tag Hr).
Qed.

(** ** The property *)

(** C9: What a READ reads is what the Query Control shows.  The worker sends its Master
    one message; whatever the fragments in which it arrives, the Master, in any
    sound state in which the query runs, changes nothing and sends the owner of the
    query one message, when its socket takes it; and whatever the fragments in which
    that arrives, the Query Control shows the name of the file with its tag, the
    size and the bytes that the READ has read, and goes on. *)
Theorem reading_shown c data file tag worker_id :
  0 <= to_master c -> valid_message (read_message worker_id (of_query c) data file tag) ->
  Forall valid_field (message_fields (reading data file tag)) ->
  let sent := message (master_op OP_WORKER_READ_MESSAGE_REQ) (read_message worker_id (of_query c) data file tag) in
  (forall (N : Network) h, taken h (to_master c) sent ->
     send_read_content_to_master c data file tag worker_id h = Some (0, Sent (to_master c) sent :: h)) /\
  (forall (CL : CommonsList) (CLS : CommonsListSpec CL) (KN : Kernel) sock rest gs,
     0 <= sock -> socket_live (MkSocket (sent ++ rest) gs) ->
     exists pkg s, package_receive sock (MkSocket (sent ++ rest) gs) = Package pkg s /\ inflight s = rest /\
       forall fd now cl p q w, master_wf w -> running_query_u (of_query c) w = Some p -> qheap w !! p = Some q -> 0 <= q_socket_fd q ->
       exists ob block, handle_package fd now cl pkg w = Some (cl, on_outbox ob w) /\
         (MasterState.send_returns (outbox w) (q_socket_fd q) block = Z.of_nat (length block) -> ob = (q_socket_fd q, block) :: outbox w) /\
         forall (N : Network) qfd h rest' gs' fuel retval,
           0 <= qfd -> receives h qfd = MkSocket (block ++ rest') gs' -> socket_live (MkSocket (block ++ rest') gs') ->
           exists got, receive_loop (S fuel) qfd retval h =
             match receive_loop fuel qfd retval (got :: h) with
             | Some (r, h') =>
                 Some ((fst r, Reading (file_tag_of file tag) (Z.of_nat (length data)) (printable data) :: snd r), h')
             | None => None
             end).
Proof.
  intros Hm Hv Hv' sent. split; [intros N h Ht; by apply read_content_sent|].
  intros CL CLS KN sock rest gs Hsock Hlive.
  destruct (message_carries (master_op OP_WORKER_READ_MESSAGE_REQ) _ ltac:(cbn; lia) Hv rest gs sock Hsock Hlive) as (pkg & s & Ep & Eop & Ei & Hr).
  exists pkg, s. split; [exact Ep|]. split; [exact Ei|]. intros fd now cl p q w Hwf Hp Hq Hfd.
  destruct (read_content_forwarded fd now cl pkg worker_id (of_query c) data file tag p q w) as (ob & block & E & Hc & Hob);
    [done..|by eapply package_receive_start|exact Hr|].
  exists ob, block. split; [exact E|]. split; [exact Hob|]. intros N qfd h rest' gs' fuel retval Hqfd Er Hlive'.
  destruct (reading_received qfd data (file_tag_of file tag) fuel retval h Hqfd) as (p' & E'); [by exists block, rest', gs'|].
  by exists (Got qfd (Some p')).
Qed.

(** ** The sample run of the Master: query 0 runs for the Query Control on socket 9 *)

#[local] Existing Instance kernel_ok.

Lemma sample_reading_valid :
  valid_message (read_message 7 0 [x41; x42] "F" "T") /\ Forall valid_field (message_fields (reading [x41; x42] "F" "T")).
Proof.
  split; [split; [|vm_compute; discriminate]|].
  - apply List.Forall_cons; [cbn; lia|]. apply List.Forall_cons; [cbn; lia|]. apply List.Forall_cons; [vm_compute; split; congruence|].
    apply List.Forall_cons; [by apply valid_string|]. apply List.Forall_cons; [by apply valid_string|constructor].
  - apply List.Forall_cons; [vm_compute; split; congruence|]. apply List.Forall_cons; [by apply valid_string|constructor].
Qed.

Example reading_shown_witness :
  let sent := message (master_op OP_WORKER_READ_MESSAGE_REQ) (read_message 7 0 [x41; x42] "F" "T") in
  exists pkg s block, package_receive 4 (MkSocket (sent ++ []) (replicate 300 1)) = Package pkg s /\
    handle_package 4 50 (MkClient false true) pkg sample_waiting =
      Some (MkClient false true, on_outbox ((9, block) :: outbox sample_waiting) sample_waiting) /\
    forall (N : Network) h gs fuel, receives h 6 = MkSocket (block ++ []) gs -> socket_live (MkSocket (block ++ []) gs) ->
      exists got, receive_loop (S fuel) 6 0 h =
        match receive_loop fuel 6 0 (got :: h) with
        | Some (r, h') => Some ((fst r, Reading "F:T" 2 "AB" :: snd r), h')
        | None => None
        end.
Proof.
  intros sent. destruct sample_reading_valid as [Hv Hv'].
  destruct (reading_shown (MkConn 7 8 0) [x41; x42] "F" "T" 7 ltac:(cbn; lia) Hv Hv') as [_ H].
  destruct (H _ _ kernel_ok 4 [] (replicate 300 1)) as (pkg & s & E & _ & Hm).
  - lia.
  - split; [by apply Forall_replicate|]. vm_compute. lia.
  - destruct (Hm 4 50 (MkClient false true) 1%positive (sample_qcb 9 0 5 10 7 QUERY_STATE_RUNNING) sample_waiting) as (ob & block & Eh & Hob & Hq).
    + apply sample_waiting_wf.
    + vm_compute. reflexivity.
    + vm_compute. reflexivity.
    + vm_compute. discriminate.
    + exists pkg, s, block. split; [exact E|]. rewrite Hob in Eh by reflexivity. split; [exact Eh|].
      intros N h gs fuel Er Hl. exact (Hq N 6 h [] gs fuel 0 ltac:(lia) Er Hl).
Defined.
