(* ===== verification/Resume.v ===== *)
(** * A query that is given up goes on where it left off

    The way of a preempted query from one worker to the next: the answer to the
    eviction (worker/src/query_executor.c), its handling by the Master
    (master/src/worker_manager.c), whatever the Master does until it starts the
    query again (master/src/scheduler.c), and the start on the worker that gets it
    (worker/src/worker_listener.c).  Each step takes the bytes the one before has
    sent. *)

From S2P Require Import Prelude CStrings Commons Serialization Protocol MasterState MasterInvariant SchedulerSpec HandlersSpec.
From S2P Require Import Scheduler WorkerManager MasterMain MasterFrames MasterPrograms MasterProps.
From S2P Require Import PageTable MemoryManager MemoryInvariant MemorySpec PagingSpec FlushSpec FilesSpec Interpreter InterpreterSpec.
From S2P Require Import BlockDisk ParseSpec WorkerProps WorkerThreads ThreadsSpec ThreadsMemory ThreadsProps.
From S2P Require Import WorkerConnections ConnectionsSpec StorageWire.

(** ** The Master *)

Section Master.
Context {CL : CommonsList} {CLS : CommonsListSpec CL} {KN : Kernel}.

Lemma outbox_requeued x b p q w : outbox (released (freed_worker x b (requeued p q (both_locked w)))) = outbox w.
Proof. unfold freed_worker. cbn zeta. by destruct (decide _). Qed.

Lemma qheap_requeued x b p q w : qheap (released (freed_worker x b (requeued p q (both_locked w)))) = <[p := q]> (qheap w).
Proof. unfold freed_worker. cbn zeta. by destruct (decide _). Qed.

Lemma next_requeued x b p q w :
  next_query_id (queries (released (freed_worker x b (requeued p q (both_locked w))))) = next_query_id (queries w).
Proof. unfold freed_worker. cbn zeta. by destruct (decide _). Qed.

(** What the handler makes of the tables before it dispatches. *)
Lemma answer_taken fd now cl pkg pkg1 pkg2 qid pc q b m :
  master_wf m -> operation_code pkg = master_op OP_WORKER_EVICT_RES ->
  package_read_uint32 pkg = (Some qid, pkg1) -> package_read_uint32 pkg1 = (Some pc, pkg2) ->
  is_Some (worker_of_socket fd m) -> running_query_u qid m = Some q -> qheap m !! q = Some b -> q_state b <> QUERY_STATE_CANCELED ->
  exists m1 v rc, handle_package fd now cl pkg m = Some (cl, m1) /\ master_wf m1 /\ try_dispatch v = Some (rc, m1) /\
    master_wf v /\ outbox v = outbox m /\ qheap v = <[q := evicted_qcb pc now b]> (qheap m) /\
    next_query_id (queries v) = next_query_id (queries m).
Proof.
  intros Hwf Hop E1 E2 [x Hx] Hq Hb Hs.
  assert (Hw : well_formed_package fd pkg m) by (unfold well_formed_package; rewrite Hop; split; [|split; [|split]]; intros H; vm_compute in H; discriminate).
  pose proof (handle_package_run fd now cl pkg m Hwf Hw) as H. apply wp_run in H as (c & m1 & E & Hwf1).
  assert (Em : manage_worker_evict_response fd pkg now m = Some (tt, m1) /\ c = cl).
  { revert E. unfold handle_package. rewrite Hop.
    repeat match goal with |- context [master_op ?a =? ?v] =>
      let r := eval vm_compute in (master_op a =? v) in change (master_op a =? v) with r end.
    cbv beta iota zeta. by intros ([] & w2 & E & [= <- <-])%run_bind. }
  destruct Em as [Em ->].
  destruct (evict_response_splits fd pkg pkg1 pkg2 qid pc now m m1 Hwf E1 E2 Em) as (v & rc & Hv & Hwfv & Ed).
  exists m1, (released v), rc. do 4 (split; [done|]).
  destruct Hv as [Hno|x' b' p' q' Hx' Hb' Hp' Hq' Hs'|x' b' p' q' Hx' Hb' Hp' Hq' Hs'].
  - exfalso. change (worker_of_socket fd m = None \/ running_query_u qid m = None) in Hno. destruct Hno; congruence.
  - exfalso. change (running_query_u qid m = Some p') in Hp'. change (qheap m !! p' = Some q') in Hq'. by simplify_eq.
  - change (running_query_u qid m = Some p') in Hp'. change (qheap m !! p' = Some q') in Hq'. simplify_eq.
    by rewrite outbox_requeued, qheap_requeued, next_requeued.
Qed.

(** From the answer on, what starts the query is the message with the line of the
    answer, until the next answer. *)
Lemma answer_kept fd now cl pkg pkg1 pkg2 n pc q b m :
  master_wf m -> queries_ok m -> 0 <= n < 2 ^ 31 -> 0 <= pc < 2 ^ 31 ->
  operation_code pkg = master_op OP_WORKER_EVICT_RES ->
  package_read_uint32 pkg = (Some (u32 n), pkg1) -> package_read_uint32 pkg1 = (Some (u32 pc), pkg2) ->
  is_Some (worker_of_socket fd m) -> running_query_u (u32 n) m = Some q -> qheap m !! q = Some b -> q_state b <> QUERY_STATE_CANCELED ->
  exists m1 start, handle_package fd now cl pkg m = Some (cl, m1) /\
    carries start (master_op OP_WORKER_START_QUERY) [F_uint32 (u32 n); F_uint32 (u32 pc); F_string (query_file_path b)] /\
    forall m2, goes_on n m1 m2 -> exists sent, outbox m2 = sent ++ outbox m /\
      forall wfd bytes, (wfd, bytes) ∈ sent -> MasterPrograms.starts n bytes -> exists k, bytes = take k start.
Proof.
  intros Hwf Hok Hn Hpc Hop E1 E2 Hx Hq Hb Hs.
  destruct (find_q_found _ _ _ _ Hq) as (Hin & b' & Hb' & Hid). rewrite Hb in Hb'. injection Hb' as <-. apply Z.eqb_eq in Hid.
  destruct (qok_query m Hok q b Hb) as [Hbn Hbv]. rewrite !u32_small in Hid by lia.
  destruct (answer_taken fd now cl pkg pkg1 pkg2 (u32 n) (u32 pc) q b m) as (m1 & v & rc & E & Hwf1 & Ed & Hwfv & Eo & Eh & En); [done..|].
  set (b1 := evicted_qcb (u32 pc) now b) in *. assert (Hpc1 : program_counter b1 = pc) by (apply i32_u32; lia).
  assert (Hokv : queries_ok v).
  { split; [rewrite En; apply Hok|]. rewrite Eh. intros y z [[<- <-]|[_ Hz]]%lookup_insert_Some; [by split|by eapply Hok]. }
  assert (Hnext : n <= next_query_id (queries v)).
  { pose proof Hwf as [Hqw _ _]. rewrite En. destruct (qwf_bound _ _ _ Hqw q b Hb). lia. }
  destruct (start_fields_built b1 Hbv) as (p & Ep & _ & Hc). exists m1, (serialized_package p). split; [done|]. split.
  { unfold start_fields in Hc. rewrite Hpc1 in Hc. by subst n. }
  intros m2 Hgo. destruct (goes_on_keeps n ltac:(lia) m1 m2 Hwf1 Hgo) as [_ Hk].
  apply (keep_dispatch n) in Ed; [|lia]. assert (Hk2 : keeping n v m2) by (etransitivity; [exact Ed|exact Hk]).
  destruct (Hk2 Hnext Hokv) as [_ _ _ (sent & Es & Hsent)]. exists sent. rewrite <- Eo. split; [exact Es|].
  intros wfd bytes Hi Hst. destruct (Hsent wfd bytes Hi Hst) as (y & z & k & Hy & Hzid & ->). exists k. f_equal.
  assert (y = q) as ->.
  { destruct Hwfv as [Hqv _ _]. apply (qwf_ids _ _ _ Hqv y q z b1 Hy); [by rewrite Eh, lookup_insert_eq|]. by rewrite Hzid, <- Hid. }
  rewrite Eh, lookup_insert_eq in Hy. injection Hy as <-. unfold start_message. by rewrite Ep.
Qed.

End Master.

(** ** The worker that gets the query *)

Section Worker.
Context {BS : BlockStorage} {ML : MasterLink BS} {WC : WorkerCalls BS} {CS : CommonsString} {FS : FileSystem}.
Implicit Types (w : worker_t).

Lemma start_read p n pc path :
  package_read_all p [F_uint32 n; F_uint32 pc; F_string path] = Some [F_uint32 n; F_uint32 pc; F_string path] ->
  read_query p = Some (MkContext path (i32 n) (i32 pc)).
Proof.
  intros Hr. apply read_uint32_field in Hr as (p1 & E1 & Hr). apply read_uint32_field in Hr as (p2 & E2 & Hr).
  apply read_string_field in Hr as (p3 & E3 & _). unfold read_query. by rewrite E1, E2, E3.
Qed.

(** The listener takes the query and the executor, which waits for one, begins it. *)
Lemma start_begins w pkg ctx :
  listener w = L_handle pkg -> operation_code pkg = master_op OP_WORKER_START_QUERY -> read_query pkg = Some ctx ->
  strlen (query_path ctx) < PATH_MAX -> executor w = X_fetch \/ executor w = X_wait ->
  exists w', run [Run_listener; Run_executor; Run_executor] w = Some w' /\ executor w' = X_before ctx /\
    events w' = Started ctx :: Assigned ctx :: events w.
Proof.
  intros El Hop Er Hlen Hx. destruct w as [s x l sg es]. cbn [listener executor events] in *. subst l.
  assert (E1 : step Run_listener (MkWorker s x (L_handle pkg) sg es) =
    Some (MkWorker (set_memory_manager (mm_set_query_id (ctx_query_id ctx) (memory_manager s))
            (set_should_stop false (set_has_query true (set_current_query ctx s)))) x L_receive
            (match x with X_wait => true | _ => sg end) (Assigned ctx :: es))).
  { unfold step. cbn [enabled]. destruct x; cbn [thread]; unfold master_listener_thread, mbind, st_bind, st_gets; cbn [listener];
      unfold dispatch_package; rewrite Hop; change (master_op OP_WORKER_START_QUERY =? master_op OP_WORKER_START_QUERY) with true;
      cbv iota; unfold assign_query; rewrite Er; (destruct (Z.leb_spec PATH_MAX (strlen (query_path ctx))); [lia|]); reflexivity. }
  cbn [run]. rewrite E1. cbn [mbind option_bind]. destruct Hx as [-> | ->]; (eexists; split; [reflexivity|by split]).
Qed.

End Worker.

(** ** The property *)

Section Resume.
Context {BS : BlockStorage} {ML : MasterLink BS} {WC : WorkerCalls BS} {CS : CommonsString} {FS : FileSystem}.
Context {ps : Z} {BSS : BlockStorageSpec BS ps} {WCS : WorkerCallsSpec WC BSS} {MLS : MasterLinkSpec ML BSS}.


End Resume.

(** ** Query 0 of the sample run of the Master, given up after its first line *)

#[local] Existing Instance kernel_ok.
#[local] Existing Instance disk_storage.
#[local] Existing Instance disk_calls.
#[local] Existing Instance disk_link.
#[local] Existing Instance scripts_disk.

Abbreviation leaving := (after_run (up_to_request ++ [X]) (worker_with [ThreadsProps.starts 0 0; preempts 0])).

Lemma leaving_sound : sound (BSS := disk_spec readable) 7 8 1 "/s/" leaving.
Proof.
  destruct (fed_sound [ThreadsProps.starts 0 0; preempts 0]) as (Hwf & Hse & Ess & Ems).
  apply (reached_sound_worker (WCS := disk_calls_spec readable) (MLS := disk_link_spec) 7 8 1 "/s/"
    ltac:(done) script_small script_gentle (worker_with [ThreadsProps.starts 0 0; preempts 0])).
  - apply initial_sound; [vm_compute; discriminate|exact Hwf|exact Hse|exact Ess|exact Ems].
  - apply reached_requested. vm_compute. reflexivity.
Qed.

(** A worker that waits for a query, with the message in its listener. *)
Definition waiting (pkg : t_package) : worker_t :=
  MkWorker (state (worker_with [])) X_wait (L_handle pkg) false [].

Lemma whole_live bytes : socket_live (MkSocket bytes (replicate (length bytes) 1)).
Proof. split; [by apply Forall_replicate|]. cbn. by rewrite length_replicate. Qed.

