(* ===== verification/Failure.v ===== *)
(** * Why a query failed

    The way of an error of the Storage to the user: the worker, whose call fails
    (worker/src/connections/storage.c), the Master, which ends the query
    (master/src/disconnection_handler.c), and the Query Control, which shows the
    reason (query_control/src/main.c).  Each step takes the bytes the one before has
    sent. *)

From S2P Require Import Prelude CStrings Commons Serialization Protocol PageTable MemoryManager Interpreter WorkerConnections ConnectionsSpec.
From S2P Require Import StorageWire QueryControl QueryControlSpec MasterState MasterInvariant CleanupSpec SchedulerSpec HandlersSpec.
From S2P Require Import Scheduler Cleanup Disconnection MasterMain MasterFrames MasterPrograms MasterProps.

(** ** The Master *)

Section Master.
Context {CL : CommonsList} {CLS : CommonsListSpec CL} {KN : Kernel}.

(** The message that ends a query. *)
Lemma end_message id reason :
  valid_field (F_string reason) ->
  exists p, snd (package_add_string (snd (package_add_uint32 (package_create_empty (master_op QC_OP_MASTER_FIN_DESCONEXION)) (u32 id))) reason) = p /\
    buffer_wf (buffer p) /\ carries (serialized_package p) (master_op QC_OP_MASTER_FIN_DESCONEXION) [F_uint32 (u32 id); F_string reason].
Proof.
  intros Hv. destruct (package_built (master_op QC_OP_MASTER_FIN_DESCONEXION) [F_uint32 (u32 id); F_string reason]) as (p & E & Hwf & Hc);
    [done|by repeat constructor; try apply u32_bound; apply Hv| |].
  { destruct Hv as [Hlen _]. unfold wire_size, encode_all. cbn [flat_map encode].
    rewrite !length_app, !length_be32, length_string_bytes. cbn [length]. unfold strlen, MAX_STRING_LENGTH in Hlen. lia. }
  exists p. split; [|by split]. cbn [package_add_all package_add] in E.
  destruct (package_add_uint32 _ _) as [[] p1]; [|done]. cbn [snd]. destruct (package_add_string p1 _) as [[] p2]; [|done]. by injection E.
Qed.

Lemma wp_finalize_told p q reason (Q : unit -> world -> Prop) w :
  qheap w !! p = Some q -> 0 <= q_socket_fd q -> valid_field (F_string reason) ->
  (forall block sent, carries block (master_op QC_OP_MASTER_FIN_DESCONEXION) [F_uint32 (u32 (query_id q)); F_string reason] ->
     (send_returns (outbox w) (q_socket_fd q) block = Z.of_nat (length block) -> sent = block) ->
     Q tt (on_qheap (fun h => <[p := on_qcb_state QUERY_STATE_CANCELED q]> h) (on_outbox ((q_socket_fd q, sent) :: outbox w) w))) ->
  wp (finalize_query_with_error p (Some reason)) Q w.
Proof.
  intros Hp Hfd Hv HQ. unfold finalize_query_with_error. apply wp_bind. eapply wp_get_q; [exact Hp|]. cbv zeta.
  destruct (end_message (query_id q) reason Hv) as (pk & -> & Hwf & Hc). unfold wp, mbind, st_bind, send_package.
  rewrite package_send_whole by done. specialize (HQ _ (take (Z.to_nat (send_returns (outbox w) (q_socket_fd q) (serialized_package pk))) (serialized_package pk)) Hc).
  cbv beta iota. unfold mod_q, mbind, st_bind, get_q. autorewrite with world. rewrite Hp. apply HQ.
  intros ->. by rewrite Nat2Z.id, firstn_all.
Qed.

(** The error of a worker that runs a query, before the dispatch. *)
Lemma error_locked_told fd msg x b p q w :
  tables_wf None None w -> worker_of_socket fd w = Some x -> wheap w !! x = Some b -> 0 <= current_query_id b ->
  running_query (current_query_id b) w = Some p -> qheap w !! p = Some q -> 0 <= q_socket_fd q -> valid_field (F_string msg) ->
  wp (storage_error_locked fd (Some msg)) (fun _ v => exists block sent,
    carries block (master_op QC_OP_MASTER_FIN_DESCONEXION) [F_uint32 (u32 (query_id q)); F_string msg] /\
    (send_returns (outbox w) (q_socket_fd q) block = Z.of_nat (length block) -> sent = block) /\
    v = canceled_state p ((q_socket_fd q, sent) :: outbox w) (freed_worker x b w)) w.
Proof.
  intros [Hq Hw] Hx Hb Hid Hp Hh Hfd Hv. unfold storage_error_locked. apply wp_bind, wp_find_worker; [done|]. rewrite Hx.
  destruct (find_w_found _ _ _ _ Hx) as (Hin & _). apply wp_bind. eapply wp_get_w; [exact Hb|].
  destruct (Z.ltb_spec (current_query_id b) 0); [lia|].
  apply wp_bind, wp_gets, wp_bind, wp_scan_q; [intros; eapply qwf_allocated; eauto|].
  fold (running_query (current_query_id b) w). rewrite Hp.
  assert (Hbusy : x ∈ busy_list (workers w)).
  { destruct (wwf_placed _ _ _ Hw x ltac:(done) Hin) as [Hi|Hi]; [|done]. destruct (wwf_idle _ _ _ Hw x b ltac:(done) Hi Hb). lia. }
  apply wp_bind. eapply wp_mod_w; [exact Hb|]. apply wp_bind, wp_modify, wp_bind, wp_modify.
  apply wp_bind. eapply wp_finalize_told; [exact Hh|done|done|]. intros block sent Hc Hs.
  eapply wp_cleanup_query; [apply lookup_insert_eq|cbn; by eapply qwf_live|].
  exists block, sent. split; [exact Hc|]. split; [exact Hs|]. unfold canceled_state, freed_worker. cbn zeta. autorewrite with world.
  rewrite decide_True by done. destruct_world w. world_cbv. by rewrite delete_insert_eq.
Qed.

(** The whole handler: the query is gone, and its Query Control has been told. *)
Lemma error_told fd pkg msg p1 p2 v1 x b p q w :
  master_wf w -> queries_ok w -> package_read_uint32 (package_reset_read_offset pkg) = (v1, p1) ->
  package_read_string p1 = (Some msg, p2) -> worker_of_socket fd w = Some x -> wheap w !! x = Some b -> 0 <= current_query_id b ->
  running_query (current_query_id b) w = Some p -> qheap w !! p = Some q -> 0 <= q_socket_fd q -> valid_field (F_string msg) ->
  exists w' block sent later, handle_error_from_storage pkg fd w = Some (0, w') /\ outbox w' = later ++ (q_socket_fd q, sent) :: outbox w /\
    carries block (master_op QC_OP_MASTER_FIN_DESCONEXION) [F_uint32 (u32 (query_id q)); F_string msg] /\
    (send_returns (outbox w) (q_socket_fd q) block = Z.of_nat (length block) -> sent = block) /\
    forall y r, qheap w' !! y = Some r -> query_id r <> query_id q.
Proof.
  intros Hwf Hok E1 E2 Hx Hb Hid Hp Hq Hfd Hv. pose proof Hwf as [Hqw Hww Hh].
  assert (H : wp (handle_error_from_storage pkg fd) (fun rc w' => rc = 0 /\ exists v block sent rc',
    carries block (master_op QC_OP_MASTER_FIN_DESCONEXION) [F_uint32 (u32 (query_id q)); F_string msg] /\
    (send_returns (outbox w) (q_socket_fd q) block = Z.of_nat (length block) -> sent = block) /\
    v = canceled_state p ((q_socket_fd q, sent) :: outbox w) (freed_worker x b (both_locked w)) /\
    try_dispatch (released v) = Some (rc', w')) w).
  { unfold handle_error_from_storage. rewrite E1, E2. cbn [fst].
    apply (wp_locked (storage_error_locked fd (Some msg)) (fun _ => _ ← try_dispatch; mret 0)); [done|].
    eapply wp_mono; [apply (error_locked_told fd msg x b p q); [by split|assumption..]|]. intros [] v (block & sent & Hc & Hs & Ev).
    assert (Hwfv : master_wf (released v) /\ held v = [query_table_mutex; worker_table_mutex]).
    { destruct (storage_error_wf fd (both_locked w) v) as [[Hq' Hw'] Hh']; [by split| |by split].
      rewrite Ev. by apply error_canceled. }
    destruct Hwfv as [Hwfv Hhv]. split; [done|]. pose proof (try_dispatch_run (released v) Hwfv) as Ht. unfold wp, mbind, st_bind in *.
    destruct (try_dispatch (released v)) as [[rc' w1]|] eqn:Ed; [|done]. split; [done|]. by exists v, block, sent, rc'. }
  apply wp_run in H as (rc & w' & E & -> & v & block & sent & rc' & Hc & Hs & Ev & Ed).
  destruct (qok_query w Hok p q Hq) as [Hbn _]. apply (keep_dispatch (query_id q)) in Ed; [|lia].
  assert (Eo : outbox (released v) = (q_socket_fd q, sent) :: outbox w) by (by rewrite Ev).
  assert (Eh : qheap (released v) = delete p (qheap w)) by (rewrite Ev; unfold canceled_state, freed_worker; cbn zeta; by destruct (decide _)).
  assert (En : next_query_id (queries (released v)) = next_query_id (queries w)).
  { rewrite Ev. unfold canceled_state, freed_worker. cbn zeta. by destruct (decide _). }
  assert (Hn : query_id q <= next_query_id (queries w)) by (destruct (qwf_bound _ _ _ Hqw p q Hq); lia).
  destruct Ed as [_ _ Hblk (later & El & _)]; [by rewrite En| |].
  { split; [rewrite En; apply Hok|]. rewrite Eh. intros y z [_ Hz]%lookup_delete_Some. by eapply Hok. }
  exists w', block, sent, later. rewrite El, Eo. do 4 (split; [done|]). intros y r Hy Hr.
  destruct (Hblk y r Hy Hr) as (z & Hz & Hzid & _). rewrite Eh in Hz. apply lookup_delete_Some in Hz as [Hne Hz].
  by destruct Hne; apply (qwf_ids _ _ _ Hqw p y q z).
Qed.

End Master.

(** ** The Query Control *)

Lemma end_shown {N : Network} fd id reason fuel retval h :
  0 <= fd -> arrives h fd (master_op QC_OP_MASTER_FIN_DESCONEXION) [F_uint32 id; F_string reason] ->
  exists got, receive_loop (S fuel) fd retval h = Some ((0, [Ended reason]), got :: h).
Proof.
  intros Hfd Ha. destruct (receive_message h fd _ _ Hfd Ha) as (p & Er & Eop & Hreset & Hr). exists (Got fd (Some p)).
  cbn [receive_loop]. unfold mbind, st_bind. rewrite Er, Eop.
  change (master_op QC_OP_MASTER_FIN_DESCONEXION =? master_op QC_OP_READ_DATA) with false.
  change (master_op QC_OP_MASTER_FIN_DESCONEXION =? master_op QC_OP_MASTER_FIN_DESCONEXION) with true. cbv beta iota.
  unfold end_reason. rewrite Hreset. apply read_uint32_field in Hr as (p1 & E1 & Hr). apply read_string_field in Hr as (p2 & E2 & _).
  by rewrite E1, E2.
Qed.

(** ** The property *)

(** C10: The user learns why a query failed.  When the Storage answers a request of the
    worker with an error, the call fails and the worker sends its Master one
    message; whatever the fragments in which it arrives, the Master, in any state it
    can reach in which that worker runs a query, takes the query out of its tables
    and sends its Query Control one message, when its socket takes it; and whatever
    the fragments in which that arrives, the Query Control shows the text of the
    Storage's error as the reason, and ends.  (A deletion is the exception: its error
    is not forwarded.) *)
Theorem failure_told {N : Network} c r qid msg h :
  exchange c r (storage_op STORAGE_OP_ERROR) [F_uint32 qid; F_string msg] h ->
  is_delete r = false -> 0 <= to_master c -> valid_message [F_uint32 qid; F_string msg] ->
  (forall h', taken h' (to_master c) (message (storage_op STORAGE_OP_ERROR) [F_uint32 qid; F_string msg])) ->
  exists report h', perform c r h = Some ((-1, None), Sent (to_master c) report :: h') /\
    forall (CL : CommonsList) (CLS : CommonsListSpec CL) (KN : Kernel) sock rest gs,
      0 <= sock -> socket_live (MkSocket (report ++ rest) gs) ->
      exists pkg s, package_receive sock (MkSocket (report ++ rest) gs) = Package pkg s /\ inflight s = rest /\
      forall interval algorithm m fd now cl x b p q,
        reachable interval algorithm m -> worker_of_socket fd m = Some x -> wheap m !! x = Some b -> 0 <= current_query_id b ->
        running_query (current_query_id b) m = Some p -> qheap m !! p = Some q -> 0 <= q_socket_fd q ->
        exists m1 block sent later, handle_package fd now cl pkg m = Some (cl, m1) /\
          (forall y u, qheap m1 !! y = Some u -> query_id u <> query_id q) /\
          outbox m1 = later ++ (q_socket_fd q, sent) :: outbox m /\
          (send_returns (outbox m) (q_socket_fd q) block = Z.of_nat (length block) -> sent = block) /\
          forall (N' : Network) qfd h2 rest2 gs2 fuel retval,
            0 <= qfd -> receives h2 qfd = MkSocket (block ++ rest2) gs2 -> socket_live (MkSocket (block ++ rest2) gs2) ->
            exists got, receive_loop (S fuel) qfd retval h2 = Some ((0, [Ended msg]), got :: h2).
Proof.
  intros Hx Hd Hm Hv Ht. destruct (storage_error_forwarded c r qid msg h Hx Hd Hm Hv Ht) as (report & h' & E & Hc).
  exists report, h'. split; [exact E|]. intros CL CLS KN sock rest gs Hsock Hlive.
  destruct (Hc rest gs sock Hsock Hlive) as (pkg & s & Ep & Eop & Ei & Hr). exists pkg, s. do 2 (split; [done|]).
  intros interval algorithm m fd now cl x b p q Hm' Hx' Hb Hid Hp Hq Hfd.
  apply read_uint32_field in Hr as (p1 & E1 & Hr). apply read_string_field in Hr as (p2 & E2 & _).
  rewrite <- (package_receive_start _ _ _ _ Ep) in E1. assert (Hvm : valid_field (F_string msg)).
  { destruct Hv as [Hv _]. by apply Forall_inv_tail, Forall_inv in Hv. }
  destruct (error_told fd pkg msg p1 p2 (Some qid) x b p q m) as (m1 & block & sent & later & Eh & Eo & Hcar & Hs & Hgone);
    [by eapply reachable_wf|by eapply reachable_queries_ok|done..|].
  exists m1, block, sent, later. split; [|split; [exact Hgone|split; [exact Eo|split; [exact Hs|]]]].
  - unfold handle_package. rewrite Eop.
    repeat match goal with |- context [storage_op STORAGE_OP_ERROR =? ?v] =>
      let r := eval vm_compute in (storage_op STORAGE_OP_ERROR =? v) in change (storage_op STORAGE_OP_ERROR =? v) with r end.
    cbv beta iota zeta. unfold mbind, st_bind. by rewrite Eh.
  - intros N' qfd h2 rest2 gs2 fuel retval Hqfd Er Hlive2. apply (end_shown qfd (u32 (query_id q))); [done|].
    by exists block, rest2, gs2.
Qed.

(** ** The sample run of the Master: the worker on socket 4 runs query 0 of the Query Control on socket 9 *)

#[local] Existing Instance kernel_ok.

Example failure_told_witness :
  exists report h' pkg s m1 block later,
    perform (N := answering (storage_op STORAGE_OP_ERROR) sample_error) sample_conn (R_create "F" "T") [] =
      Some ((-1, None), Sent 8 report :: h') /\
    package_receive 4 (MkSocket (report ++ []) (replicate (length (report ++ [])) 1)) = Package pkg s /\
    handle_package 4 50 (MkClient false true) pkg sample_running = Some (MkClient false true, m1) /\
    outbox m1 = later ++ (9, block) :: outbox sample_running /\
    forall (N : Network) h2 gs2, receives h2 6 = MkSocket (block ++ []) gs2 -> socket_live (MkSocket (block ++ []) gs2) ->
      exists got, receive_loop 1 6 0 h2 = Some ((0, [Ended "E"]), got :: h2).
Proof.
  destruct (failure_told (N := answering (storage_op STORAGE_OP_ERROR) sample_error) sample_conn (R_create "F" "T") 3 "E" [])
    as (report & h' & E & H).
  - apply sample_exchange; [by left|apply storage_op_byte|apply sample_error_valid|vm_compute; lia].
  - reflexivity.
  - discriminate.
  - apply sample_error_valid.
  - reflexivity.
  - destruct (H _ _ kernel_ok 4 [] (replicate (length (report ++ [])) 1)) as (pkg & s & Ep & _ & Hm).
    + lia.
    + split; [by apply Forall_replicate|]. cbn. by rewrite length_replicate.
    + destruct (Hm 1000 "PRIORITY" sample_running 4 50 (MkClient false true) 1%positive sample_wcb 1%positive
        (sample_qcb 9 0 5 10 7 QUERY_STATE_RUNNING)) as (m1 & block & sent & later & Eh & _ & Eo & Hs & Hq).
      * apply sample_running_reachable.
      * vm_compute. reflexivity.
      * vm_compute. reflexivity.
      * cbn. lia.
      * vm_compute. reflexivity.
      * vm_compute. reflexivity.
      * cbn. lia.
      * exists report, h', pkg, s, m1, block, later. split; [exact E|]. split; [exact Ep|]. split; [exact Eh|].
        rewrite Hs in Eo by reflexivity. split; [exact Eo|]. intros N h2 gs2 Er Hl. exact (Hq N 6 h2 [] gs2 0%nat 0 ltac:(lia) Er Hl).
Defined.
